(* ===== verification/_CoqProject ===== *)
-Q . S2P
Prelude.v
TimeBase.v
Frame.v
WindowCalls.v
Icon.v
Displayable.v
Visit.v
SceneList.v
SceneListWF.v
SceneListInit.v
Contexts.v
Cleanup.v
ErrorReport.v
Interface.v
EventLoop.v
Suspend.v
Screenshot.v
Mouse.v
Renderer.v
InterfaceInit.v
DisplayInit.v
Interact.v
Examples.v
TreeExamples.v
InitExamples.v
InteractExamples.v
FrameExamples.v
BootExamples.v
DeviceExamples.v
