(* ===== verification/Prelude.v ===== *)
(** * A verification library for the Ren'Py display core (renpy/display/core.py)

    ** The program
    [src/renpy/display/core.py] is the interaction engine of the Ren'Py
    visual-novel runtime.  Its parts and how they interact:
    - the [Displayable] base class (lines 97-391): the capability every
      scene-graph node has ([_hide], [_show], [set_transform_event],
      [get_placement], ...) and the placement rule [Displayable.place]
      (lines 282-347);
    - the scene lists ([SceneListEntry], lines 395-436, and [SceneLists],
      lines 439-970): per layer, a z-ordered list of tagged entries with
      [add], [remove], [hide_or_replace], [clear], [remove_hidden],
      [replace_transient], [set_times], [remove_above] and the lookups,
      built fresh or as a copy of the previous context's lists
      ([__init__]) and migrated from older saves ([after_upgrade],
      [after_setstate]).  They call [_hide]/[_show] on the displayables
      they hold;
    - the [Interface] (lines 982-2395): one engine object holding the
      transition dicts, [timeout_time], [restart_interaction],
      [pushed_event] and the window flags, built by [__init__] (which
      also sets the video mode and picks the draw object), with the last
      drawn frame ([draw_screen]) and the screenshots taken of it.
      [interact] calls
      [interact_core] until it stops asking for a restart; [interact_core]
      snapshots the transitions, builds the scene from the scene lists and
      runs the redraw/event loop ([while rv is None:], lines 2074-2351),
      which latches the scene lists' times on its first draw, steps
      prediction while idle, arms the redraw and timeout timers,
      autosaves once, and hands each event to the focus handlers and the
      root widget.
    - the time base ([init_time], [get_time], lines 64-72), which every
      time the engine reads goes through.
    [src/renpy/display/error.py] decides whether an exception is shown
    on the [_exception] (or [_parse_errors]) screen and with which
    actions, and runs that screen in a new context on cleared layers
    under the quit action [renpy.exports.quit]; [init_display] builds
    the [Interface] when the global [renpy.game.interface] is unset.

    ** Layout of the development
    - [Prelude] (this file): the exception type [py_error], the error
      monad [result] with stdpp's [x ← m; k] notation, Python truthiness
      ([py_or] for [x or y], truthy tags), the string helpers
      [has_dollar] and [lifecycle_tag], Python's [list.insert]
      ([list_insert_at]), and the lemmas on [StronglySorted], sublists,
      permutations and monadic folds that the components share (hint
      database [renpy]).
    - [TimeBase]: [init_time] and [get_time] over the optional
      [time_base]; reading the clock right after setting it is a round
      trip to the wall time, and it raises before [init_time].
    - [Frame]: [draw_screen], the loop's [frame_time]/[interact_time]
      update, the foreground [take_screenshot], [get_screenshot],
      [lose_screenshot], [save_screenshot] and [drawn_since], with the
      renderer and image code as section variables: a screenshot asked
      for is the stored one or the encoding of the last frame drawn, and
      none exists before the first frame; a failing file write is
      swallowed unless [config.debug].
    - [WindowCalls]: [set_window_caption], [post_init], [show_window] and
      [compute_overlay] as the lists of calls they make outside core.py.
    - [Icon]: [set_icon]: the choice of [windows_icon] or [window_icon],
      the squaring of the loaded image with Python 2 floor division for
      the offsets, and the 32x32 scale on Windows, as the surface calls it
      makes; the image is pasted inside the square, centred to the pixel,
      and the icon handed to pygame is square.
    - [Displayable]: the capability as the typeclass [DisplayableOps]
      (what core.py calls on a displayable; its implementations live
      outside src/), [set_transform_event], and [place] in [Q].
    - [Visit]: [Displayable.visit_all] (children first, skipping [None]
      and false children; [interact_core] runs every [per_interact]
      through it) and [find_focusable] (focusable widgets first, with
      the inherited [focus_name]) over the class [VisitOps], with a fuel
      for the recursion depth: both terminate on a well-founded tree
      with a fuel after which more changes nothing, [visit_all] is a
      post-order walk of the widgets reachable through true children,
      [find_focusable] reports exactly the reachable focusable ones, each
      with its own [focus_name] when it has one, and the two agree up to
      order when no child is false.
    - [SceneList]: [SceneListEntry] as the record [sle], [SceneLists] as
      the record [scene_lists] of stdpp maps, one definition per method
      (all take the displayable capability as a class argument), and
      their functional theorems: [find_index] against a reference by
      [list_find], [remove] of an absent tag, [clear] with [hide],
      [replace_transient], [set_times], and the dynamic type of
      [hide_or_replace]'s [prefix] (a [bool] prefix is where [TypeError]
      comes from).
    - [SceneListWF]: the invariant of a layer ([layer_wf]: sorted by
      zorder; truthy tags pairwise distinct; lifecycle tags [p$t] of depth
      one; no [hide$t] beside a shown [t]) and its preservation by [add],
      [remove] and [remove_hidden] (a filter that never drops a shown
      entry); [add] then [get_displayable_by_tag] is a round trip.  The
      invariant is stable under permutation, so the proofs reason on
      permutations and sublists.
    - [SceneListInit]: [SceneLists.__init__] (both branches), and loading
      a save: the saved [__dict__] as a record whose attributes an older
      version may lack ([saved_sl]), [after_upgrade], [after_setstate]
      and [renpy.object.Object]'s [__getstate__]/[__setstate__].  Its
      theorems: a new [SceneLists] is keyed by exactly the configured
      layers, keeps the previous non-transient, non-overlay layers and
      empties the others; the copy raises exactly on inconsistent old
      lists or configuration; saving then loading is the identity; a
      save of any older version loads with every configured layer.
    - [Contexts]: the module functions [scene_lists(index)] and
      [displayable_by_tag] over the context stack, indexed as Python
      indexes a list ([py_index]: negative from the end, [IndexError]
      out of range).
    - [Cleanup]: [clear] and [replace_transient] with the state a raise
      leaves ([with_state]: the lists mutated in place up to the raise),
      for the [finally] blocks of [interact], [interact_core] and
      [with_none]; it agrees with [SceneList]'s model
      ([replace_transient_st_agrees]), and a raise leaves the transient
      layers before the failing one cleared and the others untouched
      ([replace_transient_partial]).
    - [ErrorReport]: error.py: [report_exception] and
      [report_parse_errors] (when a screen is shown, and its actions, a
      lookup that raises keeping the actions computed before it) and
      [call_exception_screen] (layers cleared with [Cleanup]'s [clear],
      the quit action swapped and restored in a [finally] block around
      a given interaction).
    - [Interface]: the engine record [interface], [set_transition],
      [timeout] (it only tightens a pending deadline; a deadline of [0]
      counts as none), the transition snapshot of [interact_core]
      ([start_transitions], a [map_fold] over the pending dict) and its
      deadlock guard, with their theorems.
    - [EventLoop]: the event queue ([event_peek], [event_poll],
      [event_wait] over an explicit list plus the push-back slot), the
      window bookkeeping ([restored], [iconified], [quit_event]), and the
      loop: one definition per stage of a pass ([mode_check], [redraw],
      [predict], [busy_redraw_check], [arm_timers], [autosave_check],
      [take_event], [handle_event] and its pieces, [dispatch],
      [after_event]) composed into [pass_prelude], [pass_body] and
      [pass], and [run_loop] over a list of per-pass environments.  What
      the loop does outside its state (drawing, a prediction step, an
      autosave, a callback, a dispatch) is appended to a trace of
      [action]s, so that theorems can speak about order.  The focus
      handlers, the root widget and [joystick.event] are section
      variables: every loop theorem holds for all of them.  Its theorems:
      the trace only grows and at most one autosave happens per
      interaction; a forced redraw precedes any dispatch; prediction
      never runs with input pending and runs to exhaustion when idle; an
      expired timeout is handed to the handlers in the same pass, with
      [timeout_time] already reset; a restart aborts
      before any event; the result is the first non-[None] handler
      answer; a second quit within 0.75 s raises.
    - [Suspend]: the pygame timers ([PERIODIC] from [__init__],
      [REDRAW], [TIMEEVENT]) as a record, [android_check_suspend] and
      the [set_timer] calls of the loop's redraw and of [arm_timers], as
      lists of calls: a suspend saves before it waits and re-arms only
      [PERIODIC], and since [arm_timers] re-arms a timer only when the
      time it wants differs from the one its locals remember, the
      [REDRAW] and [TIMEEVENT] timers stay stopped after a suspend.
    - [Screenshot]: the handoff between [take_screenshot(...,
      background=True)] in another thread and the screenshot block of
      [event_wait] in the main thread, one statement per step, the
      threads interleaved by a schedule ([sched_step]; [step] and its
      reflexive-transitive closure [rtc step] for reachability).  With
      one requester an invariant ([handoff_inv], by rule induction) gives
      that it reads a surface of a frame drawn after its request, and
      the main thread alone brings it to its wake-up; with two, a
      schedule makes one of them read [None].
    - [Mouse]: [get_mouse_info], the software cursor: the frame shown
      is the animation's frame at [ticks mod len], and the animation
      cycles with the ticks.
    - [Renderer]: [get_draw_constructors] and the fallback loop of
      [set_mode]: the draw objects are the known importable renderers in
      order with software last, and [set_mode] keeps the first that
      works.
    - [InterfaceInit]: [Interface.__init__]: the engine fields, the layer
      properties from [config.layer_clipping], the version check, the
      clock, both safe-mode checks around [set_mode] (composed with
      [Renderer.set_mode_draw] and [EventLoop.set_mode_flags]), the frame
      and handoff records; it raises exactly on an old pygame or when no
      draw object sets the mode, and the draw object is chosen with the
      first safe-mode check only.
    - [DisplayInit]: error.py's [init_display] over the global
      [renpy.game.interface], composed with [InterfaceInit] and
      [ErrorReport]: an [Interface] whose video mode failed stays
      registered, so a second [init_display] returns normally without a
      draw object.
    - [Interact]: the layout widgets and transitions as the typeclass
      [WidgetOps] (they live outside src/); [make_layer] with the
      layer's property dict and [compute_scene], which reads the
      [layer_properties] [InterfaceInit] computed (a section variable of
      the composition and of the interaction), and the composition of the root widget
      ([add_layer], [root_transition], [compose]); the [engine] record
      (interface, scene lists, context, queue); [interact_core] from the
      transition snapshot to its [finally] block ([core_finally],
      [core_end]), the restart loop [core_loop], and [interact] with its
      reentrancy guard and [finally] block ([interact_end]); [with_none]
      and [do_with], which start a transition from the scene shown.  Its
      theorems: a returning interaction has cleaned up; a raising one
      has, unless [replace_transient] raised in the [finally] block;
      every layer is shown through its ongoing transition as
      [add_layer] means; [old_scene] is the composed scene; setup errors
      skip [interact_core]'s [finally] block; [with None] then [with t]
      runs [t] from the scene [with_none] computed; the scene of an
      interface [__init__] built clips exactly the layers
      [layer_clipping] names, and a layer configured after it makes
      [compute_scene] raise; when [replace_transient] raises in the
      [finally] block of [interact], its exception replaces the
      interaction's value and the transitions stay ongoing.
    - [Examples], [TreeExamples], [InitExamples], [InteractExamples],
      [FrameExamples], [BootExamples] and [DeviceExamples]: concrete displayables (one with an animation,
      one with the base class's methods), widget types, scene lists,
      saves, renderers and start-up environments, engine records, loop
      states and interactions, an icon and a suspended pass, and the witness of every theorem that has
      hypotheses, evaluated by [vm_compute] or [reflexivity].

    ** Modelling choices, bounds and fuel
    Times are Python floats in seconds in the source; they are modelled as
    [Z] milliseconds ([.25] s is [250], [.75] s is [750], [3600] s is
    [3600000]), so no rounding is modelled; Python's [x or y] and
    [if t:] treat [0] as false, as the code does ([py_or], [time_truthy]).
    Fractions of the placement rule are in [Q].  The clock, the events that
    arrive, the renderer's pacing decision and the redraw requests are
    read from one [pass_env] per pass; [run_loop] consumes one environment
    per pass and stops with [LoopPending] when they run out, so no fuel
    bounds the loop beyond the passes the caller supplies.  The
    prediction coroutine is the number of work units it has left;
    [predict_go] recurses on it, and the theorem [predict_idle_exhausts]
    shows it finishes within the pass when nothing interrupts it.  The
    walks of the widget tree take a fuel standing for Python's
    recursion limit, and [traversals_terminate] shows that a finite
    depth suffices on any tree without an infinite descending path.  A
    blocking [pygame.event.wait()] on an empty queue takes
    [pe_wait_arrival]; when that is [None] the pass ends [Blocked].
    [interact] takes one [core_input] (start time, prediction units,
    environments) per call of [interact_core] and ends [IRunning] when
    they run out.  Threads are interleaved statement by statement
    ([Screenshot]); the Python [threading.Event] is a flag whose [wait]
    blocks until it is set.  A statement that raises in a [finally] block ends
    it, with the state mutated up to the raise ([Cleanup]).  Elsewhere a
    [SceneLists] method that raises is all or nothing in the model: it
    leaves the lists as they were before the call, where Python keeps
    what the method changed before the raise (e.g. the layers
    [remove_hidden] swept before the one that raised); no theorem speaks
    of the lists after such a raise.  A [SceneLists] method reads the
    clock once per call ([now]), where [hide_or_replace] calls
    [get_time()] for each entry it hides, and [interact_core] passes its
    start time to [remove_hidden]; the differences are the few
    milliseconds a call takes.  [transform_state] applies
    [take_state] through [d_take_state] on the new thing, whose
    [_get_parameterized()] is the transform that takes the state: the
    mutation is seen on the object returned.  The event handlers of the
    loop are functions of the event and cannot change the interface
    ([EventLoop]); the mode check's [set_mode] is taken to succeed.

    ** Not modelled
    Rendering ([render], the draw object's [draw_screen], the renderers
    of [get_draw_constructors]), the pixels and encoding of screenshots,
    the pixels of the window icon (its geometry is modelled), [iconify]
    (one [pygame.display.iconify()] call), the texture caches
    ([kill_textures], [kill_textures_and_surfaces]: calls into the
    renderer and image modules) and the pygame, audio, font and joystick
    initialisation of [Interface.__init__] are pygame and renderer I/O;
    their results are section variables or inputs ([init_env]).  The
    [SceneLists] attributes [drag_group] and [music], which core.py only
    assigns, [focused], read only by the focus code, and [showing],
    which only asks [ShownImageInfo] outside src/, are left out; the
    [cpu_idle] event is set and cleared around [pygame.event.wait] for
    other threads and is not modelled.  The widgets the composition builds are abstract
    ([WidgetOps]): [MultiBox], transitions and behaviours live outside
    src/.  [remove] is taken to raise before it mutates (it raises on a
    missing layer; its [self.at_list[layer]] after [predict_hide] exists
    on every layer the lists were built with).  The interaction
    callbacks, image caches and audio are calls into modules outside
    src/; [show_window] and [compute_overlay] are modelled by the calls
    they make ([WindowCalls]) but enter [Interact] as effects only.  In
    [error.py], [rollback_action], [show_screen],
    [invoke_in_new_context], the screen's interaction and the steps of
    [init_display] after [Interface()] are calls into [renpy.exports],
    [renpy.game], [renpy.style], [renpy.loader] and [renpy.ui]: their
    results are inputs of the model.  [renpy.object.Object], whose
    [__getstate__]/[__setstate__] drive the upgrade of a save, is not
    under src/ and is modelled from its documented behaviour, as are
    [renpy.game.context(index)] ([contexts[index]]) and the save slots
    [renpy.loadsave] writes.  The Android suspend check is modelled by
    its calls ([Suspend]) and composed with [arm_timers], not inserted
    into [pass_prelude]; the Android key mapping of [__init__],
    profiling, the audio event hook, skipping and the inspector are
    platform or debugging hooks of the loop and are left out; the model
    takes no decision on them.  Imports, the module docstrings and the
    [IgnoreEvent] and [absolute] class headers carry no behaviour of
    their own beyond what [EventLoop] ([HIgnore]) and [Displayable]
    ([coord]) model. *)

From stdpp Require Export base list strings gmap sorting.
From Stdlib Require Export ZArith Ascii.

Declare Scope renpy_scope.
Delimit Scope renpy_scope with renpy.
Open Scope Z_scope.

Create HintDb renpy discriminated.

(** ** Exceptions raised by the modelled code *)

Inductive py_error :=
  | InvalidLayer (layer : string)   (** [raise Exception("... non-existent layer ...")] *)
  | UnknownLayer (layer : string)   (** [raise Exception("Unknown layer %r.")] *)
  | KeyError (key : string)         (** a dict lookup on a missing key *)
  | IndexError                      (** a list index out of range *)
  | TypeError                       (** e.g. [True + "$"] or [now - None] *)
  | AttributeError                  (** e.g. [w.layers] on a widget that has none *)
  | ZeroDivisionError               (** [x % 0] *)
  | ReentrantInteraction            (** "Cannot start an interaction in the middle ..." *)
  | TransitionNotDisplayable        (** "Expected transition to be a displayable" *)
  | QuitException                   (** [renpy.game.QuitException] *)
  | VideoModeError                  (** "Could not set video mode." *)
  | PygameTooOld.                   (** "Ren'Py requires pygame 1.8.1 to run." *)

(** ** The error monad *)

Inductive result (A : Type) :=
  | Ok (a : A)
  | Err (e : py_error).
Arguments Ok {A} a.
Arguments Err {A} e.

#[export] Instance result_ret : MRet result := λ A a, Ok a.
#[export] Instance result_bind : MBind result :=
  λ A B f m, match m with Ok a => f a | Err e => Err e end.

Notation "'raise' e" := (Err e) (at level 10) : renpy_scope.
Open Scope renpy_scope.

Lemma bind_Ok {A B} (m : result A) (f : A → result B) (b : B) :
  (x ← m; f x) = Ok b ↔ ∃ a, m = Ok a ∧ f a = Ok b.
Proof. destruct m; simpl; split; naive_solver. Qed.

Lemma bind_Err {A B} (m : result A) (f : A → result B) e :
  (x ← m; f x) = Err e ↔ m = Err e ∨ ∃ a, m = Ok a ∧ f a = Err e.
Proof. destruct m; simpl; split; naive_solver. Qed.

(** Destructs [Ok]-binds in hypotheses, the common first step of the
    proofs about monadic code. *)
Ltac inv_ok :=
  repeat match goal with
  | H : mbind _ _ = Ok _ |- _ =>
      apply bind_Ok in H; destruct H as (? & ? & ?)
  | H : Ok _ = Ok _ |- _ => injection H as H
  | H : Err _ = Ok _ |- _ => discriminate H
  end.

(** ** Python truthiness *)

(** [x or y] for an optional float timestamp [x]: [None] and [0.0] are
    false. *)
Definition py_or (x : option Z) (y : Z) : Z :=
  match x with
  | Some v => if decide (v = 0) then y else v
  | None => y
  end.
Notation "x ?: y" := (py_or x y) (at level 50) : renpy_scope.

(** A tag is truthy when it is a non-empty string: [if sle.tag:]. *)
Definition truthy_tag (t : option string) : option string :=
  match t with
  | Some s => if decide (s = "") then None else Some s
  | None => None
  end.

Definition tag_truthy (t : option string) : bool := bool_decide (is_Some (truthy_tag t)).

(** ["$" in s] *)
Fixpoint has_dollar (s : string) : bool :=
  match s with
  | EmptyString => false
  | String c s' => if decide (c = "$"%char) then true else has_dollar s'
  end.

(** The tag [prefix + "$" + tag] that [hide_or_replace] gives an entry
    that keeps animating after it was hidden or replaced. *)
Definition lifecycle_tag (prefix tag : string) : string := prefix +:+ "$" +:+ tag.

(** Python's [l.insert(i, x)] for [i >= 0]: an index past the end appends. *)
Definition list_insert_at {A} (i : nat) (x : A) (l : list A) : list A :=
  take i l ++ x :: drop i l.

(** [d[k]] on a dict that may miss [k]. *)
Definition lookup_or {K A} `{Countable K} (err : py_error) (k : K) (m : gmap K A) : result A :=
  match m !! k with Some a => Ok a | None => Err err end.

(** [l[i]] on a list. *)
Definition nth_or {A} (l : list A) (i : nat) : result A :=
  match l !! i with Some a => Ok a | None => Err IndexError end.

(** The truth value of an optional string, e.g. [if not rv:] on
    [self.screenshot] or [self.focus_name or focus_name]: [None] and the
    empty string are false. *)
Definition str_truthy (o : option string) : bool :=
  match o with Some s => negb (bool_decide (s = "")) | None => false end.

(** [l[i]] with a Python integer index: a negative one counts from the
    end; out of range raises [IndexError]. *)
Definition py_index {A} (l : list A) (i : Z) : result A :=
  let j := if decide (i < 0) then i + Z.of_nat (length l) else i in
  if decide (0 ≤ j) then nth_or l (Z.to_nat j) else Err IndexError.

(** [self.x] on an attribute the object may not have. *)
Definition attr {A} (o : option A) : result A :=
  match o with Some a => Ok a | None => raise AttributeError end.

(** A [for] loop over a list whose body may raise. *)
Fixpoint foldlM {A B} (f : A → B → result A) (a : A) (l : list B) : result A :=
  match l with
  | [] => Ok a
  | b :: l' => a' ← f a b; foldlM f a' l'
  end.

(** A [for] loop that rebuilds every value of a dict, any of which may
    raise. *)
Definition gmap_mapM {K A B} `{Countable K} (f : A → result B) (m : gmap K A)
    : result (gmap K B) :=
  map_fold (λ k a acc, acc' ← acc; b ← f a; Ok (<[k:=b]> acc')) (Ok ∅) m.

(** ** Generic lemmas *)

Section sorted_on.
Context {A : Type} (key : A → Z).

(** Sorted by non-decreasing [key]. *)
Definition sorted_on (l : list A) : Prop :=
  StronglySorted (λ a b, key a ≤ key b) l.

#[global] Instance sorted_on_dec l : Decision (sorted_on l).
Proof. unfold sorted_on. apply _. Defined.

Lemma sorted_on_sublist l1 l2 :
  l1 `sublist_of` l2 → sorted_on l2 → sorted_on l1.
Proof.
  unfold sorted_on. induction 1 as [|x l1 l2 ? IH|x l1 l2 ? IH];
    rewrite ?StronglySorted_cons; [done| |naive_solver].
  intros [Hx ?]. split; [|naive_solver].
  apply Forall_forall. intros y Hy. rewrite Forall_forall in Hx.
  eauto using elem_of_submseteq, sublist_submseteq.
Qed.

Lemma sorted_on_delete i l : sorted_on l → sorted_on (delete i l).
Proof. apply sorted_on_sublist, sublist_delete. Qed.

Lemma sorted_on_filter (P : A → Prop) `{∀ x, Decision (P x)} l :
  sorted_on l → sorted_on (filter P l).
Proof. apply sorted_on_sublist, sublist_filter. Qed.

(** Inserting [x] between a prefix of keys at most [key x] and a
    suffix of keys at least [key x] keeps the list sorted. *)
Lemma sorted_on_insert_at i x l :
  sorted_on l →
  (∀ y, y ∈ take i l → key y ≤ key x) →
  (∀ y, y ∈ drop i l → key x ≤ key y) →
  sorted_on (list_insert_at i x l).
Proof.
  unfold sorted_on, list_insert_at. intros Hs Hl Hr.
  rewrite <-(take_drop i l) in Hs. apply StronglySorted_app in Hs as (Hlr & ? & ?).
  apply StronglySorted_app_2; [|done|].
  - intros y z Hy [->|Hz]%elem_of_cons; [by apply Hl|].
    by apply Hlr.
  - apply StronglySorted_cons. split; [|done]. apply Forall_forall. auto.
Qed.

(** Replacing an element by one with the same key keeps the order. *)
Lemma sorted_on_insert_same_key i x y l :
  l !! i = Some y → key x = key y → sorted_on l → sorted_on (<[i:=x]> l).
Proof.
  unfold sorted_on. intros Hi Hk Hs.
  rewrite insert_take_drop by eauto using lookup_lt_Some.
  rewrite <-(take_drop_middle l i y Hi) in Hs.
  apply StronglySorted_app in Hs as (Hlr & ? & Hr).
  apply StronglySorted_cons in Hr as [Hy ?].
  apply StronglySorted_app_2; [|done|].
  - intros a b Ha [->|Hb]%elem_of_cons; rewrite ?Hk; apply Hlr; set_solver.
  - apply StronglySorted_cons. split; [|done].
    rewrite Hk. done.
Qed.
End sorted_on.

#[export] Hint Resolve sorted_on_delete sorted_on_filter : renpy.

(** Lifecycle tags contain a dollar; distinct prefixes give distinct tags. *)
Lemma has_dollar_app s1 s2 :
  has_dollar (s1 +:+ s2) = has_dollar s1 || has_dollar s2.
Proof. induction s1 as [|c s1 IH]; simpl; [done|]. case_decide; auto. Qed.

Lemma lifecycle_tag_has_dollar p t : has_dollar (lifecycle_tag p t) = true.
Proof.
  unfold lifecycle_tag. rewrite !has_dollar_app. simpl. by rewrite orb_true_r.
Qed.

Lemma lifecycle_tag_inj p t1 t2 : lifecycle_tag p t1 = lifecycle_tag p t2 → t1 = t2.
Proof. unfold lifecycle_tag. intros H. by do 2 apply (inj (String.append _)) in H. Qed.

Lemma lifecycle_tag_ne_self p t : has_dollar t = false → lifecycle_tag p t ≠ t.
Proof. intros Ht Heq. rewrite <-Heq, lifecycle_tag_has_dollar in Ht. discriminate. Qed.

Lemma hide_replaced_tag_ne t1 t2 : lifecycle_tag "hide" t1 ≠ lifecycle_tag "replaced" t2.
Proof. discriminate. Qed.

#[export] Hint Resolve lifecycle_tag_has_dollar hide_replaced_tag_ne : renpy.

Lemma gmap_mapM_Ok {K A B} `{Countable K} (f : A → result B) (m : gmap K A) m' :
  gmap_mapM f m = Ok m' →
  ∀ k, match m !! k with
       | None => m' !! k = None
       | Some a => ∃ b, f a = Ok b ∧ m' !! k = Some b
       end.
Proof.
  unfold gmap_mapM. revert m'.
  apply (map_fold_weak_ind (λ r m, ∀ m', r = Ok m' → ∀ k,
    match m !! k with
    | None => m' !! k = None
    | Some a => ∃ b, f a = Ok b ∧ m' !! k = Some b
    end)).
  - intros m' [= <-] k. by rewrite !lookup_empty.
  - intros i x m0 r Hi IH m' Hr k. simpl in Hr. inv_ok. subst.
    destruct (decide (k = i)) as [->|Hne].
    + rewrite !lookup_insert_eq. eauto.
    + rewrite !lookup_insert_ne by done. by apply IH.
Qed.

Lemma gmap_mapM_Ok_intro {K A B} `{Countable K} (f : A → result B) (m : gmap K A) :
  (∀ k a, m !! k = Some a → ∃ b, f a = Ok b) → ∃ m', gmap_mapM f m = Ok m'.
Proof.
  unfold gmap_mapM.
  apply (map_fold_weak_ind (λ r m, (∀ k a, m !! k = Some a → ∃ b, f a = Ok b) → ∃ m', r = Ok m')).
  - eauto.
  - intros i x m0 r Hi IH Hall.
    destruct IH as [m' ->].
    { intros k a Hk. apply (Hall k). rewrite lookup_insert_ne; [done|congruence]. }
    destruct (Hall i x) as [b Hb]; [by rewrite lookup_insert_eq|].
    simpl. rewrite Hb. eauto.
Qed.

Lemma foldlM_Ok_inv {A B} (P : A → Prop) (f : A → B → result A) a l a' :
  P a → (∀ x b x', b ∈ l → P x → f x b = Ok x' → P x') →
  foldlM f a l = Ok a' → P a'.
Proof.
  revert a. induction l as [|b l IH]; simpl; intros a Ha Hf Hrun; inv_ok; subst; [done|].
  apply (IH x); [eapply Hf; eauto; set_solver|intros; eapply Hf; eauto; set_solver|done].
Qed.

(** A loop that returns ran every iteration to completion. *)
Lemma foldlM_Ok_each {A B} (f : A → B → result A) a l a' :
  foldlM f a l = Ok a' → ∀ b, b ∈ l → ∃ x x', f x b = Ok x'.
Proof.
  revert a. induction l as [|b l IH]; simpl; intros a Hrun c Hc; [set_solver|].
  inv_ok. apply elem_of_cons in Hc as [->|Hc]; eauto.
Qed.

(** A loop returns when each iteration does, from every state of an
    invariant. *)
Lemma foldlM_Ok_intro {A B} (P : A → Prop) (f : A → B → result A) a l :
  P a → (∀ x b, b ∈ l → P x → ∃ x', f x b = Ok x' ∧ P x') →
  ∃ a', foldlM f a l = Ok a' ∧ P a'.
Proof.
  revert a. induction l as [|b l IH]; simpl; intros a Ha Hf; [eauto|].
  destruct (Hf a b) as (x' & -> & Hx'); [set_solver|done|]. simpl.
  apply IH; [done|]. intros; apply Hf; [set_solver|done].
Qed.

(** A dict filled by a loop of assignments [m[k] = f(k)]. *)
Lemma lookup_or_Ok {K A} `{Countable K} err (k : K) (m : gmap K A) a :
  lookup_or err k m = Ok a ↔ m !! k = Some a.
Proof. unfold lookup_or. destruct (m !! k); naive_solver. Qed.

(** [l[i]] returns the element [i] counts to, from the start or, when
    negative, from the end; it raises [IndexError] exactly out of
    [-len(l) <= i < len(l)]. *)
Lemma py_index_spec {A} (l : list A) (i : Z) :
  (∀ x, py_index l i = Ok x ↔
     (0 ≤ i ∧ l !! Z.to_nat i = Some x) ∨
     (i < 0 ∧ 0 ≤ i + Z.of_nat (length l) ∧ l !! Z.to_nat (i + Z.of_nat (length l)) = Some x)) ∧
  (∀ e, py_index l i = Err e ↔ e = IndexError ∧ ¬ (- Z.of_nat (length l) ≤ i < Z.of_nat (length l))).
Proof.
  unfold py_index, nth_or.
  destruct (decide (i < 0)); (destruct (decide (0 ≤ _)) as [Hj|Hj];
    [destruct (l !! _) eqn:Hl; [apply lookup_lt_Some in Hl|apply lookup_ge_None in Hl]|]);
    split; intros; split; intros; naive_solver lia.
Qed.

Lemma str_truthy_Some s : s ≠ "" → str_truthy (Some s) = true.
Proof. intros Hs. simpl. by rewrite bool_decide_false. Qed.

Lemma foldl_insert_lookup {K A} `{Countable K} (f : K → A) (ls : list K) (m : gmap K A) k :
  foldl (λ m i, <[i:=f i]> m) m ls !! k = if decide (k ∈ ls) then Some (f k) else m !! k.
Proof.
  revert m. induction ls as [|i ls IH]; intros m.
  - destruct (decide (k ∈ [])); set_solver.
  - simpl. rewrite IH. repeat case_decide; try set_solver.
    + assert (k = i) as -> by set_solver. by rewrite lookup_insert_eq.
    + rewrite lookup_insert_ne; set_solver.
Qed.

(** A loop whose every iteration leaves the state as it is. *)
Lemma foldlM_fixed {A B} (f : A → B → result A) a l :
  (∀ b, b ∈ l → f a b = Ok a) → foldlM f a l = Ok a.
Proof.
  induction l as [|b l IH]; simpl; intros Hf; [done|].
  rewrite Hf by set_solver. simpl. apply IH. set_solver.
Qed.

(** [mapM] and [gmap_mapM] over values that convert without raising. *)
Lemma mapM_Ok_fmap {A B} (f : A → result B) (h : A → B) l :
  (∀ a, a ∈ l → f a = Ok (h a)) → mapM f l = Ok (h <$> l).
Proof.
  induction l as [|a l IH]; intros Hf; [done|]. rewrite fmap_cons. cbn [mapM].
  rewrite Hf, IH by set_solver. done.
Qed.

Lemma gmap_mapM_Ok_fmap {K A B} `{Countable K} (f : A → result B) (h : A → B) (m : gmap K A) :
  (∀ k a, m !! k = Some a → f a = Ok (h a)) → gmap_mapM f m = Ok (h <$> m).
Proof.
  intros Hf. destruct (gmap_mapM_Ok_intro f m) as [m' Hm']; [eauto|].
  rewrite Hm'. f_equal. apply map_eq. intros k. pose proof (gmap_mapM_Ok _ _ _ Hm' k) as Hk.
  rewrite lookup_fmap. destruct (m !! k) as [a|] eqn:Ha; simpl in *; [|done].
  destruct Hk as (c & Hc & ->). rewrite (Hf k a Ha) in Hc. by injection Hc as ->.
Qed.

Lemma list_insert_at_Permutation {A} i (x : A) l : list_insert_at i x l ≡ₚ x :: l.
Proof.
  unfold list_insert_at. rewrite <-Permutation_middle. by rewrite take_drop.
Qed.

Lemma list_insert_at_length {A} i (x : A) l : length (list_insert_at i x l) = S (length l).
Proof. by rewrite list_insert_at_Permutation. Qed.

(** The element at [r] moves to [r + 1] when the insertion is at or
    before it (the shift in [add], lines 727-729). *)
Lemma list_insert_at_lookup_shift {A} i r (x y : A) l :
  (i ≤ length l)%nat → l !! r = Some y →
  list_insert_at i x l !! (if decide (i ≤ r)%nat then S r else r) = Some y.
Proof.
  unfold list_insert_at. intros Hi Hr. pose proof (lookup_lt_Some _ _ _ Hr).
  case_decide.
  - rewrite lookup_app_r; rewrite length_take; [|lia].
    replace (S r - i `min` length l)%nat with (S (r - i)) by lia. simpl.
    rewrite lookup_drop. by replace (i + (r - i))%nat with r by lia.
  - rewrite lookup_app_l; [|rewrite length_take; lia]. by rewrite lookup_take_lt by lia.
Qed.

Lemma list_insert_at_lookup_new {A} i (x : A) l :
  (i ≤ length l)%nat → list_insert_at i x l !! i = Some x.
Proof.
  unfold list_insert_at. intros Hi.
  rewrite lookup_app_r; rewrite length_take; [|lia].
  by replace (i - i `min` length l)%nat with O by lia.
Qed.

Lemma omap_sublist {A B} (f : A → option B) l1 l2 :
  l1 `sublist_of` l2 → omap f l1 `sublist_of` omap f l2.
Proof.
  induction 1 as [|x l1 l2 ? IH|x l1 l2 ? IH]; simpl; [done| |];
    destruct (f x); try constructor; done.
Qed.

#[export] Hint Resolve list_insert_at_Permutation omap_sublist : renpy.

Lemma insert_delete_Permutation {A} (l : list A) i x y :
  l !! i = Some y → <[i:=x]> l ≡ₚ x :: delete i l.
Proof.
  intros Hi. rewrite insert_take_drop by eauto using lookup_lt_Some.
  rewrite delete_take_drop. by rewrite <-Permutation_middle.
Qed.

Lemma sorted_on_lookup {A} (key : A → Z) l i j a b :
  sorted_on key l → (i ≤ j)%nat → l !! i = Some a → l !! j = Some b → key a ≤ key b.
Proof.
  intros Hs Hij Ha Hb. destruct (decide (i = j)) as [->|Hne]; [simplify_eq; lia|].
  rewrite <-(take_drop (S i) l) in Hs.
  eapply (StronglySorted_app_1_elem_of (λ a b, key a ≤ key b)); [exact Hs| |].
  - apply list_elem_of_lookup. exists i. rewrite lookup_take_lt; [done|lia].
  - apply list_elem_of_lookup. exists (j - S i)%nat. rewrite lookup_drop.
    by replace (S i + (j - S i))%nat with j by lia.
Qed.
