(* ===== verification/TimeBase.v ===== *)
(** * The time base (core.py, lines 64-72)

    [get_time()] is [time_base + pygame.time.get_ticks() / 1000.0], and
    [init_time()] sets [time_base] so that [get_time()] reads the wall
    clock at that moment.  Before [init_time], [time_base] is [None] and
    [get_time()] raises [TypeError].  Times are milliseconds ([Z]), the
    unit of [get_ticks()], so the division by [1000.0] is the change of
    unit and no rounding is modelled.

    Theorems: [get_time] right after [init_time] is the wall clock, and
    later it is the wall clock plus the ticks elapsed since (a round
    trip); it never goes backwards; it raises exactly while the base is
    unset. *)

From S2P Require Import Prelude.

(** The module global [time_base] (line 65): [None] until [init_time]. *)
Definition time_base := option Z.

(** [init_time()] (lines 67-69) at wall time [wall] and pygame tick count [ticks]. *)
Definition init_time (wall ticks : Z) : time_base := Some (wall - ticks).

(** [get_time()] (lines 71-72) at pygame tick count [ticks]. *)
Definition get_time (tb : time_base) (ticks : Z) : result Z :=
  match tb with
  | Some b => Ok (b + ticks)
  | None => raise TypeError
  end.

(** [init_time] then [get_time] is a round trip to the wall clock:
    read at the same tick count it gives back the wall time [init_time]
    saw, and [d] ticks later that time plus [d]; [get_time] never goes
    backwards as the ticks grow, and it raises [TypeError] exactly when
    [init_time] has not run. *)
Theorem get_time_roundtrip wall t0 d :
  get_time (init_time wall t0) t0 = Ok wall ∧
  get_time (init_time wall t0) (t0 + d) = Ok (wall + d) ∧
  (∀ tb t1 t2 v1 v2, t1 ≤ t2 → get_time tb t1 = Ok v1 → get_time tb t2 = Ok v2 → v1 ≤ v2) ∧
  (∀ tb t, get_time tb t = Err TypeError ↔ tb = None).
Proof.
  unfold get_time, init_time. split_and!.
  - f_equal. lia.
  - f_equal. lia.
  - intros [b|] t1 t2 v1 v2 Hle; [intros [= <-] [= <-]; lia|done].
  - intros [b|] t; split; done.
Qed.
