(* ===== verification/Frame.v ===== *)
(** * The drawn frame and the foreground screenshots (core.py, lines
      1383-1471, 1702-1708 and 2099-2104)

    [draw_screen] renders the root widget into a surface tree, hands it
    to the draw object and keeps it as [self.surftree] with the
    [fullscreen_video] flag; [take_screenshot(scale)] (the foreground
    branch) asks the draw object for the pixels of that tree and stores
    their PNG encoding in [self.screenshot]; [get_screenshot] returns the
    stored screenshot, or takes a thumbnail-sized one and forgets it
    again; [save_screenshot] writes a full-size one to a file;
    [drawn_since] compares [get_time()] with the [frame_time] the loop
    records before each draw.

    The renderer and the image code are parameters of the section:
    [render_screen] (with [config.screen_width] and [screen_height]
    fixed), [draw_shot] ([renpy.display.draw.screenshot]), [encode] (the
    [copy_surface], [smoothscale], [convert] and [save_png] pipeline),
    [subsurface] and [save_image] ([image_save_unscaled]); each of the
    fallible ones returns a [result].  [self.surftree] and
    [self.fullscreen_video] are options: [__init__] does not set them, so
    before the first [draw_screen] reading them raises [AttributeError].

    Theorems: a screenshot taken and then asked for is returned as it
    was taken, and stays; without one, [get_screenshot] returns the
    encoding of the last frame drawn and leaves none behind, and raises
    [AttributeError] before the first frame; [save_screenshot] raises a
    failure of the file write exactly when [config.debug] is set;
    [drawn_since] after a frame at tick [t1] asks whether at most the
    given time has passed since [t1]. *)

From stdpp Require Import base list strings.
From S2P Require Import Prelude TimeBase.

(** The [Interface] attributes of the drawn frame and the screenshot. *)
Record frame_state {Surf : Type} := mk_frame {
  fs_surftree : option Surf;            (** [self.surftree], set by [draw_screen] *)
  fs_fullscreen_video : option bool;    (** [self.fullscreen_video], likewise *)
  fs_screenshot : option string;        (** [self.screenshot] (line 1034: [None]) *)
  fs_frame_time : Z;                    (** [self.frame_time] (line 1056: [0]) *)
  fs_interact_time : option Z           (** [self.interact_time] (line 1059: [None]) *)
}.
Arguments frame_state : clear implicits.
Arguments mk_frame {Surf}.

Section frame.
Context {Root Surf Win : Type}.
Variable render_screen : Root → Surf.
Variable draw_shot : Surf → bool → result Win.
Variable encode : Win → Z * Z → result string.
Variable subsurface : Win → Z * Z * Z * Z → result Win.
Variable save_image : Win → string → result unit.
Implicit Types (st : frame_state Surf).

(** The attributes [Interface.__init__] sets (lines 1034, 1056, 1059). *)
Definition frame_init : frame_state Surf := mk_frame None None None 0 None.

(** [Interface.draw_screen(root_widget, fullscreen_video)] (lines
    1383-1397): the draw object's [draw_screen], [mark_sweep] and
    [take_focuses] are renderer and focus effects. *)
Definition draw_screen st (root : Root) (fullscreen_video : bool) : frame_state Surf :=
  mk_frame (Some (render_screen root)) (Some fullscreen_video) (fs_screenshot st)
    (fs_frame_time st) (fs_interact_time st).

(** The redraw of the loop (lines 2099-2104): [frame_time] is
    [get_time()], [interact_time] is set on the first frame of the
    interaction, then [draw_screen]. *)
Definition redraw_frame (tb : time_base) (ticks : Z) st (root : Root) (fullscreen_video : bool)
    : result (frame_state Surf) :=
  now ← get_time tb ticks;
  let it := match fs_interact_time st with Some t => if decide (t = 0) then Some now else Some t
                                          | None => Some now end in
  Ok (draw_screen (mk_frame (fs_surftree st) (fs_fullscreen_video st) (fs_screenshot st) now it)
        root fullscreen_video).

(** [self.screenshot = ...] and [lose_screenshot] (lines 1466-1471). *)
Definition set_screenshot st (s : option string) : frame_state Surf :=
  mk_frame (fs_surftree st) (fs_fullscreen_video st) s (fs_frame_time st) (fs_interact_time st).

Definition lose_screenshot st : frame_state Surf := set_screenshot st None.

(** [take_screenshot(scale)], the foreground branch (lines 1400-1429):
    the pixels of [self.surftree], scaled and encoded. *)
Definition take_screenshot st (scale : Z * Z) : result (frame_state Surf) :=
  tree ← attr (fs_surftree st);
  fv ← attr (fs_fullscreen_video st);
  window ← draw_shot tree fv;
  png ← encode window scale;
  Ok (set_screenshot st (Some png)).

(** [get_screenshot()] (lines 1450-1464), with the thumbnail size of the
    configuration. *)
Definition get_screenshot st (thumbnail : Z * Z) : result (option string * frame_state Surf) :=
  let rv := fs_screenshot st in
  if str_truthy rv then Ok (rv, st)
  else st' ← take_screenshot st thumbnail;
       Ok (fs_screenshot st', lose_screenshot st').

(** [save_screenshot(filename)] (lines 1432-1447): a failure of the
    write is swallowed unless [config.debug]. *)
Definition save_screenshot st (crop : option (Z * Z * Z * Z)) (debug : bool) (filename : string)
    : result unit :=
  tree ← attr (fs_surftree st);
  fv ← attr (fs_fullscreen_video st);
  window ← draw_shot tree fv;
  window' ← (match crop with Some c => subsurface window c | None => Ok window end);
  match save_image window' filename with
  | Ok _ => Ok ()
  | Err e => if debug then Err e else Ok ()
  end.

(** [drawn_since(seconds_ago)] (lines 1702-1708), in the unit of
    [get_time]. *)
Definition drawn_since (tb : time_base) (ticks : Z) st (ago : Z) : result bool :=
  now ← get_time tb ticks; Ok (bool_decide (now - fs_frame_time st ≤ ago)).
(** ** Properties *)

(** C18: [get_screenshot] returns a stored screenshot as it is and keeps
    it; without one, after [draw_screen] it returns the encoding at the
    thumbnail size of the pixels of the frame just drawn, raises what
    the draw object or the encoder raises, and leaves no screenshot
    behind; before the first frame it raises [AttributeError], since
    only [draw_screen] sets [self.surftree]. *)
Theorem get_screenshot_spec st root fv thumb :
  (∀ s, fs_screenshot st = Some s → s ≠ "" → get_screenshot st thumb = Ok (Some s, st)) ∧
  (str_truthy (fs_screenshot st) = false →
   get_screenshot (draw_screen st root fv) thumb =
     (w ← draw_shot (render_screen root) fv; png ← encode w thumb;
      Ok (Some png, lose_screenshot (draw_screen st root fv)))) ∧
  get_screenshot frame_init thumb = Err AttributeError.
Proof.
  split_and!.
  - intros s Hs Hne. unfold get_screenshot. by rewrite Hs, str_truthy_Some.
  - intros Hf. unfold get_screenshot, take_screenshot. simpl. rewrite Hf. simpl.
    destruct (draw_shot _ _) as [w|e]; simpl; [|done].
    by destruct (encode w thumb).
  - done.
Qed.

(** A screenshot taken and then asked for is returned as taken, and
    stays stored. *)
Lemma take_then_get st scale thumb st' :
  take_screenshot st scale = Ok st' →
  ∃ png, fs_screenshot st' = Some png ∧ (png ≠ "" → get_screenshot st' thumb = Ok (Some png, st')).
Proof.
  unfold take_screenshot. intros Hrun. inv_ok. subst.
  eexists; split; [done|]. intros Hne. unfold get_screenshot, set_screenshot. cbn [fs_screenshot]. by rewrite str_truthy_Some.
Qed.

(** C19: [save_screenshot] swallows a failing write unless [config.debug]
    is set, and then raises the write's exception; it raises what the
    draw object or the crop ([subsurface]) raises in every case, and
    [AttributeError] before the first frame: the [try] covers the write
    alone. *)
Theorem save_screenshot_errors st crop debug fname tree fv :
  fs_surftree st = Some tree → fs_fullscreen_video st = Some fv →
  (∀ w w', draw_shot tree fv = Ok w →
     (match crop with Some c => subsurface w c | None => Ok w end) = Ok w' →
     ∀ e, save_screenshot st crop debug fname = Err e ↔ debug = true ∧ save_image w' fname = Err e) ∧
  (∀ e, draw_shot tree fv = Err e → save_screenshot st crop debug fname = Err e) ∧
  (∀ w c e, draw_shot tree fv = Ok w → crop = Some c → subsurface w c = Err e →
     save_screenshot st crop debug fname = Err e) ∧
  save_screenshot frame_init crop debug fname = Err AttributeError.
Proof using draw_shot subsurface save_image.
  intros Htree Hfv. unfold save_screenshot. rewrite Htree, Hfv. simpl.
  split_and!; [|by intros e ->|by intros w c e -> -> He; simpl; rewrite He|done].
  intros w w' Hw Hc e. rewrite Hw. simpl. rewrite Hc. simpl.
  destruct (save_image w' fname) as [[]|e']; destruct debug;
    (split; [intros H; simplify_eq/=; auto|intros [? ?]; simplify_eq/=; auto]).
Qed.

(** [drawn_since] after the loop's redraw at tick [t1] asks whether at
    most [ago] ticks have passed; the first frame of an interaction also
    sets [interact_time]; without a time base both raise [TypeError]. *)
Lemma drawn_since_redraw b t1 t2 st root fv ago st' :
  redraw_frame (Some b) t1 st root fv = Ok st' →
  drawn_since (Some b) t2 st' ago = Ok (bool_decide (t2 - t1 ≤ ago)) ∧
  fs_surftree st' = Some (render_screen root) ∧
  (fs_interact_time st = None → fs_interact_time st' = Some (b + t1)).
Proof.
  unfold redraw_frame, drawn_since. simpl. intros [= <-]. simpl. split_and!.
  - do 2 f_equal. apply bool_decide_ext. lia.
  - done.
  - by intros ->.
Qed.

Lemma drawn_since_no_base t st ago : drawn_since None t st ago = Err TypeError.
Proof. done. Qed.
End frame.
