(* ===== verification/WindowCalls.v ===== *)
(** * The window, overlay and caption helpers (core.py, [post_init],
      [set_window_caption], [show_window] and [compute_overlay], lines
      1178-1223, 1473-1483 and 1607-1625)

    These methods of [Interface] decide which calls to make outside
    core.py: the configured [empty_window] callback, the overlay
    functions between [ui.layer("overlay")] and [ui.close()], and
    [pygame.display.set_caption].  Each is modelled as the list of calls
    it makes, in order ([ext_call]), and the one attribute it writes
    ([window_caption]).  [Interact] treats these calls as effects of
    other modules; this file says which ones happen.

    Lemmas: a caption is set again only when it changed or when forced;
    the overlay is built between one [ui.layer] and one [ui.close], with
    the window overlay functions exactly when a window is shown; the
    empty window is shown only when [_window] is set and no window was
    shown yet. *)

From stdpp Require Import base list strings.
From S2P Require Import Prelude.

(** A call the helpers make outside core.py. *)
Inductive ext_call :=
  | CEmptyWindow                  (** [renpy.config.empty_window()] *)
  | CUiLayer (layer : string)     (** [renpy.ui.layer(layer)] *)
  | COverlayFn (i : nat)          (** the [i]-th of [config.overlay_functions] *)
  | CWindowOverlayFn (i : nat)    (** the [i]-th of [config.window_overlay_functions] *)
  | CUiClose                      (** [renpy.ui.close()] *)
  | CSetCaption (caption : string)  (** [pygame.display.set_caption(...)] *)
  | CSetIcon.                     (** [self.set_icon()] *)

#[export] Instance ext_call_eq_dec : EqDecision ext_call.
Proof. solve_decision. Defined.

(** What the helpers read from the store and the configuration. *)
Record window_env := mk_window_env {
  we_window : bool;                      (** [renpy.store._window] *)
  we_empty_window : bool;                (** [renpy.config.empty_window] is set *)
  we_suppress_overlay : bool;            (** [renpy.store.suppress_overlay] *)
  we_overlay_functions : nat;            (** [len(config.overlay_functions)] *)
  we_window_overlay_functions : nat;     (** [len(config.window_overlay_functions)] *)
  we_title : string;                     (** [config.window_title] *)
  we_subtitle : string                   (** [store._window_subtitle] *)
}.

(** [set_window_caption(force)] (lines 1217-1223): the new
    [window_caption] and the calls. *)
Definition set_window_caption (we : window_env) (window_caption : option string) (force : bool)
    : option string * list ext_call :=
  let caption := we_title we +:+ we_subtitle we in
  if negb force && bool_decide (Some caption = window_caption) then (window_caption, [])
  else (Some caption, [CSetCaption caption]).

(** [post_init()] (lines 1178-1181). *)
Definition post_init (we : window_env) (window_caption : option string)
    : option string * list ext_call :=
  let '(wc, calls) := set_window_caption we window_caption true in (wc, calls ++ [CSetIcon]).

(** [show_window()] (lines 1473-1483), with the [shown_window] of the
    current context's scene lists. *)
Definition show_window (we : window_env) (shown_window : bool) : list ext_call :=
  if negb (we_window we) then []
  else if shown_window then []
  else if we_empty_window we then [CEmptyWindow] else [].

(** [compute_overlay()] (lines 1607-1625). *)
Definition compute_overlay (we : window_env) (shown_window : bool) : list ext_call :=
  if we_suppress_overlay we then []
  else [CUiLayer "overlay"] ++ (COverlayFn <$> seq 0 (we_overlay_functions we)) ++
       (if shown_window then CWindowOverlayFn <$> seq 0 (we_window_overlay_functions we) else []) ++
       [CUiClose].

(** ** Properties *)

(** Setting the caption twice without [force] calls pygame once. *)
Lemma set_window_caption_idem we wc force :
  let '(wc1, calls1) := set_window_caption we wc force in
  set_window_caption we wc1 false = (wc1, []) ∧
  (calls1 = [] ↔ force = false ∧ wc = Some (we_title we +:+ we_subtitle we)).
Proof.
  unfold set_window_caption. destruct force; simpl.
  - rewrite bool_decide_true by done. simpl. split; [done|]. split; [done|]. by intros [? _].
  - case_bool_decide as Hc; simpl.
    + subst. rewrite bool_decide_true by done. naive_solver.
    + rewrite bool_decide_true by done. split; [done|]. split; [done|]. by intros [_ ?].
Qed.

(** The overlay is built between one [ui.layer("overlay")] and one
    [ui.close()]; the window overlay functions run exactly when a window
    is shown, after the overlay functions. *)
Lemma compute_overlay_shape we shown_window :
  we_suppress_overlay we = false →
  ∃ mid, compute_overlay we shown_window = [CUiLayer "overlay"] ++ mid ++ [CUiClose] ∧
    CUiClose ∉ mid ∧ CUiLayer "overlay" ∉ mid ∧
    (∀ i, CWindowOverlayFn i ∈ mid ↔ shown_window = true ∧ (i < we_window_overlay_functions we)%nat) ∧
    (∀ i, COverlayFn i ∈ mid ↔ (i < we_overlay_functions we)%nat).
Proof.
  intros Hs. unfold compute_overlay. rewrite Hs.
  exists ((COverlayFn <$> seq 0 (we_overlay_functions we)) ++
          (if shown_window then CWindowOverlayFn <$> seq 0 (we_window_overlay_functions we) else [])).
  split; [by rewrite <-!app_assoc|].
  assert (∀ (f : nat → ext_call) n c, c ∈ f <$> seq 0 n ↔ ∃ i, c = f i ∧ (i < n)%nat) as Hfm.
  { intros f n c. rewrite list_elem_of_fmap. setoid_rewrite elem_of_seq. naive_solver lia. }
  destruct shown_window; rewrite ?elem_of_app, ?Hfm; split_and!; intros;
    rewrite ?elem_of_app, ?Hfm; try setoid_rewrite elem_of_nil; naive_solver lia.
Qed.

(** [empty_window] is called only for a missing window. *)
Lemma show_window_calls we shown_window :
  show_window we shown_window = [CEmptyWindow] ↔
  we_window we = true ∧ shown_window = false ∧ we_empty_window we = true.
Proof. unfold show_window. destruct (we_window we), shown_window, (we_empty_window we); naive_solver. Qed.
