(* ===== verification/Icon.v ===== *)
(** * The window icon (core.py, [Interface.set_icon], lines 1185-1214)

    [set_icon] picks [config.windows_icon] on Windows when it is set and
    [config.window_icon] otherwise, loads the image, pastes it centred
    on a transparent square whose side is the larger of its width and
    height (offsets [(imax-iw)/2] and [(imax-ih)/2], Python 2 integer
    division), scales the square to 32x32 on Windows unless it already
    is, and hands it to [pygame.display.set_icon].  The image loader
    ([renpy.loader.load], [image_load_unscaled] and [get_size]) is the
    section variable [image_size]; the pygame surface calls are the list
    of [icon_call]s, in order.

    Theorem: the image is pasted inside the square, centred to the
    pixel (the odd pixel of the margin goes right or below), touching
    two opposite sides; the icon handed to pygame is square, 32x32 on
    Windows; nothing is done without a truthy icon name, and a failing
    load raises before any surface is made. *)

From stdpp Require Import base list strings.
From S2P Require Import Prelude.

(** What [set_icon] reads from the configuration. *)
Record icon_env := mk_icon_env {
  ic_window_icon : option string;    (** [renpy.config.window_icon] *)
  ic_windows_icon : option string;   (** [renpy.config.windows_icon] *)
  ic_windows : bool                  (** [renpy.windows] *)
}.

(** A surface call of [set_icon]. *)
Inductive icon_call :=
  | ISquare (side : Z)         (** [pgrender.surface_unscaled((imax, imax), True)] *)
  | IBlit (x y : Z)            (** [square_im.blit(im, (x, y))] *)
  | ISmoothscale (w h : Z)     (** [scale.real_smoothscale(im, (w, h))] *)
  | ISetIcon (w h : Z).        (** [pygame.display.set_icon(im)], [im] of size (w, h) *)

#[export] Instance icon_call_eq_dec : EqDecision icon_call.
Proof. solve_decision. Defined.

(** The icon name (lines 1191-1194). *)
Definition icon_choice (ie : icon_env) : option string :=
  if ic_windows ie && str_truthy (ic_windows_icon ie) then ic_windows_icon ie else ic_window_icon ie.

(** Where [blit] puts an image of width [a] in a row of [m] pixels. *)
Definition centre_offset (m a : Z) : Z := (m - a) / 2.

Section icon.
(** The size of the image a name loads, or what the loader raises. *)
Variable image_size : string → result (Z * Z).

(** The squared image and the calls after it (lines 1205-1214). *)
Definition square_icon (windows : bool) (iw ih : Z) : list icon_call :=
  let imax := Z.max iw ih in
  [ISquare imax; IBlit (centre_offset imax iw) (centre_offset imax ih)] ++
  (if windows && negb (bool_decide ((imax, imax) = (32, 32)))
   then [ISmoothscale 32 32; ISetIcon 32 32]
   else [ISetIcon imax imax]).

(** [Interface.set_icon()] (lines 1185-1214). *)
Definition set_icon (ie : icon_env) : result (list icon_call) :=
  let icon := icon_choice ie in
  if str_truthy icon then
    match icon with
    | Some name => '(iw, ih) ← image_size name; Ok (square_icon (ic_windows ie) iw ih)
    | None => Ok []
    end
  else Ok [].
End icon.

(** ** Properties *)

(** Floor division by two centres an image of width [a] in [m ≥ a]
    pixels: it lies inside, and the right margin is the left one or one
    more. *)
Lemma centre_offset_bounds m a :
  0 ≤ a ≤ m →
  0 ≤ centre_offset m a ∧ centre_offset m a + a ≤ m ∧
  centre_offset m a ≤ m - a - centre_offset m a ≤ centre_offset m a + 1.
Proof.
  unfold centre_offset. intros Ha.
  pose proof (Z.div_mod (m - a) 2 ltac:(lia)). pose proof (Z.mod_pos_bound (m - a) 2 ltac:(lia)).
  lia.
Qed.

Lemma square_icon_last windows iw ih :
  ∃ rest s, square_icon windows iw ih =
    [ISquare (Z.max iw ih); IBlit (centre_offset (Z.max iw ih) iw) (centre_offset (Z.max iw ih) ih)]
      ++ rest ∧
    last rest = Some (ISetIcon s s) ∧ (windows = true → s = 32) ∧ (windows = false → s = Z.max iw ih).
Proof.
  unfold square_icon. destruct windows; [case_bool_decide as Hs|].
  - exists [ISetIcon (Z.max iw ih) (Z.max iw ih)], (Z.max iw ih). injection Hs as Hs _.
    split_and!; [reflexivity|reflexivity|done|done].
  - exists [ISmoothscale 32 32; ISetIcon 32 32], 32. split_and!; [reflexivity|reflexivity|done|done].
  - exists [ISetIcon (Z.max iw ih) (Z.max iw ih)], (Z.max iw ih).
    split_and!; [reflexivity|reflexivity|done|done].
Qed.

(** C36: [set_icon] pastes the loaded image of size [(iw, ih)] inside
    the transparent square of side [max(iw, ih)], centred to the pixel
    (each margin on the right or below is the one on the left or above,
    or one more) and touching two opposite sides of the square; the
    icon handed to pygame is square, 32x32 on Windows and the square
    itself elsewhere.  Without a truthy icon name it does nothing, and
    a load that raises raises before any surface is made. *)
Theorem set_icon_geometry (image_size : string → result (Z * Z)) (ie : icon_env) :
  (str_truthy (icon_choice ie) = false → set_icon image_size ie = Ok []) ∧
  (∀ name e, icon_choice ie = Some name → name ≠ "" → image_size name = Err e →
     set_icon image_size ie = Err e) ∧
  (∀ name iw ih, icon_choice ie = Some name → name ≠ "" → image_size name = Ok (iw, ih) →
     0 ≤ iw → 0 ≤ ih →
     ∃ x y calls s, set_icon image_size ie = Ok ([ISquare (Z.max iw ih); IBlit x y] ++ calls) ∧
       0 ≤ x ∧ x + iw ≤ Z.max iw ih ∧ x ≤ Z.max iw ih - iw - x ≤ x + 1 ∧
       0 ≤ y ∧ y + ih ≤ Z.max iw ih ∧ y ≤ Z.max iw ih - ih - y ≤ y + 1 ∧
       (x = 0 ∨ y = 0) ∧
       last calls = Some (ISetIcon s s) ∧
       (ic_windows ie = true → s = 32) ∧ (ic_windows ie = false → s = Z.max iw ih)).
Proof.
  unfold set_icon. split_and!.
  - by intros ->.
  - intros name e Hn Hne He. rewrite Hn, str_truthy_Some by done. by rewrite He.
  - intros name iw ih Hn Hne Hs Hw Hh. rewrite Hn, str_truthy_Some by done. rewrite Hs. simpl.
    destruct (square_icon_last (ic_windows ie) iw ih) as (rest & s & -> & Hlast & Hwin & Hnot).
    destruct (centre_offset_bounds (Z.max iw ih) iw) as (? & ? & ?); [lia|].
    destruct (centre_offset_bounds (Z.max iw ih) ih) as (? & ? & ?); [lia|].
    eexists _, _, rest, s. split; [reflexivity|]. split_and!; try done; try lia.
Qed.
