(* ===== verification/Displayable.v ===== *)
(** * The displayable capability (core.py, class [Displayable], lines 97-391)

    [DisplayableOps] is the interface core.py uses on a displayable.  The
    classes that implement it ([Transform], [ATLTransform],
    [ScreenDisplayable], [ImageReference], ...) live in modules outside
    src/, so they are parameters of the scene-list model; what core.py
    itself defines on the base class is modelled here: the default [_hide],
    [_show], [_get_parameterized] and [_change_transform_child],
    [set_transform_event] and the placement rule [place]. *)

From stdpp Require Import base.
From Stdlib Require Import QArith.
From S2P Require Import Prelude.

(** A Python value passed as the [kind] of [_hide]: [hide_or_replace]
    forwards its [prefix] argument, which is a string for [remove] and
    [add], and the boolean [hide] for [clear]. *)
Inductive pyval :=
  | PyStr (s : string)
  | PyBool (b : bool).

#[export] Instance pyval_eq_dec : EqDecision pyval.
Proof. solve_decision. Defined.

(** A placement coordinate as returned by [get_placement]: [None], an
    [int] (pixels), a [float] (a fraction of a size) or an [absolute]
    (a float that is never scaled, [core.absolute], line 90). *)
Inductive coord :=
  | CNone
  | CInt (z : Z)
  | CFloat (q : Q)
  | CAbsolute (q : Q).

(** [(xpos, ypos, xanchor, yanchor, xoffset, yoffset, subpixel)] *)
Record placement := mk_placement {
  xpos : coord; ypos : coord;
  xanchor : coord; yanchor : coord;
  xoffset : coord; yoffset : coord;
  subpixel : bool
}.

Class DisplayableOps (D : Type) := {
  (** [d._hide(st, at, kind)]: [None] when ready to be hidden, else the
      displayable that keeps the slot while it animates out. *)
  d_hide : D → Z → Z → pyval → option D;
  (** [d._show()], called when the displayable enters a scene list. *)
  d_show : D → D;
  (** the [transform_event] attribute, read and written *)
  d_transform_event : D → option string;
  d_with_transform_event : D → option string → D;
  (** [isinstance(d, renpy.display.motion.Transform)] *)
  d_is_transform : D → bool;
  (** [isinstance(d, renpy.display.screen.ScreenDisplayable)] *)
  d_is_screen : D → bool;
  (** [d._get_parameterized()] *)
  d_get_parameterized : D → D;
  (** [old._change_transform_child(child)] *)
  d_change_transform_child : D → D → D;
  (** [new_transform.take_state(old_transform)] seen on the thing that
      holds [new_transform]: [d_take_state old new] *)
  d_take_state : D → D → D;
  (** [renpy.display.motion.Transform(child=d)] *)
  d_wrap_transform : D → D;
  (** [renpy.display.motion.ATLTransform(atl, child=d)] for the ATL block
      with the given identifier *)
  d_atl_transform : nat → D → D;
  (** [d.get_placement()] *)
  d_placement : D → placement
}.

Section displayable.
Context {D : Type} `{DisplayableOps D}.

(** [Displayable.set_transform_event] (lines 349-359); the redraw it
    requests from a responder goes to the renderer, outside the model. *)
Definition set_transform_event (event : string) (d : D) : D :=
  if decide (Some event = d_transform_event d) then d
  else d_with_transform_event d (Some event).
End displayable.

(** ** The base class's own methods (lines 361-391)

    A displayable that does not override them behaves as these; the
    scene-list theorems that need it take the equation with the class
    method as a hypothesis. *)

(** [Displayable._hide] (lines 361-368): always ready to be hidden. *)
Definition base_hide {D} (d : D) (st at_ : Z) (kind : pyval) : option D := None.

(** [Displayable._show] (lines 370-373): does nothing. *)
Definition base_show {D} (d : D) : D := d.

(** [Displayable._get_parameterized] (lines 375-382) *)
Definition base_get_parameterized {D} (d : D) : D := d.

(** [Displayable._change_transform_child] (lines 384-391): the child itself. *)
Definition base_change_transform_child {D} (d child : D) : D := child.

(** ** [Displayable.place] (lines 282-347) *)

Local Open Scope Q_scope.

(** The value of a coordinate, with a [float] scaled by [base]; the other
    kinds are taken as they are ([xpos.__class__ is float]). *)
Definition resolve (c : coord) (base : Q) : Q :=
  match c with
  | CNone => 0
  | CInt z => inject_Z z
  | CFloat q => q * base
  | CAbsolute q => q
  end.

(** The offset is never scaled, whatever its class. *)
Definition offset_value (c : coord) : Q :=
  match c with
  | CNone => 0
  | CInt z => inject_Z z
  | CFloat q | CAbsolute q => q
  end.

(** [place(dest, x, y, width, height, surf)] returns [(xpos, ypos)]: the
    position scales by the area given by the parent ([width], [height]),
    the anchor by the rendered surface ([surf.width], [surf.height]).
    The blit onto [dest] belongs to the renderer and is not modelled. *)
Definition place (p : placement) (x y width height surf_width surf_height : Q) : Q * Q :=
  let xp := resolve (xpos p) width in
  let xa := resolve (xanchor p) surf_width in
  let yp := resolve (ypos p) height in
  let ya := resolve (yanchor p) surf_height in
  (xp + (x + offset_value (xoffset p) - xa), yp + (y + offset_value (yoffset p) - ya)).
