(* ===== verification/Visit.v ===== *)
(** * Walking the widget tree: [Displayable.visit_all] and
      [Displayable.find_focusable] (core.py, lines 130-141 and 237-257)

    A displayable lists its children with [visit()] (the base class
    returns [[]], line 257); the list may hold [None].  [visit_all]
    calls its callback on every child's subtree first and on the
    displayable last, skipping a child that is [None] or false
    ([if not d: continue]); [interact_core] calls it on the root widget
    to run every widget's [per_interact] (line 2037).  [find_focusable]
    reports a focusable displayable before its children, with the
    nearest [focus_name] of it or its ancestors, and skips only [None].

    The widgets are abstract: the class [VisitOps] gives [visit()], the
    truth value of a widget, [focusable] and [focus_name].  The recursion
    of the source is unbounded; the model takes a fuel, the depth Python
    may recurse to ([sys.getrecursionlimit()] bounds it in CPython), and
    returns [None] when the tree is deeper.  The callback's calls are
    the list the traversal returns, in order.

    Theorems: enough fuel finishes on every widget whose child relation
    is well-founded, and more fuel changes nothing; [visit_all] calls the
    callback once per visit path on exactly the widgets reachable
    through true children, each subtree before its root;
    [find_focusable] reports exactly the reachable focusable widgets,
    each with its own [focus_name] when it has one; when no child is
    false the two report the same focusable widgets up to order. *)

From stdpp Require Import base list strings.
From S2P Require Import Prelude.

(** What the traversals ask of a displayable. *)
Class VisitOps (D : Type) := {
  d_visit : D → list (option D);    (** [d.visit()] *)
  d_truthy : D → bool;              (** [bool(d)], false for an object whose [__len__] is 0 *)
  d_focusable : D → bool;           (** [d.focusable] *)
  d_focus_name : D → option string  (** [d.focus_name] *)
}.

Section visit.
Context {D : Type} `{VisitOps D}.

(** [Displayable.visit()] of the base class (lines 250-257). *)
Definition base_visit (d : D) : list (option D) := [].

(** The children [visit_all] descends into: [if not d: continue]. *)
Definition visit_kids (d : D) : list D :=
  omap (λ o, match o with Some c => if d_truthy c then Some c else None | None => None end) (d_visit d).

(** The children [find_focusable] descends into: [if i is None: continue]. *)
Definition focus_kids (d : D) : list D := omap id (d_visit d).

(** [Displayable.visit_all(callback)] (lines 237-248): the displayables
    the callback is called on, in order. *)
Fixpoint visit_all (fuel : nat) (d : D) : option (list D) :=
  match fuel with
  | O => None
  | S n => ls ← mapM (visit_all n) (visit_kids d); Some (concat ls ++ [d])
  end.

(** [self.focus_name or focus_name] *)
Definition inherit_focus_name (d : D) (focus_name : option string) : option string :=
  if str_truthy (d_focus_name d) then d_focus_name d else focus_name.

(** [Displayable.find_focusable(callback, focus_name)] (lines 130-141):
    the calls [callback(d, focus_name)], in order. *)
Fixpoint find_focusable (fuel : nat) (d : D) (focus_name : option string)
    : option (list (D * option string)) :=
  match fuel with
  | O => None
  | S n =>
      let fn := inherit_focus_name d focus_name in
      ls ← mapM (λ c, find_focusable n c fn) (focus_kids d);
      Some ((if d_focusable d then [(d, fn)] else []) ++ concat ls)
  end.

(** [x] is [d] or below it through [kids]. *)
Inductive reach (kids : D → list D) : D → D → Prop :=
  | reach_here d : reach kids d d
  | reach_below d c x : c ∈ kids d → reach kids c x → reach kids d x.
End visit.

(** [a] is called before [b]: an occurrence of [a] precedes one of [b]. *)
Definition before {A} (l : list A) (a b : A) : Prop :=
  ∃ i j, (i < j)%nat ∧ l !! i = Some a ∧ l !! j = Some b.

(** ** Properties *)

Local Open Scope nat_scope.

(** A fuel that is enough for every element of a list, given one for
    each and monotonicity in the fuel. *)
Lemma common_fuel {A B} (f : nat → A → option B) (ks : list A) :
  (∀ n m a b, f n a = Some b → n ≤ m → f m a = Some b) →
  (∀ a, a ∈ ks → ∃ n, is_Some (f n a)) → ∃ N, ∀ a, a ∈ ks → is_Some (f N a).
Proof.
  intros Hmono. induction ks as [|k ks IH]; intros Hall; [exists 0; set_solver|].
  destruct (Hall k) as [n [b Hb]]; [set_solver|].
  destruct IH as [N HN]; [intros a Ha; apply Hall; set_solver|].
  exists (max n N). intros a Ha. apply elem_of_cons in Ha as [->|Ha].
  - exists b. apply (Hmono n); [done|lia].
  - destruct (HN a Ha) as [b' Hb']. exists b'. apply (Hmono N); [done|lia].
Qed.

Lemma mapM_Forall2_mono {A B} (f g : A → option B) (ks : list A) ls :
  mapM f ks = Some ls → (∀ a b, f a = Some b → g a = Some b) → mapM g ks = Some ls.
Proof. rewrite !mapM_Some. intros Hf Hfg. eapply Forall2_impl; [done|auto]. Qed.

Lemma elem_of_concat_iff {A} (x : A) (ls : list (list A)) : x ∈ concat ls ↔ ∃ l, x ∈ l ∧ l ∈ ls.
Proof.
  induction ls as [|l ls IH]; simpl; [set_solver|]. rewrite elem_of_app, IH. set_solver.
Qed.

(** The results of a [mapM] over [ks], one per element. *)
Lemma Forall2_concat_elem {A B} (P : A → list B → Prop) ks ls x :
  Forall2 P ks ls → x ∈ concat ls → ∃ k lc, k ∈ ks ∧ P k lc ∧ x ∈ lc.
Proof.
  induction 1 as [|k lc ks ls Hk _ IH]; simpl; [set_solver|].
  rewrite elem_of_app. intros [Hx|Hx]; [exists k, lc; set_solver|].
  destruct (IH Hx) as (k' & lc' & ? & ? & ?). exists k', lc'. set_solver.
Qed.

Lemma Forall2_elem_l {A B} (P : A → B → Prop) ks ls k :
  Forall2 P ks ls → k ∈ ks → ∃ b, b ∈ ls ∧ P k b.
Proof.
  intros HP Hk. apply list_elem_of_lookup in Hk as [i Hi].
  destruct (Forall2_lookup_l _ _ _ _ _ HP Hi) as (b & Hb & Hp).
  exists b. split; [by eapply list_elem_of_lookup_2|done].
Qed.

Lemma before_app_l {A} (l1 l2 : list A) a b : before l1 a b → before (l1 ++ l2) a b.
Proof.
  intros (i & j & Hij & Hi & Hj). exists i, j. split; [done|].
  split; apply lookup_app_l_Some; done.
Qed.

Lemma before_app_r {A} (l1 l2 : list A) a b : before l2 a b → before (l1 ++ l2) a b.
Proof.
  intros (i & j & Hij & Hi & Hj). exists (length l1 + i)%nat, (length l1 + j)%nat.
  split; [lia|]. rewrite !lookup_app_r by lia. by rewrite !Nat.add_sub_swap, !Nat.sub_diag by lia.
Qed.

Lemma before_app_mid {A} (l1 l2 : list A) a b : a ∈ l1 → b ∈ l2 → before (l1 ++ l2) a b.
Proof.
  intros Ha Hb. apply list_elem_of_lookup in Ha as [i Hi], Hb as [j Hj].
  exists i, (length l1 + j)%nat. split; [apply lookup_lt_Some in Hi; lia|].
  split; [by apply lookup_app_l_Some|]. rewrite lookup_app_r by lia.
  by rewrite Nat.add_sub_swap, Nat.sub_diag by lia.
Qed.

Lemma before_concat {A} (ls : list (list A)) lc a b : lc ∈ ls → before lc a b → before (concat ls) a b.
Proof.
  induction ls as [|l ls IH]; simpl; [set_solver|].
  intros Hlc Hb. apply elem_of_cons in Hlc as [->|Hlc]; [by apply before_app_l|].
  apply before_app_r, IH; done.
Qed.

Section visit_facts.
Context {D : Type} `{VisitOps D}.

Lemma reach_inv kids (d x : D) :
  reach kids d x ↔ x = d ∨ ∃ c, c ∈ kids d ∧ reach kids c x.
Proof.
  split; [intros Hr; inversion Hr; subst; eauto|].
  intros [->|(c & Hc & Hr)]; [constructor|by econstructor].
Qed.

(** A property of the root that every child inherits holds of every
    widget below it. *)
Lemma reach_closed (P : D → Prop) kids (d x : D) :
  P d → (∀ p c, P p → c ∈ kids p → P c) → reach kids d x → P x.
Proof. intros Hd Hstep Hr. induction Hr; eauto. Qed.

Lemma visit_all_mono n m (d : D) l : visit_all n d = Some l → n ≤ m → visit_all m d = Some l.
Proof.
  revert m d l. induction n as [|n IH]; intros [|m] d l Hrun Hle; simpl in *; try done; [lia|].
  destruct (mapM (visit_all n) _) as [ls|] eqn:Hls; [|done]. simpl in Hrun.
  rewrite (mapM_Forall2_mono _ (visit_all m) _ _ Hls); [done|].
  intros a b Hab. apply (IH m); [done|lia].
Qed.

Lemma find_focusable_mono n m (d : D) f l :
  find_focusable n d f = Some l → n ≤ m → find_focusable m d f = Some l.
Proof.
  revert m d f l. induction n as [|n IH]; intros [|m] d f l Hrun Hle; simpl in *; try done; [lia|].
  destruct (mapM _ _) as [ls|] eqn:Hls; [|done]. simpl in Hrun.
  rewrite (mapM_Forall2_mono _ (λ c, find_focusable m c (inherit_focus_name d f)) _ _ Hls); [done|].
  intros a b Hab. apply (IH m); [done|lia].
Qed.

(** The traversals terminate on every widget tree without an
    infinite descending path: for such a root there is a depth at which
    [visit_all] (through its true children) and [find_focusable] (with
    any inherited focus name) return, and any larger depth gives the
    same calls. *)
Theorem traversals_terminate (d : D) :
  (Acc (λ c p, c ∈ visit_kids p) d →
     ∃ n l, visit_all n d = Some l ∧ ∀ m, n ≤ m → visit_all m d = Some l) ∧
  (Acc (λ c p, c ∈ focus_kids p) d →
     ∀ f, ∃ n l, find_focusable n d f = Some l ∧ ∀ m, n ≤ m → find_focusable m d f = Some l).
Proof.
  split.
  - induction 1 as [d _ IH].
    destruct (common_fuel visit_all (visit_kids d) visit_all_mono) as [N HN].
    { intros c Hc. destruct (IH c Hc) as (n & l & Hl & _). eauto. }
    destruct (mapM_is_Some_2 (visit_all N) (visit_kids d)) as [ls Hls].
    { apply Forall_forall. intros c Hc. apply HN, Hc. }
    eexists (S N), _. split; [simpl; rewrite Hls; reflexivity|].
    intros m Hm. apply (visit_all_mono (S N)); [simpl; by rewrite Hls|lia].
  - induction 1 as [d _ IH]. intros f.
    destruct (common_fuel (λ n c, find_focusable n c (inherit_focus_name d f)) (focus_kids d))
      as [N HN].
    { intros n m a b. apply find_focusable_mono. }
    { intros c Hc. destruct (IH c Hc (inherit_focus_name d f)) as (n & l & Hl & _). eauto. }
    destruct (mapM_is_Some_2 (λ c, find_focusable N c (inherit_focus_name d f)) (focus_kids d))
      as [ls Hls].
    { apply Forall_forall. intros c Hc. apply HN, Hc. }
    eexists (S N), _. split; [simpl; rewrite Hls; reflexivity|].
    intros m Hm. apply (find_focusable_mono (S N)); [simpl; rewrite Hls; reflexivity|lia].
Qed.
Lemma visit_all_S n (d : D) l :
  visit_all (S n) d = Some l ↔
  ∃ ls, Forall2 (λ c lc, visit_all n c = Some lc) (visit_kids d) ls ∧ l = concat ls ++ [d].
Proof.
  simpl. destruct (mapM _ _) as [ls|] eqn:Hls; simpl.
  - split; [intros [= <-]; exists ls; split; [by apply mapM_Some|done]|].
    intros (ls' & Hls' & ->). apply mapM_Some in Hls'. congruence.
  - split; [done|]. intros (ls' & Hls' & _). apply mapM_Some in Hls'. congruence.
Qed.

Lemma find_focusable_S n (d : D) f l :
  find_focusable (S n) d f = Some l ↔
  ∃ ls, Forall2 (λ c lc, find_focusable n c (inherit_focus_name d f) = Some lc) (focus_kids d) ls ∧
    l = (if d_focusable d then [(d, inherit_focus_name d f)] else []) ++ concat ls.
Proof.
  simpl. destruct (mapM _ _) as [ls|] eqn:Hls; simpl.
  - split; [intros [= <-]; exists ls; split; [by apply mapM_Some|done]|].
    intros (ls' & Hls' & ->). apply mapM_Some in Hls'. congruence.
  - split; [done|]. intros (ls' & Hls' & _). apply mapM_Some in Hls'. congruence.
Qed.

(** [visit_all] calls the callback on exactly the widgets below the root
    through true children. *)
Lemma visit_all_members n (d : D) l :
  visit_all n d = Some l → ∀ x, x ∈ l ↔ reach visit_kids d x.
Proof.
  revert d l. induction n as [|n IH]; intros d l Hrun x; [done|].
  apply visit_all_S in Hrun as (ls & Hls & ->). rewrite elem_of_app, list_elem_of_singleton, reach_inv.
  split.
  - intros [Hx| ->]; [|by left]. right.
    destruct (Forall2_concat_elem _ _ _ _ Hls Hx) as (c & lc & Hc & Hlc & Hxl).
    exists c. split; [done|]. by apply (IH c lc).
  - intros [->|(c & Hc & Hr)]; [by right|left].
    destruct (Forall2_elem_l _ _ _ _ Hls Hc) as (lc & Hlc & Hrun).
    apply elem_of_concat_iff. exists lc. split; [by apply (IH c lc)|done].
Qed.

(** C12: [visit_all] runs the callback on exactly the widgets reachable
    from the root through children that are neither [None] nor false,
    the root last, and on every such widget only after it ran on each of
    that widget's true children: the [per_interact] of a widget comes
    after those of its children. *)
Theorem visit_all_postorder n (d : D) l :
  visit_all n d = Some l →
  (∀ x, x ∈ l ↔ reach visit_kids d x) ∧ last l = Some d ∧
  ∀ x c, x ∈ l → c ∈ visit_kids x → before l c x.
Proof.
  intros Hrun. split_and!; [by apply (visit_all_members n)| |].
  { destruct n; [done|]. apply visit_all_S in Hrun as (ls & _ & ->). by rewrite last_snoc. }
  revert d l Hrun. induction n as [|n IH]; intros d l Hrun x c Hx Hc; [done|].
  apply visit_all_S in Hrun as (ls & Hls & ->). apply elem_of_app in Hx as [Hx|Hx].
  - destruct (Forall2_concat_elem _ _ _ _ Hls Hx) as (c0 & lc & Hc0 & Hlc & Hxl).
    apply before_app_l. destruct (Forall2_elem_l _ _ _ _ Hls Hc0) as (lc' & Hin & Hlc').
    rewrite Hlc in Hlc'. injection Hlc' as <-. apply (before_concat _ lc); [done|]. by apply (IH c0).
  - apply list_elem_of_singleton in Hx as ->. apply before_app_mid; [|set_solver].
    destruct (Forall2_elem_l _ _ _ _ Hls Hc) as (lc & Hin & Hlc).
    apply elem_of_concat_iff. exists lc. split; [|done]. apply (visit_all_members n c lc Hlc).
    constructor.
Qed.
(** C31: [find_focusable] calls its callback on exactly the focusable
    widgets reachable from the root through children that are not
    [None]; a widget with a [focus_name] of its own is reported with
    it, and the root, when focusable, is reported first, with its own
    name or else the one passed in. *)
Theorem find_focusable_spec n (d : D) f l :
  find_focusable n d f = Some l →
  (∀ x, (∃ fn, (x, fn) ∈ l) ↔ reach focus_kids d x ∧ d_focusable x = true) ∧
  (∀ x fn, (x, fn) ∈ l → str_truthy (d_focus_name x) = true → fn = d_focus_name x) ∧
  (d_focusable d = true → head l = Some (d, if str_truthy (d_focus_name d) then d_focus_name d else f)).
Proof.
  revert d f l. induction n as [|n IH]; intros d f l Hrun; [done|].
  apply find_focusable_S in Hrun as (ls & Hls & ->). split_and!.
  - intros x. rewrite reach_inv. split.
    + intros [fn Hx]. apply elem_of_app in Hx as [Hx|Hx].
      * destruct (d_focusable d) eqn:Hf; [|set_solver]. apply list_elem_of_singleton in Hx.
        injection Hx as -> _. auto.
      * destruct (Forall2_concat_elem _ _ _ _ Hls Hx) as (c & lc & Hc & Hlc & Hxl).
        destruct (proj1 (proj1 (IH c _ lc Hlc) x) (ex_intro _ fn Hxl)) as [Hr Hfx].
        split; [right; eauto|done].
    + intros [[->|(c & Hc & Hr)] Hfx].
      * exists (inherit_focus_name d f). rewrite Hfx. set_solver.
      * destruct (Forall2_elem_l _ _ _ _ Hls Hc) as (lc & Hin & Hlc).
        destruct (proj2 (proj1 (IH c _ lc Hlc) x) (conj Hr Hfx)) as [fn Hfn].
        exists fn. apply elem_of_app. right. apply elem_of_concat_iff. eauto.
  - intros x fn Hx Ht. apply elem_of_app in Hx as [Hx|Hx].
    + destruct (d_focusable d); [|set_solver]. apply list_elem_of_singleton in Hx.
      injection Hx as -> ->. unfold inherit_focus_name. by rewrite Ht.
    + destruct (Forall2_concat_elem _ _ _ _ Hls Hx) as (c & lc & Hc & Hlc & Hxl).
      by apply (proj1 (proj2 (IH c _ lc Hlc)) x fn).
  - intros ->. done.
Qed.

Lemma kids_agree (x : D) :
  (∀ c, Some c ∈ d_visit x → d_truthy c = true) → visit_kids x = focus_kids x.
Proof.
  unfold visit_kids, focus_kids. induction (d_visit x) as [|[c|] os IH]; intros Ht; simpl; [done| |].
  - rewrite Ht by set_solver. f_equal. apply IH. set_solver.
  - apply IH. set_solver.
Qed.

Lemma mapM_option_Forall2 {A B C} (R : B → C → Prop) (f : A → option B) (g : A → option C) ks :
  (∀ k, k ∈ ks → option_Forall2 R (f k) (g k)) → option_Forall2 (Forall2 R) (mapM f ks) (mapM g ks).
Proof.
  induction ks as [|k ks IH]; intros Hk; simpl; [by constructor|].
  destruct (Hk k) as [b c Hbc|]; [set_solver| |by constructor]. simpl.
  destruct (IH ltac:(set_solver)) as [bs cs Hbcs|]; simpl; constructor; by constructor.
Qed.

Lemma concat_fst_filter (P : D → Prop) `{∀ x, Decision (P x)}
    (ls' : list (list (D * option string))) (ls : list (list D)) :
  Forall2 (λ l' l, fst <$> l' ≡ₚ filter P l) ls' ls → fst <$> concat ls' ≡ₚ filter P (concat ls).
Proof.
  induction 1 as [|l' l ls' ls Hl _ IH]; simpl; [done|].
  rewrite fmap_app, filter_app. by apply Permutation_app.
Qed.

(** C40: when no widget reachable from the root has a child that is
    false, [visit_all] and [find_focusable] see the same focusable
    widgets: at every depth both return or both run out, and the
    widgets [find_focusable] reports (parents first) are the focusable
    ones [visit_all] calls the callback on (children first), as
    multisets. *)
Theorem find_focusable_visit_all n (d : D) f :
  (∀ x, reach focus_kids d x → ∀ c, Some c ∈ d_visit x → d_truthy c = true) →
  option_Forall2 (λ l' l, fst <$> l' ≡ₚ filter (λ x, d_focusable x = true) l)
    (find_focusable n d f) (visit_all n d).
Proof.
  revert d f. induction n as [|n IH]; intros d f Ht; simpl; [by constructor|].
  rewrite kids_agree by (apply Ht; constructor).
  assert (option_Forall2 (Forall2 (λ l' l, fst <$> l' ≡ₚ filter (λ x, d_focusable x = true) l))
            (mapM (λ c, find_focusable n c (inherit_focus_name d f)) (focus_kids d))
            (mapM (visit_all n) (focus_kids d))) as Hm.
  { apply mapM_option_Forall2. intros c Hc. apply IH. intros x Hr. apply Ht. by econstructor. }
  destruct Hm as [ls' ls Hls|]; simpl; [|by constructor].
  constructor. rewrite fmap_app, filter_app, (concat_fst_filter _ _ _ Hls).
  destruct (d_focusable d) eqn:Hf; simpl.
  - rewrite filter_cons_True by done. simpl. by rewrite Permutation_app_comm.
  - rewrite filter_cons_False by congruence. simpl. by rewrite app_nil_r.
Qed.
End visit_facts.
