(* ===== verification/SceneList.v ===== *)
(** * The scene lists (core.py, [SceneListEntry] and [SceneLists], lines 395-970)

    A [SceneLists] holds, per layer name, the list of [SceneListEntry]s
    shown on that layer, sorted by zorder.  Every method is one
    definition below, with the list-level work split from the dict-level
    bookkeeping where the source reads [self.layers[layer]] into a local
    [l].  [get_time()] is the parameter [now]; [renpy.config] is the record
    [config].  The displayable type [D] is abstract, with the operations of
    [DisplayableOps] and decidable identity ([==] on displayables). *)

From stdpp Require Import base list strings gmap.
From S2P Require Import Prelude Displayable.

(** The parts of [renpy.config] the scene lists read. *)
Record config := mk_config {
  cfg_layers : list string;
  cfg_top_layers : list string;
  cfg_overlay_layers : list string;
  cfg_transient_layers : list string;
  cfg_keep_running_transform : bool
}.

Section scene_lists.
Context {D : Type} `{EqDecision D} `{DisplayableOps D}.

(** ** [SceneListEntry] (lines 395-436) *)
Record sle := SLE {
  sle_tag : option string;
  sle_zorder : Z;
  sle_show_time : option Z;
  sle_animation_time : option Z;
  sle_displayable : D;
  sle_name : option (list string)
}.

(** [SceneListEntry.update_time] (lines 427-436): latch the times that are
    still [None]; [x or time] also replaces a time of [0]. *)
Definition update_time (time : Z) (e : sle) : sle :=
  if decide (sle_show_time e = None ∨ sle_animation_time e = None) then
    SLE (sle_tag e) (sle_zorder e) (Some (sle_show_time e ?: time))
        (Some (sle_animation_time e ?: time)) (sle_displayable e) (sle_name e)
  else e.

(** ** [SceneLists] state (lines 480-541) *)
Record scene_lists := mk_scene_lists {
  (** layer name -> list(SceneListEntry) *)
  sl_layers : gmap string (list sle);
  (** layer name -> tag -> at_list *)
  sl_at_list : gmap string (gmap string (list D));
  (** layer name -> (start time, at_list) *)
  sl_layer_at_list : gmap string (option Z * list D);
  (** the predictive "shown" index: (layer, tag) -> image name *)
  sl_shown : gmap (string * string) (list string);
  (** (layer, tag) pairs that are transient *)
  sl_additional_transient : list (string * option string);
  sl_shown_window : bool
}.

Definition set_layer (layer : string) (l : list sle) (sl : scene_lists) : scene_lists :=
  mk_scene_lists (<[layer:=l]> (sl_layers sl)) (sl_at_list sl) (sl_layer_at_list sl)
    (sl_shown sl) (sl_additional_transient sl) (sl_shown_window sl).

Definition set_at_list (layer : string) (ats : gmap string (list D)) (sl : scene_lists) :=
  mk_scene_lists (sl_layers sl) (<[layer:=ats]> (sl_at_list sl)) (sl_layer_at_list sl)
    (sl_shown sl) (sl_additional_transient sl) (sl_shown_window sl).

Definition set_shown (shown : gmap (string * string) (list string)) (sl : scene_lists) :=
  mk_scene_lists (sl_layers sl) (sl_at_list sl) (sl_layer_at_list sl)
    shown (sl_additional_transient sl) (sl_shown_window sl).

(** [ShownImageInfo.predict_show], [predict_hide], [predict_scene]:
    record, forget, and forget per layer which image a tag shows. *)
Definition predict_show (layer : string) (name : list string)
    (shown : gmap (string * string) (list string)) :=
  match name with [] => shown | t :: _ => <[(layer, t):=name]> shown end.
Definition predict_hide (layer tag : string) (shown : gmap (string * string) (list string)) :=
  delete (layer, tag) shown.
Definition predict_scene (layer : string) (shown : gmap (string * string) (list string)) :=
  filter (λ kv : (string * string) * list string, kv.1.1 ≠ layer) shown.

(** ** [find_index] (lines 599-632) *)

(** The second argument of [find_index]: a tag (in [add], the key) or a
    displayable (in [remove] and [remove_above]). *)
Inductive target :=
  | TTag (k : option string)
  | TDisp (d : D).

(** [sle.tag == tag] *)
Definition tag_eq_target (t : option string) (tg : target) : bool :=
  match tg with TTag k => bool_decide (t = k) | TDisp _ => false end.

(** [sle.displayable == tag] *)
Definition disp_eq_target (d : D) (tg : target) : bool :=
  match tg with TDisp d' => bool_decide (d = d') | TTag _ => false end.

(** [sle.tag in behind] *)
Definition tag_in (t : option string) (behind : list string) : bool :=
  match t with Some s => bool_decide (s ∈ behind) | None => false end.

(** The test that fixes [add_index]. *)
Definition add_here (tg : target) (zorder : Z) (behind : list string) (e : sle) : bool :=
  if decide (sle_zorder e = zorder) then
    tag_truthy (sle_tag e) && (tag_eq_target (sle_tag e) tg || tag_in (sle_tag e) behind)
  else bool_decide (zorder < sle_zorder e).

(** The test that fixes [remove_index]. *)
Definition remove_here (tg : target) (e : sle) : bool :=
  (tag_truthy (sle_tag e) && tag_eq_target (sle_tag e) tg) || disp_eq_target (sle_displayable e) tg.

(** The loop of [find_index], with its two accumulators. *)
Fixpoint find_index_loop (tg : target) (zorder : Z) (behind : list string)
    (l : list sle) (i : nat) (add_index remove_index : option nat) : option nat * option nat :=
  match l with
  | [] => (add_index, remove_index)
  | e :: l' =>
      let add_index' :=
        match add_index with
        | None => if add_here tg zorder behind e then Some i else None
        | Some _ => add_index
        end in
      let remove_index' :=
        match remove_index with
        | None => if remove_here tg e then Some i else None
        | Some _ => remove_index
        end in
      find_index_loop tg zorder behind l' (S i) add_index' remove_index'
  end.

Definition find_index (l : list sle) (tg : target) (zorder : Z) (behind : list string)
    : nat * option nat :=
  let '(add_index, remove_index) := find_index_loop tg zorder behind l 0 None None in
  (default (length l) add_index, remove_index).

(** ** [hide_or_replace] (lines 733-769) *)

(** The work on the layer's list [l]. *)
Definition hide_or_replace_entries (l : list sle) (index : option nat) (prefix : pyval)
    (now : Z) : result (list sle) :=
  match index with
  | None => Ok l
  | Some i =>
      oldsle ← nth_or l i;
      let st := sle_show_time oldsle ?: now in
      let at_ := sle_animation_time oldsle ?: now in
      match truthy_tag (sle_tag oldsle) with
      | Some tag =>
          match d_hide (sle_displayable oldsle) (now - st) (now - at_) prefix with
          | Some d =>
              match prefix with
              | PyStr p =>
                  Ok (<[i:=SLE (Some (lifecycle_tag p tag)) (sle_zorder oldsle)
                               (Some st) (Some at_) d None]> l)
              | PyBool _ => raise TypeError
              end
          | None => Ok (delete i l)
          end
      | None => Ok (delete i l)
      end
  end.

Definition hide_or_replace (sl : scene_lists) (layer : string) (index : option nat)
    (prefix : pyval) (now : Z) : result scene_lists :=
  match index with
  | None => Ok sl
  | Some _ =>
      l ← lookup_or (KeyError layer) layer (sl_layers sl);
      l' ← hide_or_replace_entries l index prefix now;
      Ok (set_layer layer l' sl)
  end.

(** ** [transform_state] (lines 574-596) *)
Definition transform_state (old_thing : option D) (new_thing : D) : D :=
  match old_thing with
  | None => new_thing
  | Some old =>
      if d_is_screen new_thing then new_thing else
      let old_transform := d_get_parameterized old in
      if negb (d_is_transform old_transform) then new_thing else
      if negb (d_is_transform (d_get_parameterized new_thing))
      then d_take_state old_transform (d_wrap_transform new_thing)
      else d_take_state old_transform new_thing
  end.

(** ** [remove_hide_replaced] (lines 897-907) *)
Definition remove_hide_replaced_entries (tag : string) (l : list sle) : list sle :=
  filter (λ i, sle_tag i ≠ Some (lifecycle_tag "hide" tag) ∧
               sle_tag i ≠ Some (lifecycle_tag "replaced" tag)) l.

Definition remove_hide_replaced (sl : scene_lists) (layer tag : string) : result scene_lists :=
  l ← lookup_or (KeyError layer) layer (sl_layers sl);
  Ok (set_layer layer (remove_hide_replaced_entries tag l) sl).

(** ** [add] (lines 635-731) *)

(** The bookkeeping done before the list is touched: purge the
    lifecycle entries of the key, store its at_list, predict the image,
    register a transient. *)
Definition add_prologue (sl : scene_lists) (layer : string) (key : option string)
    (at_list : list D) (name : option (list string)) (transient : bool)
    : result scene_lists :=
  sl1 ← match truthy_tag key with
        | Some k =>
            sl' ← remove_hide_replaced sl layer k;
            ats ← lookup_or (KeyError layer) layer (sl_at_list sl');
            Ok (set_at_list layer (<[k:=at_list]> ats) sl')
        | None => Ok sl
        end;
  let sl2 := match truthy_tag key, name with
             | Some _, Some n => if decide (n = []) then sl1
                                 else set_shown (predict_show layer n (sl_shown sl1)) sl1
             | _, _ => sl1
             end in
  Ok (if transient then
        mk_scene_lists (sl_layers sl2) (sl_at_list sl2) (sl_layer_at_list sl2) (sl_shown sl2)
          (sl_additional_transient sl2 ++ [(layer, key)]) (sl_shown_window sl2)
      else sl2).

(** The displayable that replaces the entry [old]: the old transform
    keeps running with the new child, or takes the old one's state. *)
Definition replacing_thing (cfg : config) (old : sle) (thing : D) (atl : option nat)
    (at_list : list D) : D :=
  if negb (bool_decide (is_Some atl)) && bool_decide (at_list = []) &&
     cfg_keep_running_transform cfg && d_is_transform (sle_displayable old)
  then d_change_transform_child (sle_displayable old) thing
  else transform_state (Some (sle_displayable old)) thing.

(** The shown displayable, wrapped by the default transform. *)
Definition shown_thing (thing : D) (default_transform : option D) : D :=
  if d_is_transform thing then thing else transform_state default_transform thing.

(** The list-level part of [add], from [find_index] on. *)
Definition add_entries (cfg : config) (l : list sle) (thing : D) (key : option string)
    (zorder : Z) (behind : list string) (at_list : list D) (name : option (list string))
    (atl : option nat) (default_transform : option D) (now : Z) : result (list sle) :=
  let thing := match atl with Some a => d_atl_transform a thing | None => thing end in
  let '(add_index, remove_index) := find_index l (TTag key) zorder behind in
  match remove_index with
  | Some r =>
      old ← nth_or l r;
      let thing' := d_show (set_transform_event "replace" (replacing_thing cfg old thing atl at_list)) in
      let l' := list_insert_at add_index
                  (SLE key zorder None (sle_animation_time old) thing' name) l in
      let r' := if decide (add_index ≤ r)%nat then S r else r in
      hide_or_replace_entries l' (Some r') (PyStr "replaced") now
  | None =>
      let thing' := d_show (set_transform_event "show" (shown_thing thing default_transform)) in
      Ok (list_insert_at add_index (SLE key zorder None None thing' name) l)
  end.

Definition add (cfg : config) (sl : scene_lists) (layer : string) (thing : D)
    (key : option string) (zorder : Z) (behind : list string) (at_list : list D)
    (name : option (list string)) (atl : option nat) (default_transform : option D)
    (transient : bool) (now : Z) : result scene_lists :=
  match sl_layers sl !! layer with
  | None => raise (InvalidLayer layer)
  | Some _ =>
      sl' ← add_prologue sl layer key at_list name transient;
      l ← lookup_or (KeyError layer) layer (sl_layers sl');
      l' ← add_entries cfg l thing key zorder behind at_list name atl default_transform now;
      Ok (set_layer layer l' sl')
  end.

(** ** [remove] (lines 803-825) *)
Definition remove (sl : scene_lists) (layer : string) (thing : target) (now : Z)
    : result scene_lists :=
  match sl_layers sl !! layer with
  | None => raise (InvalidLayer layer)
  | Some l =>
      let '(_, remove_index) := find_index l thing 0 [] in
      match remove_index with
      | None => Ok sl
      | Some r =>
          e ← nth_or l r;
          sl' ← match truthy_tag (sle_tag e) with
                | Some tag =>
                    ats ← lookup_or (KeyError layer) layer (sl_at_list sl);
                    Ok (set_at_list layer (delete tag ats)
                          (set_shown (predict_hide layer tag (sl_shown sl)) sl))
                | None => Ok sl
                end;
          hide_or_replace sl' layer (Some r) (PyStr "hide") now
      end
  end.

(** ** [clear] (lines 827-847) *)

(** [for i in reversed(xrange(n)): hide_or_replace(layer, i, prefix)] *)
Fixpoint hide_all_rev (l : list sle) (n : nat) (prefix : pyval) (now : Z) : result (list sle) :=
  match n with
  | O => Ok l
  | S i => l' ← hide_or_replace_entries l (Some i) prefix now; hide_all_rev l' i prefix now
  end.

(** [hide] is passed on as the prefix: the boolean [True], not ["hide"]. *)
Definition clear (sl : scene_lists) (layer : string) (hide : bool) (now : Z)
    : result scene_lists :=
  sl1 ← (if negb hide then Ok (set_layer layer [] sl)
         else l ← lookup_or (KeyError layer) layer (sl_layers sl);
              l' ← hide_all_rev l (length l) (PyBool hide) now;
              Ok (set_layer layer l' sl));
  _ ← lookup_or (KeyError layer) layer (sl_at_list sl1);
  Ok (mk_scene_lists (sl_layers sl1) (<[layer:=∅]> (sl_at_list sl1))
        (<[layer:=(None, [])]> (sl_layer_at_list sl1)) (predict_scene layer (sl_shown sl1))
        (sl_additional_transient sl1) (sl_shown_window sl1)).

(** ** [remove_hidden] (lines 909-937) *)

(** [now - t] where [t] may be [None]. *)
Definition elapsed (now : Z) (t : option Z) : result Z :=
  match t with Some v => Ok (now - v) | None => raise TypeError end.

(** Whether the sweep keeps the entry: lifecycle entries are asked again
    whether they still want to be shown. *)
Definition keep_after_hide (now : Z) (e : sle) : result bool :=
  match truthy_tag (sle_tag e) with
  | Some t =>
      let kind := if String.prefix "hide$" t then Some "hide"
                  else if String.prefix "replaced$" t then Some "replaced" else None in
      match kind with
      | Some k =>
          st ← elapsed now (sle_show_time e);
          at_ ← elapsed now (sle_animation_time e);
          Ok (bool_decide (is_Some (d_hide (sle_displayable e) st at_ (PyStr k))))
      | None => Ok true
      end
  | None => Ok true
  end.

Fixpoint remove_hidden_entries (now : Z) (l : list sle) : result (list sle) :=
  match l with
  | [] => Ok []
  | e :: l' =>
      keep ← keep_after_hide now e;
      newl ← remove_hidden_entries now l';
      Ok (if (keep : bool) then e :: newl else newl)
  end.

Definition remove_hidden (sl : scene_lists) (now : Z) : result scene_lists :=
  layers ← gmap_mapM (remove_hidden_entries now) (sl_layers sl);
  Ok (mk_scene_lists layers (sl_at_list sl) (sl_layer_at_list sl) (sl_shown sl)
        (sl_additional_transient sl) (sl_shown_window sl)).

(** ** [replace_transient] (lines 543-557) *)
Definition replace_transient (cfg : config) (sl : scene_lists) (now : Z) : result scene_lists :=
  sl1 ← foldlM (λ sl i, clear sl i true now) sl (cfg_transient_layers cfg);
  sl2 ← foldlM (λ sl '(layer, tag), remove sl layer (TTag tag) now) sl1
          (sl_additional_transient sl1);
  Ok (mk_scene_lists (sl_layers sl2) (sl_at_list sl2) (sl_layer_at_list sl2) (sl_shown sl2)
        [] (sl_shown_window sl2)).

(** [get_all_displayables] (lines 771-781): the displayables of every
    layer; the order of [self.layers.itervalues()] is the dict's, here
    the map's, so only the collection is meaningful. *)
Definition get_all_displayables (sl : scene_lists) : list D :=
  map_fold (λ _ l rv, rv ++ (sle_displayable <$> l)) [] (sl_layers sl).

(** [transient_is_empty] (lines 559-572) *)
Definition transient_is_empty (cfg : config) (sl : scene_lists) : result bool :=
  foldlM (λ b i, l ← lookup_or (KeyError i) i (sl_layers sl);
                 Ok (b && bool_decide (l = []))) true (cfg_transient_layers cfg).

(** ** [set_layer_at_list] and [set_times] (lines 849-862) *)
Definition set_layer_at_list (sl : scene_lists) (layer : string) (at_list : list D) :=
  mk_scene_lists (sl_layers sl) (sl_at_list sl) (<[layer:=(None, at_list)]> (sl_layer_at_list sl))
    (sl_shown sl) (sl_additional_transient sl) (sl_shown_window sl).

Definition set_times (sl : scene_lists) (time : Z) : scene_lists :=
  mk_scene_lists (List.map (update_time time) <$> sl_layers sl) (sl_at_list sl)
    ((λ '(t, l), (Some (t ?: time), l)) <$> sl_layer_at_list sl)
    (sl_shown sl) (sl_additional_transient sl) (sl_shown_window sl).

(** ** Lookups (lines 939-970) *)
Definition get_displayable_by_tag (sl : scene_lists) (layer : string) (tag : option string)
    : result (option D) :=
  match sl_layers sl !! layer with
  | None => raise (UnknownLayer layer)
  | Some l => Ok ((λ p, sle_displayable p.2) <$> list_find (λ e, sle_tag e = tag) l)
  end.

Definition get_displayable_by_name (sl : scene_lists) (layer : string)
    (name : option (list string)) : result (option D) :=
  match sl_layers sl !! layer with
  | None => raise (UnknownLayer layer)
  | Some l => Ok ((λ p, sle_displayable p.2) <$> list_find (λ e, sle_name e = name) l)
  end.

(** ** [remove_above] (lines 783-801) *)

(** [thing] is truthy: a displayable, or a non-empty tag. *)
Definition target_truthy (tg : target) : bool :=
  match tg with TTag k => tag_truthy k | TDisp _ => true end.

Fixpoint remove_above_loop (l : list sle) (n : nat) (thing : target) (now : Z)
    : result (list sle) :=
  match n with
  | O => Ok l
  | S i =>
      e ← nth_or l i;
      if target_truthy thing &&
         (tag_eq_target (sle_tag e) thing || disp_eq_target (sle_displayable e) thing)
      then Ok l
      else if tag_truthy (sle_tag e) && default false (has_dollar <$> sle_tag e)
      then remove_above_loop l i thing now
      else l' ← hide_or_replace_entries l (Some i) (PyStr "hide") now;
           remove_above_loop l' i thing now
  end.

Definition remove_above (sl : scene_lists) (layer : string) (thing : target) (now : Z)
    : result scene_lists :=
  l ← lookup_or (KeyError layer) layer (sl_layers sl);
  l' ← remove_above_loop l (length l) thing now;
  Ok (set_layer layer l' sl).
End scene_lists.

Arguments target D : clear implicits.

(** * Functional properties of the scene-list methods *)

Section scene_lists_facts.
Context {D : Type} `{EqDecision D} `{DisplayableOps D}.
Implicit Types (l : list (sle (D:=D))) (sl : scene_lists (D:=D)).

(** The two searches [find_index] performs in one loop, as [list_find]. *)
Definition add_index_ref l (tg : target D) zorder behind : nat :=
  default (length l) (fst <$> list_find (λ e, add_here tg zorder behind e = true) l).
Definition remove_index_ref l (tg : target D) : option nat :=
  fst <$> list_find (λ e, remove_here tg e = true) l.

Lemma find_index_loop_spec tg z behind l i ai ri :
  find_index_loop tg z behind l i ai ri =
    (match ai with
     | Some _ => ai
     | None => (λ p, i + p.1)%nat <$> list_find (λ e, add_here tg z behind e = true) l
     end,
     match ri with
     | Some _ => ri
     | None => (λ p, i + p.1)%nat <$> list_find (λ e, remove_here tg e = true) l
     end).
Proof.
  revert i ai ri. induction l as [|e l IH]; intros i ai ri; simpl; [by destruct ai, ri|].
  rewrite IH. f_equal.
  - destruct ai; [done|].
    destruct (add_here tg z behind e); simpl; [by rewrite Nat.add_0_r|].
    destruct (list_find (λ e, add_here tg z behind e = true) l) as [[j y]|];
      simpl; [f_equal; lia|done].
  - destruct ri; [done|].
    destruct (remove_here tg e); simpl; [by rewrite Nat.add_0_r|].
    destruct (list_find (λ e, remove_here tg e = true) l) as [[j y]|];
      simpl; [f_equal; lia|done].
Qed.

Lemma find_index_eq l tg z behind :
  find_index l tg z behind = (add_index_ref l tg z behind, remove_index_ref l tg).
Proof. unfold find_index, add_index_ref, remove_index_ref. by rewrite find_index_loop_spec. Qed.

(** C39: the single loop of [find_index] computes two first-match
    searches: the insertion index is the first entry passing the
    [add_index] test, or the end of the list; the removal index is the
    first entry passing the [remove_index] test, or [None] when no entry
    passes it. *)
Theorem find_index_spec l tg z behind :
  let '(ai, ri) := find_index l tg z behind in
  (ai ≤ length l)%nat ∧
  (∀ j e, (j < ai)%nat → l !! j = Some e → add_here tg z behind e = false) ∧
  ((ai < length l)%nat → ∃ e, l !! ai = Some e ∧ add_here tg z behind e = true) ∧
  match ri with
  | Some r => ∃ e, l !! r = Some e ∧ remove_here tg e = true ∧
                   ∀ j e', (j < r)%nat → l !! j = Some e' → remove_here tg e' = false
  | None => ∀ e, e ∈ l → remove_here tg e = false
  end.
Proof.
  rewrite find_index_eq. unfold add_index_ref, remove_index_ref.
  split_and!.
  - destruct (list_find _ l) as [[i e]|] eqn:Hf; simpl; [|lia].
    apply list_find_Some in Hf as (Hi & _). apply lookup_lt_Some in Hi. lia.
  - destruct (list_find _ l) as [[i e]|] eqn:Hf; simpl; intros j e' Hj Hl.
    + apply list_find_Some in Hf as (_ & _ & Hb). apply not_true_is_false. eauto.
    + rewrite list_find_None, Forall_forall in Hf. apply not_true_is_false, Hf.
      by eapply list_elem_of_lookup_2.
  - destruct (list_find _ l) as [[i e]|] eqn:Hf; simpl; intros Hlt; [|lia].
    apply list_find_Some in Hf. naive_solver.
  - destruct (list_find (λ e, remove_here tg e = true) l) as [[i e]|] eqn:Hf; simpl.
    + apply list_find_Some in Hf as (Hi & He & Hb). exists e. split_and!; [done|done|].
      intros j e' Hj Hl. apply not_true_is_false. eauto.
    + rewrite list_find_None, Forall_forall in Hf. intros e He. by apply not_true_is_false, Hf.
Qed.

Lemma hide_or_replace_entries_Ok l i prefix now l' :
  hide_or_replace_entries l (Some i) prefix now = Ok l' →
  ∃ e, l !! i = Some e ∧
    (l' = delete i l ∨
     ∃ p t d, prefix = PyStr p ∧ truthy_tag (sle_tag e) = Some t ∧
       d_hide (sle_displayable e) (now - (sle_show_time e ?: now))
              (now - (sle_animation_time e ?: now)) prefix = Some d ∧
       l' = <[i:=SLE (Some (lifecycle_tag p t)) (sle_zorder e)
                     (Some (sle_show_time e ?: now)) (Some (sle_animation_time e ?: now))
                     d None]> l).
Proof.
  unfold hide_or_replace_entries, nth_or. destruct (l !! i) as [e|]; simpl; [|done].
  intros Hrun. exists e. split; [done|].
  destruct (truthy_tag (sle_tag e)) as [t|] eqn:Ht.
  2:{ injection Hrun as <-. by left. }
  destruct (d_hide _ _ _ _) as [d|] eqn:Hd.
  2:{ injection Hrun as <-. by left. }
  destruct prefix as [p|]; [|done]. injection Hrun as <-. right. eauto 10.
Qed.

(** The prologue of [add] touches the layer only to purge the key's
    lifecycle entries. *)
Lemma add_prologue_layers sl layer key at_list name transient sl' l0 :
  sl_layers sl !! layer = Some l0 →
  add_prologue sl layer key at_list name transient = Ok sl' →
  sl_layers sl' = match truthy_tag key with
                  | Some k => <[layer:=remove_hide_replaced_entries k l0]> (sl_layers sl)
                  | None => sl_layers sl
                  end.
Proof.
  intros Hl Hrun. unfold add_prologue in Hrun. inv_ok. subst sl'.
  destruct (truthy_tag key) as [k|].
  - unfold remove_hide_replaced, lookup_or in *. rewrite Hl in *. inv_ok. subst.
    destruct (sl_at_list _ !! layer); [|done]. inv_ok. subst.
    destruct name as [n|], transient; simpl; try case_decide; done.
  - inv_ok. subst. destruct name, transient; simpl; try case_decide; done.
Qed.

Lemma remove_no_match sl layer l tg now :
  sl_layers sl !! layer = Some l → remove_index_ref l tg = None → remove sl layer tg now = Ok sl.
Proof. intros Hl Hr. unfold remove. by rewrite Hl, find_index_eq, Hr. Qed.

(** No entry answers to the tag [None]: [sle.tag and sle.tag == None] is
    false, and so is [sle.displayable == None]. *)
Lemma remove_index_ref_untagged l : remove_index_ref l (TTag None) = None.
Proof.
  unfold remove_index_ref. rewrite (proj2 (list_find_None _ _)); [done|].
  apply Forall_forall. intros e _. unfold remove_here, tag_eq_target, disp_eq_target, tag_truthy.
  destruct (sle_tag e) as [t|]; simpl; [|done]. by rewrite andb_false_r.
Qed.

(** [remove] changes one layer at most, and nothing on an empty layer. *)
Lemma remove_layers sl layer tg now sl' :
  remove sl layer tg now = Ok sl' →
  (∀ k, k ≠ layer → sl_layers sl' !! k = sl_layers sl !! k) ∧
  sl_additional_transient sl' = sl_additional_transient sl ∧
  (sl_layers sl !! layer = Some [] → sl' = sl).
Proof.
  unfold remove. destruct (sl_layers sl !! layer) as [l|] eqn:Hl; [|done].
  rewrite find_index_eq. destruct (remove_index_ref l tg) as [r|] eqn:Hr; [|by intros [= <-]].
  intros Hrun. apply bind_Ok in Hrun as (e & He & Hrun).
  apply bind_Ok in Hrun as (sl1 & Hsl1 & Hrun).
  assert (sl_layers sl1 = sl_layers sl ∧ sl_additional_transient sl1 = sl_additional_transient sl)
    as [H1 H2].
  { destruct (truthy_tag _); [|by injection Hsl1 as <-].
    apply bind_Ok in Hsl1 as (ats & _ & [= <-]). done. }
  unfold hide_or_replace in Hrun. apply bind_Ok in Hrun as (l1 & _ & Hrun).
  apply bind_Ok in Hrun as (l2 & _ & [= <-]). simpl. split_and!.
  - intros k Hk. by rewrite lookup_insert_ne, H1.
  - done.
  - intros [= ->]. unfold nth_or in He. by rewrite lookup_nil in He.
Qed.

Lemma remove_untagged sl layer now sl' : remove sl layer (TTag None) now = Ok sl' → sl' = sl.
Proof.
  unfold remove. destruct (sl_layers sl !! layer) as [l|]; [|done].
  rewrite find_index_eq, remove_index_ref_untagged. by intros [= <-].
Qed.

(** [remove] of a tag that no entry of the layer carries leaves the
    scene lists unchanged and does not raise. *)
Theorem remove_absent_noop sl layer k now l :
  sl_layers sl !! layer = Some l → Forall (λ e, sle_tag e ≠ Some k) l →
  remove sl layer (TTag (Some k)) now = Ok sl.
Proof.
  intros Hl Hf. apply (remove_no_match _ _ _ _ _ Hl).
  unfold remove_index_ref. rewrite (proj2 (list_find_None _ _)); [done|].
  eapply Forall_impl; [exact Hf|]. intros e He. unfold remove_here, tag_eq_target.
  rewrite bool_decide_eq_false_2 by done. by rewrite andb_false_r.
Qed.

(** C35: the dynamic type of [hide_or_replace]'s [prefix]: with a string
    prefix it never raises [TypeError]; with a boolean one (what [clear]
    passes) it raises [TypeError] exactly when the entry is tagged and
    its [_hide] returns a successor, the case where [prefix + "$" + tag]
    is evaluated. *)
Theorem hide_or_replace_prefix_type l i now :
  (∀ p, hide_or_replace_entries l (Some i) (PyStr p) now ≠ Err TypeError) ∧
  (∀ b, hide_or_replace_entries l (Some i) (PyBool b) now = Err TypeError ↔
        ∃ e t d, l !! i = Some e ∧ truthy_tag (sle_tag e) = Some t ∧
          d_hide (sle_displayable e) (now - (sle_show_time e ?: now))
                 (now - (sle_animation_time e ?: now)) (PyBool b) = Some d).
Proof.
  unfold hide_or_replace_entries, nth_or. split.
  - intros p. destruct (l !! i) as [e|]; simpl; [|done].
    by repeat case_match.
  - intros b. destruct (l !! i) as [e|] eqn:Hi; simpl.
    2: { split; [done|]. intros (? & ? & ? & [=] & _). }
    destruct (truthy_tag (sle_tag e)) as [t|] eqn:Ht.
    2: { split; [done|]. intros (? & ? & ? & [= <-] & ? & _). congruence. }
    destruct (d_hide _ _ _ _) as [d|] eqn:Hd; split.
    + intros _. by exists e, t, d.
    + done.
    + done.
    + intros (? & ? & ? & [= <-] & Ht' & Hd'). congruence.
Qed.

(** With a boolean prefix, every step of the reversed loop that does not
    raise deletes the entry. *)
Lemma hide_all_rev_bool l n b now l' :
  hide_all_rev l n (PyBool b) now = Ok l' → (n ≤ length l)%nat → l' = drop n l.
Proof.
  revert l. induction n as [|n IH]; intros l Hrun Hn; simpl in Hrun.
  - injection Hrun as <-. by rewrite drop_0.
  - apply bind_Ok in Hrun as (l1 & Hhide & Hrun).
    apply hide_or_replace_entries_Ok in Hhide as (e & He & [-> | (p & _ & _ & [=] & _)]).
    apply IH in Hrun; [|rewrite length_delete by eauto; lia].
    rewrite Hrun, delete_take_drop, drop_app_ge; rewrite length_take; [|lia].
    replace (n - n `min` length l)%nat with O by lia. by rewrite drop_0.
Qed.

(** What a returning [clear] wrote: the layer's list, at-lists and layer
    at-list are reset, the others kept; it read [self.at_list[layer]],
    and with [hide] also [self.layers[layer]]. *)
Lemma clear_Ok sl layer hide now sl' :
  clear sl layer hide now = Ok sl' →
  sl_layers sl' = <[layer:=[]]> (sl_layers sl) ∧
  sl_at_list sl' = <[layer:=∅]> (sl_at_list sl) ∧
  sl_layer_at_list sl' = <[layer:=(None, [])]> (sl_layer_at_list sl) ∧
  sl_additional_transient sl' = sl_additional_transient sl ∧
  sl_shown_window sl' = sl_shown_window sl ∧
  is_Some (sl_at_list sl !! layer) ∧ (hide = true → is_Some (sl_layers sl !! layer)).
Proof.
  unfold clear, lookup_or. intros Hrun.
  apply bind_Ok in Hrun as (sl1 & Hsl1 & Hrun). apply bind_Ok in Hrun as (ats & Hats & [= <-]).
  destruct hide; simpl in Hsl1.
  - destruct (sl_layers sl !! layer) as [l|] eqn:Hl; simpl in Hsl1; [|done].
    apply bind_Ok in Hsl1 as (l' & Hh & [= <-]).
    apply hide_all_rev_bool in Hh; [|done]. rewrite drop_all in Hh. subst l'. simpl in *.
    destruct (sl_at_list sl !! layer); simplify_eq. naive_solver.
  - injection Hsl1 as <-. simpl in *. destruct (sl_at_list sl !! layer); simplify_eq.
    naive_solver.
Qed.

(** When [clear] returns, the layer is empty and no other layer changed. *)
Lemma clear_layers sl layer hide now sl' :
  clear sl layer hide now = Ok sl' →
  sl_layers sl' = <[layer:=[]]> (sl_layers sl) ∧
  sl_additional_transient sl' = sl_additional_transient sl.
Proof. intros (? & _ & _ & ? & _)%clear_Ok. done. Qed.

(** With the base class's [_hide], every step of the reversed loop
    deletes its entry: the loop returns. *)
Lemma hide_all_rev_base l n b now :
  (∀ d st at_ k, d_hide d st at_ k = base_hide d st at_ k) → (n ≤ length l)%nat →
  ∃ l', hide_all_rev l n (PyBool b) now = Ok l'.
Proof.
  intros Hbase. revert l. induction n as [|n IH]; intros l Hn; simpl; [by eexists|].
  unfold hide_or_replace_entries, nth_or.
  destruct (lookup_lt_is_Some_2 l n) as [e He]; [lia|]. rewrite He. simpl.
  assert (∃ l1, (match truthy_tag (sle_tag e) with
                 | Some tag => match d_hide (sle_displayable e) (now - (sle_show_time e ?: now))
                                       (now - (sle_animation_time e ?: now)) (PyBool b) with
                               | Some d => raise TypeError | None => Ok (delete n l) end
                 | None => Ok (delete n l) end) = Ok l1 ∧ l1 = delete n l) as (l1 & -> & ->).
  { destruct (truthy_tag _); [rewrite Hbase|]; by eexists. }
  apply IH. rewrite length_delete by eauto. lia.
Qed.

(** On displayables that keep the base class's [_hide], [clear] returns
    on every layer the lists have. *)
Lemma clear_returns sl layer h now :
  (∀ d st at_ k, d_hide d st at_ k = base_hide d st at_ k) →
  is_Some (sl_layers sl !! layer) → is_Some (sl_at_list sl !! layer) →
  ∃ sl', clear sl layer h now = Ok sl'.
Proof.
  intros Hbase [l Hl] [ats Hats]. unfold clear, lookup_or.
  destruct h; simpl; [|rewrite Hats; by eexists].
  rewrite Hl. simpl. destruct (hide_all_rev_base l (length l) true now Hbase) as [l' Hl']; [done|].
  rewrite Hl'. simpl. rewrite Hats. by eexists.
Qed.

(** C38: [clear(layer, True)] passes the boolean [True] as the prefix of
    [hide_or_replace]: when it returns, the layer is empty, so no entry
    stays behind to animate out; and on displayables that keep the base
    class's [_hide] it does return, on any layer the lists have. *)
Theorem clear_hide_empties sl layer now :
  (∀ sl', clear sl layer true now = Ok sl' → sl_layers sl' !! layer = Some []) ∧
  ((∀ d st at_ k, d_hide d st at_ k = base_hide d st at_ k) →
   is_Some (sl_layers sl !! layer) → is_Some (sl_at_list sl !! layer) →
   ∃ sl', clear sl layer true now = Ok sl').
Proof.
  split.
  - intros sl' Hrun. apply clear_layers in Hrun as [-> _]. by rewrite lookup_insert_eq.
  - apply clear_returns.
Qed.

(** C7: [clear(layer, True)] raises [TypeError] as soon as the last
    entry is tagged and its [_hide] returns a successor: the code builds
    [True + "$" + tag]. *)
Theorem clear_hide_type_error sl layer now l e t d :
  sl_layers sl !! layer = Some l → last l = Some e → truthy_tag (sle_tag e) = Some t →
  d_hide (sle_displayable e) (now - (sle_show_time e ?: now))
    (now - (sle_animation_time e ?: now)) (PyBool true) = Some d →
  clear sl layer true now = Err TypeError.
Proof.
  intros Hl Hlast Ht Hd. unfold clear, lookup_or. simpl. rewrite Hl. simpl.
  rewrite last_lookup in Hlast. pose proof (lookup_lt_Some _ _ _ Hlast) as Hlt.
  destruct (length l) as [|n] eqn:Hlen; [lia|].
  simpl in Hlast |- *. unfold hide_or_replace_entries, nth_or.
  simpl in Hlast. rewrite Hlast. simpl. by rewrite Ht, Hd.
Qed.

(** The first loop of [replace_transient]: each listed layer is emptied,
    the others are left as they were. *)
Lemma clear_all_layers (ls : list string) sl now sl' :
  foldlM (λ sl i, clear sl i true now) sl ls = Ok sl' →
  (∀ i, i ∈ ls → sl_layers sl' !! i = Some []) ∧
  (∀ k, k ∉ ls → sl_layers sl' !! k = sl_layers sl !! k) ∧
  sl_additional_transient sl' = sl_additional_transient sl.
Proof.
  revert sl. induction ls as [|i ls IH]; intros sl Hrun; simpl in Hrun.
  - injection Hrun as <-. set_solver.
  - apply bind_Ok in Hrun as (sl1 & Hc & Hrun). apply clear_layers in Hc as [Hl1 Ha1].
    destruct (IH _ Hrun) as (Hin & Hout & Ha). split_and!.
    + intros k Hk. destruct (decide (k ∈ ls)) as [Hk'|Hk']; [by apply Hin|].
      apply elem_of_cons in Hk as [->|Hk]; [|done]. by rewrite Hout, Hl1, lookup_insert_eq.
    + intros k Hk. rewrite Hout by set_solver. rewrite Hl1, lookup_insert_ne; set_solver.
    + by rewrite Ha, Ha1.
Qed.

(** [replace_transient] leaves every transient layer empty and forgets
    the pairs registered as transient, when it returns. *)
Theorem replace_transient_empties cfg sl now sl' :
  replace_transient cfg sl now = Ok sl' →
  (∀ i, i ∈ cfg_transient_layers cfg → sl_layers sl' !! i = Some []) ∧
  sl_additional_transient sl' = [].
Proof.
  unfold replace_transient. intros Hrun.
  apply bind_Ok in Hrun as (sl1 & H1 & Hrun). apply bind_Ok in Hrun as (sl2 & H2 & [= <-]).
  destruct (clear_all_layers _ _ _ _ H1) as (Hin & _ & _). simpl. split; [|done].
  revert H2. apply (foldlM_Ok_inv (λ sl, ∀ i, i ∈ cfg_transient_layers cfg → sl_layers sl !! i = Some []));
    [done|].
  intros x [layer tag] x' _ Hx Hrm i Hi.
  destruct (remove_layers _ _ _ _ _ Hrm) as (Hother & _ & Hempty).
  destruct (decide (i = layer)) as [->|Hne]; [rewrite Hempty; auto|]. rewrite Hother; auto.
Qed.

(** C27: [replace_transient] touches no other layer than the transient
    ones and those with a tag registered as transient: a displayable added
    with [transient=True] but no tag registers [(layer, None)], which
    [remove(layer, None)] never matches, so it stays. *)
Theorem replace_transient_untouched cfg sl now sl' layer :
  replace_transient cfg sl now = Ok sl' → layer ∉ cfg_transient_layers cfg →
  (∀ t, (layer, Some t) ∉ sl_additional_transient sl) →
  sl_layers sl' !! layer = sl_layers sl !! layer.
Proof.
  unfold replace_transient. intros Hrun Hlayer Hreg.
  apply bind_Ok in Hrun as (sl1 & H1 & Hrun). apply bind_Ok in Hrun as (sl2 & H2 & [= <-]).
  destruct (clear_all_layers _ _ _ _ H1) as (_ & Hout & Ha). simpl. rewrite <- (Hout _ Hlayer).
  revert H2. apply (foldlM_Ok_inv (λ x, sl_layers x !! layer = sl_layers sl1 !! layer)); [done|].
  intros x [layer' tag] x' Hb Hx Hrm. rewrite <- Hx.
  destruct (decide (layer' = layer)) as [->|Hne].
  - destruct tag as [t|]; [rewrite Ha in Hb; by destruct (Hreg t)|].
    by apply remove_untagged in Hrm as ->.
  - apply remove_layers in Hrm as (Hother & _). by apply Hother.
Qed.

(** C28: [add] without a tag never replaces anything: the layer gains one
    untagged entry and keeps every entry it had, the same displayable
    included ([find_index] compares [sle.displayable == None]). *)
Theorem add_untagged_inserts cfg sl layer thing zorder behind at_list name atl dt transient now
    sl' l :
  sl_layers sl !! layer = Some l →
  add cfg sl layer thing None zorder behind at_list name atl dt transient now = Ok sl' →
  ∃ i e, sl_layers sl' !! layer = Some (list_insert_at i e l) ∧ sle_tag e = None.
Proof.
  intros Hl. unfold add. rewrite Hl. intros Hrun.
  apply bind_Ok in Hrun as (sl1 & Hp & Hrun). apply add_prologue_layers with (l0 := l) in Hp; [|done].
  simpl in Hp. unfold lookup_or in Hrun. rewrite Hp, Hl in Hrun. simpl in Hrun.
  apply bind_Ok in Hrun as (l' & Ha & [= <-]). unfold add_entries in Ha.
  rewrite find_index_eq, remove_index_ref_untagged in Ha. injection Ha as <-.
  do 2 eexists. split; [simpl; by rewrite lookup_insert_eq|done].
Qed.
(** [get_all_displayables] collects exactly the displayables of the
    entries of the layers. *)
Lemma get_all_displayables_spec sl d :
  d ∈ get_all_displayables sl ↔ ∃ layer l e, sl_layers sl !! layer = Some l ∧ e ∈ l ∧ sle_displayable e = d.
Proof.
  unfold get_all_displayables.
  apply (map_fold_weak_ind (λ rv m, d ∈ rv ↔ ∃ layer l e, m !! layer = Some l ∧ e ∈ l ∧ sle_displayable e = d)).
  - split; [set_solver|]. intros (? & ? & ? & Hl & _). by rewrite lookup_empty in Hl.
  - intros i l m rv Hi IH. rewrite elem_of_app, IH, list_elem_of_fmap. split.
    + intros [(k & l' & e & Hk & He & <-)|(e & -> & He)].
      * exists k, l', e. rewrite lookup_insert_ne by congruence. done.
      * exists i, l, e. by rewrite lookup_insert_eq.
    + intros (k & l' & e & Hk & He & <-). destruct (decide (k = i)) as [->|Hne].
      * rewrite lookup_insert_eq in Hk. injection Hk as <-. right. eauto.
      * left. rewrite lookup_insert_ne in Hk by done. eauto 10.
Qed.
End scene_lists_facts.
