(* ===== verification/SceneListWF.v ===== *)
(** * Well-formedness of a layer and its preservation by the scene-list methods

    A layer's list ([self.layers[layer]]) is well formed when
    - it is sorted by non-decreasing zorder (the order [find_index] assumes
      when it inserts before the first entry of greater zorder);
    - its truthy tags are pairwise distinct: [add] supersedes the entry
      with the same tag, and [hide_or_replace] renames an exiting entry to
      [hide$tag] or [replaced$tag];
    - lifecycle tags have depth one: a tag is dollar-free, or [hide$u] or
      [replaced$u] with [u] dollar-free;
    - no [hide$u] lingers beside a shown [u] (so that hiding [u] again
      cannot create a second [hide$u]).
    The tag conditions are stated on the list of truthy tags and are
    invariant under permutation, so the proofs about [add] and [remove]
    reason on a permutation of the layer ([list_insert_at_Permutation],
    [delete_Permutation]) and on the order separately. *)

From stdpp Require Import base list strings gmap.
From S2P Require Import Prelude Displayable SceneList.

(** [s.startswith(p)] that also returns the rest of [s]. *)
Fixpoint strip_prefix (p s : string) : option string :=
  match p, s with
  | EmptyString, _ => Some s
  | String c p', String d s' => if decide (c = d) then strip_prefix p' s' else None
  | String _ _, EmptyString => None
  end.

(** The tag a lifecycle tag was made from. *)
Definition lifecycle_base (t : string) : option string :=
  match strip_prefix "hide$" t with
  | Some u => Some u
  | None => strip_prefix "replaced$" t
  end.

Definition tag_depth_ok (t : string) : bool :=
  negb (has_dollar t) ||
  match lifecycle_base t with Some u => negb (has_dollar u) | None => false end.

(** The tag conditions, on the list of truthy tags of a layer. *)
Definition tags_wf (ts : list string) : Prop :=
  NoDup ts ∧ Forall (λ t, tag_depth_ok t = true) ts ∧
  Forall (λ u, has_dollar u = false → lifecycle_tag "hide" u ∉ ts) ts.

#[export] Instance tags_wf_dec ts : Decision (tags_wf ts).
Proof. unfold tags_wf. apply _. Defined.

Section wf.
Context {D : Type} `{EqDecision D} `{DisplayableOps D}.
Implicit Types (l : list (sle (D:=D))) (sl : scene_lists (D:=D)).

Definition layer_tags l : list string := omap (λ e, truthy_tag (sle_tag e)) l.

Definition layer_wf l : Prop := sorted_on sle_zorder l ∧ tags_wf (layer_tags l).

#[global] Instance layer_wf_dec l : Decision (layer_wf l).
Proof. unfold layer_wf. apply _. Defined.

(** Every layer of the scene lists is well formed. *)
Definition sl_wf sl : Prop := map_Forall (λ _ l, layer_wf l) (sl_layers sl).

#[global] Instance sl_wf_dec sl : Decision (sl_wf sl).
Proof. unfold sl_wf. apply _. Defined.

(** Whether [remove_hidden] at [now] keeps an entry ([False] where it raises). *)
Definition keep_ok (now : Z) (e : sle (D:=D)) : bool :=
  match keep_after_hide now e with Ok b => b | Err _ => false end.

(** A shown entry: its tag, if any, is not a [hide$] or [replaced$] one. *)
Definition shown_entry (e : sle (D:=D)) : Prop :=
  ∀ t, truthy_tag (sle_tag e) = Some t →
       String.prefix "hide$" t = false ∧ String.prefix "replaced$" t = false.
End wf.

(** ** The tag conditions *)

Lemma lifecycle_base_tag p u :
  p = "hide" ∨ p = "replaced" → lifecycle_base (lifecycle_tag p u) = Some u.
Proof. intros [-> | ->]; reflexivity. Qed.

Lemma tag_depth_ok_lifecycle p u :
  p = "hide" ∨ p = "replaced" → has_dollar u = false →
  tag_depth_ok (lifecycle_tag p u) = true.
Proof.
  intros Hp Hu. unfold tag_depth_ok.
  by rewrite lifecycle_tag_has_dollar, lifecycle_base_tag, Hu.
Qed.

#[export] Instance tags_wf_proper : Proper ((≡ₚ) ==> iff) tags_wf.
Proof.
  intros ts1 ts2 Hp. unfold tags_wf. rewrite !Forall_forall. setoid_rewrite Hp. done.
Qed.

Lemma tags_wf_sublist ts1 ts2 : ts1 `sublist_of` ts2 → tags_wf ts2 → tags_wf ts1.
Proof.
  intros Hsub (Hnd & Hdepth & Hhide). pose proof (sublist_submseteq _ _ Hsub) as Hsm.
  rewrite !Forall_forall in Hdepth, Hhide. split; [by eapply sublist_NoDup|].
  split; apply Forall_forall; [eauto using elem_of_submseteq|].
  intros u Hu Hd Hin.
  apply (Hhide u); [by eapply elem_of_submseteq|done|by eapply elem_of_submseteq].
Qed.

(** A dollar-free tag that is not shown, with no [hide$] entry, can be added. *)
Lemma tags_wf_cons_new k ts :
  tags_wf ts → has_dollar k = false → k ∉ ts → lifecycle_tag "hide" k ∉ ts →
  tags_wf (k :: ts).
Proof.
  intros (Hnd & Hdepth & Hhide) Hk Hnin Hhk. split; [by constructor|].
  rewrite !Forall_cons. split; [split; [unfold tag_depth_ok; by rewrite Hk|done]|].
  split.
  - intros _ [Heq|?]%elem_of_cons; [|done].
    by apply (lifecycle_tag_ne_self "hide" k).
  - rewrite Forall_forall in Hhide |- *. intros u Hu Hud [Heq|?]%elem_of_cons.
    + pose proof (lifecycle_tag_has_dollar "hide" u). congruence.
    + by apply (Hhide u).
Qed.

(** Adding the lifecycle tag [p$u] of a dollar-free [u]; for [hide$u],
    [u] itself must be gone. *)
Lemma tags_wf_cons_lifecycle p u ts :
  tags_wf ts → has_dollar u = false → p = "hide" ∨ p = "replaced" →
  lifecycle_tag p u ∉ ts → (p = "hide" → u ∉ ts) →
  tags_wf (lifecycle_tag p u :: ts).
Proof.
  intros (Hnd & Hdepth & Hhide) Hu Hp Hnin Hgone.
  split; [by constructor|]. split; [constructor; [by apply tag_depth_ok_lifecycle|done]|].
  constructor.
  - intros Hd. by rewrite lifecycle_tag_has_dollar in Hd.
  - rewrite Forall_forall in Hhide |- *. intros v Hv Hvd [Heq|Hin]%elem_of_cons.
    + destruct Hp as [-> | ->]; [|by eapply hide_replaced_tag_ne].
      apply lifecycle_tag_inj in Heq as ->. by apply Hgone.
    + by apply (Hhide v Hv Hvd).
Qed.

(** ** Layers *)

Section wf_lemmas.
Context {D : Type} `{EqDecision D} `{DisplayableOps D}.
Implicit Types (l : list (sle (D:=D))) (sl : scene_lists (D:=D)).

#[global] Instance layer_tags_proper : Proper ((≡ₚ) ==> (≡ₚ)) (layer_tags (D:=D)).
Proof. intros l1 l2 Hp. unfold layer_tags. by rewrite Hp. Qed.

Lemma layer_tags_cons e l :
  layer_tags (e :: l) =
    match truthy_tag (sle_tag e) with Some t => t :: layer_tags l | None => layer_tags l end.
Proof. done. Qed.

Lemma layer_wf_sublist l1 l2 : l1 `sublist_of` l2 → layer_wf l2 → layer_wf l1.
Proof.
  intros Hsub [Hs Ht]. split; [by eapply sorted_on_sublist|].
  eapply tags_wf_sublist; [|done]. by apply omap_sublist.
Qed.

Lemma truthy_tag_lifecycle p t : truthy_tag (Some (lifecycle_tag p t)) = Some (lifecycle_tag p t).
Proof.
  simpl. case_decide as Heq; [|done].
  pose proof (lifecycle_tag_has_dollar p t) as Hd. by rewrite Heq in Hd.
Qed.

(** A shown dollar-free tag has no [hide$] twin. *)
Lemma layer_wf_no_hide_twin l t :
  layer_wf l → t ∈ layer_tags l → has_dollar t = false →
  lifecycle_tag "hide" t ∉ layer_tags l.
Proof. intros [_ (_ & _ & Hh)] Ht Hd. rewrite Forall_forall in Hh. eauto. Qed.

(** [add] inserts at the place where zorder order is kept. *)
Lemma add_here_false_le (tg : target D) z behind (e : sle (D:=D)) :
  add_here tg z behind e = false → sle_zorder e ≤ z.
Proof. unfold add_here. case_decide; [lia|]. rewrite bool_decide_eq_false. lia. Qed.

Lemma add_here_true_ge (tg : target D) z behind (e : sle (D:=D)) :
  add_here tg z behind e = true → z ≤ sle_zorder e.
Proof. unfold add_here. case_decide; [lia|]. rewrite bool_decide_eq_true. lia. Qed.

Lemma add_index_ref_le l (tg : target D) z behind : (add_index_ref l tg z behind ≤ length l)%nat.
Proof.
  unfold add_index_ref. destruct (list_find _ l) as [[i e]|] eqn:Hf; simpl; [|lia].
  apply list_find_Some in Hf as (Hi & _ & _). apply lookup_lt_Some in Hi. lia.
Qed.

Lemma add_index_ref_sorted l (tg : target D) z behind x :
  sorted_on (sle_zorder (D:=D)) l → sle_zorder x = z →
  sorted_on (sle_zorder (D:=D)) (list_insert_at (add_index_ref l tg z behind) x l).
Proof.
  intros Hs Hx. apply sorted_on_insert_at; [done| |]; unfold add_index_ref.
  - intros y Hy. apply list_elem_of_lookup in Hy as [j Hj].
    pose proof (lookup_lt_Some _ _ _ Hj) as Hlt. rewrite lookup_take_lt in Hj;
      [|rewrite length_take in Hlt; lia].
    rewrite Hx. apply (add_here_false_le tg z behind), not_true_iff_false.
    destruct (list_find _ l) as [[i e]|] eqn:Hf; simpl in *.
    + apply list_find_Some in Hf as (_ & _ & Hbefore).
      apply (Hbefore j); [done|]. rewrite length_take in Hlt. lia.
    + rewrite list_find_None, Forall_forall in Hf. by eapply Hf, list_elem_of_lookup_2.
  - intros y Hy. apply list_elem_of_lookup in Hy as [j Hj]. rewrite lookup_drop in Hj.
    destruct (list_find _ l) as [[i e]|] eqn:Hf; simpl in *.
    + apply list_find_Some in Hf as (Hi & He & _). rewrite Hx.
      apply add_here_true_ge in He. pose proof (sorted_on_lookup _ _ _ _ _ _ Hs
        (ltac:(lia) : (i ≤ i + j)%nat) Hi Hj). lia.
    + apply lookup_lt_Some in Hj. lia.
Qed.

Lemma truthy_tag_Some t k : truthy_tag t = Some k → t = Some k.
Proof. destruct t; simpl; [case_decide|]; naive_solver. Qed.

Lemma remove_here_TTag key (e : sle (D:=D)) :
  remove_here (TTag key) e = true →
  ∃ k, truthy_tag key = Some k ∧ truthy_tag (sle_tag e) = Some k.
Proof.
  unfold remove_here, tag_eq_target, disp_eq_target, tag_truthy.
  rewrite orb_false_r, andb_true_iff, !bool_decide_eq_true. intros [[k Hk] <-]. eauto.
Qed.

Lemma remove_index_ref_Some l tg r :
  remove_index_ref l tg = Some r → ∃ e, l !! r = Some e ∧ remove_here tg e = true.
Proof.
  unfold remove_index_ref. destruct (list_find _ l) as [[i e]|] eqn:Hf; [|done].
  intros [= <-]. apply list_find_Some in Hf. naive_solver.
Qed.

Lemma remove_index_ref_None_TTag l key k :
  remove_index_ref l (TTag key) = None → truthy_tag key = Some k → k ∉ layer_tags l.
Proof.
  unfold remove_index_ref, layer_tags. destruct (list_find _ l) eqn:Hf; [done|].
  intros _ Hk (e & He & Het)%list_elem_of_omap.
  rewrite list_find_None, Forall_forall in Hf. apply (Hf e He).
  pose proof (truthy_tag_Some _ _ Het) as Het'. apply truthy_tag_Some in Hk.
  unfold remove_here, tag_eq_target, tag_truthy. rewrite Het' in Het |- *.
  rewrite Het, Hk, !bool_decide_eq_true_2 by done. done.
Qed.

(** The list part of [add] keeps the layer well formed, provided the key
    is dollar-free and its lifecycle entries were purged. *)
Lemma add_entries_wf cfg l thing key z behind at_list name atl dt now l' :
  layer_wf l →
  (∀ k, truthy_tag key = Some k → has_dollar k = false ∧
     (lifecycle_tag "hide" k ∉ layer_tags l) ∧ (lifecycle_tag "replaced" k ∉ layer_tags l)) →
  add_entries cfg l thing key z behind at_list name atl dt now = Ok l' →
  layer_wf l' ∧ (∀ k, truthy_tag key = Some k → k ∈ layer_tags l').
Proof.
  intros [Hs Ht] Hkey Hrun. unfold add_entries in Hrun. rewrite find_index_eq in Hrun.
  pose proof (add_index_ref_le l (TTag key) z behind) as Hai.
  destruct (remove_index_ref l (TTag key)) as [r|] eqn:Hr.
  - destruct (remove_index_ref_Some _ _ _ Hr) as (old & Hold & Hrm).
    destruct (remove_here_TTag _ _ Hrm) as (k & Hk & Hold_k).
    destruct (Hkey k Hk) as (Hkd & Hhk & Hrk).
    apply bind_Ok in Hrun as (old' & Hold' & Hrun).
    unfold nth_or in Hold'. rewrite Hold in Hold'. injection Hold' as <-. cbv zeta in Hrun.
    match type of Hrun with
    | hide_or_replace_entries (list_insert_at _ ?x _) _ _ _ = _ => set (new := x) in Hrun
    end.
    pose proof (list_insert_at_lookup_shift (add_index_ref l (TTag key) z behind) r new _ _ Hai Hold) as Hr'.
    pose proof (add_index_ref_sorted l (TTag key) z behind new Hs eq_refl) as Hs1.
    assert (delete (if decide (add_index_ref l (TTag key) z behind ≤ r)%nat then S r else r)
              (list_insert_at (add_index_ref l (TTag key) z behind) new l) ≡ₚ new :: delete r l) as Hdel.
    { apply Permutation_cons_inv with (a := old). rewrite <-delete_Permutation by done.
      rewrite list_insert_at_Permutation, (delete_Permutation l r old) at 1 by done.
      apply perm_swap. }
    assert (layer_tags l ≡ₚ k :: layer_tags (delete r l)) as Htl.
    { by rewrite (delete_Permutation l r old), layer_tags_cons, Hold_k at 1. }
    assert (layer_tags (new :: delete r l) = k :: layer_tags (delete r l)) as Htn.
    { by rewrite layer_tags_cons; simpl; rewrite Hk. }
    apply hide_or_replace_entries_Ok in Hrun as (e & He & [-> | (p & t & d & [= <-] & Htt & _ & ->)]);
      rewrite He in Hr'; injection Hr' as ->.
    + split; [split; [by apply sorted_on_delete|by rewrite Hdel, Htn, <-Htl]|].
      intros k' Hk'. rewrite Hk in Hk'. injection Hk' as <-. rewrite Hdel, Htn. by left.
    + rewrite Hold_k in Htt. injection Htt as <-.
      split; [split; [by eapply sorted_on_insert_same_key|]|];
        [|intros k' Hk'; rewrite Hk in Hk'; injection Hk' as <-];
        erewrite insert_delete_Permutation by done;
        rewrite layer_tags_cons; cbn [sle_tag]; rewrite truthy_tag_lifecycle, Hdel, Htn.
      * rewrite <-Htl. apply tags_wf_cons_lifecycle; auto. discriminate.
      * right. by left.
  - injection Hrun as <-. split; [split; [by apply add_index_ref_sorted|]|].
    + rewrite list_insert_at_Permutation, layer_tags_cons. simpl.
      destruct (truthy_tag key) as [k|] eqn:Hk; [|done].
      destruct (Hkey k eq_refl) as (Hkd & Hhk & _).
      apply tags_wf_cons_new; auto. by eapply remove_index_ref_None_TTag.
    + intros k Hk. rewrite list_insert_at_Permutation, layer_tags_cons. simpl. rewrite Hk. by left.
Qed.

(** Hiding or replacing a dollar-free tag keeps the layer well formed
    when its lifecycle tag is not taken. *)
Lemma hide_or_replace_entries_wf l i p now l' :
  layer_wf l → p = "hide" ∨ p = "replaced" →
  (∀ e t, l !! i = Some e → truthy_tag (sle_tag e) = Some t →
     has_dollar t = false ∧ (lifecycle_tag p t ∉ layer_tags l)) →
  hide_or_replace_entries l (Some i) (PyStr p) now = Ok l' → layer_wf l'.
Proof.
  intros Hwf Hp Hok Hrun.
  apply hide_or_replace_entries_Ok in Hrun
    as (e & He & [-> | (p' & t & d & [= <-] & Htt & _ & ->)]).
  { eapply layer_wf_sublist; [apply sublist_delete|done]. }
  destruct Hwf as [Hs Ht]. destruct (Hok e t He Htt) as [Htd Hlc].
  split; [by eapply sorted_on_insert_same_key|].
  assert (layer_tags l ≡ₚ t :: layer_tags (delete i l)) as Htl.
  { by rewrite (delete_Permutation l i e), layer_tags_cons, Htt at 1. }
  erewrite insert_delete_Permutation by done.
  rewrite layer_tags_cons. cbn [sle_tag]. rewrite truthy_tag_lifecycle.
  rewrite Htl in Ht, Hlc. pose proof Ht as (Hnd & _). apply NoDup_cons in Hnd as [Htn _].
  apply tags_wf_cons_lifecycle; [| |done| |done].
  - eapply tags_wf_sublist; [|done]. by apply sublist_cons.
  - done.
  - set_solver.
Qed.

Lemma remove_hide_replaced_entries_tags k l :
  (lifecycle_tag "hide" k ∉ layer_tags (remove_hide_replaced_entries k l)) ∧
  (lifecycle_tag "replaced" k ∉ layer_tags (remove_hide_replaced_entries k l)).
Proof.
  unfold layer_tags, remove_hide_replaced_entries.
  split; intros (e & [[Hh Hr] _]%list_elem_of_filter & He)%list_elem_of_omap;
    apply truthy_tag_Some in He; congruence.
Qed.

Lemma remove_hide_replaced_entries_wf k l :
  layer_wf l → layer_wf (remove_hide_replaced_entries k l).
Proof. apply layer_wf_sublist, sublist_filter. Qed.

Lemma sl_wf_set_layer sl layer l : sl_wf sl → layer_wf l → sl_wf (set_layer layer l sl).
Proof. intros Hsl Hl. by apply map_Forall_insert_2. Qed.

Lemma sl_wf_lookup sl layer l : sl_wf sl → sl_layers sl !! layer = Some l → layer_wf l.
Proof. intros Hsl Hl. by apply (Hsl layer). Qed.

(** Distinct truthy tags: two entries with the same truthy tag are one. *)
Lemma layer_tags_unique l i j e1 e2 t :
  NoDup (layer_tags l) → l !! i = Some e1 → l !! j = Some e2 →
  truthy_tag (sle_tag e1) = Some t → truthy_tag (sle_tag e2) = Some t → i = j.
Proof.
  revert i j. induction l as [|e l IH]; intros i j Hnd Hi Hj H1 H2; [done|].
  rewrite layer_tags_cons in Hnd.
  assert (∀ i' e', l !! i' = Some e' → truthy_tag (sle_tag e') = Some t → t ∈ layer_tags l)
    as Hmem by (intros i' e' ? ?; apply list_elem_of_omap; eauto using list_elem_of_lookup_2).
  destruct i as [|i], j as [|j]; simpl in Hi, Hj; simplify_eq; [done| | |].
  - rewrite H1 in Hnd. apply NoDup_cons in Hnd as [Hn _]. exfalso. eauto.
  - rewrite H2 in Hnd. apply NoDup_cons in Hnd as [Hn _]. exfalso. eauto.
  - f_equal. apply (IH i j); auto.
    destruct (truthy_tag (sle_tag e)); [by apply NoDup_cons in Hnd as [_ ?]|done].
Qed.

Lemma truthy_tag_nonempty k : k ≠ "" → truthy_tag (Some k) = Some k.
Proof. intros Hk. simpl. by rewrite decide_False. Qed.

Lemma remove_here_tag k (e : sle (D:=D)) :
  k ≠ "" → sle_tag e = Some k → remove_here (TTag (Some k)) e = true.
Proof.
  intros Hk Ht. unfold remove_here, tag_eq_target, tag_truthy.
  rewrite Ht, truthy_tag_nonempty by done. by rewrite !bool_decide_eq_true_2.
Qed.

(** In a well-formed layer, [remove] and [add] find the one entry tagged [k]. *)
Lemma remove_index_ref_tagged l r e k :
  layer_wf l → k ≠ "" → l !! r = Some e → sle_tag e = Some k →
  remove_index_ref l (TTag (Some k)) = Some r.
Proof.
  intros [_ [Hnd _]] Hk Hr He. unfold remove_index_ref.
  destruct (list_find (λ e, remove_here (TTag (Some k)) e = true) l) as [[r0 e0]|] eqn:Hf.
  - apply list_find_Some in Hf as (Hr0 & Hrm & _). simpl. f_equal.
    destruct (remove_here_TTag _ _ Hrm) as (k' & Hk' & Ht0).
    rewrite truthy_tag_nonempty in Hk' by done. injection Hk' as <-.
    eapply layer_tags_unique; eauto. by rewrite He, truthy_tag_nonempty.
  - rewrite list_find_None, Forall_forall in Hf. exfalso.
    eapply Hf; [by eapply list_elem_of_lookup_2|by apply remove_here_tag].
Qed.

Lemma lifecycle_tag_ne k p : has_dollar k = false → k ≠ lifecycle_tag p k.
Proof. intros Hd Heq. pose proof (lifecycle_tag_has_dollar p k) as Hl. rewrite <- Heq in Hl. congruence. Qed.

Lemma remove_hidden_entries_Ok now l l' :
  remove_hidden_entries now l = Ok l' → l' = filter (λ e, keep_ok now e = true) l.
Proof.
  revert l'. induction l as [|e l IH]; intros l' Hr; simpl in Hr; [by injection Hr as <-|].
  inv_ok. subst. rewrite (IH _ H1). unfold keep_ok.
  destruct x; [rewrite filter_cons_True|rewrite filter_cons_False]; rewrite ?H0; done.
Qed.

Lemma keep_ok_shown now e : shown_entry e → keep_ok now e = true.
Proof.
  unfold shown_entry, keep_ok, keep_after_hide. destruct (truthy_tag (sle_tag e)) as [t|]; [|done].
  intros Hs. destruct (Hs t eq_refl) as [-> ->]. done.
Qed.
(** An entry at another index than the one [hide_or_replace] works on
    survives it. *)
Lemma elem_of_after_hide l i j x p now l' :
  i ≠ j → l !! j = Some x → hide_or_replace_entries l (Some i) p now = Ok l' → x ∈ l'.
Proof.
  intros Hij Hj Hrun.
  apply hide_or_replace_entries_Ok in Hrun as (e & _ & [-> | (? & ? & ? & _ & _ & _ & ->)]).
  - destruct (decide (j < i)%nat).
    + apply list_elem_of_lookup_2 with j. by rewrite list_lookup_delete_lt.
    + destruct j as [|j]; [lia|]. apply list_elem_of_lookup_2 with j.
      rewrite list_lookup_delete_ge by lia. done.
  - apply list_elem_of_lookup_2 with j. by rewrite list_lookup_insert_ne.
Qed.

(** The entry [add_entries] inserts stays in the layer, with the key as
    its tag and the displayable [add] built: the old transform's
    successor when the key replaced an entry, the shown one otherwise. *)
Lemma add_entries_inserted cfg l thing key z behind at_list name atl dt now l' :
  add_entries cfg l thing key z behind at_list name atl dt now = Ok l' →
  ∃ e, e ∈ l' ∧ sle_tag e = key ∧
    match remove_index_ref l (TTag key) with
    | Some r => ∃ old, l !! r = Some old ∧
        sle_displayable e = d_show (set_transform_event "replace"
          (replacing_thing cfg old (match atl with Some a => d_atl_transform a thing | None => thing end)
             atl at_list))
    | None => sle_displayable e = d_show (set_transform_event "show"
        (shown_thing (match atl with Some a => d_atl_transform a thing | None => thing end) dt))
    end.
Proof.
  unfold add_entries. rewrite find_index_eq. cbv zeta. intros Hrun.
  pose proof (add_index_ref_le l (TTag key) z behind) as Hai.
  destruct (remove_index_ref l (TTag key)) as [r|] eqn:Hr.
  - apply bind_Ok in Hrun as (old & Hold & Hrun). unfold nth_or in Hold.
    destruct (l !! r) as [o|] eqn:Hlr; [injection Hold as <-|done].
    match type of Hrun with
    | hide_or_replace_entries (list_insert_at ?ai ?x ?l0) (Some ?r') _ _ = _ =>
        pose proof (list_insert_at_lookup_new ai x l0 Hai) as Hnew;
        apply (elem_of_after_hide _ r' ai x) in Hrun; [|case_decide; lia|exact Hnew]
    end.
    eexists. split; [exact Hrun|]. split; [done|]. by exists o.
  - injection Hrun as <-. eexists. split.
    + eapply list_elem_of_lookup_2, list_insert_at_lookup_new. done.
    + done.
Qed.
(** Purging [hide$k] and [replaced$k] keeps the entry tagged [k]. *)
Lemma purge_keeps_tagged k l e :
  has_dollar k = false → e ∈ l → sle_tag e = Some k → e ∈ remove_hide_replaced_entries k l.
Proof.
  intros Hd He Ht. apply list_elem_of_filter. split; [|done].
  rewrite Ht. split; intros [= Heq]; by eapply lifecycle_tag_ne.
Qed.

(** In a layer with distinct tags, the search for the tag [k] finds the
    one entry carrying it. *)
Lemma list_find_unique_tag l e k :
  NoDup (layer_tags l) → k ≠ "" → e ∈ l → sle_tag e = Some k →
  (λ p, sle_displayable p.2) <$> list_find (λ e, sle_tag e = Some k) l = Some (sle_displayable e).
Proof.
  intros Hnd Hk He Ht. apply list_elem_of_lookup_1 in He as [j Hj].
  destruct (list_find _ l) as [[i e0]|] eqn:Hf.
  - apply list_find_Some in Hf as (Hi & Ht0 & _). simpl.
    assert (i = j) as -> by (eapply layer_tags_unique; eauto;
      [rewrite Ht0|rewrite Ht]; by apply truthy_tag_nonempty).
    congruence.
  - apply list_find_None in Hf. rewrite Forall_lookup in Hf. by destruct (Hf j e Hj).
Qed.
End wf_lemmas.

(** ** Preservation by the methods of [SceneLists] *)

Section wf_methods.
Context {D : Type} `{EqDecision D} `{DisplayableOps D}.
Implicit Types (l : list (sle (D:=D))) (sl : scene_lists (D:=D)).

(** C1: [add] keeps every layer sorted by zorder, with distinct tags and
    depth-one lifecycle tags, for a dollar-free key (image tags are). *)
Theorem add_preserves_wf cfg sl layer thing key zorder behind at_list name atl dt
    transient now sl' :
  sl_wf sl → (∀ k, truthy_tag key = Some k → has_dollar k = false) →
  add cfg sl layer thing key zorder behind at_list name atl dt transient now = Ok sl' →
  sl_wf sl'.
Proof.
  intros Hwf Hkey Hrun. unfold add in Hrun.
  destruct (sl_layers sl !! layer) as [l0|] eqn:Hl0; [|done].
  apply bind_Ok in Hrun as (sl1 & Hpro & Hrun).
  apply bind_Ok in Hrun as (l & Hl & Hrun). apply bind_Ok in Hrun as (l' & Hadd & [= <-]).
  pose proof (add_prologue_layers _ _ _ _ _ _ _ _ Hl0 Hpro) as Hlay.
  pose proof (sl_wf_lookup _ _ _ Hwf Hl0) as Hwf0.
  unfold lookup_or in Hl. rewrite Hlay in Hl.
  destruct (truthy_tag key) as [k|] eqn:Hk.
  - rewrite lookup_insert_eq in Hl. injection Hl as <-.
    apply sl_wf_set_layer.
    + unfold sl_wf. rewrite Hlay. apply map_Forall_insert_2; [|done].
      by apply remove_hide_replaced_entries_wf.
    + eapply add_entries_wf; [by apply remove_hide_replaced_entries_wf| |done].
      intros k' Hk'. rewrite Hk in Hk'. injection Hk' as <-.
      split; [by apply Hkey|]. apply remove_hide_replaced_entries_tags.
  - rewrite Hl0 in Hl. injection Hl as <-.
    apply sl_wf_set_layer; [unfold sl_wf; by rewrite Hlay|].
    eapply add_entries_wf; [done| |done]. intros k' Hk'. by rewrite Hk in Hk'.
Qed.

(** The entry [remove] finds is not an exiting one. *)
Definition remove_target_ok l (tg : target D) : Prop :=
  ∀ r e t, remove_index_ref l tg = Some r → l !! r = Some e →
    truthy_tag (sle_tag e) = Some t → has_dollar t = false.

Lemma remove_target_ok_tag l k : has_dollar k = false → remove_target_ok l (TTag (Some k)).
Proof.
  intros Hk r e t Hr He Ht. destruct (remove_index_ref_Some _ _ _ Hr) as (e' & He' & Hrm).
  rewrite He in He'. injection He' as <-.
  destruct (remove_here_TTag _ _ Hrm) as (k' & Hk' & Ht'). simpl in Hk'.
  case_decide; simplify_eq. congruence.
Qed.

(** C2: [remove] keeps every layer well formed when it hides a shown
    (not an exiting) entry; in particular for any dollar-free tag. *)
Theorem remove_preserves_wf sl layer tg now sl' :
  sl_wf sl →
  (∀ l, sl_layers sl !! layer = Some l → remove_target_ok l tg) →
  remove sl layer tg now = Ok sl' → sl_wf sl'.
Proof.
  intros Hwf Htg Hrun. unfold remove in Hrun.
  destruct (sl_layers sl !! layer) as [l|] eqn:Hl; [|done].
  rewrite find_index_eq in Hrun.
  destruct (remove_index_ref l tg) as [r|] eqn:Hr; [|by injection Hrun as <-].
  apply bind_Ok in Hrun as (e & He & Hrun). unfold nth_or in He.
  destruct (l !! r) as [e'|] eqn:Hle; [injection He as ->|done].
  apply bind_Ok in Hrun as (sl1 & Hsl1 & Hrun).
  assert (sl_layers sl1 = sl_layers sl) as Hlay.
  { destruct (truthy_tag (sle_tag e)); [|by injection Hsl1 as <-].
    apply bind_Ok in Hsl1 as (ats & _ & [= <-]). done. }
  unfold hide_or_replace, lookup_or in Hrun. rewrite Hlay, Hl in Hrun.
  apply bind_Ok in Hrun as (l1 & [= <-] & Hrun).
  apply bind_Ok in Hrun as (l' & Hhide & [= <-]).
  apply sl_wf_set_layer; [unfold sl_wf; by rewrite Hlay|].
  pose proof (sl_wf_lookup _ _ _ Hwf Hl) as Hwfl.
  eapply hide_or_replace_entries_wf; [done|by left| |done].
  intros e' t He' Ht. rewrite Hle in He'. injection He' as <-.
  assert (has_dollar t = false) as Htd by (eapply Htg; eauto).
  split; [done|]. apply layer_wf_no_hide_twin; [done| |done].
  apply list_elem_of_omap. exists e. split; [by eapply list_elem_of_lookup_2|done].
Qed.

(** Showing a tag keeps one visible entry for it: after [add] with
    the tag [k] (as in [add(layer, D, tag="t")] following an earlier
    one), the layer has exactly one entry tagged [k] and at most one
    tagged [replaced$k]. *)
Theorem add_one_visible cfg sl layer thing k zorder behind at_list name atl dt transient now sl' :
  sl_wf sl → k ≠ "" → has_dollar k = false →
  add cfg sl layer thing (Some k) zorder behind at_list name atl dt transient now = Ok sl' →
  ∃ l' i e, sl_layers sl' !! layer = Some l' ∧ l' !! i = Some e ∧ sle_tag e = Some k ∧
    (∀ j e', l' !! j = Some e' → sle_tag e' = Some k → j = i) ∧
    (∀ j1 j2 e1 e2, l' !! j1 = Some e1 → l' !! j2 = Some e2 →
       sle_tag e1 = Some (lifecycle_tag "replaced" k) →
       sle_tag e2 = Some (lifecycle_tag "replaced" k) → j1 = j2).
Proof.
  intros Hwf Hk Hd Hrun. unfold add in Hrun.
  destruct (sl_layers sl !! layer) as [l0|] eqn:Hl0; [|done].
  apply bind_Ok in Hrun as (sl1 & Hpro & Hrun).
  apply bind_Ok in Hrun as (l & Hl & Hrun). apply bind_Ok in Hrun as (l' & Hadd & [= <-]).
  pose proof (add_prologue_layers _ _ _ _ _ _ _ _ Hl0 Hpro) as Hlay.
  rewrite truthy_tag_nonempty in Hlay by done.
  unfold lookup_or in Hl. rewrite Hlay, lookup_insert_eq in Hl. injection Hl as <-.
  assert (layer_wf l' ∧ (∀ k', truthy_tag (Some k) = Some k' → k' ∈ layer_tags l'))
    as [[_ [Hnd _]] Hin].
  { eapply add_entries_wf; [apply remove_hide_replaced_entries_wf; by eapply sl_wf_lookup| |exact Hadd].
    intros k' Hk'. rewrite truthy_tag_nonempty in Hk' by done. injection Hk' as <-.
    split; [done|]. apply remove_hide_replaced_entries_tags. }
  apply truthy_tag_nonempty in Hk as Hk'.
  apply Hin, list_elem_of_omap in Hk' as (e & He & Het).
  apply list_elem_of_lookup_1 in He as [i Hi].
  exists l', i, e. split_and!; [simpl; by rewrite lookup_insert_eq|done|by apply truthy_tag_Some| |].
  - intros j e' Hj Htj. eapply layer_tags_unique; eauto. by rewrite Htj, truthy_tag_nonempty.
  - intros j1 j2 e1 e2 Hj1 Hj2 Ht1 Ht2. eapply layer_tags_unique; eauto.
    + by rewrite Ht1, truthy_tag_lifecycle.
    + by rewrite Ht2, truthy_tag_lifecycle.
Qed.

(** C29: the entry a tag replaces is always handed to [hide_or_replace]
    with ["replaced"], whether or not [keep_running_transform] carried
    its transform over to the new one: when its [_hide] returns a
    successor, a [replaced$k] entry holding that successor stays in the
    layer. *)
Theorem add_replaced_remnant cfg sl layer thing k zorder behind at_list name atl dt transient now
    sl' l0 r old d :
  sl_wf sl → k ≠ "" → has_dollar k = false →
  sl_layers sl !! layer = Some l0 → l0 !! r = Some old → sle_tag old = Some k →
  d_hide (sle_displayable old) (now - (sle_show_time old ?: now))
    (now - (sle_animation_time old ?: now)) (PyStr "replaced") = Some d →
  add cfg sl layer thing (Some k) zorder behind at_list name atl dt transient now = Ok sl' →
  ∃ l' e, sl_layers sl' !! layer = Some l' ∧ e ∈ l' ∧
    sle_tag e = Some (lifecycle_tag "replaced" k) ∧ sle_displayable e = d.
Proof.
  intros Hwf Hk Hd Hl0 Hr Hold Hhide Hrun. unfold add in Hrun. rewrite Hl0 in Hrun.
  apply bind_Ok in Hrun as (sl1 & Hpro & Hrun).
  apply bind_Ok in Hrun as (l & Hl & Hrun). apply bind_Ok in Hrun as (l' & Hadd & [= <-]).
  pose proof (add_prologue_layers _ _ _ _ _ _ _ _ Hl0 Hpro) as Hlay.
  rewrite truthy_tag_nonempty in Hlay by done.
  unfold lookup_or in Hl. rewrite Hlay, lookup_insert_eq in Hl. injection Hl as <-.
  set (l := remove_hide_replaced_entries k l0) in *.
  assert (layer_wf l) as Hwl
    by (apply remove_hide_replaced_entries_wf; by eapply sl_wf_lookup).
  assert (old ∈ l) as Hin
    by (apply purge_keeps_tagged; [done|by eapply list_elem_of_lookup_2|done]).
  apply list_elem_of_lookup_1 in Hin as [r1 Hr1].
  unfold add_entries in Hadd. rewrite find_index_eq,
    (remove_index_ref_tagged l r1 old k Hwl Hk Hr1 Hold) in Hadd.
  apply bind_Ok in Hadd as (old' & Hold' & Hadd).
  unfold nth_or in Hold'. rewrite Hr1 in Hold'. injection Hold' as <-. cbv zeta in Hadd.
  pose proof (add_index_ref_le l (TTag (Some k)) zorder behind) as Hai.
  match type of Hadd with
  | hide_or_replace_entries (list_insert_at ?ai ?x _) _ _ _ = _ =>
      pose proof (list_insert_at_lookup_shift ai r1 x old l Hai Hr1) as Hr'
  end.
  unfold hide_or_replace_entries, nth_or in Hadd. rewrite Hr' in Hadd. simpl in Hadd.
  rewrite Hold, truthy_tag_nonempty, Hhide in Hadd by done. injection Hadd as <-.
  eexists _, _. split; [simpl; by rewrite lookup_insert_eq|].
  split; [eapply list_elem_of_lookup_2, list_lookup_insert_eq; by eapply lookup_lt_Some|].
  by split.
Qed.

(** [remove_hidden] sweeps each layer as a filter: a layer keeps, in
    order, the entries [keep_after_hide] keeps (the lifecycle entries
    whose [_hide] still returns a displayable, and every other entry), so
    no shown entry is ever swept, and the scene lists stay well formed. *)
Theorem remove_hidden_sweeps sl now sl' :
  remove_hidden sl now = Ok sl' →
  (∀ k, sl_layers sl' !! k = filter (λ e, keep_ok now e = true) <$> sl_layers sl !! k) ∧
  (∀ k l e, sl_layers sl !! k = Some l → e ∈ l → shown_entry e →
            ∃ l', sl_layers sl' !! k = Some l' ∧ e ∈ l') ∧
  (sl_wf sl → sl_wf sl').
Proof.
  unfold remove_hidden. intros Hr. inv_ok. subst. simpl.
  pose proof (gmap_mapM_Ok _ _ _ H0) as Hm.
  assert (∀ k, x !! k = filter (λ e, keep_ok now e = true) <$> sl_layers sl !! k) as Hk.
  { intros k. specialize (Hm k). destruct (sl_layers sl !! k); simpl; [|done].
    destruct Hm as (b & Hb & ->). by rewrite (remove_hidden_entries_Ok _ _ _ Hb). }
  split_and!; [done| |].
  - intros k l e Hl He Hs. rewrite Hk, Hl. eexists. split; [done|].
    apply list_elem_of_filter. split; [by apply keep_ok_shown|done].
  - intros Hwf k l' Hl'. rewrite Hk in Hl'.
    destruct (sl_layers sl !! k) as [l|] eqn:Hl; simplify_eq/=.
    eapply layer_wf_sublist; [apply sublist_filter|]. by eapply sl_wf_lookup.
Qed.
(** C32: showing then looking up a tag is a round trip: after [add] with
    a non-empty, dollar-free tag [k] on well-formed lists,
    [get_displayable_by_tag(layer, k)] returns the displayable [add]
    stored: the shown one (with the ["show"] event) when no entry had
    the tag, and otherwise the one built from the entry it replaced (the
    old transform's successor, with the ["replace"] event). *)
Theorem add_get_roundtrip cfg sl layer thing k zorder behind at_list name atl dt transient now sl' l0 :
  sl_wf sl → k ≠ "" → has_dollar k = false → sl_layers sl !! layer = Some l0 →
  add cfg sl layer thing (Some k) zorder behind at_list name atl dt transient now = Ok sl' →
  ((∀ e, e ∈ l0 → sle_tag e ≠ Some k) →
     get_displayable_by_tag sl' layer (Some k) = Ok (Some (d_show (set_transform_event "show"
       (shown_thing (match atl with Some a => d_atl_transform a thing | None => thing end) dt))))) ∧
  (∀ old, old ∈ l0 → sle_tag old = Some k →
     get_displayable_by_tag sl' layer (Some k) = Ok (Some (d_show (set_transform_event "replace"
       (replacing_thing cfg old (match atl with Some a => d_atl_transform a thing | None => thing end)
          atl at_list))))).
Proof.
  intros Hwf Hk Hd Hl0 Hrun. unfold add in Hrun. rewrite Hl0 in Hrun.
  apply bind_Ok in Hrun as (sl1 & Hpro & Hrun).
  apply bind_Ok in Hrun as (l & Hl & Hrun). apply bind_Ok in Hrun as (l' & Hadd & [= <-]).
  pose proof (add_prologue_layers _ _ _ _ _ _ _ _ Hl0 Hpro) as Hlay.
  rewrite truthy_tag_nonempty in Hlay by done.
  unfold lookup_or in Hl. rewrite Hlay, lookup_insert_eq in Hl. injection Hl as <-.
  set (l := remove_hide_replaced_entries k l0) in *.
  assert (layer_wf l) as Hwl by (apply remove_hide_replaced_entries_wf; by eapply sl_wf_lookup).
  assert (layer_wf l' ∧ (∀ k', truthy_tag (Some k) = Some k' → k' ∈ layer_tags l'))
    as [[_ [Hnd _]] _].
  { eapply add_entries_wf; [done| |exact Hadd].
    intros k' Hk'. rewrite truthy_tag_nonempty in Hk' by done. injection Hk' as <-.
    split; [done|]. apply remove_hide_replaced_entries_tags. }
  destruct (add_entries_inserted _ _ _ _ _ _ _ _ _ _ _ _ Hadd) as (e & He & Het & Hdisp).
  unfold get_displayable_by_tag. simpl. rewrite lookup_insert_eq.
  rewrite (list_find_unique_tag l' e k Hnd Hk He Het).
  destruct (remove_index_ref l (TTag (Some k))) as [r|] eqn:Hr.
  - destruct Hdisp as (o & Ho & ->).
    destruct (remove_index_ref_Some _ _ _ Hr) as (o' & Ho' & Hrm). rewrite Ho in Ho'. injection Ho' as <-.
    destruct (remove_here_TTag _ _ Hrm) as (k' & Hk' & Hot).
    rewrite truthy_tag_nonempty in Hk' by done. injection Hk' as <-. apply truthy_tag_Some in Hot.
    split.
    + intros Hnone. exfalso. apply (Hnone o); [|done].
      eapply elem_of_sublist; [by eapply list_elem_of_lookup_2|apply sublist_filter].
    + intros old Hold Holdt.
      apply (purge_keeps_tagged k) in Hold as Hold'; [|done|done].
      apply list_elem_of_lookup_1 in Hold' as [j Hj].
      rewrite (remove_index_ref_tagged l j old k Hwl Hk Hj Holdt) in Hr. injection Hr as Hrj.
      subst j. unfold l in Ho. assert (o = old) as -> by congruence. done.
  - rewrite Hdisp. split; [done|]. intros old Hold Holdt. exfalso.
    apply (purge_keeps_tagged k) in Hold as Hold'; [|done|done].
    apply list_elem_of_lookup_1 in Hold' as [j Hj].
    by rewrite (remove_index_ref_tagged l j old k Hwl Hk Hj Holdt) in Hr.
Qed.
End wf_methods.
