(* ===== verification/SceneListInit.v ===== *)
(** * Building and loading scene lists (core.py, [SceneLists.__init__],
      [after_setstate] and [after_upgrade], lines 444-541)

    A new context's [SceneLists] is built either empty, or as a copy of
    the previous context's lists ([oldsl]): every configured layer is
    copied with its at-lists, the overlay layers are wiped, and the
    transient layers are hidden ([replace_transient]).  A [SceneLists]
    read back from a save goes through [renpy.object.Object.__setstate__]:
    [after_upgrade(version)] migrates a save of an older [__version__]
    (5-tuples for entries before version 4, no at-lists before version 1,
    [image_predict_info] before version 6), then [after_setstate] adds the
    layers the configuration gained since.

    The saved object's [__dict__] is [saved_sl]: each attribute an older
    version may lack is an [option].  Its projection [saved_lists] is the
    [scene_lists] the methods of [SceneList] work on, when every attribute
    is there and every entry is a [SceneListEntry].

    Theorems: a fresh or copied [SceneLists] has the three dicts keyed by
    exactly the configured layers, copied layers keep their entries, wiped
    and transient ones are empty; the copy raises exactly when the
    configuration or the old lists are inconsistent; saving and loading a
    current [SceneLists] gives it back; loading a save of any older
    version gives lists with every configured layer. *)

From stdpp Require Import base list strings gmap.
From S2P Require Import Prelude Displayable SceneList.

Abbreviation shown_info := (gmap (string * string) (list string)).

Section init.
Context {D : Type} `{EqDecision D} `{DisplayableOps D}.
Implicit Types (sl : scene_lists (D:=D)).

(** [renpy.config.layers + renpy.config.top_layers] *)
Definition all_layers (cfg : config) : list string := cfg_layers cfg ++ cfg_top_layers cfg.

(** The three assignments of one layer in [__init__] and [after_setstate]:
    [self.layers[i] = l], [self.at_list[i] = ats],
    [self.layer_at_list[i] = lat]. *)
Definition init_layer (i : string) (l : list sle) (ats : gmap string (list D))
    (lat : option Z * list D) sl : scene_lists :=
  mk_scene_lists (<[i:=l]> (sl_layers sl)) (<[i:=ats]> (sl_at_list sl))
    (<[i:=lat]> (sl_layer_at_list sl)) (sl_shown sl) (sl_additional_transient sl)
    (sl_shown_window sl).

(** The attributes [__init__] sets before it looks at [oldsl]
    (lines 482-507): no window shown, empty dicts, no transient pairs. *)
Definition sl_empty (shown : shown_info) : scene_lists (D:=D) := mk_scene_lists ∅ ∅ ∅ shown [] false.

(** One layer of the copy (lines 512-522): the old list, or [[]] on a
    [KeyError]; the old at-lists when the old [at_list] has the layer,
    whose [layer_at_list] is then read unguarded. *)
Definition copy_layer (oldsl : scene_lists) sl (i : string) : result scene_lists :=
  let l := default [] (sl_layers oldsl !! i) in
  match sl_at_list oldsl !! i with
  | Some ats => lat ← lookup_or (KeyError i) i (sl_layer_at_list oldsl);
                Ok (init_layer i l ats lat sl)
  | None => Ok (init_layer i l ∅ (None, []) sl)
  end.

(** [SceneLists.__init__(oldsl, shown)] (lines 480-541); [oldsl] is
    [None] or a [SceneLists], which is always true. *)
Definition sl_init (cfg : config) (oldsl : option scene_lists) (shown : shown_info) (now : Z)
    : result scene_lists :=
  match oldsl with
  | Some old =>
      sl1 ← foldlM (copy_layer old) (sl_empty shown) (all_layers cfg);
      sl2 ← foldlM (λ sl i, clear sl i false now) sl1 (cfg_overlay_layers cfg);
      replace_transient cfg sl2 now
  | None =>
      Ok (foldl (λ sl i, init_layer i [] ∅ (None, []) sl) (sl_empty shown) (all_layers cfg))
  end.

(** The layer [i] is in the three dicts. *)
Definition has_layer sl (i : string) : Prop :=
  is_Some (sl_layers sl !! i) ∧ is_Some (sl_at_list sl !! i) ∧ is_Some (sl_layer_at_list sl !! i).

#[global] Instance has_layer_dec sl i : Decision (has_layer sl i).
Proof. unfold has_layer. apply _. Defined.
End init.

(** ** Saves *)

Section saved.
Context {D : Type} `{EqDecision D} `{DisplayableOps D}.
Implicit Types (sl : scene_lists (D:=D)).

(** An entry as a save holds it: a 5-tuple
    [(tag, zorder, show_time, animation_time, displayable)] before
    version 4, a [SceneListEntry] after. *)
Inductive saved_entry :=
  | SavedTuple (tag : option string) (zorder : Z) (show_time animation_time : option Z) (d : D)
  | SavedSLE (e : sle (D:=D)).

(** The [__dict__] of a saved [SceneLists]: the attributes a save of an
    older version may lack are options ([drag_group], [music] and
    [focused] are not modelled). *)
Record saved_sl := mk_saved {
  sv_layers : gmap string (list saved_entry);
  sv_at_list : option (gmap string (gmap string (list D)));
  sv_layer_at_list : option (gmap string (option Z * list D));
  sv_shown : option shown_info;
  sv_image_predict_info : option shown_info;
  sv_additional_transient : option (list (string * option string));
  sv_shown_window : option bool
}.

(** [SceneListEntry] built from [i + (None,)] (line 469): a tuple gains the name
    [None]; a [SceneListEntry] has no [+]. *)
Definition upgrade_entry (e : saved_entry) : result saved_entry :=
  match e with
  | SavedTuple t z st at_ d => Ok (SavedSLE (SLE t z st at_ d None))
  | SavedSLE _ => raise TypeError
  end.

(** The dicts the [version < 1] step rebuilds (lines 453-460). *)
Definition fresh_at_list (cfg : config) : gmap string (gmap string (list D)) :=
  foldl (λ m i, <[i:=∅]> m) ∅ (all_layers cfg).
Definition fresh_layer_at_list (cfg : config) : gmap string (option Z * list D) :=
  foldl (λ m i, <[i:=(None, [])]> m) ∅ (all_layers cfg).

(** [SceneLists.after_upgrade(version)] (lines 451-476); the
    [version < 5] step sets [drag_group], which is not modelled. *)
Definition after_upgrade (cfg : config) (version : nat) (s : saved_sl) : result saved_sl :=
  let s0 :=
    if decide (version < 1)%nat then
      mk_saved (sv_layers s) (Some (fresh_at_list cfg)) (Some (fresh_layer_at_list cfg))
        (sv_shown s) (sv_image_predict_info s) (sv_additional_transient s) (sv_shown_window s)
    else s in
  let s1 :=
    if decide (version < 3)%nat then
      mk_saved (sv_layers s0) (sv_at_list s0) (sv_layer_at_list s0) (sv_shown s0)
        (sv_image_predict_info s0) (sv_additional_transient s0) (Some false)
    else s0 in
  s2 ← (if decide (version < 4)%nat then
          layers ← gmap_mapM (mapM (M:=result) upgrade_entry) (sv_layers s1);
          Ok (mk_saved layers (sv_at_list s1) (sv_layer_at_list s1) (sv_shown s1)
                (sv_image_predict_info s1) (Some []) (sv_shown_window s1))
        else Ok s1);
  if decide (version < 6)%nat then
    info ← attr (sv_image_predict_info s2);
    Ok (mk_saved (sv_layers s2) (sv_at_list s2) (sv_layer_at_list s2) (Some info)
          (sv_image_predict_info s2) (sv_additional_transient s2) (sv_shown_window s2))
  else Ok s2.

(** One iteration of [SceneLists.after_setstate] (lines 446-449): a
    configured layer the save lacks gets an empty list and empty
    at-lists. *)
Definition setstate_layer (s : saved_sl) (i : string) : result saved_sl :=
  if decide (is_Some (sv_layers s !! i)) then Ok s
  else ats ← attr (sv_at_list s); lats ← attr (sv_layer_at_list s);
       Ok (mk_saved (<[i:=[]]> (sv_layers s)) (Some (<[i:=∅]> ats))
             (Some (<[i:=(None, [])]> lats)) (sv_shown s) (sv_image_predict_info s)
             (sv_additional_transient s) (sv_shown_window s)).

(** [SceneLists.after_setstate] (lines 444-449). *)
Definition after_setstate (cfg : config) (s : saved_sl) : result saved_sl :=
  foldlM setstate_layer s (all_layers cfg).

(** [SceneLists.__version__] (line 442). *)
Definition sl_version : nat := 6.

(** [renpy.object.Object.__getstate__]: the attributes, and the class's
    [__version__]. *)
Definition sl_save sl : nat * saved_sl :=
  (sl_version, mk_saved ((λ l : list sle, SavedSLE <$> l) <$> sl_layers sl) (Some (sl_at_list sl))
                 (Some (sl_layer_at_list sl)) (Some (sl_shown sl)) None
                 (Some (sl_additional_transient sl)) (Some (sl_shown_window sl))).

(** [renpy.object.Object.__setstate__]: [after_upgrade] when the saved
    [__version__] (0 when absent) is not the class's, then
    [after_setstate]. *)
Definition setstate (cfg : config) (p : nat * saved_sl) : result saved_sl :=
  s ← (if decide (p.1 = sl_version) then Ok p.2 else after_upgrade cfg p.1 p.2);
  after_setstate cfg s.

(** The scene lists the methods see in a loaded object: [sle.tag] on a
    tuple, or a missing attribute, raises [AttributeError]. *)
Definition entry_sle (e : saved_entry) : result sle :=
  match e with SavedSLE e => Ok e | SavedTuple _ _ _ _ _ => raise AttributeError end.

Definition saved_lists (s : saved_sl) : result scene_lists :=
  layers ← gmap_mapM (mapM entry_sle) (sv_layers s);
  ats ← attr (sv_at_list s); lats ← attr (sv_layer_at_list s); shown ← attr (sv_shown s);
  tr ← attr (sv_additional_transient s); w ← attr (sv_shown_window s);
  Ok (mk_scene_lists layers ats lats shown tr w).

(** Loading a save: [__setstate__], then the lists it leaves. *)
Definition load (cfg : config) (p : nat * saved_sl) : result scene_lists :=
  s ← setstate cfg p; saved_lists s.

(** The entry a saved one loads as: a tuple gains the name [None]. *)
Definition sle_of_saved (e : saved_entry) : sle :=
  match e with SavedTuple t z st at_ d => SLE t z st at_ d None | SavedSLE e => e end.

(** A layer's entries after [after_upgrade]: each as it loads. *)
Definition upgraded_layer (l : list saved_entry) : list saved_entry :=
  (λ e, SavedSLE (sle_of_saved e)) <$> l.

Definition is_tuple (e : saved_entry) : bool :=
  match e with SavedTuple _ _ _ _ _ => true | SavedSLE _ => false end.

(** [i in d] for a dict attribute the save may lack. *)
Definition has_key {A} (o : option (gmap string A)) (i : string) : bool :=
  match o with Some m => bool_decide (is_Some (m !! i)) | None => false end.

(** The attributes a [SceneLists] of [__version__ v < 6] had: tuples
    before version 4, the at-lists from version 1, [shown_window] from
    version 3, [additional_transient] from version 4, and
    [image_predict_info]. *)
Definition saved_of_version (v : nat) (s : saved_sl) : Prop :=
  map_Forall (λ _ l, Forall (λ e, is_tuple e = bool_decide (v < 4)%nat) l) (sv_layers s) ∧
  ((1 ≤ v)%nat → is_Some (sv_at_list s) ∧ is_Some (sv_layer_at_list s)) ∧
  ((3 ≤ v)%nat → is_Some (sv_shown_window s)) ∧
  ((4 ≤ v)%nat → is_Some (sv_additional_transient s)) ∧
  is_Some (sv_image_predict_info s).

#[global] Instance saved_of_version_dec v s : Decision (saved_of_version v s).
Proof. unfold saved_of_version. apply _. Defined.

(** Every configured layer the save has is in its at-list dicts. *)
Definition saved_keyed (cfg : config) (s : saved_sl) : bool :=
  forallb (λ i, negb (bool_decide (is_Some (sv_layers s !! i))) ||
                (has_key (sv_at_list s) i && has_key (sv_layer_at_list s) i)) (all_layers cfg).
End saved.

(** ** Building: the dicts and the layers *)

Section init_facts.
Context {D : Type} `{EqDecision D} `{DisplayableOps D}.
Implicit Types (sl : scene_lists (D:=D)).

(** The three dicts are keyed by exactly the layers [A]. *)
Definition keyed_by (A : list string) sl : Prop :=
  ∀ i, (is_Some (sl_layers sl !! i) ↔ i ∈ A) ∧ (is_Some (sl_at_list sl !! i) ↔ i ∈ A) ∧
       (is_Some (sl_layer_at_list sl !! i) ↔ i ∈ A).

Lemma keyed_by_has_layer A sl i : keyed_by A sl → i ∈ A → has_layer sl i.
Proof. intros HA Hi. destruct (HA i) as (? & ? & ?). unfold has_layer. naive_solver. Qed.

Lemma clear_keyed A sl i h now sl' : keyed_by A sl → clear sl i h now = Ok sl' → keyed_by A sl'.
Proof.
  intros HA (Hl & Ha & Hla & _ & _ & Hi & _)%clear_Ok k.
  assert (i ∈ A) by (destruct (HA i) as (_ & Hai & _); by apply Hai). rewrite Hl, Ha, Hla.
  destruct (decide (k = i)) as [->|Hne].
  - rewrite !lookup_insert_eq. naive_solver.
  - rewrite !lookup_insert_ne by done. apply HA.
Qed.

(** A loop of [clear]: the layers it names are emptied with their
    at-lists, the others are kept. *)
Lemma clear_all_Ok (ls : list string) sl h now sl' :
  foldlM (λ sl i, clear sl i h now) sl ls = Ok sl' →
  (∀ i, i ∈ ls → sl_layers sl' !! i = Some [] ∧ sl_at_list sl' !! i = Some ∅) ∧
  (∀ k, k ∉ ls → sl_layers sl' !! k = sl_layers sl !! k ∧ sl_at_list sl' !! k = sl_at_list sl !! k) ∧
  sl_additional_transient sl' = sl_additional_transient sl ∧ sl_shown_window sl' = sl_shown_window sl.
Proof.
  revert sl. induction ls as [|i ls IH]; intros sl Hrun; simpl in Hrun.
  - injection Hrun as <-. set_solver.
  - apply bind_Ok in Hrun as (sl1 & (Hl & Ha & _ & Htr & Hw & _)%clear_Ok & Hrun).
    destruct (IH _ Hrun) as (Hin & Hout & Htr' & Hw'). split_and!.
    + intros k Hk. destruct (decide (k ∈ ls)) as [Hk'|Hk']; [by apply Hin|].
      apply elem_of_cons in Hk as [->|Hk]; [|done].
      destruct (Hout _ Hk') as [-> ->]. rewrite Hl, Ha, !lookup_insert_eq. done.
    + intros k Hk. destruct (Hout k) as [-> ->]; [set_solver|].
      rewrite Hl, Ha, !lookup_insert_ne by set_solver. done.
    + congruence.
    + congruence.
Qed.

(** One layer of the copy. *)
Lemma copy_layer_Ok old sl i sl' :
  copy_layer old sl i = Ok sl' →
  ∃ lat, sl' = init_layer i (default [] (sl_layers old !! i)) (default ∅ (sl_at_list old !! i)) lat sl.
Proof.
  unfold copy_layer, lookup_or. destruct (sl_at_list old !! i); simpl; [|intros [= <-]; eauto].
  destruct (sl_layer_at_list old !! i); simpl; [intros [= <-]; eauto|done].
Qed.

Lemma copy_all_Ok old (ls : list string) sl sl' :
  foldlM (copy_layer old) sl ls = Ok sl' →
  (∀ i, i ∈ ls → sl_layers sl' !! i = Some (default [] (sl_layers old !! i)) ∧
                 sl_at_list sl' !! i = Some (default ∅ (sl_at_list old !! i)) ∧
                 is_Some (sl_layer_at_list sl' !! i)) ∧
  (∀ k, k ∉ ls → sl_layers sl' !! k = sl_layers sl !! k ∧ sl_at_list sl' !! k = sl_at_list sl !! k ∧
                 sl_layer_at_list sl' !! k = sl_layer_at_list sl !! k) ∧
  sl_additional_transient sl' = sl_additional_transient sl ∧ sl_shown_window sl' = sl_shown_window sl.
Proof.
  revert sl. induction ls as [|i ls IH]; intros sl Hrun; simpl in Hrun.
  - injection Hrun as <-. set_solver.
  - apply bind_Ok in Hrun as (sl1 & [lat ->]%copy_layer_Ok & Hrun).
    destruct (IH _ Hrun) as (Hin & Hout & Htr & Hw). simpl in *. split_and!; [| |done|done].
    + intros k Hk. destruct (decide (k ∈ ls)) as [Hk'|Hk']; [by apply Hin|].
      apply elem_of_cons in Hk as [->|Hk]; [|done].
      destruct (Hout _ Hk') as (-> & -> & ->). simpl. rewrite !lookup_insert_eq. eauto.
    + intros k Hk. destruct (Hout k) as (-> & -> & ->); [set_solver|]. simpl.
      rewrite !lookup_insert_ne by set_solver. done.
Qed.

(** [replace_transient] on lists with no registered transient pairs is
    its loop of [clear]. *)
Lemma replace_transient_no_pairs cfg sl now :
  sl_additional_transient sl = [] →
  replace_transient cfg sl now = foldlM (λ sl i, clear sl i true now) sl (cfg_transient_layers cfg).
Proof.
  intros Hnil. unfold replace_transient.
  destruct (foldlM _ sl _) as [sl1|e] eqn:Hrun; simpl; [|done].
  destruct (clear_all_Ok _ _ _ _ _ Hrun) as (_ & _ & Htr & _). rewrite Htr, Hnil. simpl.
  destruct sl1; simpl in *; congruence.
Qed.
(** The copy loop, started from the empty dicts, keys them by the
    layers it copies. *)
Lemma copy_all_keyed old ls shown sl1 :
  foldlM (copy_layer old) (sl_empty shown) ls = Ok sl1 → keyed_by ls sl1.
Proof.
  intros (Hin & Hout & _)%copy_all_Ok k. destruct (decide (k ∈ ls)) as [Hk|Hk].
  - destruct (Hin k Hk) as (-> & -> & ?). naive_solver.
  - destruct (Hout k Hk) as (-> & -> & ->). simpl. rewrite !lookup_empty. naive_solver.
Qed.

Lemma copy_all_no_pairs old ls shown sl1 :
  foldlM (copy_layer old) (sl_empty shown) ls = Ok sl1 → sl_additional_transient sl1 = [].
Proof. intros (_ & _ & -> & _)%copy_all_Ok. done. Qed.

Lemma clear_all_keyed A ls sl h now sl' :
  keyed_by A sl → foldlM (λ sl i, clear sl i h now) sl ls = Ok sl' → keyed_by A sl'.
Proof. intros HA. apply foldlM_Ok_inv; [done|]. intros. by eapply clear_keyed. Qed.

Lemma clear_all_no_pairs ls sl h now sl' :
  foldlM (λ sl i, clear sl i h now) sl ls = Ok sl' → sl_additional_transient sl = [] →
  sl_additional_transient sl' = [].
Proof. intros (_ & _ & -> & _)%clear_all_Ok. done. Qed.

(** A loop of [clear] over layers the lists are keyed by returns, on
    displayables that keep the base [_hide]. *)
Lemma clear_all_returns A ls sl h now :
  (∀ d st at_ k, d_hide d st at_ k = base_hide d st at_ k) →
  keyed_by A sl → (∀ i, i ∈ ls → i ∈ A) →
  ∃ sl', foldlM (λ sl i, clear sl i h now) sl ls = Ok sl' ∧ keyed_by A sl'.
Proof.
  intros Hbase HA Hls. apply foldlM_Ok_intro; [done|]. intros x i Hi Hx.
  destruct (clear_returns x i h now Hbase) as [x' Hx'];
    [apply (Hx i), Hls, Hi|apply (Hx i), Hls, Hi|].
  eauto using clear_keyed.
Qed.

(** The three loops of the copy, and the keys each leaves. *)
Lemma sl_init_copy_steps cfg old shown now sl' :
  sl_init cfg (Some old) shown now = Ok sl' →
  ∃ sl1 sl2,
    foldlM (copy_layer old) (sl_empty shown) (all_layers cfg) = Ok sl1 ∧
    foldlM (λ sl i, clear sl i false now) sl1 (cfg_overlay_layers cfg) = Ok sl2 ∧
    foldlM (λ sl i, clear sl i true now) sl2 (cfg_transient_layers cfg) = Ok sl' ∧
    keyed_by (all_layers cfg) sl1 ∧ keyed_by (all_layers cfg) sl2 ∧ keyed_by (all_layers cfg) sl'.
Proof.
  simpl. intros Hrun.
  apply bind_Ok in Hrun as (sl1 & H1 & Hrun). apply bind_Ok in Hrun as (sl2 & H2 & H3).
  pose proof (copy_all_keyed _ _ _ _ H1) as K1.
  pose proof (clear_all_keyed _ _ _ _ _ _ K1 H2) as K2.
  rewrite replace_transient_no_pairs in H3 by eauto using clear_all_no_pairs, copy_all_no_pairs.
  exists sl1, sl2. split_and!; eauto using clear_all_keyed.
Qed.

(** The loop of the fresh branch: every layer it names gets an empty
    list and empty at-lists. *)
Lemma init_all_lookup (ls : list string) sl k :
  let sl' := foldl (λ sl i, init_layer i [] ∅ (None, []) sl) sl ls in
  (k ∈ ls → sl_layers sl' !! k = Some [] ∧ sl_at_list sl' !! k = Some ∅ ∧
            sl_layer_at_list sl' !! k = Some (None, [])) ∧
  (k ∉ ls → sl_layers sl' !! k = sl_layers sl !! k ∧ sl_at_list sl' !! k = sl_at_list sl !! k ∧
            sl_layer_at_list sl' !! k = sl_layer_at_list sl !! k) ∧
  sl_additional_transient sl' = sl_additional_transient sl ∧ sl_shown_window sl' = sl_shown_window sl.
Proof.
  revert sl. induction ls as [|i ls IH]; intros sl; simpl; [set_solver|].
  destruct (IH (init_layer i [] ∅ (None, []) sl)) as (Hin & Hout & Htr & Hw). simpl in *.
  split_and!; [|intros Hk; destruct Hout as (-> & -> & ->); [set_solver|];
    rewrite !lookup_insert_ne by set_solver; done|done|done].
  intros Hk. destruct (decide (k ∈ ls)) as [Hk'|Hk']; [by apply Hin|].
  apply elem_of_cons in Hk as [->|Hk]; [|done].
  destruct (Hout Hk') as (-> & -> & ->). by rewrite !lookup_insert_eq.
Qed.

(** C14: [SceneLists(oldsl, shown)] has exactly the configured layers,
    each in the three dicts; a layer that is neither an overlay nor a
    transient layer holds the previous context's list and at-lists (an
    empty list for a layer it lacked, or without previous lists);
    overlay and transient layers are empty, with empty at-lists; no
    transient pair and no shown window carry over. *)
Theorem sl_init_spec cfg oldsl shown now sl' :
  sl_init cfg oldsl shown now = Ok sl' →
  keyed_by (all_layers cfg) sl' ∧
  (∀ i, i ∈ all_layers cfg → i ∉ cfg_overlay_layers cfg → i ∉ cfg_transient_layers cfg →
     sl_layers sl' !! i = Some (default [] (oldsl ≫= λ old, sl_layers old !! i)) ∧
     sl_at_list sl' !! i = Some (default ∅ (oldsl ≫= λ old, sl_at_list old !! i))) ∧
  (∀ i, i ∈ all_layers cfg → i ∈ cfg_overlay_layers cfg ++ cfg_transient_layers cfg →
     sl_layers sl' !! i = Some [] ∧ sl_at_list sl' !! i = Some ∅) ∧
  sl_additional_transient sl' = [] ∧ sl_shown_window sl' = false.
Proof.
  destruct oldsl as [old|]; intros Hrun.
  - pose proof Hrun as (sl1 & sl2 & H1 & H2 & H3 & _ & _ & K3)%sl_init_copy_steps.
    destruct (copy_all_Ok _ _ _ _ H1) as (Hin1 & _ & Htr1 & Hw1).
    destruct (clear_all_Ok _ _ _ _ _ H2) as (Hin2 & Hout2 & Htr2 & Hw2).
    destruct (clear_all_Ok _ _ _ _ _ H3) as (Hin3 & Hout3 & Htr3 & Hw3).
    split_and!; [done| | |by rewrite Htr3, Htr2, Htr1|by rewrite Hw3, Hw2, Hw1].
    + intros i Hi Ho Ht. destruct (Hout3 i Ht) as [-> ->]. destruct (Hout2 i Ho) as [-> ->].
      destruct (Hin1 i Hi) as (-> & -> & _). done.
    + intros i _ [Ho|Ht]%elem_of_app; [|by apply Hin3].
      destruct (decide (i ∈ cfg_transient_layers cfg)) as [Ht|Ht]; [by apply Hin3|].
      destruct (Hout3 i Ht) as [-> ->]. by apply Hin2.
  - injection Hrun as <-.
    pose proof (λ k, init_all_lookup (all_layers cfg) (sl_empty shown) k) as Hl.
    split_and!; [|naive_solver|naive_solver|apply (Hl "")|apply (Hl "")].
    intros k. destruct (decide (k ∈ all_layers cfg)) as [Hk|Hk].
    + destruct (proj1 (Hl k) Hk) as (-> & -> & ->). naive_solver.
    + destruct (proj1 (proj2 (Hl k)) Hk) as (-> & -> & ->). simpl. rewrite !lookup_empty. naive_solver.
Qed.
(** C17: on displayables that keep the base class's [_hide], copying the
    previous context's lists raises exactly when a configured layer has
    at-lists in the old [at_list] but no entry in the old [layer_at_list]
    (read unguarded, line 520), or an overlay or transient layer is not a
    configured layer ([self.at_list[i]] in [clear]). *)
Theorem sl_init_copy_raises cfg old shown now :
  (∀ d st at_ k, d_hide d st at_ k = base_hide d st at_ k) →
  (∃ sl', sl_init cfg (Some old) shown now = Ok sl') ↔
  (∀ i, i ∈ all_layers cfg → is_Some (sl_at_list old !! i) → is_Some (sl_layer_at_list old !! i)) ∧
  (∀ i, i ∈ cfg_overlay_layers cfg ++ cfg_transient_layers cfg → i ∈ all_layers cfg).
Proof.
  intros Hbase. split.
  - intros [sl' (sl1 & sl2 & H1 & H2 & H3 & _ & K2 & K3)%sl_init_copy_steps]. split.
    + intros i Hi [ats Hats]. destruct (foldlM_Ok_each _ _ _ _ H1 i Hi) as (x & x' & Hc).
      unfold copy_layer, lookup_or in Hc. rewrite Hats in Hc.
      destruct (sl_layer_at_list old !! i); [by eexists|done].
    + intros i [Ho|Ht]%elem_of_app.
      * destruct (clear_all_Ok _ _ _ _ _ H2) as (Hin & _). destruct (K2 i) as (_ & Hk & _).
        apply Hk. by rewrite (proj2 (Hin i Ho)).
      * destruct (clear_all_Ok _ _ _ _ _ H3) as (Hin & _). destruct (K3 i) as (_ & Hk & _).
        apply Hk. by rewrite (proj2 (Hin i Ht)).
  - intros [Hlat Hls].
    destruct (foldlM_Ok_intro (λ _, True) (copy_layer old) (sl_empty shown) (all_layers cfg))
      as (sl1 & H1 & _); [done| |].
    { intros x i Hi _. unfold copy_layer, lookup_or.
      destruct (sl_at_list old !! i) eqn:Ha; [|by eexists].
      destruct (Hlat i Hi) as [lat ->]; [by eexists|]. by eexists. }
    destruct (clear_all_returns (all_layers cfg) (cfg_overlay_layers cfg) sl1 false now Hbase)
      as (sl2 & H2 & K2); [by eapply copy_all_keyed|set_solver|].
    destruct (clear_all_returns (all_layers cfg) (cfg_transient_layers cfg) sl2 true now Hbase)
      as (sl3 & H3 & _); [done|set_solver|].
    exists sl3. simpl. rewrite H1. simpl. rewrite H2. simpl.
    rewrite replace_transient_no_pairs by eauto using clear_all_no_pairs, copy_all_no_pairs. done.
Qed.
End init_facts.

(** ** Loading *)

Section saved_facts.
Context {D : Type} `{EqDecision D} `{DisplayableOps D}.
Implicit Types (sl : scene_lists (D:=D)) (s : saved_sl (D:=D)).


Lemma has_key_insert {A} (m : gmap string A) i j x :
  has_key (Some m) j = true → has_key (Some (<[i:=x]> m)) j = true.
Proof.
  simpl. rewrite !bool_decide_eq_true. intros.
  destruct (decide (j = i)) as [->|?]; [rewrite lookup_insert_eq|rewrite lookup_insert_ne]; done.
Qed.

Lemma has_key_insert_eq {A} (m : gmap string A) i x : has_key (Some (<[i:=x]> m)) i = true.
Proof. simpl. rewrite bool_decide_eq_true, lookup_insert_eq. by eexists. Qed.

Lemma has_key_Some {A} (o : option (gmap string A)) i :
  has_key o i = true → ∃ m, o = Some m ∧ is_Some (m !! i).
Proof. destruct o; simpl; [rewrite bool_decide_eq_true|]; naive_solver. Qed.

Lemma setstate_layer_present s i : is_Some (sv_layers s !! i) → setstate_layer s i = Ok s.
Proof. intros Hi. unfold setstate_layer. by rewrite decide_True. Qed.

Lemma setstate_layer_missing s i ats lats :
  sv_layers s !! i = None → sv_at_list s = Some ats → sv_layer_at_list s = Some lats →
  setstate_layer s i =
    Ok (mk_saved (<[i:=[]]> (sv_layers s)) (Some (<[i:=∅]> ats)) (Some (<[i:=(None, [])]> lats))
          (sv_shown s) (sv_image_predict_info s) (sv_additional_transient s) (sv_shown_window s)).
Proof.
  intros Hi Ha Hla. unfold setstate_layer. rewrite decide_False by (rewrite Hi; apply is_Some_None).
  by rewrite Ha, Hla.
Qed.

(** The loop of [after_setstate] from a state that has both at-list
    dicts: the layers it names are there afterwards, empty when they were
    missing; nothing else changes but keys added to the at-list dicts. *)
Lemma setstate_loop_Ok (ls : list string) s0 :
  is_Some (sv_at_list s0) → is_Some (sv_layer_at_list s0) →
  ∃ s1, foldlM setstate_layer s0 ls = Ok s1 ∧
    (∀ i, is_Some (sv_layers s0 !! i) ∨ i ∉ ls → sv_layers s1 !! i = sv_layers s0 !! i) ∧
    (∀ i, i ∈ ls → sv_layers s0 !! i = None →
       sv_layers s1 !! i = Some [] ∧ has_key (sv_at_list s1) i = true ∧
       has_key (sv_layer_at_list s1) i = true) ∧
    (∀ i, has_key (sv_at_list s0) i = true → has_key (sv_at_list s1) i = true) ∧
    (∀ i, has_key (sv_layer_at_list s0) i = true → has_key (sv_layer_at_list s1) i = true) ∧
    is_Some (sv_at_list s1) ∧ is_Some (sv_layer_at_list s1) ∧
    sv_shown s1 = sv_shown s0 ∧ sv_additional_transient s1 = sv_additional_transient s0 ∧
    sv_shown_window s1 = sv_shown_window s0.
Proof.
  revert s0. induction ls as [|b ls IH]; intros s0 [ats Hats] [lats Hlats]; cbn [foldlM].
  { exists s0. rewrite Hats, Hlats. set_solver. }
  destruct (decide (is_Some (sv_layers s0 !! b))) as [Hb|Hb].
  - rewrite setstate_layer_present by done. simpl.
    destruct (IH s0) as (s1 & -> & Hkeep & Hnew & Ha & Hla & Has & Hlas & Hsh & Htr & Hw); [by eexists|by eexists|].
    exists s1. split_and!; try done.
    + intros i [Hi|Hi]; apply Hkeep; [by left|]. destruct (decide (is_Some (sv_layers s0 !! i)));
        [by left|right; set_solver].
    + intros i [->|Hi]%elem_of_cons Hn; [rewrite Hn in Hb; by destruct Hb|]. by apply Hnew.
  - rewrite (setstate_layer_missing s0 b ats lats) by (done || by apply eq_None_not_Some). simpl.
    set (s0' := mk_saved _ _ _ _ _ _ _).
    destruct (IH s0') as (s1 & -> & Hkeep & Hnew & Ha & Hla & Has & Hlas & Hsh & Htr & Hw); [by eexists|by eexists|].
    exists s1. simpl in *. split_and!; try done.
    + intros i Hi. rewrite Hkeep; simpl.
      * rewrite lookup_insert_ne; [done|]. intros ->. destruct Hi as [Hi|Hi]; [done|set_solver].
      * destruct (decide (i = b)) as [->|Hne]; [left; rewrite lookup_insert_eq; by eexists|].
        rewrite lookup_insert_ne by done. destruct Hi; [by left|right; set_solver].
    + intros i [->|Hi]%elem_of_cons Hn.
      * rewrite Hkeep by (left; simpl; rewrite lookup_insert_eq; by eexists). simpl.
        rewrite lookup_insert_eq. split_and!; [done|apply Ha|apply Hla]; apply has_key_insert_eq.
      * destruct (decide (i = b)) as [->|Hne].
        { rewrite Hkeep by (left; simpl; rewrite lookup_insert_eq; by eexists). simpl.
          rewrite lookup_insert_eq. split_and!; [done|apply Ha|apply Hla]; apply has_key_insert_eq. }
        apply Hnew; [done|]. simpl. by rewrite lookup_insert_ne.
    + intros i Hi. apply Ha. rewrite Hats in Hi. by apply has_key_insert.
    + intros i Hi. apply Hla. rewrite Hlats in Hi. by apply has_key_insert.
Qed.
(** The entries a save of version [v] holds load, through [after_upgrade]
    when [v < 4], as [sle_of_saved] gives them. *)
Lemma upgrade_layers_Ok v s :
  saved_of_version v s → (v < 4)%nat →
  gmap_mapM (mapM (M:=result) upgrade_entry) (sv_layers s) =
    Ok (upgraded_layer <$> sv_layers s).
Proof.
  intros (Hent & _) Hv. apply gmap_mapM_Ok_fmap. intros k l Hl. apply (mapM_Ok_fmap _ (λ e, SavedSLE (sle_of_saved e))).
  intros e He. specialize (Hent k l Hl). rewrite Forall_forall in Hent.
  specialize (Hent e He). rewrite bool_decide_true in Hent by done. by destruct e.
Qed.

Lemma saved_sle_layers v s :
  saved_of_version v s → (4 ≤ v)%nat →
  upgraded_layer <$> sv_layers s = sv_layers s.
Proof.
  intros (Hent & _) Hv. rewrite <-(map_fmap_id (sv_layers s)) at 2. apply map_fmap_ext.
  intros k l Hl. unfold upgraded_layer. rewrite <-(list_fmap_id l) at 2. apply list_fmap_ext.
  intros j e He.
  specialize (Hent k l Hl). rewrite Forall_lookup in Hent. specialize (Hent j e He).
  rewrite bool_decide_false in Hent by lia. by destruct e.
Qed.

(** [after_upgrade] on a save of an older version: what each step
    writes. *)
Lemma after_upgrade_Ok cfg v s :
  (v < sl_version)%nat → saved_of_version v s →
  ∃ s', after_upgrade cfg v s = Ok s' ∧
    sv_layers s' = upgraded_layer <$> sv_layers s ∧
    sv_at_list s' = (if decide (v < 1)%nat then Some (fresh_at_list cfg) else sv_at_list s) ∧
    sv_layer_at_list s' =
      (if decide (v < 1)%nat then Some (fresh_layer_at_list cfg) else sv_layer_at_list s) ∧
    sv_shown s' = sv_image_predict_info s ∧
    sv_additional_transient s' =
      (if decide (v < 4)%nat then Some [] else sv_additional_transient s) ∧
    sv_shown_window s' = (if decide (v < 3)%nat then Some false else sv_shown_window s).
Proof.
  intros Hv Hs. pose proof Hs as (_ & _ & _ & _ & [info Hinfo]). unfold sl_version in Hv.
  unfold after_upgrade. repeat case_decide; try lia; simpl;
    try (rewrite (upgrade_layers_Ok v s) by (done || lia); simpl);
    rewrite Hinfo; simpl; (eexists; split; [done|]); simpl; try naive_solver lia.
  split; [by rewrite (saved_sle_layers v) by (done || lia)|naive_solver].
Qed.

(** The lists of a loaded object whose entries are all
    [SceneListEntry]s and whose attributes are all there. *)
Lemma saved_lists_Ok s ats lats shown tr w :
  map_Forall (λ _ l, Forall (λ e, is_tuple e = false) l) (sv_layers s) →
  sv_at_list s = Some ats → sv_layer_at_list s = Some lats → sv_shown s = Some shown →
  sv_additional_transient s = Some tr → sv_shown_window s = Some w →
  saved_lists s =
    Ok (mk_scene_lists ((λ l : list saved_entry, sle_of_saved <$> l) <$> sv_layers s) ats lats shown tr w).
Proof.
  intros Hent Ha Hla Hsh Htr Hw. unfold saved_lists.
  rewrite (gmap_mapM_Ok_fmap _ (λ l, sle_of_saved <$> l)).
  2:{ intros k l Hl. apply mapM_Ok_fmap. intros e He. specialize (Hent k l Hl).
      rewrite Forall_forall in Hent. specialize (Hent e He). by destruct e. }
  simpl. by rewrite Ha, Hla, Hsh, Htr, Hw.
Qed.
Lemma saved_keyed_spec cfg s i :
  saved_keyed cfg s = true → i ∈ all_layers cfg → is_Some (sv_layers s !! i) →
  has_key (sv_at_list s) i = true ∧ has_key (sv_layer_at_list s) i = true.
Proof.
  unfold saved_keyed. rewrite forallb_forall. intros Hall Hi Hl.
  specialize (Hall i (proj1 (list_elem_of_In _ _) Hi)).
  rewrite bool_decide_true in Hall by done. simpl in Hall. by apply andb_prop in Hall.
Qed.

Lemma fresh_has_key {A} (x : A) cfg i :
  i ∈ all_layers cfg → has_key (Some (foldl (λ m i, <[i:=x]> m) ∅ (all_layers cfg))) i = true.
Proof.
  intros Hi. simpl. rewrite bool_decide_eq_true, (foldl_insert_lookup (λ _, x)), decide_True by done.
  by eexists.
Qed.

(** C16: saving a [SceneLists] and loading it back gives the same lists,
    when the configuration has no layer they lack:
    [__getstate__] stores the class's [__version__], so [__setstate__]
    does not upgrade, and [after_setstate] finds every layer. *)
Theorem save_load_roundtrip cfg sl :
  (∀ i, i ∈ all_layers cfg → is_Some (sl_layers sl !! i)) → load cfg (sl_save sl) = Ok sl.
Proof.
  intros Hall. unfold load, setstate, sl_save. simpl.
  unfold after_setstate. rewrite foldlM_fixed.
  2:{ intros i Hi. apply setstate_layer_present. simpl. rewrite lookup_fmap.
      by apply fmap_is_Some, Hall. }
  simpl. rewrite (saved_lists_Ok _ (sl_at_list sl) (sl_layer_at_list sl) (sl_shown sl)
             (sl_additional_transient sl) (sl_shown_window sl)); try done.
  2:{ intros k l. simpl. rewrite lookup_fmap. intros (l0 & _ & ->)%fmap_Some.
      by apply Forall_fmap, Forall_true. }
  simpl.
  rewrite <-map_fmap_compose, (map_fmap_ext _ id), map_fmap_id; [by destruct sl|].
  intros k l _. simpl. rewrite <-list_fmap_compose. apply list_fmap_id.
Qed.
(** After [after_upgrade] and the loop of [after_setstate], a configured
    layer the save had is in both at-list dicts: rebuilt before version
    1, kept from the save after. *)
Lemma upgraded_has_key cfg v s s' s'' i :
  ((1 ≤ v)%nat → saved_keyed cfg s = true) → i ∈ all_layers cfg → is_Some (sv_layers s !! i) →
  sv_at_list s' = (if decide (v < 1)%nat then Some (fresh_at_list cfg) else sv_at_list s) →
  sv_layer_at_list s' =
    (if decide (v < 1)%nat then Some (fresh_layer_at_list cfg) else sv_layer_at_list s) →
  (∀ i, has_key (sv_at_list s') i = true → has_key (sv_at_list s'') i = true) →
  (∀ i, has_key (sv_layer_at_list s') i = true → has_key (sv_layer_at_list s'') i = true) →
  has_key (sv_at_list s'') i = true ∧ has_key (sv_layer_at_list s'') i = true.
Proof.
  intros Hk Hi Hl Ha Hla Hag Hlag. split; [apply Hag|apply Hlag]; rewrite ?Ha, ?Hla;
    case_decide; try (by apply fresh_has_key); apply (saved_keyed_spec cfg); auto with lia.
Qed.

(** C15: loading a save of an older version ([__version__] below 6) with
    the attributes that version had gives lists in which every configured
    layer is in the three dicts, provided a save of version 1 or later has
    at-lists for its configured layers: every saved entry loads (a tuple
    with the name [None]), a configured layer the save lacked is empty,
    [shown] is the old [image_predict_info], and the attributes added
    since take their first values. *)
Theorem load_old_version cfg v s :
  (v < sl_version)%nat → saved_of_version v s → ((1 ≤ v)%nat → saved_keyed cfg s = true) →
  ∃ sl, load cfg (v, s) = Ok sl ∧
    (∀ i, i ∈ all_layers cfg → has_layer sl i) ∧
    (∀ i l, sv_layers s !! i = Some l → sl_layers sl !! i = Some (sle_of_saved <$> l)) ∧
    (∀ i, i ∈ all_layers cfg → sv_layers s !! i = None → sl_layers sl !! i = Some []) ∧
    sv_image_predict_info s = Some (sl_shown sl) ∧
    ((v < 4)%nat → sl_additional_transient sl = []) ∧
    ((v < 3)%nat → sl_shown_window sl = false).
Proof.
  intros Hv Hs Hk. pose proof Hs as (_ & H1 & H3 & H4 & [info Hinfo]).
  destruct (after_upgrade_Ok cfg v s Hv Hs) as (s' & Hup & Hl & Ha & Hla & Hsh & Htr & Hw).
  destruct (setstate_loop_Ok (all_layers cfg) s')
    as (s'' & Hset & Hkeep & Hnew & Hag & Hlag & [ats Hats] & [lats Hlats] & Hsh'' & Htr'' & Hw'').
  { rewrite Ha. destruct (decide (v < 1)%nat); [by eexists|]. apply H1. lia. }
  { rewrite Hla. destruct (decide (v < 1)%nat); [by eexists|]. apply H1. lia. }
  assert (∃ tr, sv_additional_transient s'' = Some tr) as [tr Htr3].
  { rewrite Htr'', Htr. destruct (decide (v < 4)%nat); [by eexists|]. apply H4. lia. }
  assert (∃ w, sv_shown_window s'' = Some w) as [w Hw3].
  { rewrite Hw'', Hw. destruct (decide (v < 3)%nat); [by eexists|]. apply H3. lia. }
  assert (∀ i l, sv_layers s !! i = Some l → sv_layers s'' !! i = Some (upgraded_layer l)) as Hold.
  { intros i l Hi. rewrite Hkeep, Hl, lookup_fmap, Hi; [done|]. left. by rewrite Hl, lookup_fmap, Hi. }
  assert (∀ i, i ∈ all_layers cfg → sv_layers s !! i = None →
            sv_layers s'' !! i = Some [] ∧ has_key (sv_at_list s'') i = true ∧
            has_key (sv_layer_at_list s'') i = true) as Hmiss.
  { intros i Hi Hn. apply Hnew; [done|]. by rewrite Hl, lookup_fmap, Hn. }
  assert (∀ i, i ∉ all_layers cfg → sv_layers s !! i = None → sv_layers s'' !! i = None) as Hnone.
  { intros i Hi Hn. rewrite Hkeep, Hl, lookup_fmap, Hn; [done|by right]. }
  assert (load cfg (v, s) = saved_lists s'') as ->.
  { unfold load, setstate. simpl. destruct (decide (v = sl_version)) as [->|_]; [lia|].
    rewrite Hup. simpl. unfold after_setstate. by rewrite Hset. }
  rewrite (saved_lists_Ok s'' ats lats info tr w); try done.
  2:{ intros k l'' Hk'. destruct (sv_layers s !! k) as [l|] eqn:Hk0.
      - rewrite (Hold k l Hk0) in Hk'. injection Hk' as <-. by apply Forall_fmap, Forall_true.
      - destruct (decide (k ∈ all_layers cfg)) as [Hin|Hin].
        + rewrite (proj1 (Hmiss k Hin Hk0)) in Hk'. by injection Hk' as <-.
        + by rewrite Hnone in Hk'. }
  2:{ by rewrite Hsh'', Hsh. }
  eexists; split; [done|]. simpl. split_and!.
  - intros i Hi. unfold has_layer. simpl. rewrite !lookup_fmap.
    destruct (sv_layers s !! i) as [l|] eqn:Hi0.
    + destruct (upgraded_has_key cfg v s s' s'' i Hk Hi ltac:(by eexists) Ha Hla Hag Hlag)
        as [Hka Hkla].
      rewrite Hats in Hka. rewrite Hlats in Hkla. simpl in Hka, Hkla.
      rewrite bool_decide_eq_true in Hka, Hkla. rewrite (Hold i l Hi0). split_and!; [by eexists|done|done].
    + destruct (Hmiss i Hi Hi0) as (-> & Hka & Hkla).
      rewrite Hats in Hka. rewrite Hlats in Hkla. simpl in Hka, Hkla.
      rewrite bool_decide_eq_true in Hka, Hkla. split_and!; [by eexists|done|done].
  - intros i l Hi. rewrite lookup_fmap, (Hold i l Hi). simpl. f_equal.
    unfold upgraded_layer. rewrite <-list_fmap_compose. apply list_fmap_ext. by intros ? [] _.
  - intros i Hi Hn. rewrite lookup_fmap. by rewrite (proj1 (Hmiss i Hi Hn)).
  - by rewrite Hinfo.
  - intros H4'. rewrite Htr'', Htr in Htr3. rewrite decide_True in Htr3 by done. congruence.
  - intros H3'. rewrite Hw'', Hw in Hw3. rewrite decide_True in Hw3 by done. congruence.
Qed.
End saved_facts.
