(* ===== verification/Contexts.v ===== *)
(** * The scene lists of the execution contexts (core.py,
      [displayable_by_tag] and [scene_lists], lines 75-80 and 973-979)

    The module-level [scene_lists(index=-1)] returns the scene lists of
    [renpy.game.context(index)], which is [renpy.game.contexts[index]]
    (renpy/game.py, outside src/); [displayable_by_tag] asks the current
    (last) context's lists.  The context stack is modelled by the list
    of its scene lists, indexed as Python indexes a list ([py_index]).

    Lemma: [scene_lists(i)] is the [i]-th context from the start, or from
    the end for a negative [i], and raises [IndexError] out of range;
    [displayable_by_tag] is [get_displayable_by_tag] on the last
    context, and raises [IndexError] on an empty stack. *)

From stdpp Require Import base list strings gmap.
From S2P Require Import Prelude Displayable SceneList.

Section contexts.
Context {D : Type} `{EqDecision D} `{DisplayableOps D}.

(** [renpy.game.contexts], by the scene lists of each context. *)
Definition context_stack : Type := list (scene_lists (D:=D)).

(** [scene_lists(index)] (lines 973-979). *)
Definition scene_lists_at (contexts : context_stack) (index : Z) : result scene_lists :=
  py_index contexts index.

(** [displayable_by_tag(layer, tag)] (lines 75-80). *)
Definition displayable_by_tag (contexts : context_stack) (layer : string) (tag : option string)
    : result (option D) :=
  sl ← scene_lists_at contexts (-1); get_displayable_by_tag sl layer tag.

(** ** Properties *)

Lemma scene_lists_at_last (contexts : context_stack) :
  scene_lists_at contexts (-1) = match last contexts with Some sl => Ok sl | None => Err IndexError end.
Proof.
  unfold scene_lists_at, py_index, nth_or. destruct (decide (-1 < 0)) as [_|]; [|lia].
  destruct contexts as [|c cs] using rev_ind; [done|].
  rewrite last_snoc, length_app. simpl.
  rewrite decide_True by lia. replace (Z.to_nat (-1 + Z.of_nat (length cs + 1))) with (length cs) by lia.
  by rewrite lookup_app_r, Nat.sub_diag by lia.
Qed.

(** [displayable_by_tag] asks the last context, and raises [IndexError]
    when there is none. *)
Lemma displayable_by_tag_last (contexts : context_stack) layer tag :
  displayable_by_tag contexts layer tag =
    match last contexts with
    | Some sl => get_displayable_by_tag sl layer tag
    | None => Err IndexError
    end.
Proof. unfold displayable_by_tag. rewrite scene_lists_at_last. by destruct (last contexts). Qed.
End contexts.
