(* ===== verification/ErrorReport.v ===== *)
(** * Reporting an exception on screen (error.py)

    [report_exception] decides whether Ren'Py shows its [_exception]
    screen or lets the normal reporting happen (it returns [True]), and
    which actions the screen offers (rollback, reload, ignore), computed
    in one [try] block whose [except: pass] keeps what was computed
    before a lookup raised.  [report_parse_errors] does the same for the
    [_parse_errors] screen, without guarding [init_display].  The screen
    runs through [call_exception_screen], which clears every layer of
    the new context, shows the screen, interacts with the quit action
    set to [renpy.exports.quit], and restores the old quit action in a
    [finally] block.

    What these functions read from modules outside src/ (the
    environment, the screens that exist, [init_display], the context) is
    a [report_env]; showing the screen and the interaction are given
    functions, the interaction receiving the quit action in force.

    Theorems: [report_exception] shows the screen exactly when the
    simple-exceptions switch is off, the screen exists and the display
    initialises, and never raises; a failing reload lookup loses the
    ignore action; [report_parse_errors] raises [init_display]'s
    exception where [report_exception] returns [True];
    [call_exception_screen] interacts on cleared layers under
    [renpy.exports.quit] and restores the quit action on every path. *)

From S2P Require Import Prelude Displayable SceneList Cleanup.

(** What [report_exception] and [report_parse_errors] read. *)
Record report_env := mk_report_env {
  rp_simple : bool;                 (** ["RENPY_SIMPLE_EXCEPTIONS" in os.environ] *)
  rp_has_screen : string → bool;    (** [renpy.exports.has_screen(name)] *)
  rp_init_display : result unit;    (** [init_display()] *)
  rp_draw : bool;                   (** [renpy.display.draw is not None] *)
  rp_init_phase : result bool;      (** [renpy.game.context().init_phase] *)
  rp_reload : result unit;          (** [renpy.exports.curried_call_in_new_context("_save_reload_game")] *)
  rp_next_node : result bool        (** [renpy.game.context(-1).next_node is not None] *)
}.

(** Which of [rollback_action], [reload_action] and [ignore_action] are
    set (not [None]) when the screen is called. *)
Record screen_actions := mk_actions {
  act_rollback : bool;
  act_reload : bool;
  act_ignore : bool
}.

(** Lines 82-94: the three actions, computed in one [try] block; a
    lookup that raises leaves the actions set before it. *)
Definition exception_actions (rp : report_env) : screen_actions :=
  let with_ignore (a : screen_actions) :=
    match rp_next_node rp with
    | Ok true => mk_actions (act_rollback a) (act_reload a) true
    | _ => a
    end in
  match rp_init_phase rp with
  | Err _ => mk_actions false false false
  | Ok true => with_ignore (mk_actions false false false)
  | Ok false =>
      match rp_reload rp with
      | Err _ => mk_actions true false false
      | Ok _ => with_ignore (mk_actions true true false)
      end
  end.

(** What a report does: return [True] (normal reporting), call the named
    screen in a new context with the actions, or raise. *)
Inductive report_outcome :=
  | ReportNormally
  | ReportScreen (screen : string) (a : screen_actions)
  | ReportRaise (e : py_error).

(** [report_exception(short, full)] (lines 61-103) *)
Definition report_exception (rp : report_env) : report_outcome :=
  if rp_simple rp then ReportNormally
  else if negb (rp_has_screen rp "_exception") then ReportNormally
  else match rp_init_display rp with
       | Err _ => ReportNormally
       | Ok _ => if negb (rp_draw rp) then ReportNormally
                 else ReportScreen "_exception" (exception_actions rp)
       end.

(** [report_parse_errors(errors)] (lines 106-128): [init_display()] is
    not guarded, and the reload action is [renpy.exports.utter_restart]. *)
Definition report_parse_errors (rp : report_env) : report_outcome :=
  if rp_simple rp then ReportNormally
  else if negb (rp_has_screen rp "_parse_errors") then ReportNormally
  else match rp_init_display rp with
       | Err e => ReportRaise e
       | Ok _ => ReportScreen "_parse_errors" (mk_actions false true false)
       end.

Section exception_screen.
Context {D : Type} `{EqDecision D} `{DisplayableOps D}.
(** The values of [renpy.config.quit_action], and [renpy.exports.quit]. *)
Context {Q R : Type} (exports_quit : Q).
(** [renpy.exports.show_screen(screen_name, _transient=True, **kwargs)] *)
Variable show_screen : string → scene_lists (D:=D) → result (scene_lists (D:=D)).
(** [renpy.ui.interact(mouse="screen", ...)] under the quit action given:
    its result and the scene lists it leaves. *)
Variable ui_interact : Q → scene_lists (D:=D) → result R * scene_lists (D:=D).

(** The state [call_exception_screen] works on: [renpy.config.quit_action]
    and the scene lists of the new context. *)
Record exc_state := mk_exc_state {
  xs_quit : Q;
  xs_sl : scene_lists (D:=D)
}.

(** [call_exception_screen(screen_name, **kwargs)] (lines 30-43). *)
Definition call_exception_screen (cfg : config) (st : exc_state) (screen_name : string) (now : Z)
    : result R * exc_state :=
  let old_quit := xs_quit st in
  let body : result R * scene_lists (D:=D) :=
    match for_st (λ sl i, clear_st sl i false now) (xs_sl st) (cfg_layers cfg) with
    | (sl, Some e) => (Err e, sl)
    | (sl, None) =>
        match show_screen screen_name sl with
        | Err e => (Err e, sl)
        | Ok sl' => ui_interact exports_quit sl'
        end
    end in
  (body.1, mk_exc_state old_quit body.2).
End exception_screen.

(** ** Properties *)

(** [report_exception] shows the [_exception] screen exactly when the
    simple-exceptions switch is off, the screen exists, the display
    initialises and a draw object exists; otherwise it returns [True]
    for the normal reporting, and it never raises. *)
Theorem report_exception_spec rp :
  (report_exception rp = ReportScreen "_exception" (exception_actions rp) ↔
     rp_simple rp = false ∧ rp_has_screen rp "_exception" = true ∧
     (∃ u, rp_init_display rp = Ok u) ∧ rp_draw rp = true) ∧
  (report_exception rp = ReportNormally ∨
   report_exception rp = ReportScreen "_exception" (exception_actions rp)).
Proof.
  unfold report_exception.
  destruct (rp_simple rp), (rp_has_screen rp "_exception"), (rp_init_display rp) as [u|e], (rp_draw rp);
    simpl; naive_solver.
Qed.

(** C33: the actions the exception screen offers: rollback and reload
    outside the init phase, reload only when its lookup succeeds, and
    ignore exactly when there is a next node and no lookup before it
    raised; a reload lookup that raises thus also drops the ignore
    action, however the next node stands. *)
Theorem exception_actions_spec rp :
  (act_rollback (exception_actions rp) = true ↔ rp_init_phase rp = Ok false) ∧
  (act_reload (exception_actions rp) = true ↔
     rp_init_phase rp = Ok false ∧ ∃ u, rp_reload rp = Ok u) ∧
  (act_ignore (exception_actions rp) = true ↔
     rp_next_node rp = Ok true ∧
     (rp_init_phase rp = Ok true ∨ (rp_init_phase rp = Ok false ∧ ∃ u, rp_reload rp = Ok u))).
Proof.
  unfold exception_actions.
  destruct (rp_init_phase rp) as [[]|e], (rp_reload rp) as [u|e'], (rp_next_node rp) as [[]|e'']; simpl;
    naive_solver.
Qed.

(** C34: [report_parse_errors] does not guard [init_display]: when the
    display cannot be initialised, it raises that exception, where
    [report_exception] returns [True] so that the normal reporting
    happens. *)
Theorem parse_errors_init_raises rp e :
  rp_simple rp = false → rp_has_screen rp "_parse_errors" = true →
  rp_has_screen rp "_exception" = true → rp_init_display rp = Err e →
  report_parse_errors rp = ReportRaise e ∧ report_exception rp = ReportNormally.
Proof.
  intros Hs Hp Hx Hi. unfold report_parse_errors, report_exception. by rewrite Hs, Hp, Hx, Hi.
Qed.

Section exception_screen_facts.
Context {D : Type} `{EqDecision D} `{DisplayableOps D}.
Context {Q R : Type} (exports_quit : Q).
Variable show_screen : string → scene_lists (D:=D) → result (scene_lists (D:=D)).
Variable ui_interact : Q → scene_lists (D:=D) → result R * scene_lists (D:=D).
Implicit Types (sl : scene_lists (D:=D)).

Lemma clear_st_hard sl i now sl' :
  clear_st sl i false now = (sl', None) → sl_layers sl' = <[i:=[]]> (sl_layers sl).
Proof. unfold clear_st. simpl. by destruct (_ !! i); intros [= <-]. Qed.

Lemma clear_all_hard (ls : list string) sl now sl' :
  for_st (λ sl i, clear_st sl i false now) sl ls = (sl', None) →
  ∀ i, sl_layers sl' !! i = if decide (i ∈ ls) then Some [] else sl_layers sl !! i.
Proof.
  revert sl. induction ls as [|j ls IH]; intros sl Hrun i; simpl in Hrun.
  - injection Hrun as <-. by rewrite decide_False by set_solver.
  - destruct (clear_st sl j false now) as [sl1 [e|]] eqn:Hc; [done|].
    rewrite (IH sl1 Hrun i), (clear_st_hard _ _ _ _ Hc).
    destruct (decide (i = j)) as [->|Hne].
    + rewrite lookup_insert_eq. by repeat case_decide; set_solver.
    + rewrite lookup_insert_ne by done. repeat case_decide; set_solver.
Qed.

Abbreviation call_exception_screen :=
  (call_exception_screen (R:=R) exports_quit show_screen ui_interact).

(** The exception screen interacts under [renpy.exports.quit] on
    lists whose layers were all cleared, and the [finally] block gives
    the old quit action back on every path: when the interaction returns
    [v], it ran on the cleared lists with the screen shown; whatever
    happens, [renpy.config.quit_action] is the one before the call. *)
Theorem call_exception_screen_quit cfg st name now :
  xs_quit (call_exception_screen cfg st name now).2 = xs_quit st ∧
  ∀ v, (call_exception_screen cfg st name now).1 = Ok v →
    ∃ sl1 sl2, for_st (λ sl i, clear_st sl i false now) (xs_sl st) (cfg_layers cfg) = (sl1, None) ∧
      (∀ i, i ∈ cfg_layers cfg → sl_layers sl1 !! i = Some []) ∧
      show_screen name sl1 = Ok sl2 ∧
      ui_interact exports_quit sl2 = (Ok v, xs_sl (call_exception_screen cfg st name now).2).
Proof.
  unfold ErrorReport.call_exception_screen. simpl. split; [done|]. intros v.
  destruct (for_st _ _ _) as [sl1 [e|]] eqn:Hclr; simpl; [done|].
  destruct (show_screen name sl1) as [sl2|e] eqn:Hshow; simpl; [|done].
  intros Hv. exists sl1, sl2. split_and!; [done| |done|].
  - intros i Hi. rewrite (clear_all_hard _ _ _ _ Hclr i). by rewrite decide_True.
  - destruct (ui_interact exports_quit sl2) as [r sl3]. simpl in *. by subst.
Qed.
End exception_screen_facts.

(** ** Witnesses *)

(** Both screens exist, but the display cannot be initialised. *)
Definition rp_no_display : report_env :=
  mk_report_env false (λ _, true) (Err AttributeError) true (Ok false) (Ok tt) (Ok true).

Lemma parse_errors_init_raises_witness :
  report_parse_errors rp_no_display = ReportRaise AttributeError ∧
  report_exception rp_no_display = ReportNormally.
Proof. apply parse_errors_init_raises; reflexivity. Defined.
