(* ===== verification/Interface.v ===== *)
(** * The interaction engine's state (core.py, class [Interface], lines 982-2395)

    The [Interface] object is one per process.  Its transition bookkeeping
    ([transition], [ongoing_transition], [transition_time],
    [transition_from], [old_scene], [suppress_transition]) and its loop
    flags ([force_redraw], [restart_interaction], [pushed_event],
    [timeout_time], [event_time], ...) are the fields of [interface].
    Layout widgets ([W]) and transition factories ([T]) are abstract: the
    model only moves them between the dicts, as the code does.  The dicts
    keyed by layer name use [option string], [None] being the root
    (whole-screen) transition. *)

From stdpp Require Import base list strings gmap.
From S2P Require Import Prelude.

(** The pygame events the loop distinguishes ([pygame.event.Event] with
    its [type] and payload; the user events [TIMEEVENT], [PERIODIC],
    [JOYEVENT] and [REDRAW] of lines 53-56). *)
Inductive event :=
  | NoEvent
  | QuitEv
  | VideoResize (w h : Z)
  | MouseMotion (x y : Z)
  | MouseButtonDown (x y : Z)
  | MouseButtonUp (x y : Z)
  | ActiveEvent (state : Z) (gain : bool)
  | KeyDown (key : Z)
  | KeyUp (key : Z)
  | TimeEvent
  | PeriodicEv
  | RedrawEv
  | JoyEvent (n : Z).

#[export] Instance event_eq_dec : EqDecision event.
Proof. solve_decision. Defined.

Section interface.
Context {W T : Type}.

(** [Interface.__init__] (lines 1033-1177), the fields the core reads. *)
Record interface := mk_interface {
  old_scene : gmap (option string) W;
  transition : gmap (option string) T;
  ongoing_transition : gmap (option string) T;
  transition_time : gmap (option string) (option Z);
  transition_from : gmap (option string) W;
  suppress_transition : bool;
  force_redraw : bool;
  restart_interaction : bool;
  pushed_event : option event;
  ticks : nat;
  mouse : string;
  timeout_time : option Z;
  last_event : option event;
  event_time : Z;
  quit_time : Z;
  focused : bool;
  minimized : bool;
  display_reset : bool;
  last_resize : option (Z * Z)
}.

(** The transition dicts, written together by [interact_core] and by the
    cleanup of [interact]. *)
Definition set_transitions (s : interface) (tr ongoing : gmap (option string) T)
    (times : gmap (option string) (option Z)) (from : gmap (option string) W) : interface :=
  mk_interface (old_scene s) tr ongoing times from (suppress_transition s) (force_redraw s)
    (restart_interaction s) (pushed_event s) (ticks s) (mouse s) (timeout_time s)
    (last_event s) (event_time s) (quit_time s) (focused s) (minimized s) (display_reset s)
    (last_resize s).

Definition set_flags (s : interface) (suppress restart : bool) : interface :=
  mk_interface (old_scene s) (transition s) (ongoing_transition s) (transition_time s)
    (transition_from s) suppress (force_redraw s) restart (pushed_event s) (ticks s)
    (mouse s) (timeout_time s) (last_event s) (event_time s) (quit_time s) (focused s)
    (minimized s) (display_reset s) (last_resize s).

Definition set_timeout_time (s : interface) (t : option Z) : interface :=
  mk_interface (old_scene s) (transition s) (ongoing_transition s) (transition_time s)
    (transition_from s) (suppress_transition s) (force_redraw s) (restart_interaction s)
    (pushed_event s) (ticks s) (mouse s) t (last_event s) (event_time s) (quit_time s)
    (focused s) (minimized s) (display_reset s) (last_resize s).

Definition set_events (s : interface) (pushed last : option event) : interface :=
  mk_interface (old_scene s) (transition s) (ongoing_transition s) (transition_time s)
    (transition_from s) (suppress_transition s) (force_redraw s) (restart_interaction s)
    pushed (ticks s) (mouse s) (timeout_time s) last (event_time s) (quit_time s)
    (focused s) (minimized s) (display_reset s) (last_resize s).

Definition set_force_redraw (s : interface) (b : bool) : interface :=
  mk_interface (old_scene s) (transition s) (ongoing_transition s) (transition_time s)
    (transition_from s) (suppress_transition s) b (restart_interaction s)
    (pushed_event s) (ticks s) (mouse s) (timeout_time s) (last_event s) (event_time s)
    (quit_time s) (focused s) (minimized s) (display_reset s) (last_resize s).

Definition set_ticks (s : interface) (n : nat) : interface :=
  mk_interface (old_scene s) (transition s) (ongoing_transition s) (transition_time s)
    (transition_from s) (suppress_transition s) (force_redraw s) (restart_interaction s)
    (pushed_event s) n (mouse s) (timeout_time s) (last_event s) (event_time s)
    (quit_time s) (focused s) (minimized s) (display_reset s) (last_resize s).

Definition set_event_time (s : interface) (t : Z) : interface :=
  mk_interface (old_scene s) (transition s) (ongoing_transition s) (transition_time s)
    (transition_from s) (suppress_transition s) (force_redraw s) (restart_interaction s)
    (pushed_event s) (ticks s) (mouse s) (timeout_time s) (last_event s) t
    (quit_time s) (focused s) (minimized s) (display_reset s) (last_resize s).

Definition set_quit_time (s : interface) (t : Z) : interface :=
  mk_interface (old_scene s) (transition s) (ongoing_transition s) (transition_time s)
    (transition_from s) (suppress_transition s) (force_redraw s) (restart_interaction s)
    (pushed_event s) (ticks s) (mouse s) (timeout_time s) (last_event s) (event_time s)
    t (focused s) (minimized s) (display_reset s) (last_resize s).

(** [focused], [minimized], [display_reset] and [last_resize], written by
    [set_mode], [iconified], [restored] and the event handling. *)
Definition set_window (s : interface) (foc mini reset : bool) (resize : option (Z * Z))
    : interface :=
  mk_interface (old_scene s) (transition s) (ongoing_transition s) (transition_time s)
    (transition_from s) (suppress_transition s) (force_redraw s) (restart_interaction s)
    (pushed_event s) (ticks s) (mouse s) (timeout_time s) (last_event s) (event_time s)
    (quit_time s) foc mini reset resize.

(** ** [set_transition] (lines 1528-1540) *)
Definition set_transition (s : interface) (trans : option T) (layer : option string)
    (force : bool) : interface :=
  if suppress_transition s && negb force then s
  else match trans with
       | None => set_transitions s (delete layer (transition s)) (ongoing_transition s)
                   (transition_time s) (transition_from s)
       | Some t => set_transitions s (<[layer:=t]> (transition s)) (ongoing_transition s)
                     (transition_time s) (transition_from s)
       end.

(** ** [timeout] (lines 2388-2395) *)

(** [if self.timeout_time:] -- a deadline of [0.0] is false. *)
Definition time_truthy (t : option Z) : bool :=
  match t with Some v => bool_decide (v ≠ 0) | None => false end.

Definition timeout (s : interface) (offset : Z) : interface :=
  if decide (offset < 0) then s
  else if time_truthy (timeout_time s)
  then set_timeout_time s (Some (Z.min (event_time s + offset) (default 0 (timeout_time s))))
  else set_timeout_time s (Some (event_time s + offset)).

(** ** The transition snapshot of [interact_core] (lines 1852-1866) *)

(** One pass of [for k in self.transition: ...]: a pending transition on
    a layer that was shown becomes ongoing, from the old scene of that
    layer, with its start time still unknown. *)
Definition snapshot_step (old : gmap (option string) W) (k : option string) (t : T)
    (acc : gmap (option string) T * gmap (option string) W * gmap (option string) (option Z)) :=
  let '(ongoing, from, times) := acc in
  match old !! k with
  | None => acc
  | Some w => (<[k:=t]> ongoing, <[k:=w]> from, <[k:=None]> times)
  end.

Definition start_transitions (s : interface) (suppress : bool) : interface :=
  let '(ongoing, from, times) :=
    map_fold (snapshot_step (old_scene s))
      (ongoing_transition s, transition_from s, transition_time s) (transition s) in
  if suppress then set_transitions s ∅ ∅ ∅ ∅
  else set_transitions s ∅ ongoing times from.

(** The deadlock guard (lines 1868-1877): a call that must pause on a
    transition returns [(False, None)] when no root transition can run. *)
Definition trans_pause_abort (s : interface) (trans_pause suppress : bool) : bool :=
  trans_pause &&
  (bool_decide (ongoing_transition s = ∅) || negb (bool_decide (is_Some (ongoing_transition s !! None)))
   || suppress || bool_decide (old_scene s = ∅)).

(** The start of [interact_core] up to the guard: [Some (false, None)]
    when the call returns at the guard. *)
Definition interact_core_start {R} (s : interface) (trans_pause skipping : bool)
    (mouse_name : string) : interface * option (bool * option R) :=
  let s1 := start_transitions (set_flags s false (restart_interaction s)) skipping in
  if trans_pause_abort s1 trans_pause skipping then (s1, Some (false, None))
  else
    let s2 := set_flags s1 (suppress_transition s1) false in
    (mk_interface (old_scene s2) (transition s2) (ongoing_transition s2) (transition_time s2)
       (transition_from s2) (suppress_transition s2) (force_redraw s2) (restart_interaction s2)
       (pushed_event s2) (ticks s2) mouse_name (timeout_time s2) (last_event s2)
       (event_time s2) (quit_time s2) (focused s2) (minimized s2) (display_reset s2)
       (last_resize s2), None).
End interface.

Arguments interface : clear implicits.

(** * Properties *)

Section interface_facts.
Context {W T : Type}.
Implicit Types (s : interface W T).

(** [timeout] only tightens a pending (truthy) deadline: the new
    deadline is never later than the old one, nor than [event_time + offset]. *)
Theorem timeout_tightens s offset d :
  timeout_time s = Some d → d ≠ 0 → 0 ≤ offset →
  ∃ d', timeout_time (timeout s offset) = Some d' ∧ d' ≤ d ∧ d' ≤ event_time s + offset.
Proof.
  intros Hd Hnz Hoff. unfold timeout. rewrite decide_False by lia.
  unfold time_truthy. rewrite Hd, bool_decide_eq_true_2 by done. simpl.
  eexists. split; [done|]. lia.
Qed.

Lemma timeout_event_time s offset : event_time (timeout s offset) = event_time s.
Proof. unfold timeout. by repeat case_match. Qed.

(** C37: a deadline equal to [0] is taken for "no timeout": once a call
    [timeout(off1)] has left the deadline at [0] (e.g. with [event_time
    = 0] and [off1 = 0]), any later [timeout(off2)] does not keep the
    earlier deadline, as [min] would, but replaces it by
    [event_time + off2]; so [timeout(0)] then [timeout(3)] waits 3. *)
Theorem timeout_zero_forgotten s off1 off2 :
  timeout_time (timeout s off1) = Some 0 → 0 ≤ off2 →
  timeout_time (timeout (timeout s off1) off2) = Some (event_time s + off2).
Proof.
  intros H0 Hoff. rewrite <-(timeout_event_time s off1).
  unfold timeout at 1. rewrite decide_False by lia. rewrite H0. done.
Qed.

Lemma start_transitions_old_scene s b : old_scene (start_transitions s b) = old_scene s.
Proof. unfold start_transitions. destruct (map_fold _ _ _) as [[??]?]. by destruct b. Qed.

(** The snapshot loop, key by key. *)
Lemma snapshot_fold_lookup (old : gmap (option string) W) (tr : gmap (option string) T)
    ongoing from times k :
  let '(ongoing', from', times') := map_fold (snapshot_step old) (ongoing, from, times) tr in
  ongoing' !! k = (match tr !! k, old !! k with Some t, Some _ => Some t | _, _ => ongoing !! k end) ∧
  from' !! k = (match tr !! k, old !! k with Some _, Some w => Some w | _, _ => from !! k end) ∧
  times' !! k = (match tr !! k, old !! k with Some _, Some _ => Some None | _, _ => times !! k end).
Proof.
  apply (map_fold_weak_ind (λ r tr,
    let '(ongoing', from', times') := r in
    ongoing' !! k = (match tr !! k, old !! k with Some t, Some _ => Some t | _, _ => ongoing !! k end) ∧
    from' !! k = (match tr !! k, old !! k with Some _, Some w => Some w | _, _ => from !! k end) ∧
    times' !! k = (match tr !! k, old !! k with Some _, Some _ => Some None | _, _ => times !! k end))).
  - rewrite lookup_empty. done.
  - intros i t m [[o f] ti] Hi IH. unfold snapshot_step.
    destruct (decide (k = i)) as [->|Hne].
    + rewrite lookup_insert_eq, Hi in *. destruct (old !! i) as [w|]; simpl;
        [by rewrite !lookup_insert_eq|done].
    + rewrite lookup_insert_ne by done. destruct (old !! i); [|done].
      by rewrite !lookup_insert_ne by done.
Qed.

(** The snapshot, layer by layer. *)
Lemma start_transitions_lookup s k :
  ongoing_transition (start_transitions s false) !! k =
    (match transition s !! k, old_scene s !! k with
     | Some t, Some _ => Some t | _, _ => ongoing_transition s !! k end) ∧
  transition_from (start_transitions s false) !! k =
    (match transition s !! k, old_scene s !! k with
     | Some _, Some w => Some w | _, _ => transition_from s !! k end) ∧
  transition_time (start_transitions s false) !! k =
    (match transition s !! k, old_scene s !! k with
     | Some _, Some _ => Some None | _, _ => transition_time s !! k end).
Proof.
  unfold start_transitions.
  pose proof (snapshot_fold_lookup (old_scene s) (transition s) (ongoing_transition s)
                (transition_from s) (transition_time s) k) as Hk.
  by destruct (map_fold _ _ _) as [[o f] ti].
Qed.

(** Without suppression, the pending transitions of the layers that
    were shown become ongoing, from their old scene and with no start time
    yet; the others stay as they were; the pending dict is emptied.  With
    suppression, every transition dict is emptied. *)
Theorem start_transitions_spec s k :
  transition (start_transitions s false) = ∅ ∧
  ongoing_transition (start_transitions s false) !! k =
    (match transition s !! k, old_scene s !! k with
     | Some t, Some _ => Some t | _, _ => ongoing_transition s !! k end) ∧
  transition_from (start_transitions s false) !! k =
    (match transition s !! k, old_scene s !! k with
     | Some _, Some w => Some w | _, _ => transition_from s !! k end) ∧
  transition_time (start_transitions s false) !! k =
    (match transition s !! k, old_scene s !! k with
     | Some _, Some _ => Some None | _, _ => transition_time s !! k end) ∧
  (transition (start_transitions s true) = ∅ ∧ ongoing_transition (start_transitions s true) = ∅ ∧
   transition_from (start_transitions s true) = ∅ ∧ transition_time (start_transitions s true) = ∅).
Proof.
  destruct (start_transitions_lookup s k) as (Ho & Hf & Ht).
  unfold start_transitions in *. destruct (map_fold _ _ _) as [[o f] ti].
  split_and!; first [exact Ho | exact Hf | exact Ht | reflexivity].
Qed.

(** A root transition requested with [set_transition] (as [do_with]
    does) while transitions are not suppressed, over a shown scene, is not
    aborted by the deadlock guard of a [trans_pause] interaction: it
    becomes the ongoing root transition, from the old root. *)
Lemma root_transition_start {R} s t w mouse_name :
  suppress_transition s = false → old_scene s !! None = Some w →
  let s' := set_transition s (Some t) None false in
  ∃ s'', interact_core_start (R:=R) s' true false mouse_name = (s'', None) ∧
    ongoing_transition s'' !! None = Some t ∧ transition_from s'' !! None = Some w ∧
    restart_interaction s'' = false.
Proof.
  intros Hsup Hold s'. unfold interact_core_start.
  destruct (start_transitions_lookup (set_flags s' false (restart_interaction s')) None)
    as (Hon & Hfrom & _).
  simpl in Hon, Hfrom. unfold s', set_transition in Hon, Hfrom |- *. rewrite Hsup in Hon, Hfrom |- *.
  simpl in Hon, Hfrom. rewrite lookup_insert_eq, Hold in Hon, Hfrom.
  unfold trans_pause_abort. simpl. rewrite Hon.
  rewrite (bool_decide_eq_false_2 (_ = ∅)); last first.
  { intros Hem. assert (Hx := lookup_empty (M:=gmap (option string)) (A:=T) None).
    rewrite <-Hem, Hon in Hx. discriminate. }
  rewrite bool_decide_eq_true_2 by done. simpl.
  rewrite bool_decide_eq_false_2; last first.
  { rewrite start_transitions_old_scene. simpl. intros Hem.
    assert (Hx := lookup_empty (M:=gmap (option string)) (A:=W) None).
    rewrite <-Hem, Hold in Hx. discriminate. }
  simpl. eexists. split; [reflexivity|]. simpl. done.
Qed.
End interface_facts.
