(* ===== verification/EventLoop.v ===== *)
(** * The redraw/event loop of [interact_core] (core.py, lines 1543-1606, 1648-1666,
      1733-1763, 2049-2386)

    One pass of [while rv is None:] is [pass]: it redraws when due, checks
    for a restart, runs prediction while idle, arms the timers, takes one
    event and dispatches it.  What the loop reads from outside is explicit:
    - the pygame queue is the list [ls_queue] ([pygame.event.poll/wait/peek]
      and [pygame.event.get/clear] act on it), and [pushed_event] is the
      interface's one-event push-back;
    - per pass, a [pass_env] gives the clock ([get_time()] and
      [time.time()]), the events that arrived, the renderer's pacing
      decision ([draw.should_redraw]), the redraw requests of displayables
      ([render.process_redraws], [render.redraw_time]) and whether a movie
      plays;
    - the focus subsystem and the root widget are the section variables
      [mouse_handler], [root_event] and [key_handler]; raising
      [IgnoreEvent] is their result [HIgnore].  They are functions of
      the event: what a handler does to the interface (a
      [PauseBehavior] calling [Interface.timeout] on a TIMEEVENT,
      [renpy.exports] setting [restart_interaction]) is not modelled,
      so the theorems on a pass that dispatches speak of the state the
      handlers receive, not of the state after them;
    - [set_mode] in the mode check (lines 2077-2079) is taken to succeed:
      the draw object it retries is the one that already set the mode
      at start, and its failure path ([raise Exception("Could not set
      video mode.")], lines 1362-1365) is not modelled in the loop (it
      is in [InterfaceInit] and [Renderer]).
    Drawing, prediction, autosave and the quit action are recorded in a
    trace of [action]s, so that their order can be stated.  The rest of the
    pass (the timers, [ticks], the focus flags, [event_time]) is state. *)

From stdpp Require Import base list strings gmap.
From S2P Require Import Prelude Displayable SceneList Interface.

(** What the loop does that is visible outside its state. *)
Inductive action :=
  | ASetMode                 (** [self.set_mode()] *)
  | ADraw (first_pass : bool) (** [self.draw_screen(root_widget, ...)] *)
  | AFocus                   (** [focus.mouse_handler(self.last_event, ...)] after the first draw *)
  | APredict                 (** one [prediction_coroutine.next()] *)
  | AAutosave                (** [renpy.loadsave.autosave()] *)
  | APeriodic (n : nat)      (** periodic callbacks after merging [n] PERIODIC events *)
  | AQuitAction              (** [renpy.display.behavior.run(config.quit_action)] *)
  | ADispatch (ev : event).  (** the event is handed to the handlers *)

#[global] Instance action_eq_dec : EqDecision action.
Proof. solve_decision. Defined.

(** A handler's answer: a value, [None], or [raise IgnoreEvent]. *)
Inductive handler_result (R : Type) :=
  | HResult (r : R)
  | HNone
  | HIgnore.
Arguments HResult {R} r.
Arguments HNone {R}.
Arguments HIgnore {R}.

(** The outside world seen by one pass. *)
Record pass_env := mk_pass_env {
  pe_now : Z;                     (** [get_time()] *)
  pe_wall : Z;                    (** [time.time()] *)
  pe_arrivals : list event;       (** events posted since the last pass *)
  pe_mode_changed : bool;         (** [self.fullscreen != preferences.fullscreen] *)
  pe_should_redraw : bool → bool → bool;  (** [draw.should_redraw(needs_redraw, first_pass)] *)
  pe_redraws_before : bool;       (** [render.process_redraws()] before prediction *)
  pe_redraws_after : bool;        (** [render.process_redraws()] after the event *)
  pe_redraw_time : option Z;      (** [render.redraw_time()] *)
  pe_movie : bool;                (** [renpy.audio.music.is_playing("movie")] *)
  pe_wait_arrival : option event  (** the event that ends a blocking [pygame.event.wait()] *)
}.

(** A pygame event is false when its type is [NOEVENT]. *)
Definition event_truthy (ev : event) : bool := bool_decide (ev ≠ NoEvent).

(** [pygame.event.peek(ALL_EVENTS)]: every type but TIMEEVENT and REDRAW. *)
Definition counts_for_peek (ev : event) : bool :=
  match ev with TimeEvent | RedrawEv => false | _ => true end.

Definition peek_all (q : list event) : bool := existsb counts_for_peek q.

(** [pygame.event.get([TYPE])] / [pygame.event.clear([TYPE])] *)
Definition remove_kind (p : event → bool) (q : list event) : list event :=
  filter (λ ev, p ev = false) q.

Definition is_time_event (ev : event) : bool := bool_decide (ev = TimeEvent).
Definition is_redraw_event (ev : event) : bool := bool_decide (ev = RedrawEv).
Definition is_periodic (ev : event) : bool := bool_decide (ev = PeriodicEv).
Definition is_motion (ev : event) : bool :=
  match ev with MouseMotion _ _ => true | _ => false end.
Definition is_resize (ev : event) : bool :=
  match ev with VideoResize _ _ => true | _ => false end.

Section queue.
Context {W T : Type}.
Implicit Types (s : interface W T) (q : list event).

(** [event_peek] (lines 1543-1560): the pushed-back event, or the next
    event moved from the queue to the push-back slot. *)
Definition event_peek s q : option event * interface W T * list event :=
  match pushed_event s with
  | Some ev => (Some ev, s, q)
  | None =>
      match q with
      | [] => (None, s, q)
      | ev :: q' => (Some ev, set_events s (Some ev) (last_event s), q')
      end
  end.

(** [event_poll] (lines 1562-1576): [NOEVENT] when nothing is queued. *)
Definition event_poll s q : event * interface W T * list event :=
  match pushed_event s with
  | Some ev => (ev, set_events s None (Some ev), q)
  | None =>
      match q with
      | [] => (NoEvent, set_events s None (Some NoEvent), q)
      | ev :: q' => (ev, set_events s None (Some ev), q')
      end
  end.

(** [event_wait] (lines 1579-1605): on an empty queue [pygame.event.wait()]
    blocks until [arrival] comes; [None] when nothing comes. *)
Definition event_wait s q (arrival : option event) : option (event * interface W T * list event) :=
  match pushed_event s with
  | Some ev => Some (ev, set_events s None (Some ev), q)
  | None =>
      match q with
      | [] => (λ ev, (ev, set_events s None (Some ev), q)) <$> arrival
      | ev :: q' => Some (ev, set_events s None (Some ev), q')
      end
  end.
End queue.

(** ** The engine's window bookkeeping *)

Section window.
Context {W T : Type}.
Implicit Types (s : interface W T).

(** What [set_mode] (lines 1304-1381) does to the engine's flags; the
    mode switch itself is the renderer's. *)
Definition set_mode_flags s : interface W T :=
  set_force_redraw (set_window s true false false (last_resize s)) true.

(** [iconified] (lines 1733-1743) *)
Definition iconified s : interface W T :=
  if minimized s then s else set_window s (focused s) true (display_reset s) (last_resize s).

(** [restored] (lines 1746-1763): on Windows the display is reset. *)
Definition restored (windows : bool) s : interface W T * list action :=
  if negb (minimized s) then (s, [])
  else let s1 := set_window s (focused s) false (display_reset s) (last_resize s) in
       if windows then (set_mode_flags (set_window s1 (focused s1) false true (last_resize s1)), [ASetMode])
       else (s1, []).

(** [quit_event] (lines 1648-1665): a second quit within 0.75 s of the
    last one, or a quit with no quit action, raises [QuitException]. *)
Definition quit_event (has_quit_action : bool) (wall : Z) s : result (interface W T * list action) :=
  if decide (quit_time s > wall - 750) then raise QuitException
  else if has_quit_action then Ok (set_quit_time s wall, [AQuitAction])
  else raise QuitException.

(** The [ACTIVEEVENT] handling (lines 2298-2306). *)
Definition active_event (windows : bool) (state : Z) (gain : bool) s : interface W T * list action :=
  let s1 := if Z.testbit state 0 then set_window s gain (minimized s) (display_reset s) (last_resize s)
            else s in
  if Z.testbit state 2 then (if gain then restored windows s1 else (iconified s1, [])) else (s1, []).
End window.

(** ** The loop *)

(** The locals of [interact_core] that live across passes, and the
    engine fields only the loop uses ([interact_time], [mouse_event_time]). *)
Record locals := mk_locals {
  needs_redraw : bool;
  first_pass : bool;
  did_autosave : bool;
  (** the prediction coroutine: [None] once exhausted, [Some n] with [n]
      units of work left before [next()] returns a false value *)
  prediction : option nat;
  old_timeout_time : option Z;
  old_redraw_time : option Z;
  interact_time : option Z;
  end_time : Z;
  mouse_event_time : Z
}.

Section loop.
Context {D W T R : Type} `{EqDecision D} `{DisplayableOps D}.

(** [renpy.display.focus.mouse_handler(ev, x, y)] *)
Variable mouse_handler : event → Z → Z → handler_result R.
(** [root_widget.event(ev, x, y, 0)] *)
Variable root_event : event → Z → Z → handler_result R.
(** [renpy.display.focus.key_handler(ev)] *)
Variable key_handler : event → handler_result R.
(** [renpy.display.draw.mouse_event(ev)] *)
Variable mouse_event_pos : event → Z * Z.
(** [renpy.display.joystick.event(ev)]: [None] drops the event *)
Variable joystick : event → option event.
(** [renpy.config.quit_action is not None] and [renpy.windows] *)
Variable has_quit_action : bool.
Variable windows : bool.

Record loop_state := mk_loop_state {
  ls_itf : interface W T;
  ls_scene : scene_lists (D:=D);
  ls_queue : list event;
  ls_loc : locals;
  ls_trace : list action
}.

Definition with_itf (st : loop_state) (s : interface W T) : loop_state :=
  mk_loop_state s (ls_scene st) (ls_queue st) (ls_loc st) (ls_trace st).
Definition with_queue (st : loop_state) (q : list event) : loop_state :=
  mk_loop_state (ls_itf st) (ls_scene st) q (ls_loc st) (ls_trace st).
Definition with_loc (st : loop_state) (l : locals) : loop_state :=
  mk_loop_state (ls_itf st) (ls_scene st) (ls_queue st) l (ls_trace st).
Definition emit (st : loop_state) (a : list action) : loop_state :=
  mk_loop_state (ls_itf st) (ls_scene st) (ls_queue st) (ls_loc st) (ls_trace st ++ a).

Definition set_needs_redraw (l : locals) (b : bool) : locals :=
  mk_locals b (first_pass l) (did_autosave l) (prediction l) (old_timeout_time l)
    (old_redraw_time l) (interact_time l) (end_time l) (mouse_event_time l).
Definition set_prediction (l : locals) (p : option nat) : locals :=
  mk_locals (needs_redraw l) (first_pass l) (did_autosave l) p (old_timeout_time l)
    (old_redraw_time l) (interact_time l) (end_time l) (mouse_event_time l).
Definition set_timers (l : locals) (ot orw : option Z) : locals :=
  mk_locals (needs_redraw l) (first_pass l) (did_autosave l) (prediction l) ot orw
    (interact_time l) (end_time l) (mouse_event_time l).
Definition set_autosaved (l : locals) : locals :=
  mk_locals (needs_redraw l) (first_pass l) true (prediction l) (old_timeout_time l)
    (old_redraw_time l) (interact_time l) (end_time l) (mouse_event_time l).
Definition set_event_times (l : locals) (endt mouset : Z) : locals :=
  mk_locals (needs_redraw l) (first_pass l) (did_autosave l) (prediction l)
    (old_timeout_time l) (old_redraw_time l) (interact_time l) endt mouset.

(** How a pass ends. *)
Inductive pass_outcome :=
  | Continue (st : loop_state)           (** next pass *)
  | Break (r : R) (st : loop_state)      (** [rv] is set: the loop ends *)
  | Restart (st : loop_state)            (** [return True, None] *)
  | Raise (e : py_error) (st : loop_state)
  | Blocked (st : loop_state).           (** [pygame.event.wait()] on an empty queue *)

(** Lines 2077-2079: a change of the fullscreen preference resets the mode. *)
Definition mode_check (pe : pass_env) (st : loop_state) : loop_state :=
  if pe_mode_changed pe || display_reset (ls_itf st)
  then emit (with_loc (with_itf st (set_mode_flags (ls_itf st)))
               (set_needs_redraw (ls_loc st) true)) [ASetMode]
  else st.

(** Lines 2086-2132: the redraw, when forced or when no input is queued
    and the renderer's pacing asks for one. *)
Definition redraw_due (pe : pass_env) (st : loop_state) : bool :=
  force_redraw (ls_itf st) ||
  ((first_pass (ls_loc st) || negb (peek_all (ls_queue st))) &&
   pe_should_redraw pe (needs_redraw (ls_loc st)) (first_pass (ls_loc st))).

Definition redraw (pe : pass_env) (st : loop_state) : loop_state :=
  let l := ls_loc st in
  let s := set_force_redraw (ls_itf st) false in
  let it := if time_truthy (interact_time l) then default 0 (interact_time l) else pe_now pe in
  let fp := first_pass l in
  let s := if fp then set_transitions s (transition s) (ongoing_transition s)
                        ((λ v, Some (default it v)) <$> transition_time s) (transition_from s)
           else s in
  let sc := if fp then set_times (ls_scene st) it else ls_scene st in
  let focus := if fp && default false (event_truthy <$> last_event s) then [AFocus] else [] in
  mk_loop_state s sc (remove_kind is_redraw_event (ls_queue st))
    (mk_locals false false (did_autosave l) (prediction l) (old_timeout_time l) None
       (Some it) (end_time l) (mouse_event_time l))
    (ls_trace st ++ ADraw fp :: focus).

(** Lines 2146-2154: prediction, one unit per [next()], while no redraw
    is needed, no event is pending and no movie plays. *)
Fixpoint predict_go (n : nat) (pe : pass_env) (st : loop_state) : loop_state :=
  if needs_redraw (ls_loc st) then st else
  let '(pk, s', q') := event_peek (ls_itf st) (ls_queue st) in
  let st := with_queue (with_itf st s') q' in
  if bool_decide (is_Some pk) || pe_movie pe then st else
  match n with
  | O => emit (with_loc st (set_prediction (ls_loc st) None)) [APredict]
  | S n' => predict_go n' pe (emit (with_loc st (set_prediction (ls_loc st) (Some n'))) [APredict])
  end.

Definition predict (pe : pass_env) (st : loop_state) : loop_state :=
  match prediction (ls_loc st) with
  | None => st
  | Some n => predict_go n pe st
  end.

(** Line 2158: with a redraw needed and no event pending, loop at once
    (the boolean is [true] for [continue]). *)
Definition busy_redraw_check (st : loop_state) : loop_state * bool :=
  if needs_redraw (ls_loc st) then
    let '(pk, s', q') := event_peek (ls_itf st) (ls_queue st) in
    (with_queue (with_itf st s') q', negb (bool_decide (is_Some pk)))
  else (st, false).

(** Lines 2167-2203: arm the redraw and timeout timers; returns
    [redraw_in], [timeout_in] (in ms) and the time event when the
    timeout has passed.  Note that the timeout branch writes [redraw_in]. *)
Definition arm_timers (pe : pass_env) (st : loop_state) : loop_state * Z * Z * option event :=
  let l := ls_loc st in
  let s := ls_itf st in
  let '(redraw_in, ort) :=
    if time_truthy (pe_redraw_time pe) && negb (needs_redraw l) then
      if decide (pe_redraw_time pe ≠ old_redraw_time l)
      then (Z.min (default 0 (pe_redraw_time pe) - pe_now pe) 3600000, pe_redraw_time pe)
      else (3600000, old_redraw_time l)
    else (3600000, old_redraw_time l) in
  if time_truthy (timeout_time s) then
    let time_left := Z.min (default 0 (timeout_time s) - pe_now pe) 3600000 in
    if decide (time_left < 0) then
      (with_loc (with_itf st (set_timeout_time s None)) (set_timers l (old_timeout_time l) ort),
       time_left, 3600000, Some TimeEvent)
    else
      let ott := if decide (timeout_time s ≠ old_timeout_time l) then timeout_time s
                 else old_timeout_time l in
      (with_loc st (set_timers l ott ort), time_left, 3600000, None)
  else (with_loc st (set_timers l (old_timeout_time l) ort), redraw_in, 3600000, None).

(** Lines 2206-2208: one autosave per interaction, when idle. *)
Definition autosave_check (st : loop_state) (redraw_in timeout_in : Z) : loop_state :=
  if did_autosave (ls_loc st) || needs_redraw (ls_loc st) then st else
  let '(pk, s', q') := event_peek (ls_itf st) (ls_queue st) in
  let st := with_queue (with_itf st s') q' in
  if bool_decide (is_Some pk) then st
  else if bool_decide (redraw_in > 250) && bool_decide (timeout_in > 250)
  then emit (with_loc st (set_autosaved (ls_loc st))) [AAutosave]
  else st.

(** Lines 2211-2215: the event, polled when a redraw is needed, waited
    for otherwise; [None] when the wait blocks. *)
Definition take_event (pe : pass_env) (st : loop_state) (ev : option event)
    : option (event * loop_state) :=
  match ev with
  | Some e => Some (e, st)
  | None =>
      if needs_redraw (ls_loc st) then
        let '(e, s', q') := event_poll (ls_itf st) (ls_queue st) in
        Some (e, with_queue (with_itf st s') q')
      else (λ '(e, s', q'), (e, with_queue (with_itf st s') q')) <$>
             event_wait (ls_itf st) (ls_queue st) (pe_wait_arrival pe)
  end.

(** Lines 2348-2351: after an event, another redraw check and the restart check. *)
Definition after_event (pe : pass_env) (st : loop_state) : pass_outcome :=
  let st := with_loc st (set_needs_redraw (ls_loc st)
                          (needs_redraw (ls_loc st) || pe_redraws_after pe)) in
  if restart_interaction (ls_itf st) then Restart st else Continue st.

(** Lines 2320-2344: the handlers in their fixed order; [IgnoreEvent]
    posts a time event. *)
Definition dispatch (pe : pass_env) (st : loop_state) (ev : event) (x y : Z) : pass_outcome :=
  let ignored := after_event pe (with_queue st (ls_queue st ++ [TimeEvent])) in
  match mouse_handler ev x y with
  | HResult r => Break r st
  | HIgnore => ignored
  | HNone =>
      match root_event ev x y with
      | HResult r => Break r st
      | HIgnore => ignored
      | HNone =>
          match key_handler ev with
          | HResult r => Break r st
          | HIgnore => ignored
          | HNone => after_event pe st
          end
      end
  end.

Definition is_mouse (ev : event) : bool :=
  match ev with MouseMotion _ _ | MouseButtonDown _ _ | MouseButtonUp _ _ => true | _ => false end.

(** Lines 2224-2226: a time event forgets the armed timeout and the
    queued time events. *)
Definition clear_time_events (st : loop_state) (ev : event) : loop_state :=
  if is_time_event ev
  then with_loc (with_queue st (remove_kind is_time_event (ls_queue st)))
         (set_timers (ls_loc st) None (old_redraw_time (ls_loc st)))
  else st.

(** Lines 2242-2250: the PERIODIC events queued are merged into one tick count. *)
Definition periodic_event (st : loop_state) : loop_state :=
  let n := S (length (filter (λ e, is_periodic e = true) (ls_queue st))) in
  emit (with_queue (with_itf st (set_ticks (ls_itf st) (ticks (ls_itf st) + n)))
          (remove_kind is_periodic (ls_queue st))) [APeriodic n].

(** Lines 2270-2279: the last queued resize wins; the mode is set when the
    size changed. *)
Definition resize_event (st : loop_state) (ev : event) : loop_state :=
  let ev' := default ev (last (filter (λ e, is_resize e = true) (ls_queue st))) in
  let st := with_queue st (remove_kind is_resize (ls_queue st)) in
  let s := ls_itf st in
  match ev' with
  | VideoResize w' h' =>
      if decide (last_resize s ≠ Some (w', h'))
      then emit (with_itf st (set_mode_flags
             (set_window s (focused s) (minimized s) (display_reset s) (Some (w', h'))))) [ASetMode]
      else st
  | _ => st
  end.

(** Lines 2289-2295: the last queued motion wins; on Windows motion means focus. *)
Definition coalesce_motion (st : loop_state) (ev : event) : event * loop_state :=
  if is_motion ev then
    (default ev (last (filter (λ e, is_motion e = true) (ls_queue st))),
     let st := with_queue st (remove_kind is_motion (ls_queue st)) in
     if windows then with_itf st (set_window (ls_itf st) true (minimized (ls_itf st))
                                    (display_reset (ls_itf st)) (last_resize (ls_itf st)))
     else st)
  else (ev, st).

(** Lines 2298-2306: focus and iconify notifications. *)
Definition focus_event (st : loop_state) (ev : event) : loop_state :=
  match ev with
  | ActiveEvent state gain =>
      let '(s', acts) := active_event windows state gain (ls_itf st) in
      emit (with_itf st s') acts
  | _ => st
  end.

(** Lines 2311-2315: where the event happened; [(-1, -1)] while the
    window has no focus. *)
Definition event_pos (s : interface W T) (ev : event) : Z * Z :=
  if focused s then mouse_event_pos ev else (-1, -1).

(** Lines 2281-2329: an event for the handlers: the mouse timer, the
    coalescing, the focus bookkeeping, the position and the dispatch. *)
Definition deliver (pe : pass_env) (st : loop_state) (ev : event) : pass_outcome :=
  let l := ls_loc st in
  let st := if is_mouse ev then with_loc st (set_event_times l (end_time l) (pe_now pe)) else st in
  let '(ev, st) := coalesce_motion st ev in
  let st := focus_event st ev in
  let '(x, y) := event_pos (ls_itf st) ev in
  let st := with_loc (with_itf st (set_event_time (ls_itf st) (pe_now pe)))
              (set_event_times (ls_loc st) (pe_now pe) (mouse_event_time (ls_loc st))) in
  dispatch pe (emit st [ADispatch ev]) ev x y.

(** Lines 2217-2329: what is done with the event, by its type. *)
Definition handle_event (pe : pass_env) (st : loop_state) (ev : event) : pass_outcome :=
  if negb (event_truthy ev) then Continue st else
  let st := clear_time_events st ev in
  if is_redraw_event ev then
    Continue (with_loc st (set_timers (ls_loc st) (old_timeout_time (ls_loc st)) None)) else
  if is_periodic ev then Continue (periodic_event st) else
  match joystick ev with
  | None => Continue st
  | Some ev =>
  if negb (event_truthy ev) then Continue st else
  match ev with
  | QuitEv =>
      match quit_event has_quit_action (pe_wall pe) (ls_itf st) with
      | Err e => Raise e st
      | Ok (s', acts) => Continue (emit (with_itf st s') acts)
      end
  | VideoResize _ _ => Continue (resize_event st ev)
  | _ => deliver pe st ev
  end
  end.

(** Lines 2074-2132: the start of a pass: the events that arrived, the
    mode check and the redraw when it is due. *)
Definition pass_prelude (pe : pass_env) (st : loop_state) : loop_state :=
  let st := with_queue st (ls_queue st ++ pe_arrivals pe) in
  let st := mode_check pe st in
  if redraw_due pe st then redraw pe st else st.

(** Lines 2138-2351: the rest of the pass: the restart check, prediction,
    the timers, autosave and one event. *)
Definition pass_body (pe : pass_env) (st : loop_state) : pass_outcome :=
  if restart_interaction (ls_itf st) then Restart st else
  let st := with_loc st (set_needs_redraw (ls_loc st)
                          (needs_redraw (ls_loc st) || pe_redraws_before pe)) in
  let st := predict pe st in
  let '(st, busy) := busy_redraw_check st in
  if busy then Continue st else
  let '(st, redraw_in, timeout_in, tev) := arm_timers pe st in
  let st := autosave_check st redraw_in timeout_in in
  match take_event pe st tev with
  | None => Blocked st
  | Some (ev, st) => handle_event pe st ev
  end.

(** One pass of [while rv is None:] (lines 2074-2351). *)
Definition pass (pe : pass_env) (st : loop_state) : pass_outcome :=
  pass_body pe (pass_prelude pe st).

(** How the loop ends, given one [pass_env] per pass. *)
Inductive loop_outcome :=
  | LoopReturn (r : R) (st : loop_state)
  | LoopRestart (st : loop_state)
  | LoopRaise (e : py_error) (st : loop_state)
  | LoopBlocked (st : loop_state)
  | LoopPending (st : loop_state).  (** more passes than environments given *)

Fixpoint run_loop (envs : list pass_env) (st : loop_state) : loop_outcome :=
  match envs with
  | [] => LoopPending st
  | pe :: envs' =>
      match pass pe st with
      | Continue st' => run_loop envs' st'
      | Break r st' => LoopReturn r st'
      | Restart st' => LoopRestart st'
      | Raise e st' => LoopRaise e st'
      | Blocked st' => LoopBlocked st'
      end
  end.
End loop.

(** * Properties of the loop *)

Section loop_facts.
Context {D W T R : Type} `{EqDecision D} `{DisplayableOps D}.
Abbreviation loop_state := (loop_state (D:=D) (W:=W) (T:=T)).
Abbreviation pass_outcome := (pass_outcome (D:=D) (W:=W) (T:=T) (R:=R)).
Definition outcome_state (o : pass_outcome) : loop_state :=
  match o with Continue st | Break _ st | Restart st | Raise _ st | Blocked st => st end.
(** The trace of [st'] extends the trace of [st], and no more autosaves
    were recorded than the interaction had left: [autosave_budget] is 1
    until [did_autosave] is set. *)
Definition autosaves (acts : list action) : nat :=
  length (filter (λ a, a = AAutosave) acts).
Definition autosave_budget (st : loop_state) : nat :=
  if did_autosave (ls_loc st) then 0 else 1.
(** The fields of the engine the loop never writes. *)
Definition loop_frame (s s' : interface W T) : Prop :=
  old_scene s' = old_scene s ∧ transition s' = transition s ∧
  ongoing_transition s' = ongoing_transition s ∧ transition_from s' = transition_from s ∧
  suppress_transition s' = suppress_transition s ∧ restart_interaction s' = restart_interaction s.

Lemma loop_frame_refl s : loop_frame s s.
Proof. by split_and!. Qed.

Lemma loop_frame_trans s1 s2 s3 : loop_frame s1 s2 → loop_frame s2 s3 → loop_frame s1 s3.
Proof. unfold loop_frame. intros. split_and!; naive_solver congruence. Qed.

Definition grows (st st' : loop_state) : Prop :=
  ∃ acts, ls_trace st' = ls_trace st ++ acts ∧
          (autosaves acts + autosave_budget st' ≤ autosave_budget st)%nat ∧
          loop_frame (ls_itf st) (ls_itf st').
Lemma autosaves_app a b : autosaves (a ++ b) = (autosaves a + autosaves b)%nat.
Proof. unfold autosaves. by rewrite filter_app, length_app. Qed.

Lemma autosaves_notin acts : AAutosave ∉ acts → autosaves acts = 0%nat.
Proof.
  induction acts as [|a acts IH]; intros Hn; [done|]. unfold autosaves in *.
  rewrite filter_cons. case_decide; [set_solver|]. apply IH. set_solver.
Qed.

Lemma grows_refl st : grows st st.
Proof. exists []. rewrite app_nil_r. split_and!; [done| |apply loop_frame_refl]. simpl. lia. Qed.

Lemma grows_trans st1 st2 st3 : grows st1 st2 → grows st2 st3 → grows st1 st3.
Proof.
  intros (a1 & H1 & B1 & F1) (a2 & H2 & B2 & F2). exists (a1 ++ a2).
  rewrite H2, H1, app_assoc, autosaves_app. split_and!; [done|lia|by eapply loop_frame_trans].
Qed.

(** A step that appends [acts] without an autosave, keeps [did_autosave]
    and writes none of the frame's fields. *)
Lemma grows_intro st st' acts :
  ls_trace st' = ls_trace st ++ acts → AAutosave ∉ acts →
  did_autosave (ls_loc st') = did_autosave (ls_loc st) →
  loop_frame (ls_itf st) (ls_itf st') → grows st st'.
Proof.
  intros Ht Hn Hd Hf. exists acts. split_and!; [done| |done].
  unfold autosave_budget. rewrite Hd.
  rewrite autosaves_notin by done. lia.
Qed.

Lemma grows_same st st' :
  ls_trace st' = ls_trace st → did_autosave (ls_loc st') = did_autosave (ls_loc st) →
  loop_frame (ls_itf st) (ls_itf st') → grows st st'.
Proof. intros Ht. apply (grows_intro _ _ []); [by rewrite Ht, app_nil_r|set_solver]. Qed.

#[local] Hint Resolve grows_refl : renpy.
(** Closes [loop_frame] goals: the setters the loop uses keep the frame. *)
Ltac frame_tac :=
  simpl; first [ done | by split_and! | by eapply loop_frame_trans ].

(** Closes [grows] goals of a step that records no autosave. *)
Ltac grows_tac :=
  match goal with
  | |- grows ?st ?st' =>
      first [ apply grows_same; [reflexivity|reflexivity|frame_tac]
            | eapply grows_intro; [simpl; rewrite <- ?app_assoc; reflexivity
                                  | set_solver | reflexivity | frame_tac] ]
  end.
Definition trace_ext (st st' : loop_state) : Prop := ∃ acts, ls_trace st' = ls_trace st ++ acts.
Lemma event_peek_frame (s : interface W T) q : loop_frame s (event_peek s q).1.2.
Proof. unfold event_peek. repeat case_match; by split_and!. Qed.

Lemma event_poll_frame (s : interface W T) q : loop_frame s (event_poll s q).1.2.
Proof. unfold event_poll. repeat case_match; by split_and!. Qed.

Lemma event_wait_frame (s s' : interface W T) q a e q' :
  event_wait s q a = Some (e, s', q') → loop_frame s s'.
Proof. unfold event_wait. destruct (pushed_event s), q, a; simpl; intros; simplify_eq; by split_and!. Qed.

Lemma grows_trace_ext st st' : grows st st' → trace_ext st st'.
Proof. intros (acts & ? & _). by exists acts. Qed.

Lemma mode_check_grows pe st : grows st (mode_check pe st).
Proof. unfold mode_check. case_match; grows_tac. Qed.

Lemma redraw_grows pe st : grows st (redraw pe st).
Proof.
  unfold redraw. eapply grows_intro; [reflexivity| |reflexivity|]; case_match; try set_solver;
    by split_and!.
Qed.

Lemma predict_go_grows n pe st : grows st (predict_go n pe st).
Proof.
  revert st. induction n as [|n IH]; intros st; simpl;
    destruct (needs_redraw _); try apply grows_refl;
    pose proof (event_peek_frame (ls_itf st) (ls_queue st));
    destruct (event_peek _ _) as [[pk s'] q']; simpl in *;
    (destruct (_ || _); [grows_tac|]); [grows_tac|].
  eapply grows_trans; [|apply IH]. grows_tac.
Qed.

Lemma predict_grows pe st : grows st (predict pe st).
Proof. unfold predict. destruct (prediction _); [apply predict_go_grows|apply grows_refl]. Qed.

Lemma busy_redraw_check_grows st : grows st (busy_redraw_check st).1.
Proof.
  unfold busy_redraw_check. destruct (needs_redraw _); [|apply grows_refl].
  pose proof (event_peek_frame (ls_itf st) (ls_queue st)).
  destruct (event_peek _ _) as [[pk s'] q']. simpl in *. grows_tac.
Qed.

Lemma arm_timers_grows pe st : grows st (arm_timers pe st).1.1.1.
Proof. unfold arm_timers. repeat (case_match || case_decide); simpl; grows_tac. Qed.

(** The one step that spends the budget. *)
Lemma autosave_check_grows st ri ti : grows st (autosave_check st ri ti).
Proof.
  unfold autosave_check. destruct (did_autosave _ || _) eqn:Hd; [apply grows_refl|].
  pose proof (event_peek_frame (ls_itf st) (ls_queue st)).
  destruct (event_peek _ _) as [[pk s'] q']. simpl in *.
  case_bool_decide; [grows_tac|]. destruct (_ && _); [|grows_tac].
  exists [AAutosave]. split_and!; [done| |done]. apply orb_false_iff in Hd as [Hd _].
  unfold autosave_budget, autosaves. rewrite filter_cons_True by done. simpl. rewrite Hd. simpl. lia.
Qed.

Lemma take_event_grows pe st ev e st' : take_event pe st ev = Some (e, st') → grows st st'.
Proof.
  unfold take_event. destruct ev; [intros [= _ <-]; apply grows_refl|].
  destruct (needs_redraw _).
  - pose proof (event_poll_frame (ls_itf st) (ls_queue st)).
    destruct (event_poll _ _) as [[e' s'] q']. simpl in *. intros [= _ <-]. grows_tac.
  - destruct (event_wait _ _ _) as [[[e' s'] q']|] eqn:Hw; simpl; [|done].
    apply event_wait_frame in Hw. intros [= _ <-]. grows_tac.
Qed.

Lemma after_event_grows pe st : grows st (outcome_state (after_event pe st)).
Proof. unfold after_event. case_match; simpl; grows_tac. Qed.

Lemma quit_event_acts hq wall (s s' : interface W T) acts :
  quit_event hq wall s = Ok (s', acts) → AAutosave ∉ acts ∧ loop_frame s s'.
Proof. unfold quit_event. repeat case_match; intros; simplify_eq; split; [set_solver|by split_and!]. Qed.

Lemma active_event_acts (w : bool) (state : Z) gain (s s' : interface W T) acts :
  active_event w state gain s = (s', acts) → AAutosave ∉ acts ∧ loop_frame s s'.
Proof.
  unfold active_event, restored, iconified.
  repeat case_match; intros; simplify_eq; split; try set_solver; by split_and!.
Qed.

Lemma clear_time_events_grows st ev : grows st (clear_time_events st ev).
Proof. unfold clear_time_events. case_match; grows_tac. Qed.

Lemma resize_event_grows st ev : grows st (resize_event st ev).
Proof. unfold resize_event. repeat (case_match || case_decide); grows_tac. Qed.

Lemma pass_prelude_grows pe st : grows st (pass_prelude pe st).
Proof.
  unfold pass_prelude. eapply grows_trans; [|case_match; [apply redraw_grows|apply grows_refl]].
  eapply grows_trans; [|apply mode_check_grows]. grows_tac.
Qed.

Lemma mode_check_forces pe (st : loop_state) :
  force_redraw (ls_itf st) = true ∨ pe_mode_changed pe = true →
  force_redraw (ls_itf (mode_check pe st)) = true ∧
  first_pass (ls_loc (mode_check pe st)) = first_pass (ls_loc st) ∧
  ∃ pre, ls_trace (mode_check pe st) = ls_trace st ++ pre ∧ (pre = [] ∨ pre = [ASetMode]).
Proof.
  intros Hf. unfold mode_check. destruct (_ || _) eqn:Hm; simpl.
  - split; [done|]. split; [done|]. eexists; split; [done|by right].
  - apply orb_false_iff in Hm as [Hm _]. rewrite Hm in Hf. destruct Hf as [Hf|]; [|done].
    split; [done|]. split; [done|]. exists []. rewrite app_nil_r. split; [done|by left].
Qed.

Lemma event_peek_pending (s : interface W T) q :
  pushed_event s ≠ None ∨ q ≠ [] → is_Some (event_peek s q).1.1.
Proof. unfold event_peek. intros Hp. repeat case_match; naive_solver. Qed.

Lemma event_peek_idle (s : interface W T) : pushed_event s = None → event_peek s [] = (None, s, []).
Proof. unfold event_peek. by intros ->. Qed.

Lemma event_peek_timeout (s : interface W T) q :
  timeout_time (event_peek s q).1.2 = timeout_time s.
Proof. unfold event_peek. by repeat case_match. Qed.

(** Prediction never runs while input is pending: when an event is
    pushed back or queued, [prediction_coroutine.next()] is not called. *)
Theorem predict_pending_noop pe (st : loop_state) :
  pushed_event (ls_itf st) ≠ None ∨ ls_queue st ≠ [] →
  ls_trace (predict pe st) = ls_trace st.
Proof.
  intros Hp. unfold predict. destruct (prediction _) as [n|]; [|done].
  destruct n; simpl; destruct (needs_redraw _); try done;
    pose proof (event_peek_pending _ _ Hp) as Hs;
    destruct (event_peek _ _) as [[pk s'] q']; simpl in Hs;
    by rewrite (bool_decide_eq_true_2 _ Hs).
Qed.

(** C30: Prediction runs to exhaustion when the loop is idle: with no event
    pending, no redraw needed and no movie, a coroutine with [n] units left
    is stepped [n + 1] times within the pass, the last [next()] returning
    false, and is then dropped. *)
Theorem predict_idle_exhausts pe (st : loop_state) n :
  prediction (ls_loc st) = Some n → pushed_event (ls_itf st) = None → ls_queue st = [] →
  needs_redraw (ls_loc st) = false → pe_movie pe = false →
  ls_trace (predict pe st) = ls_trace st ++ replicate (S n) APredict ∧
  prediction (ls_loc (predict pe st)) = None.
Proof.
  intros Hpr Hp Hq Hn Hm. unfold predict. rewrite Hpr. clear Hpr.
  revert st Hp Hq Hn. induction n as [|n IH]; intros st Hp Hq Hn; simpl;
    rewrite Hn, Hq, event_peek_idle, Hm by done; simpl.
  - done.
  - match goal with |- context [predict_go n pe ?X] => destruct (IH X) as [-> ->] end;
      try done. simpl. by rewrite <- app_assoc.
Qed.

Lemma predict_fields pe (st : loop_state) :
  timeout_time (ls_itf (predict pe st)) = timeout_time (ls_itf st) ∧
  needs_redraw (ls_loc (predict pe st)) = needs_redraw (ls_loc st).
Proof.
  unfold predict. destruct (prediction _) as [n|]; [|done]. revert st.
  induction n as [|n IH]; intros st; simpl; destruct (needs_redraw _) eqn:Hn; try done;
    pose proof (event_peek_timeout (ls_itf st) (ls_queue st));
    destruct (event_peek _ _) as [[pk s'] q']; simpl in *;
    destruct (_ || _); simpl; try done.
  match goal with |- context [predict_go n pe ?X] => destruct (IH X) as [-> ->] end.
  simpl. by rewrite Hn.
Qed.

Lemma redraw_fields pe (st : loop_state) :
  timeout_time (ls_itf (redraw pe st)) = timeout_time (ls_itf st) ∧
  restart_interaction (ls_itf (redraw pe st)) = restart_interaction (ls_itf st) ∧
  needs_redraw (ls_loc (redraw pe st)) = false.
Proof. unfold redraw. simpl. by case_match. Qed.

Lemma pass_prelude_quiet pe (st : loop_state) :
  pe_mode_changed pe = false → display_reset (ls_itf st) = false →
  needs_redraw (ls_loc st) = false →
  timeout_time (ls_itf (pass_prelude pe st)) = timeout_time (ls_itf st) ∧
  restart_interaction (ls_itf (pass_prelude pe st)) = restart_interaction (ls_itf st) ∧
  needs_redraw (ls_loc (pass_prelude pe st)) = false.
Proof.
  intros Hm Hd Hn. unfold pass_prelude, mode_check. simpl. rewrite Hm, Hd. simpl.
  case_match; [|done]. by pose proof (redraw_fields pe (with_queue st (ls_queue st ++ pe_arrivals pe))).
Qed.

Lemma arm_timers_fire pe (st : loop_state) (d : Z) :
  timeout_time (ls_itf st) = Some d → d ≠ 0 → d < pe_now pe →
  (arm_timers pe st).2 = Some TimeEvent ∧
  timeout_time (ls_itf (arm_timers pe st).1.1.1) = None.
Proof.
  intros Ht Hd Hl. unfold arm_timers. rewrite Ht. simpl.
  rewrite bool_decide_eq_true_2 by done.
  destruct (time_truthy (pe_redraw_time pe) && _); [destruct (decide _)|]; simpl;
    by rewrite decide_True by lia.
Qed.

Lemma autosave_check_timeout (st : loop_state) ri ti :
  timeout_time (ls_itf (autosave_check st ri ti)) = timeout_time (ls_itf st).
Proof.
  unfold autosave_check. case_match; [done|].
  pose proof (event_peek_timeout (ls_itf st) (ls_queue st)).
  destruct (event_peek _ _) as [[pk s'] q']. simpl in *. by repeat case_match.
Qed.

(** C25: The timeout hides the redraw deadline from the autosave check.
    With no input pending and a new redraw due within 0.25 s, the pass
    autosaves exactly when a timeout more than 0.25 s away is armed: the
    timeout branch of lines 2186-2190 overwrites [redraw_in] with the time
    to the timeout, and [timeout_in] stays at one hour. *)
Theorem autosave_ignores_redraw_deadline pe (st : loop_state) (rt : Z) :
  did_autosave (ls_loc st) = false → needs_redraw (ls_loc st) = false →
  pushed_event (ls_itf st) = None → ls_queue st = [] →
  pe_redraw_time pe = Some rt → rt ≠ 0 → Some rt ≠ old_redraw_time (ls_loc st) →
  rt - pe_now pe ≤ 250 →
  let '(st', redraw_in, timeout_in, _) := arm_timers pe st in
  ls_trace (autosave_check st' redraw_in timeout_in) =
  ls_trace st ++ (if time_truthy (timeout_time (ls_itf st)) &&
                     bool_decide (default 0 (timeout_time (ls_itf st)) - pe_now pe > 250)
                  then [AAutosave] else []).
Proof.
  intros Hd Hn Hp Hq Hr Hr0 Hor Hdue. unfold arm_timers. rewrite Hr, Hn. simpl.
  rewrite bool_decide_eq_true_2 by done. simpl. rewrite decide_True by done.
  destruct (time_truthy _); [destruct (decide _)|]; simpl;
    unfold autosave_check, event_peek; simpl; rewrite Hd, Hn, Hq, Hp; simpl;
    repeat case_bool_decide; simpl; rewrite ?app_nil_r; try done; lia.
Qed.

(** What the start of a pass may record: the mode switch and the draw. *)
Definition prelude_action (a : action) : Prop :=
  a = ASetMode ∨ a = AFocus ∨ ∃ fp, a = ADraw fp.
Lemma pass_prelude_restart pe (st : loop_state) :
  restart_interaction (ls_itf (pass_prelude pe st)) = restart_interaction (ls_itf st) ∧
  ∃ acts, ls_trace (pass_prelude pe st) = ls_trace st ++ acts ∧ Forall prelude_action acts.
Proof.
  unfold pass_prelude, mode_check, redraw, prelude_action.
  repeat case_match; simpl; (split; [done|]);
    first [ exists []; split; [by rewrite app_nil_r|constructor]
          | eexists; (split; [rewrite <- ?app_assoc; reflexivity|]);
            repeat constructor; naive_solver ].
Qed.

(** The lemmas below are about the whole pass, and so about the handlers. *)
Variable mouse_handler : event → Z → Z → handler_result R.
Variable root_event : event → Z → Z → handler_result R.
Variable key_handler : event → handler_result R.
Variable mouse_event_pos : event → Z * Z.
Variable joystick : event → option event.
Variable has_quit_action : bool.
Variable windows : bool.
Abbreviation pass_body := (pass_body mouse_handler root_event key_handler mouse_event_pos
                         joystick has_quit_action windows).
Abbreviation pass := (pass mouse_handler root_event key_handler mouse_event_pos joystick
                    has_quit_action windows).
Abbreviation handle_event := (handle_event mouse_handler root_event key_handler
                            mouse_event_pos joystick has_quit_action windows).
Abbreviation coalesce_motion := (coalesce_motion windows).
Abbreviation focus_event := (focus_event windows).
Abbreviation event_pos := (event_pos mouse_event_pos).
Abbreviation deliver := (deliver mouse_handler root_event key_handler mouse_event_pos windows).
Abbreviation dispatch := (dispatch mouse_handler root_event key_handler).
Abbreviation run_loop := (run_loop mouse_handler root_event key_handler mouse_event_pos
                            joystick has_quit_action windows).
Lemma dispatch_grows pe st ev x y : grows st (outcome_state (dispatch pe st ev x y)).
Proof.
  assert (grows st (outcome_state (after_event pe (with_queue st (ls_queue st ++ [TimeEvent])))))
    by (eapply grows_trans; [|apply after_event_grows]; grows_tac).
  unfold dispatch. repeat case_match; simpl; auto using after_event_grows with renpy.
Qed.

Lemma coalesce_motion_grows st ev : grows st (coalesce_motion st ev).2.
Proof. unfold coalesce_motion. repeat case_match; grows_tac. Qed.

Lemma focus_event_grows st ev : grows st (focus_event st ev).
Proof.
  unfold focus_event. case_match; try grows_tac.
  destruct (active_event _ _ _ _) as [s' acts] eqn:Ha.
  apply active_event_acts in Ha as [Ha Hf]. by eapply grows_intro.
Qed.

Lemma deliver_grows pe st ev : grows st (outcome_state (deliver pe st ev)).
Proof.
  unfold deliver.
  set (st1 := if is_mouse ev then _ else _).
  assert (grows st st1) by (subst st1; case_match; grows_tac).
  pose proof (coalesce_motion_grows st1 ev).
  destruct (coalesce_motion st1 ev) as [ev' st2]. simpl in *.
  pose proof (focus_event_grows st2 ev').
  destruct (event_pos _ ev') as [x y].
  eapply grows_trans; [|apply dispatch_grows].
  do 2 (eapply grows_trans; [eassumption|]). eapply grows_trans; [eassumption|]. grows_tac.
Qed.

Lemma handle_event_grows pe st ev : grows st (outcome_state (handle_event pe st ev)).
Proof.
  unfold handle_event. pose proof (clear_time_events_grows st ev).
  destruct (negb _); [apply grows_refl|]. simpl.
  destruct (is_redraw_event ev); [simpl; eapply grows_trans; [eassumption|grows_tac]|].
  destruct (is_periodic ev); [simpl; eapply grows_trans; [eassumption|]; unfold periodic_event; grows_tac|].
  destruct (joystick ev) as [ev'|]; [|done]. destruct (negb _); [done|].
  eapply grows_trans; [eassumption|].
  destruct ev'; try apply deliver_grows; [|apply resize_event_grows].
  destruct (quit_event _ _ _) as [[s' acts]|e] eqn:Hq; simpl; [|apply grows_refl].
  apply quit_event_acts in Hq as [Hq Hf]. by eapply grows_intro.
Qed.

(** A pass body ends before an event is taken, or hands one event to
    [handle_event] from a state that extends its start. *)
Lemma pass_body_cases pe (st : loop_state) :
  (∃ st', grows st st' ∧ (pass_body pe st = Restart st' ∨ pass_body pe st = Continue st' ∨
                          pass_body pe st = Blocked st')) ∨
  (∃ ev st', grows st st' ∧ pass_body pe st = handle_event pe st' ev).
Proof.
  unfold pass_body. destruct (restart_interaction _); [left; eauto with renpy|].
  set (st3 := predict pe _). assert (grows st st3)
    by (eapply grows_trans; [|apply predict_grows]; grows_tac).
  pose proof (busy_redraw_check_grows st3).
  destruct (busy_redraw_check st3) as [st4 busy]. simpl in *.
  destruct busy; [left; exists st4; split; [eauto using grows_trans|by right; left]|].
  pose proof (arm_timers_grows pe st4).
  destruct (arm_timers pe st4) as [[[st5 ri] ti] tev]. simpl in *.
  pose proof (autosave_check_grows st5 ri ti).
  destruct (take_event pe (autosave_check st5 ri ti) tev) as [[ev st6]|] eqn:Ht.
  - apply take_event_grows in Ht. right. do 2 eexists. split; [|done]. eauto 7 using grows_trans.
  - left. eexists. split; [|by right; right]. eauto 7 using grows_trans.

Qed.

Lemma pass_body_grows pe st : grows st (outcome_state (pass_body pe st)).
Proof.
  destruct (pass_body_cases pe st) as [(st' & G & [-> | [-> | ->]]) | (ev & st' & G & ->)];
    simpl; eauto using grows_trans, handle_event_grows.
Qed.

Lemma pass_grows pe st : grows st (outcome_state (pass pe st)).
Proof. eapply grows_trans; [apply pass_prelude_grows|apply pass_body_grows]. Qed.

Definition final_state (o : loop_outcome (D:=D) (W:=W) (T:=T) (R:=R)) : loop_state :=
  match o with
  | LoopReturn _ st | LoopRestart st | LoopRaise _ st | LoopBlocked st | LoopPending st => st
  end.
Lemma run_loop_grows envs st : grows st (final_state (run_loop envs st)).
Proof.
  revert st. induction envs as [|pe envs IH]; intros st; simpl; [apply grows_refl|].
  pose proof (pass_grows pe st). destruct (pass pe st); simpl in *; eauto using grows_trans.
Qed.

(** The loop never writes [old_scene], the transition dicts, the
    suppression flag or [restart_interaction]. *)
Lemma run_loop_frame envs st : loop_frame (ls_itf st) (ls_itf (final_state (run_loop envs st))).
Proof. by destruct (run_loop_grows envs st) as (_ & _ & _ & ?). Qed.

(** C5: One autosave per interaction: whatever the events, clock and
    handlers, the passes of one [interact_core] call record at most one
    [renpy.loadsave.autosave()], and none once [did_autosave] is set. *)
Theorem run_loop_autosave_once envs st :
  ∃ acts, ls_trace (final_state (run_loop envs st)) = ls_trace st ++ acts ∧
          (autosaves acts ≤ if did_autosave (ls_loc st) then 0 else 1)%nat.
Proof.
  destruct (run_loop_grows envs st) as (acts & Ht & Hb). exists acts.
  split; [done|]. unfold autosave_budget in Hb. repeat case_match; lia.
Qed.

(** C4: A forced redraw comes first: when [force_redraw] is set or the
    fullscreen preference changed, the pass draws the screen before it
    predicts, autosaves, runs a callback or hands an event to the
    handlers; only the mode switch may come before the draw. *)
Theorem pass_forced_redraw_first pe (st : loop_state) :
  force_redraw (ls_itf st) = true ∨ pe_mode_changed pe = true →
  ∃ pre acts, ls_trace (outcome_state (pass pe st)) =
              ls_trace st ++ pre ++ ADraw (first_pass (ls_loc st)) :: acts ∧
              (pre = [] ∨ pre = [ASetMode]).
Proof.
  intros Hf. unfold pass, pass_prelude.
  set (st1 := with_queue st _).
  destruct (mode_check_forces pe st1 Hf) as (Hr & Hfp & pre & Hpre & Hpre').
  assert (redraw_due pe (mode_check pe st1) = true) as ->
    by (unfold redraw_due; by rewrite Hr).
  destruct (pass_body_grows pe (redraw pe (mode_check pe st1))) as (acts & Ht & _).
  rewrite Ht. exists pre. eexists. split; [|done].
  unfold redraw at 1. simpl. rewrite Hpre, Hfp, <- !app_assoc. reflexivity.
Qed.

Lemma dispatch_itf pe (st : loop_state) ev x y :
  ls_itf (outcome_state (dispatch pe st ev x y)) = ls_itf st.
Proof. unfold dispatch, after_event. by repeat case_match. Qed.

(** C6: An expired timeout is delivered: in a quiet pass (no restart, no
    mode change, no redraw requested) where the armed [timeout_time] has
    passed, the pass ends by handing a TIMEEVENT to the handlers, and
    [self.timeout_time] was reset to [None] (line 2194) before they run;
    the dispatch is the last action of the pass before the handlers.
    What the handlers then do (e.g. a [PauseBehavior] arming a new
    timeout) is theirs: the statement is about the state they receive. *)
Theorem pass_timeout_fires pe (st : loop_state) (d : Z) :
  timeout_time (ls_itf st) = Some d → d ≠ 0 → d < pe_now pe →
  restart_interaction (ls_itf st) = false → display_reset (ls_itf st) = false →
  pe_mode_changed pe = false → needs_redraw (ls_loc st) = false →
  pe_redraws_before pe = false → joystick TimeEvent = Some TimeEvent →
  ∃ st' x y acts, pass pe st = dispatch pe st' TimeEvent x y ∧
    ls_trace st' = ls_trace st ++ acts ∧ last acts = Some (ADispatch TimeEvent) ∧
    timeout_time (ls_itf st') = None.
Proof.
  intros Ht Hd Hl Hr Hdr Hm Hn Hb Hj. unfold pass.
  destruct (pass_prelude_quiet pe st Hm Hdr Hn) as (Ht1 & Hr1 & Hn1).
  pose proof (pass_prelude_grows pe st) as G1.
  set (st1 := pass_prelude pe st) in *. clearbody st1.
  unfold pass_body. rewrite Hr1, Hr, Hn1, Hb. simpl.
  set (st2 := with_loc st1 _).
  assert (grows st st2) as G2 by (eapply grows_trans; [done|grows_tac]).
  destruct (predict_fields pe st2) as [Ht3 Hn3].
  pose proof (predict_grows pe st2) as G3.
  set (st3 := predict pe st2) in *. clearbody st3.
  unfold busy_redraw_check. rewrite Hn3. simpl.
  assert (timeout_time (ls_itf st3) = Some d) as Ht3s by (rewrite Ht3; subst st2; simpl; by rewrite Ht1).
  destruct (arm_timers_fire pe st3 d Ht3s Hd Hl) as [Hev Ht4].
  pose proof (arm_timers_grows pe st3) as G4.
  destruct (arm_timers pe st3) as [[[st4 ri] ti] tev]. simpl in *. subst tev.
  pose proof (autosave_check_timeout st4 ri ti) as Ht5.
  pose proof (autosave_check_grows st4 ri ti) as G5.
  set (st5 := autosave_check st4 ri ti) in *. clearbody st5. simpl.
  unfold handle_event, clear_time_events. simpl. rewrite Hj. simpl.
  unfold deliver. simpl.
  destruct (event_pos _ TimeEvent) as [x y].
  match goal with |- context [dispatch pe (emit ?X [ADispatch TimeEvent]) TimeEvent x y] =>
    assert (grows st X) as (a6 & H6 & _)
      by (eapply grows_trans; [|grows_tac]; eauto 7 using grows_trans);
    exists (emit X [ADispatch TimeEvent]), x, y, (a6 ++ [ADispatch TimeEvent])
  end.
  split; [reflexivity|]. simpl. simpl in H6. rewrite H6, <- app_assoc.
  split_and!; [done|by rewrite last_snoc|by rewrite Ht5].
Qed.

(** The answer of the first handler that does not return [None], in the
    order mouse handler, root widget, key handler. *)
Definition handlers_answer (ev : event) (x y : Z) : handler_result R :=
  match mouse_handler ev x y with
  | HNone => match root_event ev x y with HNone => key_handler ev | a => a end
  | a => a
  end.
Lemma dispatch_break pe (st : loop_state) ev x y r st' :
  dispatch pe st ev x y = Break r st' → st' = st ∧ handlers_answer ev x y = HResult r.
Proof. unfold dispatch, after_event, handlers_answer. repeat case_match; naive_solver. Qed.

Lemma deliver_break pe (st : loop_state) ev r st' :
  deliver pe st ev = Break r st' →
  ∃ ev' st0, grows st st0 ∧ st' = emit st0 [ADispatch ev'] ∧
             handlers_answer ev' (event_pos (ls_itf st') ev').1 (event_pos (ls_itf st') ev').2
             = HResult r.
Proof.
  unfold deliver.
  set (st1 := if is_mouse ev then _ else _).
  assert (grows st st1) by (subst st1; case_match; grows_tac).
  pose proof (coalesce_motion_grows st1 ev).
  destruct (coalesce_motion st1 ev) as [ev' st2]. simpl in *.
  pose proof (focus_event_grows st2 ev').
  destruct (event_pos _ ev') as [x y] eqn:Hp.
  intros [-> Ha]%dispatch_break. do 2 eexists. split; [|split; [done|]].
  - eapply grows_trans; [|grows_tac]. eauto using grows_trans.
  - unfold event_pos in *. simpl. by rewrite Hp.
Qed.

Lemma handle_event_break pe (st : loop_state) ev r st' :
  handle_event pe st ev = Break r st' →
  ∃ ev' st0, grows st st0 ∧ st' = emit st0 [ADispatch ev'] ∧
             handlers_answer ev' (event_pos (ls_itf st') ev').1 (event_pos (ls_itf st') ev').2
             = HResult r.
Proof.
  unfold handle_event. pose proof (clear_time_events_grows st ev).
  repeat case_match; try done.
  all: intros (ev0 & st0 & G & -> & Ha)%deliver_break; eauto 10 using grows_trans.
Qed.

(** C3: The interaction's result comes from the handlers in their order:
    when a pass ends the loop with [r], the last thing it did was hand an
    event to the handlers, and [r] is the answer of the first of
    [focus.mouse_handler], [root_widget.event] and [focus.key_handler]
    that did not return [None], called at the event's position. *)
Theorem pass_break_from_handler pe (st : loop_state) r st' :
  pass pe st = Break r st' →
  ∃ ev acts, ls_trace st' = ls_trace st ++ acts ++ [ADispatch ev] ∧
             handlers_answer ev (event_pos (ls_itf st') ev).1 (event_pos (ls_itf st') ev).2
             = HResult r.
Proof.
  unfold pass. pose proof (pass_prelude_grows pe st) as G1.
  destruct (pass_body_cases pe (pass_prelude pe st))
    as [(st1 & G & [-> | [-> | ->]]) | (ev & st1 & G & ->)]; try done.
  intros (ev' & st0 & G0 & -> & Ha)%handle_event_break.
  destruct (grows_trans _ _ _ (grows_trans _ _ _ G1 G) G0) as (acts & Ht & _).
  exists ev', acts. split; [|done]. simpl. by rewrite Ht, app_assoc.
Qed.

(** A restart aborts the pass before any event: when
    [restart_interaction] is set, the pass returns [True, None] after at
    most the mode switch and the redraw; nothing is predicted, autosaved
    or handed to the handlers. *)
Theorem pass_restart_first pe (st : loop_state) :
  restart_interaction (ls_itf st) = true →
  ∃ st' acts, pass pe st = Restart st' ∧ ls_trace st' = ls_trace st ++ acts ∧
              Forall prelude_action acts.
Proof.
  intros Hr. destruct (pass_prelude_restart pe st) as [Hr' (acts & Ht & Ha)].
  exists (pass_prelude pe st), acts. unfold pass, pass_body. by rewrite Hr', Hr.
Qed.

Lemma handle_quit pe (st : loop_state) :
  joystick QuitEv = Some QuitEv →
  handle_event pe st QuitEv =
  match quit_event has_quit_action (pe_wall pe) (ls_itf st) with
  | Err e => Raise e st
  | Ok (s', acts) => Continue (emit (with_itf st s') acts)
  end.
Proof. intros Hj. unfold handle_event. simpl. by rewrite Hj. Qed.

(** Quit is debounced: after a quit event has run [config.quit_action],
    a second quit event within 0.75 s raises [QuitException], whatever
    the quit action. *)
Theorem quit_twice_raises pe pe' (st st1 : loop_state) :
  joystick QuitEv = Some QuitEv →
  handle_event pe st QuitEv = Continue st1 →
  pe_wall pe' < pe_wall pe + 750 →
  (∃ acts, ls_trace st1 = ls_trace st ++ acts ∧ AQuitAction ∈ acts) ∧
  handle_event pe' st1 QuitEv = Raise QuitException st1.
Proof.
  intros Hj. rewrite !handle_quit by done. unfold quit_event.
  destruct (decide _); [done|]. destruct has_quit_action; [|done].
  intros [= <-] Hw. split; [by eexists; split; [|left]|]. simpl.
  by rewrite decide_True by lia.
Qed.

End loop_facts.
