(* ===== verification/Suspend.v ===== *)
(** * The pygame timers and the Android suspend check (core.py, lines
      61-62, 1165, 1710-1731, 2124-2131 and 2167-2203)

    core.py arms three pygame timers: [PERIODIC] every
    [PERIODIC_INTERVAL] ms from [__init__] on, [REDRAW] for the next
    redraw [render.redraw_time()] asks for, and [TIMEEVENT] for the
    interaction's timeout.  The loop of [interact_core] remembers what it
    armed in its locals [old_redraw_time] and [old_timeout_time]
    ([EventLoop.arm_timers]) and calls [set_timer] again only when the
    wanted time differs from the remembered one.  On Android each pass
    first runs [android_check_suspend], which stops every timer, saves
    the game, waits for the application to come back, and then re-arms
    [PERIODIC] only.

    The timers are the record [timers] (the period in ms, [0] when
    off); each function returns the calls it makes, in order, and
    [run_calls] applies their timer part.

    Theorems: a suspend saves the game before it waits and deletes the
    save after, and leaves only [PERIODIC] running; the timer calls of
    [arm_timers] agree with the locals it records; after a suspend in
    the middle of an interaction the next pass leaves the [REDRAW] and
    [TIMEEVENT] timers stopped while the locals still say they are
    armed. *)

From stdpp Require Import base list strings gmap.
From S2P Require Import Prelude Displayable SceneList Interface EventLoop.

(** [PERIODIC_INTERVAL] (line 62). *)
Definition PERIODIC_INTERVAL : Z := 50.

(** The pygame timers core.py arms. *)
Inductive timer := TPeriodic | TRedraw | TTimeEvent.

#[export] Instance timer_eq_dec : EqDecision timer.
Proof. solve_decision. Defined.

(** The period of each timer in ms, [0] when stopped. *)
Record timers := mk_timers {
  tm_periodic : Z;
  tm_redraw : Z;
  tm_timeevent : Z
}.

(** A call of the suspend check or of the timer code. *)
Inductive suspend_call :=
  | SSetTimer (t : timer) (ms : Z)   (** [pygame.time.set_timer(t, ms)] *)
  | SPauseAll                        (** [android.sound.pause_all()] *)
  | SSave (slot : string)            (** [renpy.loadsave.save(slot)] *)
  | SWaitForResume                   (** [android.wait_for_resume()] *)
  | SUnlinkSave (slot : string)      (** [renpy.loadsave.unlink_save(slot)] *)
  | SUnpauseAll.                     (** [android.sound.unpause_all()] *)

#[export] Instance suspend_call_eq_dec : EqDecision suspend_call.
Proof. solve_decision. Defined.

(** [pygame.time.set_timer(t, ms)]. *)
Definition set_timer (tm : timers) (t : timer) (ms : Z) : timers :=
  match t with
  | TPeriodic => mk_timers ms (tm_redraw tm) (tm_timeevent tm)
  | TRedraw => mk_timers (tm_periodic tm) ms (tm_timeevent tm)
  | TTimeEvent => mk_timers (tm_periodic tm) (tm_redraw tm) ms
  end.

(** The timers after a sequence of calls. *)
Definition run_calls (tm : timers) (calls : list suspend_call) : timers :=
  foldl (λ tm c, match c with SSetTimer t ms => set_timer tm t ms | _ => tm end) tm calls.

(** The saves the calls leave, from the set [saves]. *)
Definition run_saves (saves : gset string) (calls : list suspend_call) : gset string :=
  foldl (λ sv c, match c with SSave n => {[n]} ∪ sv | SUnlinkSave n => sv ∖ {[n]} | _ => sv end)
    saves calls.

(** [pygame.time.set_timer(PERIODIC, PERIODIC_INTERVAL)] of [__init__] (line 1165). *)
Definition init_timer_calls : list suspend_call := [SSetTimer TPeriodic PERIODIC_INTERVAL].

(** [Interface.android_check_suspend()] (lines 1710-1731), with what
    [android.check_pause()] returns. *)
Definition android_check_suspend (check_pause : bool) : list suspend_call :=
  if check_pause then
    [SPauseAll; SSetTimer TPeriodic 0; SSetTimer TRedraw 0; SSetTimer TTimeEvent 0;
     SSave "_reload-1"; SWaitForResume; SUnlinkSave "_reload-1";
     SSetTimer TPeriodic PERIODIC_INTERVAL; SUnpauseAll]
  else [].

Section loop_timers.
Context {D W T : Type} `{EqDecision D} `{DisplayableOps D}.
Implicit Types (st : loop_state (D:=D) (W:=W) (T:=T)).

(** The [set_timer] calls of the redraw (line 2130). *)
Definition redraw_timer_calls : list suspend_call := [SSetTimer TRedraw 0].

(** The [set_timer] calls of lines 2167-2203, the branches of
    [arm_timers], in ms: [max(int(time_left * 1000), 1)] for the redraw,
    [int(time_left * 1000 + 1)] for the timeout. *)
Definition arm_timer_calls (pe : pass_env) st : list suspend_call :=
  let l := ls_loc st in
  let s := ls_itf st in
  (if time_truthy (pe_redraw_time pe) && negb (needs_redraw l) then
     if decide (pe_redraw_time pe ≠ old_redraw_time l)
     then [SSetTimer TRedraw (Z.max (Z.min (default 0 (pe_redraw_time pe) - pe_now pe) 3600000) 1)]
     else []
   else [SSetTimer TRedraw 0]) ++
  (if time_truthy (timeout_time s) then
     let time_left := Z.min (default 0 (timeout_time s) - pe_now pe) 3600000 in
     if decide (time_left < 0) then [SSetTimer TTimeEvent 0]
     else if decide (timeout_time s ≠ old_timeout_time l) then [SSetTimer TTimeEvent (time_left + 1)]
     else []
   else [SSetTimer TTimeEvent 0]).
End loop_timers.

(** ** Properties *)

Lemma run_calls_app tm c1 c2 : run_calls tm (c1 ++ c2) = run_calls (run_calls tm c1) c2.
Proof. unfold run_calls. by rewrite foldl_app. Qed.

Lemma run_saves_app sv c1 c2 : run_saves sv (c1 ++ c2) = run_saves (run_saves sv c1) c2.
Proof. unfold run_saves. by rewrite foldl_app. Qed.

(** When the application is paused, [android_check_suspend] stops
    the sound, stops every timer, saves the game to ["_reload-1"], and
    only then waits for the resume; after it the save is deleted, the
    sound resumes and [PERIODIC] is the only timer running, at
    [PERIODIC_INTERVAL].  The save exists while it waits, whatever saves
    there were.  Without a pause it does nothing. *)
Lemma android_check_suspend_spec (tm : timers) (saves : gset string) :
  android_check_suspend false = [] ∧
  ∃ before after,
    android_check_suspend true = before ++ [SWaitForResume] ++ after ∧
    SPauseAll ∈ before ∧ SUnpauseAll ∈ after ∧
    run_calls tm before = mk_timers 0 0 0 ∧
    "_reload-1" ∈ run_saves saves before ∧
    run_calls tm (android_check_suspend true) = mk_timers PERIODIC_INTERVAL 0 0 ∧
    run_saves saves (android_check_suspend true) = saves ∖ {["_reload-1"]}.
Proof.
  split; [done|].
  eexists [_; _; _; _; _], [_; _; _]. split; [reflexivity|]. split_and!.
  - set_solver.
  - set_solver.
  - done.
  - cbn. set_solver.
  - done.
  - cbn. set_solver.
Qed.

Section loop_timer_facts.
Context {D W T : Type} `{EqDecision D} `{DisplayableOps D}.
Implicit Types (st : loop_state (D:=D) (W:=W) (T:=T)).

(** When [arm_timers] records a new redraw or timeout time in the
    locals, its calls arm that timer with a positive period. *)
Lemma arm_timer_calls_locals pe st :
  let l' := ls_loc (arm_timers pe st).1.1.1 in
  (old_redraw_time l' ≠ old_redraw_time (ls_loc st) →
     ∃ ms, SSetTimer TRedraw ms ∈ arm_timer_calls pe st ∧ 0 < ms) ∧
  (old_timeout_time l' ≠ old_timeout_time (ls_loc st) →
     ∃ ms, SSetTimer TTimeEvent ms ∈ arm_timer_calls pe st ∧ 0 < ms).
Proof.
  unfold arm_timers, arm_timer_calls. simpl.
  destruct (time_truthy (pe_redraw_time pe) && negb (needs_redraw (ls_loc st)));
    [destruct (decide (pe_redraw_time pe ≠ old_redraw_time (ls_loc st))) as [Hr|Hr]|];
  (destruct (time_truthy (timeout_time (ls_itf st)));
    [destruct (decide (Z.min (default 0 (timeout_time (ls_itf st)) - pe_now pe) 3600000 < 0));
     [|destruct (decide (timeout_time (ls_itf st) ≠ old_timeout_time (ls_loc st)))]|]);
  simpl; split; intros Hne; try congruence;
  (eexists; split; [repeat constructor|lia]).
Qed.

(** C26: [android_check_suspend] stops the [REDRAW] and [TIMEEVENT]
    timers but leaves the loop's [old_redraw_time] and
    [old_timeout_time] as they were: in a pass after a suspend where the
    redraw time and the timeout are the ones armed before it (and the
    timeout is not due), [arm_timers] makes no [set_timer] call, so both
    timers stay stopped while the locals still record them as armed and
    no time event is produced. *)
Theorem suspend_leaves_timers_stopped pe st tm r t :
  needs_redraw (ls_loc st) = false →
  pe_redraw_time pe = Some r → r ≠ 0 → old_redraw_time (ls_loc st) = Some r →
  timeout_time (ls_itf st) = Some t → t ≠ 0 → old_timeout_time (ls_loc st) = Some t →
  pe_now pe ≤ t →
  arm_timer_calls pe st = [] ∧
  run_calls tm (android_check_suspend true ++ arm_timer_calls pe st) =
    mk_timers PERIODIC_INTERVAL 0 0 ∧
  old_redraw_time (ls_loc (arm_timers pe st).1.1.1) = Some r ∧
  old_timeout_time (ls_loc (arm_timers pe st).1.1.1) = Some t ∧
  (arm_timers pe st).2 = None.
Proof.
  intros Hn Hrt Hr Hor Ht Ht0 Hot Hnow.
  assert (time_truthy (Some r) = true) as Hr' by (simpl; by apply bool_decide_eq_true_2).
  assert (time_truthy (Some t) = true) as Ht' by (simpl; by apply bool_decide_eq_true_2).
  unfold arm_timer_calls, arm_timers. rewrite Hn, Hrt, Hor, Ht, Hot, Hr', Ht'. simpl.
  repeat rewrite decide_False by (congruence || lia). done.
Qed.
End loop_timer_facts.
