(* ===== verification/Screenshot.v ===== *)
(** * The background screenshot handoff (core.py, lines 1400-1471 and 1592-1595)

    A thread other than the main one takes a screenshot with
    [take_screenshot(scale, background=True)]: it clears
    [bgscreenshot_event], sets [bgscreenshot_needed] and waits on the
    event; the main thread, in [event_wait], sees the flag, clears it,
    stores [draw.screenshot(self.surftree)] in [bgscreenshot_surface] and
    sets the event; the requester wakes, takes the surface, resets it to
    [None] and encodes it into [self.screenshot].

    Each statement is one step of its thread, and a schedule interleaves
    them ([sched_step], executable; [step] the relation it defines).  The
    requesters are a list of threads.  Frames are numbered: [frame] is the
    [surftree] the last [draw_screen] left, and each requester remembers
    the frame current when it asked ([req]).

    Theorems: with one requester, every reachable state satisfies
    [handoff_inv] (rule induction over the schedule), so the requester
    always reads a surface captured after its request; and the main
    thread alone can always bring a waiting requester to its wake-up.
    With two requesters, a schedule reaches a state where one reads
    [None]: nothing in the code keeps the requests to one at a time. *)

From S2P Require Import Prelude.

(** Where a requester is in [take_screenshot(..., background=True)]. *)
Inductive bg_pc :=
  | BIdle                                   (** not in [take_screenshot] *)
  | BCleared (req : nat)                    (** after [bgscreenshot_event.clear()] *)
  | BRequested (req : nat)                  (** after [bgscreenshot_needed = True], waiting *)
  | BWoken (req : nat)                      (** [bgscreenshot_event.wait()] returned *)
  | BRead (req : nat) (w : option nat)      (** after [window = self.bgscreenshot_surface] *)
  | BDone (req : nat) (w : option nat)      (** after [self.bgscreenshot_surface = None] *)
  | BFailed.                                (** [copy_surface(None)] raised *)

(** Where the main thread is in the screenshot block of [event_wait]. *)
Inductive main_pc :=
  | MRun                                    (** anywhere else *)
  | MCleared                                (** after [bgscreenshot_needed = False] *)
  | MCaptured.                              (** after [bgscreenshot_surface = ...] *)

#[export] Instance bg_pc_eq_dec : EqDecision bg_pc.
Proof. solve_decision. Defined.

#[export] Instance main_pc_eq_dec : EqDecision main_pc.
Proof. solve_decision. Defined.

Record shot_state := mk_shot {
  needed : bool;                (** [bgscreenshot_needed] *)
  ev_set : bool;                (** [bgscreenshot_event.is_set()] *)
  surface : option nat;         (** [bgscreenshot_surface] *)
  screenshot : option nat;      (** [self.screenshot] *)
  frame : nat;                  (** the frame [surftree] holds *)
  main : main_pc;
  bgs : list bg_pc
}.

(** [Interface.__init__] (lines 1034, 1171-1177): the flag false, the
    event not set, no surface, no screenshot. *)
Definition shot_init (bgs : list bg_pc) : shot_state := mk_shot false false None None 0 MRun bgs.

Definition set_bg (st : shot_state) (i : nat) (b : bg_pc) : shot_state :=
  mk_shot (needed st) (ev_set st) (surface st) (screenshot st) (frame st) (main st) (<[i:=b]> (bgs st)).

(** Who moves next. *)
Inductive choice :=
  | Bg (i : nat)       (** requester [i] runs its next statement *)
  | Main               (** the main thread runs its next statement of the block *)
  | Draw.              (** the main thread draws a new frame ([draw_screen]) *)

(** One statement of the chosen thread; [None] when it cannot move
    (blocked on the event, or nothing to do). *)
Definition sched_step (c : choice) (st : shot_state) : option shot_state :=
  match c with
  | Bg i =>
      b ← bgs st !! i;
      match b with
      | BIdle =>   (* line 1411 *)
          Some (set_bg (mk_shot (needed st) false (surface st) (screenshot st) (frame st) (main st)
                          (bgs st)) i (BCleared (frame st)))
      | BCleared r =>   (* line 1412 *)
          Some (set_bg (mk_shot true (ev_set st) (surface st) (screenshot st) (frame st) (main st)
                          (bgs st)) i (BRequested r))
      | BRequested r =>   (* line 1413 *)
          if ev_set st then Some (set_bg st i (BWoken r)) else None
      | BWoken r => Some (set_bg st i (BRead r (surface st)))   (* line 1415 *)
      | BRead r w =>   (* line 1416 *)
          Some (set_bg (mk_shot (needed st) (ev_set st) None (screenshot st) (frame st) (main st)
                          (bgs st)) i (BDone r w))
      | BDone r (Some f) =>   (* lines 1422-1428 *)
          Some (set_bg (mk_shot (needed st) (ev_set st) (surface st) (Some f) (frame st) (main st)
                          (bgs st)) i BIdle)
      | BDone _ None => Some (set_bg st i BFailed)
      | BFailed => None
      end
  | Main =>
      match main st with
      | MRun =>   (* lines 1592-1593 *)
          if needed st then Some (mk_shot false (ev_set st) (surface st) (screenshot st) (frame st)
                                    MCleared (bgs st))
          else None
      | MCleared =>   (* line 1594 *)
          Some (mk_shot (needed st) (ev_set st) (Some (frame st)) (screenshot st) (frame st)
                  MCaptured (bgs st))
      | MCaptured =>   (* line 1595 *)
          Some (mk_shot (needed st) true (surface st) (screenshot st) (frame st) MRun (bgs st))
      end
  | Draw =>   (* lines 1385-1396 *)
      match main st with
      | MRun => Some (mk_shot (needed st) (ev_set st) (surface st) (screenshot st) (S (frame st))
                        MRun (bgs st))
      | _ => None
      end
  end.

Definition step (st st' : shot_state) : Prop := ∃ c, sched_step c st = Some st'.

(** A schedule: the states it goes through, or [None] when a chosen
    thread cannot move. *)
Fixpoint run_sched (cs : list choice) (st : shot_state) : option shot_state :=
  match cs with
  | [] => Some st
  | c :: cs' => st' ← sched_step c st; run_sched cs' st'
  end.

(** A requester reads [None] from [bgscreenshot_surface]. *)
Definition reads_none (b : bg_pc) : bool :=
  match b with BRead _ None | BDone _ None | BFailed => true | _ => false end.

(** ** One requester: the invariant of the handoff *)

(** The surface holds a frame captured at or after [r]. *)
Definition fresh (r : nat) (o : option nat) : Prop := ∃ f, o = Some f ∧ (r ≤ f)%nat.

Definition handoff_inv (st : shot_state) : Prop :=
  match bgs st, main st with
  | [BIdle], MRun => needed st = false ∧ surface st = None
  | [BCleared r], MRun => needed st = false ∧ ev_set st = false ∧ surface st = None ∧ (r ≤ frame st)%nat
  | [BRequested r], MRun =>
      (r ≤ frame st)%nat ∧
      ((needed st = true ∧ ev_set st = false ∧ surface st = None) ∨
       (needed st = false ∧ ev_set st = true ∧ fresh r (surface st)))
  | [BRequested r], MCleared => needed st = false ∧ ev_set st = false ∧ surface st = None ∧ (r ≤ frame st)%nat
  | [BRequested r], MCaptured =>
      needed st = false ∧ ev_set st = false ∧ fresh r (surface st) ∧ (r ≤ frame st)%nat
  | [BWoken r], MRun => needed st = false ∧ fresh r (surface st)
  | [BRead r w], MRun => needed st = false ∧ surface st = w ∧ fresh r w
  | [BDone r w], MRun => needed st = false ∧ surface st = None ∧ fresh r w
  | _, _ => False
  end.

Lemma handoff_inv_init : handoff_inv (shot_init [BIdle]).
Proof. done. Qed.

Lemma fresh_le r r' o : (r' ≤ r)%nat → fresh r o → fresh r' o.
Proof. intros ? (f & -> & ?). exists f. split; [done|lia]. Qed.

Lemma sched_step_inv c st st' : handoff_inv st → sched_step c st = Some st' → handoff_inv st'.
Proof.
  destruct st as [nd es sf sc fr m bs]. unfold handoff_inv; simpl.
  destruct bs as [|b [|b' bs]]; [done| |by destruct b, m].
  intros Hi Hs. destruct c as [[|i]| |]; simpl in Hs; [|done| |];
    destruct b, m; simpl in *; try done; repeat case_match; simplify_eq/=;
    unfold fresh in *; naive_solver lia.
Qed.

Lemma steps_inv st st' : rtc step st st' → handoff_inv st → handoff_inv st'.
Proof.
  induction 1 as [|x y z [c Hs] _ IH]; [done|]. intros Hi. apply IH. by eapply sched_step_inv.
Qed.

Lemma reachable_inv st : rtc step (shot_init [BIdle]) st → handoff_inv st.
Proof. intros Hr. eapply steps_inv; [done|apply handoff_inv_init]. Qed.

Lemma run_sched_rtc cs st st' : run_sched cs st = Some st' → rtc step st st'.
Proof.
  revert st. induction cs as [|c cs IH]; intros st; simpl; [by intros [= ->]|].
  destruct (sched_step c st) as [st1|] eqn:Hs; simpl; [|done].
  intros Hrun. eapply rtc_l; [by exists c|]. by apply IH.
Qed.

(** C13: the handoff with one background requester is safe: in every
    state a schedule of the two threads reaches, a requester that has
    read [bgscreenshot_surface] holds a surface, captured from a frame
    drawn at or after its request, and it never fails on [None]. *)
Theorem handoff_fresh st :
  rtc step (shot_init [BIdle]) st →
  (∀ r w, bgs st = [BRead r w] ∨ bgs st = [BDone r w] → ∃ f, w = Some f ∧ (r ≤ f)%nat) ∧
  bgs st ≠ [BFailed].
Proof.
  intros Hr. pose proof (reachable_inv st Hr) as Hi. unfold handoff_inv in Hi.
  split.
  - intros r w [Hb|Hb]; rewrite Hb in Hi; destruct (main st); naive_solver.
  - intros Hb. rewrite Hb in Hi. by destruct (main st).
Qed.

(** The main thread running its block of [event_wait], and nothing else. *)
Definition main_step (st st' : shot_state) : Prop := sched_step Main st = Some st'.

(** A waiting requester is never left waiting by the handoff: from
    any reachable state where it waits, the main thread alone, running
    the screenshot block of [event_wait] to its end, sets the event, and
    the requester can then wake. *)
Theorem handoff_progress st r :
  rtc step (shot_init [BIdle]) st → bgs st = [BRequested r] →
  ∃ st', rtc main_step st st' ∧ bgs st' = [BRequested r] ∧ main st' = MRun ∧
         sched_step (Bg 0) st' = Some (set_bg st' 0 (BWoken r)).
Proof.
  intros Hr Hb. pose proof (reachable_inv st Hr) as Hi. unfold handoff_inv in Hi. rewrite Hb in Hi.
  destruct st as [nd es sf sc fr m bs]; simpl in *; subst bs.
  destruct m; simpl in Hi.
  - destruct Hi as [_ [(-> & -> & ->)|(-> & -> & _)]]; eexists; split.
    + do 3 (eapply rtc_l; [reflexivity|]). apply rtc_refl.
    + split_and!; reflexivity.
    + apply rtc_refl.
    + split_and!; reflexivity.
  - destruct Hi as (-> & -> & -> & _). eexists. split.
    + do 2 (eapply rtc_l; [reflexivity|]). apply rtc_refl.
    + split_and!; reflexivity.
  - destruct Hi as (-> & -> & _). eexists. split.
    + eapply rtc_l; [reflexivity|]. apply rtc_refl.
    + split_and!; reflexivity.
Qed.

(** ** Two requesters *)

(** Both threads ask before the main thread answers; it answers once;
    the first takes the surface and resets it to [None]; the second
    wakes on the same event and reads [None]. *)
Definition collide : list choice :=
  [Bg 0; Bg 0; Bg 1; Bg 1; Main; Main; Main; Bg 0; Bg 0; Bg 0; Bg 1; Bg 1; Bg 1; Bg 1; Bg 0].

(** C24: the code does not keep the background requests to one at a
    time: with two requesting threads, a schedule reaches a state where
    the first has its screenshot and the second has read [None] from
    [bgscreenshot_surface] and failed. *)
Theorem two_requesters_fail :
  ∃ st, rtc step (shot_init [BIdle; BIdle]) st ∧ bgs st = [BIdle; BFailed] ∧
        screenshot st = Some 0%nat.
Proof.
  destruct (run_sched collide (shot_init [BIdle; BIdle])) as [st|] eqn:Hrun;
    [|vm_compute in Hrun; discriminate].
  exists st. split; [by eapply run_sched_rtc|].
  vm_compute in Hrun. injection Hrun as <-. split; reflexivity.
Qed.

(** ** Witnesses *)

(** The state a schedule reaches, or the start state when it blocks. *)
Definition after (cs : list choice) (st : shot_state) : shot_state := default st (run_sched cs st).

(** The requester asks, the main thread draws a frame and answers, the
    requester wakes and reads the surface. *)
Definition one_read : list choice := [Bg 0; Bg 0; Draw; Main; Main; Main; Bg 0; Bg 0].

Lemma handoff_fresh_witness :
  (∀ r w, bgs (after one_read (shot_init [BIdle])) = [BRead r w] ∨
          bgs (after one_read (shot_init [BIdle])) = [BDone r w] → ∃ f, w = Some f ∧ (r ≤ f)%nat) ∧
  bgs (after one_read (shot_init [BIdle])) ≠ [BFailed].
Proof. apply handoff_fresh. apply (run_sched_rtc one_read). vm_compute. reflexivity. Defined.

Lemma handoff_progress_witness :
  ∃ st', rtc main_step (after [Bg 0; Bg 0] (shot_init [BIdle])) st' ∧ bgs st' = [BRequested 0] ∧
         main st' = MRun ∧ sched_step (Bg 0) st' = Some (set_bg st' 0 (BWoken 0)).
Proof.
  apply handoff_progress; [|reflexivity].
  apply (run_sched_rtc [Bg 0; Bg 0]). vm_compute. reflexivity.
Defined.
