(* ===== verification/Mouse.v ===== *)
(** * The software mouse cursor: [Interface.get_mouse_info] (core.py, lines 1668-1700)

    Whether the mouse is shown, and which frame of the cursor animation:
    the mouse hides after [config.mouse_hide_time] without a mouse event;
    a hardware mouse is used when [config.mouse] is empty; otherwise the
    cursor kind ([focus.get_mouse()] or the interface's [mouse]) selects
    an animation of [config.mouse] (falling back on the store's
    [default_mouse]), whose frame is [anim[self.ticks % len(anim)]].

    The values read from outside the interface are a [mouse_env].
    Theorems: the frame shown is the animation's frame at [ticks mod len]
    (so in range); the animation cycles with the ticks.  (An empty
    animation makes [ticks % 0] raise [ZeroDivisionError].) *)

From S2P Require Import Prelude Interface.

(** The inputs of [get_mouse_info] that are not engine fields. *)
Record mouse_env := mk_mouse_env {
  me_now : Z;                                      (** [renpy.display.core.get_time()] *)
  me_hide_time : Z;                                (** [renpy.config.mouse_hide_time] *)
  me_store_visible : bool;                         (** [renpy.store.mouse_visible] *)
  me_less_mouse : bool;                            (** [renpy.game.less_mouse] *)
  me_config_mouse : gmap string (list (string * Z * Z));  (** [renpy.config.mouse]; [None] as [{}] *)
  me_focus_mouse : option string;                  (** [renpy.display.focus.get_mouse()] *)
  me_default_mouse : string                        (** [getattr(renpy.store, 'default_mouse', 'default')] *)
}.

Section mouse.
Context {W T : Type}.
Implicit Types (s : interface W T) (me : mouse_env).

(** [mouse_kind = renpy.display.focus.get_mouse() or self.mouse] (line 1689) *)
Definition mouse_kind s me : string :=
  match me_focus_mouse me with
  | Some k => if decide (k = "") then mouse s else k
  | None => mouse s
  end.

(** Lines 1692-1695: the animation of the kind, or of the default mouse. *)
Definition mouse_anim s me : result (list (string * Z * Z)) :=
  match me_config_mouse me !! mouse_kind s me with
  | Some anim => Ok anim
  | None => lookup_or (KeyError (me_default_mouse me)) (me_default_mouse me) (me_config_mouse me)
  end.

(** [Interface.get_mouse_info] (lines 1668-1700), given the engine's
    [mouse_event_time] and [show_mouse]; the texture is named by its
    image file. *)
Definition get_mouse_info s (mouse_event_time : Z) (show_mouse : bool) me
    : result (bool * Z * Z * option string) :=
  let visible := if decide (mouse_event_time + me_hide_time me < me_now me) then false
                 else me_store_visible me && negb (me_less_mouse me) in
  if negb (visible && show_mouse) then Ok (false, 0, 0, None)
  else if decide (me_config_mouse me = ∅) then Ok (true, 0, 0, None)
  else if negb (focused s) then Ok (false, 0, 0, None)
  else
    anim ← mouse_anim s me;
    if decide (length anim = 0%nat) then raise ZeroDivisionError
    else
      frame ← nth_or anim (Nat.modulo (ticks s) (length anim));
      let '(img, x, y) := frame in
      Ok (false, x, y, Some img).
End mouse.

(** ** Properties *)

Section mouse_facts.
Context {W T : Type}.
Implicit Types (s : interface W T) (me : mouse_env).

Lemma mouse_anim_ticks s me n : mouse_anim (set_ticks s n) me = mouse_anim s me.
Proof. done. Qed.

Lemma nth_or_mod {A} (l : list A) n :
  length l ≠ 0%nat → ∃ a, nth_or l (Nat.modulo n (length l)) = Ok a ∧ l !! (Nat.modulo n (length l)) = Some a.
Proof.
  intros Hl. destruct (lookup_lt_is_Some_2 l (Nat.modulo n (length l))) as [a Ha].
  { apply Nat.mod_upper_bound. done. }
  exists a. unfold nth_or. by rewrite Ha.
Qed.

(** The cursor shows a frame of its animation: when [get_mouse_info]
    draws a software cursor, its image and hotspot are the frame of the
    selected animation at index [ticks mod len], which is in range. *)
Theorem mouse_frame s met sm me x y img :
  get_mouse_info s met sm me = Ok (false, x, y, Some img) →
  ∃ anim, mouse_anim s me = Ok anim ∧ (Nat.modulo (ticks s) (length anim) < length anim)%nat ∧
          anim !! (Nat.modulo (ticks s) (length anim)) = Some (img, x, y).
Proof.
  unfold get_mouse_info. cbv zeta.
  destruct (negb _); [done|]. destruct (decide _); [done|]. destruct (negb (focused s)); [done|].
  destruct (mouse_anim s me) as [anim|]; simpl; [|done].
  destruct (decide (length anim = 0%nat)) as [|Hl]; [done|].
  destruct (nth_or_mod anim (ticks s)) as ([[img' x'] y'] & Ha & Hlk); [done|].
  rewrite Ha. simpl. intros [= -> -> ->]. exists anim. split_and!; [done| |done].
  by apply Nat.mod_upper_bound.
Qed.

(** the cursor animation cycles with the engine's 20 Hz ticks: [n]
    whole turns of the selected animation later, [get_mouse_info] gives
    the same answer. *)
Theorem mouse_anim_cycles s met sm me anim n :
  mouse_anim s me = Ok anim →
  get_mouse_info (set_ticks s (ticks s + n * length anim)) met sm me = get_mouse_info s met sm me.
Proof.
  intros Ha. unfold get_mouse_info. rewrite mouse_anim_ticks, Ha. simpl.
  by rewrite Nat.Div0.mod_add.
Qed.
End mouse_facts.

(** ** Witnesses *)

(** Tick 5, a two-frame default cursor, the mouse moved 0.1 s ago. *)
Definition mouse_itf : interface unit unit :=
  mk_interface ∅ ∅ ∅ ∅ ∅ false false false None 5 "default" None None 0 0 true false false None.

Definition mouse_me : mouse_env :=
  mk_mouse_env 1000 30000 true false {["default" := [("a.png", 1, 2); ("b.png", 3, 4)]]} None "default".

Lemma mouse_frame_witness :
  ∃ anim, mouse_anim mouse_itf mouse_me = Ok anim ∧
    (Nat.modulo (ticks mouse_itf) (length anim) < length anim)%nat ∧
    anim !! (Nat.modulo (ticks mouse_itf) (length anim)) = Some ("b.png", 3, 4).
Proof. apply (mouse_frame mouse_itf 900 true mouse_me 3 4 "b.png"). vm_compute. reflexivity. Defined.

Lemma mouse_anim_cycles_witness :
  get_mouse_info (set_ticks mouse_itf (ticks mouse_itf + 3 * 2)) 900 true mouse_me =
  get_mouse_info mouse_itf 900 true mouse_me.
Proof.
  apply (mouse_anim_cycles mouse_itf 900 true mouse_me [("a.png", 1, 2); ("b.png", 3, 4)] 3).
  vm_compute. reflexivity.
Defined.
