(* ===== verification/Renderer.v ===== *)
(** * Choosing the renderer: [Interface.get_draw_constructors] and the
      fallback loop of [Interface.set_mode] (core.py, lines 1228-1287 and
      1351-1365)

    [get_draw_constructors] reads the renderer preference (overridden by
    [RENPY_RENDERER], forced to ["sw"] in safe mode), turns it into the
    list of renderers to try (["auto"]: GL, then ANGLE on Windows, then
    software; otherwise the preference, then software), builds a draw
    object for each known renderer of the list whose module imports, and
    returns the objects in the list's order.  [set_mode] tries the
    current draw object, or else these, in order, and keeps the first
    whose [set_mode] succeeds; when none does it raises.

    Draw objects are named by their renderer; whether a module imports
    and whether a draw object's [set_mode] succeeds are given.

    Theorems: the draw objects are the known, importable renderers of the
    list, in its order, with the software renderer last; [set_mode]
    picks the first of them that works, so a working software renderer
    guarantees a video mode. *)

From S2P Require Import Prelude.

(** What [get_draw_constructors] reads. *)
Record renderer_env := mk_renderer_env {
  re_pref : string;                (** [renpy.game.preferences.renderer] *)
  re_environ : option string;      (** [os.environ.get("RENPY_RENDERER")] *)
  re_safe_mode : bool;             (** [self.safe_mode] *)
  re_windows : bool;               (** [renpy.windows] *)
  re_imports : string → bool       (** whether [make_draw(name, ...)] imports and builds *)
}.

(** Lines 1233-1237 *)
Definition renderer_choice (re : renderer_env) : string :=
  if re_safe_mode re then "sw" else default (re_pref re) (re_environ re).

(** Lines 1241-1247 *)
Definition renderers (re : renderer_env) : list string :=
  let r := renderer_choice re in
  if decide (r = "auto") then (if re_windows re then ["gl"; "angle"; "sw"] else ["gl"; "sw"])
  else [r; "sw"].

(** [make_draw(name, ...)] (lines 1251-1266): [False] unless the name is
    in [renderers] and its module imports. *)
Definition make_draw (re : renderer_env) (name : string) : bool :=
  bool_decide (name ∈ renderers re) && re_imports re name.

(** The keys of [draw_objects] after lines 1268-1274: ANGLE is tried on
    Windows only. *)
Definition draw_objects (re : renderer_env) : list string :=
  filter (λ n, make_draw re n = true) ((if re_windows re then ["angle"] else []) ++ ["gl"; "sw"]).

(** Lines 1276-1287: [append_draw] for each renderer of the list, an
    unknown one skipped (and logged). *)
Definition get_draw_constructors (re : renderer_env) : list string :=
  filter (λ n, n ∈ draw_objects re) (renderers re).

(** Lines 1351-1365: the draw objects to try, and the first whose
    [set_mode] succeeds. *)
Definition set_mode_draw (current : option string) (re : renderer_env) (works : string → bool)
    : result string :=
  let draws := match current with Some d => [d] | None => get_draw_constructors re end in
  match list_find (λ d, works d = true) draws with
  | Some (_, d) => Ok d
  | None => raise VideoModeError
  end.

(** ** Properties *)

Lemma renderers_snoc re : ∃ pre, renderers re = pre ++ ["sw"].
Proof.
  unfold renderers. case_decide; [destruct (re_windows re)|];
    first [by eexists [_; _] | by eexists [_]].
Qed.

Lemma sw_draw_object re : re_imports re "sw" = true → "sw" ∈ draw_objects re.
Proof.
  intros Hi. unfold draw_objects. apply list_elem_of_filter. split; [|destruct (re_windows re); set_solver].
  unfold make_draw. rewrite Hi, andb_true_r. apply bool_decide_eq_true_2.
  destruct (renderers_snoc re) as [pre ->]. set_solver.
Qed.

Lemma draw_constructors_last re :
  re_imports re "sw" = true → last (get_draw_constructors re) = Some "sw".
Proof.
  intros Hi. unfold get_draw_constructors. destruct (renderers_snoc re) as [pre ->].
  rewrite filter_app, filter_cons_True by (by apply sw_draw_object).
  by rewrite filter_nil, last_snoc.
Qed.

(** The draw objects [get_draw_constructors] returns are the known
    renderers ([gl], [angle] on Windows only, [sw]) of the list to try
    whose module imports, in the list's order; when the software
    renderer imports it comes last, so it is the last resort. *)
Theorem draw_constructors_spec re :
  get_draw_constructors re `sublist_of` renderers re ∧
  (∀ n, n ∈ get_draw_constructors re →
        re_imports re n = true ∧ (n = "gl" ∨ n = "sw" ∨ (n = "angle" ∧ re_windows re = true))) ∧
  (re_imports re "sw" = true → last (get_draw_constructors re) = Some "sw").
Proof.
  split_and!.
  - apply sublist_filter.
  - intros n Hn. apply list_elem_of_filter in Hn as [Hd _].
    unfold draw_objects in Hd. apply list_elem_of_filter in Hd as [Hm Hl].
    unfold make_draw in Hm. apply andb_prop in Hm as [_ ->]. split; [done|].
    destruct (re_windows re); set_solver.
  - apply draw_constructors_last.
Qed.

(** [set_mode] falls back through the draw objects in order: with
    no draw object yet, it keeps exactly the first one whose [set_mode]
    succeeds, and raises only when none does; so when the software
    renderer imports and works, a video mode is always set. *)
Theorem set_mode_fallback re works :
  (∀ d, set_mode_draw None re works = Ok d ↔
        ∃ i, get_draw_constructors re !! i = Some d ∧ works d = true ∧
             ∀ j d', get_draw_constructors re !! j = Some d' → (j < i)%nat → works d' = false) ∧
  (re_imports re "sw" = true → works "sw" = true → ∃ d, set_mode_draw None re works = Ok d).
Proof.
  unfold set_mode_draw. split.
  - intros d. destruct (list_find _ _) as [[i d0]|] eqn:Hf.
    + apply list_find_Some in Hf as (Hi & Hw & Hbefore). split.
      * intros [= <-]. exists i. split_and!; [done|done|]. intros j d' Hj Hlt.
        apply not_true_is_false. by apply (Hbefore j d').
      * intros (i' & Hi' & Hw' & Hb'). f_equal.
        destruct (Nat.lt_trichotomy i i') as [Hlt|[->|Hlt]].
        -- specialize (Hb' i d0 Hi Hlt). congruence.
        -- congruence.
        -- by destruct (Hbefore i' d Hi' Hlt).
    + split; [done|]. intros (i & Hi & Hw & _).
      apply list_find_None in Hf. rewrite Forall_lookup in Hf. by destruct (Hf i d Hi).
  - intros Hi Hw. destruct (list_find _ _) as [[i d]|] eqn:Hf; [by eexists|].
    apply list_find_None in Hf. exfalso.
    apply draw_constructors_last, last_Some_elem_of in Hi.
    rewrite Forall_forall in Hf. by apply (Hf "sw").
Qed.

(** ** Witnesses *)

(** Windows, renderer ["auto"], ANGLE failing to import, GL failing to
    set a mode: the software renderer is the one kept. *)
Definition re_windows_auto : renderer_env :=
  mk_renderer_env "auto" None false true (λ n, bool_decide (n ≠ "angle")).

Lemma draw_constructors_spec_witness :
  get_draw_constructors re_windows_auto = ["gl"; "sw"] ∧
  last (get_draw_constructors re_windows_auto) = Some "sw".
Proof.
  split; [reflexivity|]. apply (draw_constructors_spec re_windows_auto). reflexivity.
Defined.

Lemma set_mode_fallback_witness :
  ∃ d, set_mode_draw None re_windows_auto (λ d, bool_decide (d = "sw")) = Ok d.
Proof. apply (set_mode_fallback re_windows_auto (λ d, bool_decide (d = "sw"))); reflexivity. Defined.
