(* ===== verification/InterfaceInit.v ===== *)
(** * Starting the interface (core.py, [Interface.__init__], lines 1033-1177)

    [Interface.__init__] sets the engine's fields, computes the layer
    properties from [config.layer_clipping], refuses a pygame older than
    1.8.1, starts the clock ([init_time]), reads [safe_mode] from the
    shift key, sets the video mode ([set_mode], which picks the draw
    object), reads the shift key a second time, and clears the
    background screenshot handoff.  The pygame, audio, joystick, font
    and presplash calls are I/O and are not modelled; what they return
    is the record [init_env].

    The result gathers the components' states: the engine record of
    [Interface] after [set_mode]'s flags, the frame record of [Frame],
    the handoff record of [Screenshot] (with no requester yet), the time
    base of [TimeBase], and the draw object [Renderer.set_mode_draw]
    picks.

    Theorem: [__init__] raises exactly when pygame is too old or no draw
    object sets the mode; when it returns, the fields are the source's
    initial values, the layer properties clip exactly the layers
    [layer_clipping] names, and the draw object is picked with the
    [safe_mode] of the first shift check: the second check, after
    [set_mode], is never read by [get_draw_constructors] again. *)

From stdpp Require Import base list strings gmap.
From S2P Require Import Prelude TimeBase Frame Interface EventLoop Screenshot Renderer.

(** Python's [<] on tuples of integers ([pygame.version.vernum]). *)
Fixpoint tuple_lt (a b : list nat) : bool :=
  match a, b with
  | [], [] => false
  | [], _ :: _ => true
  | _ :: _, [] => false
  | x :: a', y :: b' => if decide (x < y)%nat then true
                        else if decide (x = y) then tuple_lt a' b' else false
  end.

(** A value of a layer's property dict (lines 1078-1089). *)
Inductive prop_val :=
  | PInt (z : Z)
  | PBool (b : bool).

#[export] Instance prop_val_eq_dec : EqDecision prop_val.
Proof. solve_decision. Defined.

(** [dict(xpos = x, xanchor = 0, ...)] for a clipped layer (lines 1078-1089). *)
Definition clipping_props (x y w h : Z) : list (string * prop_val) :=
  [("xpos", PInt x); ("xanchor", PInt 0); ("ypos", PInt y); ("yanchor", PInt 0);
   ("xmaximum", PInt w); ("ymaximum", PInt h); ("xminimum", PInt w); ("yminimum", PInt h);
   ("clipping", PBool true)].

(** The dict of one layer (lines 1075-1092): clipped when
    [config.layer_clipping] has it, otherwise empty. *)
Definition layer_props (clipping : gmap string (Z * Z * Z * Z)) (layer : string)
    : list (string * prop_val) :=
  match clipping !! layer with
  | Some (x, y, w, h) => clipping_props x y w h
  | None => []
  end.

(** [self.layer_properties] (lines 1070-1092): the dict of each
    configured layer. *)
Definition layer_properties (layers : list string) (clipping : gmap string (Z * Z * Z * Z))
    : gmap string (list (string * prop_val)) :=
  foldl (λ m layer, <[layer := layer_props clipping layer]> m) ∅ layers.

(** What [__init__] reads from pygame, the clock and the configuration. *)
Record init_env := mk_init_env {
  ie_vernum : list nat;                  (** [pygame.version.vernum] *)
  ie_first_utter_start : bool;           (** [renpy.first_utter_start] *)
  ie_shift_at_start : bool;              (** shift held at line 1145 *)
  ie_shift_after_mode : bool;            (** shift held at line 1161 *)
  ie_wall : Z;                           (** [time.time()] at [init_time] *)
  ie_ticks : Z;                          (** [pygame.time.get_ticks()] then *)
  ie_layers : list string;               (** [config.layers + config.top_layers] *)
  ie_layer_clipping : gmap string (Z * Z * Z * Z);
  ie_pref : string;                      (** [preferences.renderer] *)
  ie_environ : option string;            (** [RENPY_RENDERER] *)
  ie_windows : bool;                     (** [renpy.windows] *)
  ie_imports : string → bool;            (** the draw modules that import *)
  ie_works : string → bool               (** the draw objects whose [set_mode] succeeds *)
}.

(** The renderer environment [set_mode] sees, with the [safe_mode] set
    before it. *)
Definition init_renderer_env (ie : init_env) (safe : bool) : renderer_env :=
  mk_renderer_env (ie_pref ie) (ie_environ ie) safe (ie_windows ie) (ie_imports ie).

Section boot.
Context {W T Surf : Type}.

(** The fields of [Interface.__init__] before [set_mode] (lines
    1033-1109): no transitions, no flags, the ["default"] mouse, focused;
    [minimized] is only set by [set_mode]. *)
Definition interface_fields : interface W T :=
  mk_interface ∅ ∅ ∅ ∅ ∅ false false false None 0%nat "default" None None 0 0 true false false None.

Record booted := mk_booted {
  b_itf : interface W T;
  b_frame : frame_state Surf;
  b_shot : shot_state;
  b_time_base : time_base;
  b_profile_time : Z;                                    (** [self.profile_time] *)
  b_mouse_event_time : Z;                                (** [self.mouse_event_time] *)
  b_safe_mode : bool;                                    (** [self.safe_mode] *)
  b_draw : string;                                       (** [renpy.display.draw] *)
  b_layer_properties : gmap string (list (string * prop_val))
}.

(** [Interface.__init__()] (lines 1033-1177). *)
Definition interface_init (ie : init_env) : result booted :=
  let props := layer_properties (ie_layers ie) (ie_layer_clipping ie) in
  if tuple_lt (ie_vernum ie) [1; 8; 1]%nat then raise PygameTooOld
  else
    let tb := init_time (ie_wall ie) (ie_ticks ie) in
    profile ← get_time tb (ie_ticks ie);
    mouse_t ← get_time tb (ie_ticks ie);
    let safe1 := ie_first_utter_start ie && ie_shift_at_start ie in
    draw ← set_mode_draw None (init_renderer_env ie safe1) (ie_works ie);
    let safe2 := safe1 || (ie_first_utter_start ie && ie_shift_after_mode ie) in
    Ok (mk_booted (set_mode_flags interface_fields) frame_init (shot_init []) tb profile mouse_t
          safe2 draw props).
End boot.

(** ** Properties *)

Lemma layer_properties_lookup layers clipping layer :
  layer_properties layers clipping !! layer =
    if decide (layer ∈ layers) then Some (layer_props clipping layer) else None.
Proof. unfold layer_properties. by rewrite (foldl_insert_lookup (layer_props clipping)), lookup_empty. Qed.

Lemma set_mode_draw_Err current re works e :
  set_mode_draw current re works = Err e ↔
  e = VideoModeError ∧
  ∀ d, d ∈ (match current with Some d => [d] | None => get_draw_constructors re end) → works d = false.
Proof.
  unfold set_mode_draw. destruct (list_find _ _) as [[i d]|] eqn:Hf.
  - split; [done|]. intros [_ Hall]. apply list_find_Some in Hf as (Hi & Hw & _).
    rewrite (Hall d) in Hw; [done|]. by eapply list_elem_of_lookup_2.
  - apply list_find_None in Hf. rewrite Forall_forall in Hf. split.
    + intros [= <-]. split; [done|]. intros d Hd. apply not_true_is_false. by apply Hf.
    + intros [-> _]. done.
Qed.

Section boot_facts.
Context {W T Surf : Type}.

(** The layer properties of a started interface are [layer_properties]
    of the configured layers. *)
Lemma interface_init_props (ie : init_env) (b : booted (W:=W) (T:=T) (Surf:=Surf)) :
  interface_init ie = Ok b →
  b_layer_properties b = layer_properties (ie_layers ie) (ie_layer_clipping ie).
Proof.
  unfold interface_init. destruct (tuple_lt _ _); [done|]. simpl.
  destruct (set_mode_draw _ _ _); [|done]. simpl. by intros [= <-].
Qed.

(** C20: [Interface.__init__] raises [PygameTooOld] on a pygame older
    than 1.8.1 and [VideoModeError] when no draw object sets the mode,
    and nothing else.  When it returns, the clock reads the wall time,
    [safe_mode] holds when the shift key was down at either check of a
    first start, but the draw object is the one [set_mode] picks with
    the [safe_mode] of the first check only; the engine starts with no
    transition, the ["default"] mouse, focused, not minimized and a
    redraw forced; each configured layer has its property dict, a
    clipping one exactly when [layer_clipping] names it; the frame and
    the screenshot handoff start empty. *)
Theorem interface_init_spec (ie : init_env) :
  (∀ e, interface_init (W:=W) (T:=T) (Surf:=Surf) ie = Err e ↔
     (tuple_lt (ie_vernum ie) [1; 8; 1]%nat = true ∧ e = PygameTooOld) ∨
     (tuple_lt (ie_vernum ie) [1; 8; 1]%nat = false ∧ e = VideoModeError ∧
      ∀ d, d ∈ get_draw_constructors
                 (init_renderer_env ie (ie_first_utter_start ie && ie_shift_at_start ie)) →
           ie_works ie d = false)) ∧
  (∀ b : booted (W:=W) (T:=T) (Surf:=Surf), interface_init ie = Ok b →
     b_time_base b = init_time (ie_wall ie) (ie_ticks ie) ∧
     b_profile_time b = ie_wall ie ∧ b_mouse_event_time b = ie_wall ie ∧
     b_safe_mode b = ie_first_utter_start ie && (ie_shift_at_start ie || ie_shift_after_mode ie) ∧
     set_mode_draw None (init_renderer_env ie (ie_first_utter_start ie && ie_shift_at_start ie))
       (ie_works ie) = Ok (b_draw b) ∧
     transition (b_itf b) = ∅ ∧ ongoing_transition (b_itf b) = ∅ ∧ mouse (b_itf b) = "default" ∧
     focused (b_itf b) = true ∧ minimized (b_itf b) = false ∧ force_redraw (b_itf b) = true ∧
     suppress_transition (b_itf b) = false ∧ timeout_time (b_itf b) = None ∧
     (∀ layer, is_Some (b_layer_properties b !! layer) ↔ layer ∈ ie_layers ie) ∧
     (∀ layer x y w h, layer ∈ ie_layers ie → ie_layer_clipping ie !! layer = Some (x, y, w, h) →
        b_layer_properties b !! layer = Some (clipping_props x y w h)) ∧
     (∀ layer, layer ∈ ie_layers ie → ie_layer_clipping ie !! layer = None →
        b_layer_properties b !! layer = Some []) ∧
     b_frame b = frame_init ∧ b_shot b = shot_init []).
Proof.
  unfold interface_init. split.
  - intros e. destruct (tuple_lt _ _) eqn:Hv; simpl.
    + split; [intros [= <-]; by left|]. intros [[_ ->]|[? _]]; [done|congruence].
    + destruct (set_mode_draw _ _ _) as [d|e'] eqn:Hd; simpl.
      * split; [done|]. intros [[? _]|(_ & -> & Hall)]; [congruence|].
        assert (Err VideoModeError = Ok d) as [=]. rewrite <-Hd. symmetry. by apply set_mode_draw_Err.
      * apply set_mode_draw_Err in Hd as [-> Hall]. split; [intros [= <-]; by right|].
        intros [[? _]|(_ & -> & _)]; [congruence|done].
  - intros b. destruct (tuple_lt _ _); [done|]. simpl.
    destruct (set_mode_draw _ _ _) as [d|e] eqn:Hd; [|done]. simpl. intros [= <-]. simpl.
    split_and!; try done; try (f_equal; lia).
    + by rewrite andb_orb_distrib_r.
    + intros layer. rewrite layer_properties_lookup. case_decide; naive_solver.
    + intros layer x y w h Hl Hc. by rewrite layer_properties_lookup, decide_True; [unfold layer_props; rewrite Hc|].
    + intros layer Hl Hc. by rewrite layer_properties_lookup, decide_True; [unfold layer_props; rewrite Hc|].
Qed.
End boot_facts.
