(* ===== verification/DisplayInit.v ===== *)
(** * Initialising the display for an error report (error.py,
      [init_display], lines 44-58, with core.py lines 1140-1141)

    [init_display] builds the [Interface] when [renpy.game.interface] is
    not set yet, then builds the styles, indexes the archives, starts the
    image cache, and resets the UI.  [Interface.__init__] registers
    itself as [renpy.game.interface] (line 1140) before it sets the video
    mode (line 1149): when [set_mode] raises, the global holds the
    half-built object.  The global is [game_interface]; the calls into
    other modules are the results of [display_env].

    Theorems: after an [Interface] whose video mode failed, a second
    [init_display] does not build one again and returns normally, so the
    report that follows it goes on without a draw object; the error
    reports compose with it: [report_exception] falls back to normal
    reporting on both calls, [report_parse_errors] raises on the first
    and shows its screen on the second. *)

From stdpp Require Import base list strings gmap.
From S2P Require Import Prelude TimeBase Frame Interface Renderer InterfaceInit ErrorReport.

(** The results of the calls [init_display] makes into other modules. *)
Record display_env := mk_display_env {
  de_build_styles : result unit;      (** [renpy.style.build_styles()] *)
  de_index_archives : result unit;    (** [renpy.loader.index_archives()] *)
  de_cache_init : result unit;        (** [renpy.display.im.cache.init()] *)
  de_ui_reset : result unit           (** [renpy.ui.reset()] *)
}.

Section display_init.
Context {W T Surf : Type}.

(** [renpy.game.interface]: unset, a built [Interface], or one whose
    [__init__] raised after it registered itself. *)
Inductive game_interface :=
  | GINone
  | GIBuilt (b : booted (W:=W) (T:=T) (Surf:=Surf))
  | GIHalf.

(** [renpy.display.core.Interface()] as the globals see it: the
    registration at lines 1140-1141 comes after the pygame version check
    and before [set_mode]. *)
Definition construct_interface (ie : init_env) : game_interface * result unit :=
  if tuple_lt (ie_vernum ie) [1; 8; 1]%nat then (GINone, raise PygameTooOld)
  else match interface_init ie with
       | Ok b => (GIBuilt b, Ok ())
       | Err e => (GIHalf, Err e)
       end.

(** [init_display()] (error.py, lines 44-58). *)
Definition init_display (de : display_env) (ie : init_env) (gi : game_interface)
    : game_interface * result unit :=
  match gi with
  | GINone =>
      match construct_interface ie with
      | (gi', Err e) => (gi', Err e)
      | (gi', Ok _) =>
          (gi', _ ← de_build_styles de; _ ← de_index_archives de; _ ← de_cache_init de;
                de_ui_reset de)
      end
  | _ => (gi, de_ui_reset de)
  end.

(** [renpy.display.draw is not None] for the interface the global holds. *)
Definition draw_set (gi : game_interface) : bool :=
  match gi with GIBuilt _ => true | _ => false end.

(** The [report_env] of a report made right after [init_display]. *)
Definition report_after (rp : report_env) (r : result unit) (gi : game_interface) : report_env :=
  mk_report_env (rp_simple rp) (rp_has_screen rp) r (draw_set gi) (rp_init_phase rp)
    (rp_reload rp) (rp_next_node rp).

(** ** Properties *)

(** The [Interface] constructor when no draw object sets the mode. *)
Lemma construct_no_mode (ie : init_env) :
  tuple_lt (ie_vernum ie) [1; 8; 1]%nat = false →
  (∀ d, d ∈ get_draw_constructors
              (init_renderer_env ie (ie_first_utter_start ie && ie_shift_at_start ie)) →
        ie_works ie d = false) →
  construct_interface ie = (GIHalf, Err VideoModeError).
Proof.
  intros Hv Hnone. unfold construct_interface, interface_init. rewrite Hv. simpl.
  assert (set_mode_draw None (init_renderer_env ie (ie_first_utter_start ie && ie_shift_at_start ie))
            (ie_works ie) = Err VideoModeError) as -> by (by apply set_mode_draw_Err).
  done.
Qed.

(** C21: when [Interface()] cannot set a video mode, the first
    [init_display] raises [VideoModeError] and leaves the half-built
    interface registered; a second [init_display] then skips the
    construction and returns what [ui.reset] returns.  [report_exception]
    falls back to normal reporting after both (the first raise, then the
    missing draw object), while [report_parse_errors] raises on the
    first and, on the second, calls its screen with no draw object. *)
Theorem init_display_half_built (de : display_env) (ie : init_env) (rp : report_env) :
  tuple_lt (ie_vernum ie) [1; 8; 1]%nat = false →
  (∀ d, d ∈ get_draw_constructors
              (init_renderer_env ie (ie_first_utter_start ie && ie_shift_at_start ie)) →
        ie_works ie d = false) →
  let '(gi1, r1) := init_display de ie GINone in
  let '(gi2, r2) := init_display de ie gi1 in
  gi1 = GIHalf ∧ r1 = Err VideoModeError ∧ gi2 = GIHalf ∧ r2 = de_ui_reset de ∧
  report_exception (report_after rp r1 gi1) = ReportNormally ∧
  report_exception (report_after rp r2 gi2) = ReportNormally ∧
  (rp_simple rp = false → rp_has_screen rp "_parse_errors" = true →
     report_parse_errors (report_after rp r1 gi1) = ReportRaise VideoModeError ∧
     (de_ui_reset de = Ok () →
        report_parse_errors (report_after rp r2 gi2) =
          ReportScreen "_parse_errors" (mk_actions false true false))).
Proof.
  intros Hv Hnone. unfold init_display at 1.
  rewrite (construct_no_mode ie Hv Hnone). simpl.
  split_and!; try done.
  - unfold report_exception, report_after. simpl.
    by destruct (rp_simple rp), (rp_has_screen rp "_exception").
  - unfold report_exception, report_after. simpl.
    destruct (rp_simple rp), (rp_has_screen rp "_exception"); simpl; try done.
    by destruct (de_ui_reset de).
  - intros Hs Hp. unfold report_parse_errors, report_after. simpl. rewrite Hs, Hp. simpl.
    split; [done|]. intros ->. done.
Qed.
End display_init.
