(* ===== verification/Interact.v ===== *)
(** * One interaction: [Interface.interact], [Interface.interact_core],
      [with_none] and [do_with] (core.py, lines 1485-1525, 1765-2072 and
      2352-2386)

    [interact] guards against a nested interaction, calls [interact_core]
    until it stops asking for a restart, and cleans up in a [finally]
    block.  [interact_core] snapshots the transitions (modelled in
    [Interface]), builds the screen from the scene lists ([make_layer],
    [compute_scene], [add_layer], [root_transition], [compose]), runs the
    redraw/event loop (modelled in [EventLoop]) and cleans up in its own
    [finally] block, which covers the loop only.  [with_none] records
    the scene shown as the one the next transition starts from;
    [do_with] sets a transition and runs a [trans_pause] interaction.
    The [finally] blocks go on from the state a raising statement leaves
    ([Cleanup]).

    The screen is built from layout widgets ([MultiBox], [Fixed]) and
    transitions, which live outside src/: the typeclass [WidgetOps]
    gives what the core does with them, with the one law the core relies
    on (the [layers] dict of a box it built is the one it gave).  Each
    layer's box gets the property dict [__init__] computed for it
    ([InterfaceInit.layer_properties], the section variable
    [layer_properties]); [compute_scene_booted] composes the two. *)

From stdpp Require Import base list strings gmap.
From S2P Require Import Prelude Displayable SceneList Cleanup Interface EventLoop InterfaceInit.

(** What the core asks of the layout widgets [W] and transitions [T]. *)
Class WidgetOps (D W T : Type) := {
  (** [MultiBox(layout='fixed', focus=layer, **properties)] after
      [append_scene_list(entries)] *)
  w_layer : string → list (string * prop_val) → list (sle (D:=D)) → W;
  (** [a(child=rv)] or [a(rv)] for an item [a] of a layer's at_list *)
  w_apply : D → W → W;
  (** a fixed [MultiBox] holding its children, each with its time base
      ([box.add(w, time, time)]), and its [layers] dict *)
  w_box : list (W * option Z) → gmap string W → W;
  (** the [layers] attribute of a widget, [None] when it has none *)
  w_box_layers : W → option (gmap string W);
  w_box_layers_box cs ls : w_box_layers (w_box cs ls) = Some ls;
  (** [transition(old_widget=old, new_widget=new)]; [None] when the
      result is not a [Displayable] *)
  t_call : T → W → W → option W;
  (** [SayBehavior()] and [PauseBehavior(trans.delay)] *)
  w_say : W;
  w_pause : W → W
}.

Section compose.
Context {D W T : Type} `{EqDecision D} `{DisplayableOps D} `{!WidgetOps D W T}.
Implicit Types (sl : scene_lists (D:=D)) (s : interface W T).
(** [self.layer_properties], computed once by [__init__] ([InterfaceInit]). *)
Variable layer_properties : gmap string (list (string * prop_val)).

(** A [MultiBox] under construction: its children with their time bases,
    and its [layers] dict. *)
Definition box : Type := list (W * option Z) * gmap string W.

Definition box_add (b : box) (layer : string) (w : W) (t : option Z) : box :=
  (b.1 ++ [(w, t)], <[layer:=w]> b.2).

Definition box_widget (b : box) : W := w_box b.1 b.2.

(** [SceneLists.make_layer(layer, properties)] (lines 872-895): the
    layer's entries in a box with the given properties, wrapped by each
    item of the layer's at_list, each wrap in a fixed box with the
    layer's time base. *)
Definition make_layer sl (layer : string) (properties : list (string * prop_val)) : result W :=
  l ← lookup_or (KeyError layer) layer (sl_layers sl);
  ta ← lookup_or (KeyError layer) layer (sl_layer_at_list sl);
  Ok (foldl (λ rv a, w_box [(w_apply a rv, ta.1)] ∅) (w_layer layer properties l) ta.2).

(** [Interface.compute_scene] (lines 1626-1646): one widget per layer and
    top layer, with the properties [__init__] computed for it (a layer
    without them raises [KeyError]), and under [None] the root holding
    the layers. *)
Definition compute_scene (cfg : config) sl : result (gmap (option string) W) :=
  rv ← foldlM (λ rv layer, props ← lookup_or (KeyError layer) layer layer_properties;
                           w ← make_layer sl layer props; Ok (<[Some layer:=w]> rv)) ∅
          (cfg_layers cfg ++ cfg_top_layers cfg);
  root ← foldlM (λ b layer, w ← lookup_or (KeyError layer) (Some layer) rv;
                           Ok (box_add b layer w None)) ([], ∅) (cfg_layers cfg);
  Ok (<[None:=box_widget root]> rv).

(** [add_layer(where, layer)] of [interact_core] (lines 1960-1982): the layer, or the
    ongoing transition from the old layer to it when transitions are not
    suppressed. *)
Definition add_layer s (scene : gmap (option string) W) (suppress : bool) (into : box)
    (layer : string) : result box :=
  scene_layer ← lookup_or (KeyError layer) (Some layer) scene;
  match ongoing_transition s !! Some layer with
  | Some t =>
      if suppress then Ok (box_add into layer scene_layer None) else
      from ← lookup_or (KeyError layer) (Some layer) (transition_from s);
      match t_call t from scene_layer with
      | None => raise TransitionNotDisplayable
      | Some tr => Ok (box_add into layer tr (default None (transition_time s !! Some layer)))
      end
  | None => Ok (box_add into layer scene_layer None)
  end.

(** The root transition (lines 1988-2020): from a box holding the old
    root's layers to the new layers root; in a [trans_pause] interaction
    a say behaviour and a pause for the transition's delay come with it. *)
Definition root_transition (cfg : config) s (suppress trans_pause : bool) (layers_root : box)
    : result (list (W * option Z)) :=
  match ongoing_transition s !! None with
  | Some t =>
      if suppress then Ok [(box_widget layers_root, None)] else
      from ← lookup_or (KeyError "None") None (transition_from s);
      fl ← match w_box_layers from with Some m => Ok m | None => raise AttributeError end;
      old ← foldlM (λ b layer, d ← lookup_or (KeyError layer) layer fl; Ok (box_add b layer d None))
              ([], ∅) (cfg_layers cfg);
      match t_call t (box_widget old) (box_widget layers_root) with
      | None => raise TransitionNotDisplayable
      | Some tr =>
          let time := default None (transition_time s !! None) in
          Ok ((tr, time) :: (if trans_pause then [(w_say, None); (w_pause tr, time)] else []))
      end
  | None => Ok [(box_widget layers_root, None)]
  end.

(** Lines 1914-2026: the root widget holds the underlay (with the
    roll-forward behaviour, as given), the layers (through the root
    transition) and the top layers.  Returned with the layers root and
    the scene, which [interact_core] keeps as [old_scene]. *)
Definition compose (cfg : config) s sl (suppress trans_pause : bool) (underlay : list W)
    : result (W * box * gmap (option string) W) :=
  scene ← compute_scene cfg sl;
  layers_root ← foldlM (add_layer s scene suppress) ([], ∅) (cfg_layers cfg);
  middle ← root_transition cfg s suppress trans_pause layers_root;
  root ← foldlM (add_layer s scene suppress) (((λ w, (w, None)) <$> underlay) ++ middle, ∅)
           (cfg_top_layers cfg);
  Ok (box_widget root, layers_root, scene).
End compose.

(** ** Properties of the composition *)

Section compose_facts.
Context {D W T : Type} `{EqDecision D} `{DisplayableOps D} `{!WidgetOps D W T}.
Implicit Types (sl : scene_lists (D:=D)) (s : interface W T).
Variable layer_properties : gmap string (list (string * prop_val)).
Abbreviation compute_scene := (compute_scene layer_properties).
Abbreviation compose := (compose layer_properties).

(** What [add_layer] puts in the box for a layer whose new widget is [new]. *)
Definition layer_shown s (suppress : bool) (layer : string) (new w : W) (t : option Z) : Prop :=
  match ongoing_transition s !! Some layer with
  | Some tf =>
      if suppress then w = new ∧ t = None
      else ∃ from, transition_from s !! Some layer = Some from ∧ t_call tf from new = Some w ∧
                   t = default None (transition_time s !! Some layer)
  | None => w = new ∧ t = None
  end.

Lemma add_layer_Ok s scene suppress b layer b' :
  add_layer s scene suppress b layer = Ok b' →
  ∃ new w t, scene !! Some layer = Some new ∧ b' = box_add b layer w t ∧
             layer_shown s suppress layer new w t.
Proof.
  unfold add_layer, layer_shown, lookup_or. destruct (scene !! Some layer) as [new|]; [|done].
  simpl. destruct (ongoing_transition s !! Some layer) as [tf|].
  - destruct suppress; [intros [= <-]; eauto 7|].
    destruct (transition_from s !! Some layer) as [from|]; [|done]. simpl.
    destruct (t_call tf from new) as [tr|] eqn:Ht; [intros [= <-]; eauto 10|done].
  - intros [= <-]. eauto 7.
Qed.

Lemma add_layers_Ok s scene suppress (ls : list string) b b' :
  foldlM (add_layer s scene suppress) b ls = Ok b' →
  (∀ layer, layer ∉ ls → b'.2 !! layer = b.2 !! layer) ∧
  ∀ layer, layer ∈ ls → ∃ new w t, scene !! Some layer = Some new ∧ b'.2 !! layer = Some w ∧
                                   layer_shown s suppress layer new w t.
Proof.
  revert b. induction ls as [|l ls IH]; intros b Hrun; simpl in Hrun.
  - injection Hrun as <-. set_solver.
  - apply bind_Ok in Hrun as (b1 & Hadd & Hrun).
    apply add_layer_Ok in Hadd as (new & w & t & Hnew & -> & Hsh).
    destruct (IH _ Hrun) as [Hout Hin]. split.
    + intros k Hk. rewrite Hout by set_solver. simpl. rewrite lookup_insert_ne; set_solver.
    + intros k Hk. destruct (decide (k ∈ ls)); [by apply Hin|].
      apply elem_of_cons in Hk as [->|]; [|done]. exists new, w, t.
      rewrite Hout by done. simpl. by rewrite lookup_insert_eq.
Qed.

(** The loop of [compute_scene] over the layers: each key it adds is a
    layer of the list, with the widget [make_layer] builds from the
    layer's properties; every layer of the list gets one. *)
Lemma scene_fold_Ok sl (ls : list string) (rv0 rv : gmap (option string) W) :
  foldlM (λ rv layer, props ← lookup_or (KeyError layer) layer layer_properties;
                      w ← make_layer sl layer props; Ok (<[Some layer:=w]> rv)) rv0 ls = Ok rv →
  rv !! None = rv0 !! None ∧
  (∀ k, is_Some (rv !! Some k) ↔ k ∈ ls ∨ is_Some (rv0 !! Some k)) ∧
  ∀ k w, rv !! Some k = Some w →
    rv0 !! Some k = Some w ∨
    (k ∈ ls ∧ ∃ props, layer_properties !! k = Some props ∧ make_layer sl k props = Ok w).
Proof.
  revert rv0. induction ls as [|l ls IH]; intros rv0 Hrun; simpl in Hrun.
  - injection Hrun as <-. split_and!; [done| |auto]. set_solver.
  - apply bind_Ok in Hrun as (rv1 & Hf & Hrun). apply bind_Ok in Hf as (props & Hp & Hf).
    apply bind_Ok in Hf as (w0 & Hm & [= <-]). apply lookup_or_Ok in Hp.
    destruct (IH _ Hrun) as (Hnone & Hdom & Hent). split_and!.
    + rewrite Hnone. by rewrite lookup_insert_ne.
    + intros k. rewrite Hdom, lookup_insert_is_Some', elem_of_cons. naive_solver.
    + intros k w Hk. destruct (Hent k w Hk) as [Hw|[Hin Hp2]]; [|right; set_solver].
      destruct (decide (k = l)) as [->|Hne].
      * rewrite lookup_insert_eq in Hw. injection Hw as <-. right. split; [set_solver|eauto].
      * left. by rewrite lookup_insert_ne in Hw by congruence.
Qed.

(** The scene [compute_scene] returns has a widget for exactly the
    layers and top layers of the configuration, each built by
    [make_layer] from the properties [__init__] gave the layer. *)
Lemma compute_scene_layers cfg sl scene :
  compute_scene cfg sl = Ok scene →
  ∀ layer, (is_Some (scene !! Some layer) ↔ layer ∈ cfg_layers cfg ++ cfg_top_layers cfg) ∧
    ∀ w, scene !! Some layer = Some w →
      ∃ props, layer_properties !! layer = Some props ∧ make_layer sl layer props = Ok w.
Proof.
  unfold compute_scene. intros Hc. apply bind_Ok in Hc as (rv & Hrv & Hc).
  apply bind_Ok in Hc as (root & _ & [= <-]).
  destruct (scene_fold_Ok _ _ _ _ Hrv) as (_ & Hdom & Hent). intros layer.
  rewrite lookup_insert_ne by done. split.
  - rewrite Hdom, lookup_empty. split; [intros [?|[]]; done|auto].
  - intros w Hw. destruct (Hent _ _ Hw) as [Hw'|[_ Hp]]; [by rewrite lookup_empty in Hw'|done].
Qed.


(** C10: the screen [compose] builds shows every layer as [add_layer]
    means it to: the scene is [compute_scene]'s, and each layer of the
    configuration sits in the layers root either as its new widget or,
    when it has an ongoing transition that is not suppressed, as that
    transition from the layer's old widget to the new one; the layers
    root holds nothing else. *)
Theorem compose_layers cfg s sl sup tp underlay root lr scene :
  compose cfg s sl sup tp underlay = Ok (root, lr, scene) →
  compute_scene cfg sl = Ok scene ∧
  (∀ layer, layer ∉ cfg_layers cfg → lr.2 !! layer = None) ∧
  ∀ layer, layer ∈ cfg_layers cfg → ∃ new w t, scene !! Some layer = Some new ∧
    lr.2 !! layer = Some w ∧ layer_shown s sup layer new w t.
Proof.
  unfold compose. intros Hc.
  apply bind_Ok in Hc as (scene' & Hs & Hc). apply bind_Ok in Hc as (lr' & Hl & Hc).
  apply bind_Ok in Hc as (mid & _ & Hc). apply bind_Ok in Hc as (rt & _ & Hc). simplify_eq.
  destruct (add_layers_Ok _ _ _ _ _ _ Hl) as [Hout Hin]. split_and!; [done| |done].
  intros layer Hn. by rewrite Hout.
Qed.
End compose_facts.

Section boot_scene.
Context {D W T Surf : Type} `{EqDecision D} `{DisplayableOps D} `{!WidgetOps D W T}.

(** C11: the scene of an interface started by [__init__] builds each
    layer with the properties computed at start: a layer named by
    [config.layer_clipping] is clipped to its rectangle, any other layer
    gets none.  [self.layer_properties] is computed once, so a layer of
    [config.layers] or [config.top_layers] that was not configured when
    the interface started makes every [compute_scene] raise. *)
Theorem compute_scene_booted (ie : init_env) (b : booted (W:=W) (T:=T) (Surf:=Surf))
    cfg (sl : scene_lists (D:=D)) :
  interface_init ie = Ok b →
  (∀ scene, compute_scene (b_layer_properties b) cfg sl = Ok scene →
     ∀ layer w, scene !! Some layer = Some w →
       layer ∈ ie_layers ie ∧ make_layer sl layer (layer_props (ie_layer_clipping ie) layer) = Ok w) ∧
  (∀ layer, layer ∈ cfg_layers cfg ++ cfg_top_layers cfg → layer ∉ ie_layers ie →
     ∀ scene, compute_scene (b_layer_properties b) cfg sl ≠ Ok scene).
Proof.
  intros Hb. pose proof (interface_init_props ie b Hb) as Hp. split.
  - intros scene Hc layer w Hw. destruct (compute_scene_layers _ _ _ _ Hc layer) as [_ Hent].
    destruct (Hent w Hw) as (props & Hl & Hm). rewrite Hp, layer_properties_lookup in Hl.
    destruct (decide (layer ∈ ie_layers ie)); [|done]. injection Hl as <-. done.
  - intros layer Hin Hn scene Hc. destruct (compute_scene_layers _ _ _ _ Hc layer) as [Hdom Hent].
    destruct (proj2 Hdom Hin) as [w Hw]. destruct (Hent w Hw) as (props & Hl & _).
    rewrite Hp, layer_properties_lookup, decide_False in Hl by done. done.
Qed.
End boot_scene.

(** ** [interact_core] and [interact] *)

(** The fields of the execution context ([renpy.game.context()]) the core uses. *)
Record context := mk_context {
  ctx_interacting : bool;
  ctx_runtime : Z
}.

(** What one call of [interact_core] reads from outside: the time it
    starts ([get_time()]), the prediction coroutine built for the new
    root widget (its units of work), and one environment per loop pass. *)
Record core_input := mk_core_input {
  ci_start : Z;
  ci_prediction : option nat;
  ci_envs : list pass_env
}.

Section interact.
Context {D W T R : Type} `{EqDecision D} `{DisplayableOps D} `{!WidgetOps D W T}.
Variable mouse_handler : event → Z → Z → handler_result R.
Variable root_event : event → Z → Z → handler_result R.
Variable key_handler : event → handler_result R.
Variable mouse_event_pos : event → Z * Z.
Variable joystick : event → option event.
Variable has_quit_action : bool.
Variable windows : bool.
(** [if trans_pause and rv:] *)
Variable rv_truthy : R → bool.
(** [self.layer_properties] *)
Variable layer_properties : gmap string (list (string * prop_val)).
Abbreviation compute_scene := (compute_scene layer_properties).
Abbreviation compose := (compose layer_properties).

(** The state an interaction works on: the engine, the scene lists of
    the current context, the context, the pygame queue and the engine's
    [mouse_event_time]. *)
Record engine := mk_engine {
  e_itf : interface W T;
  e_sl : scene_lists (D:=D);
  e_ctx : context;
  e_queue : list event;
  e_mouse_time : Z
}.

Definition with_engine_itf (e : engine) (s : interface W T) : engine :=
  mk_engine s (e_sl e) (e_ctx e) (e_queue e) (e_mouse_time e).
Definition with_engine_sl (e : engine) (sl : scene_lists) : engine :=
  mk_engine (e_itf e) sl (e_ctx e) (e_queue e) (e_mouse_time e).
Definition with_engine_ctx (e : engine) (c : context) : engine :=
  mk_engine (e_itf e) (e_sl e) c (e_queue e) (e_mouse_time e).

Definition set_old_scene (s : interface W T) (sc : gmap (option string) W) : interface W T :=
  mk_interface sc (transition s) (ongoing_transition s) (transition_time s) (transition_from s)
    (suppress_transition s) (force_redraw s) (restart_interaction s) (pushed_event s) (ticks s)
    (mouse s) (timeout_time s) (last_event s) (event_time s) (quit_time s) (focused s)
    (minimized s) (display_reset s) (last_resize s).

Definition set_shown_window (sl : scene_lists (D:=D)) (b : bool) : scene_lists :=
  mk_scene_lists (sl_layers sl) (sl_at_list sl) (sl_layer_at_list sl) (sl_shown sl)
    (sl_additional_transient sl) b.

(** How a call of [interact_core] ends: [(repeat, rv)], an exception, or
    still inside its loop when the environments run out or the wait
    blocks. *)
Inductive core_outcome :=
  | CoreReturn (repeat : bool) (rv : option R) (e : engine)
  | CoreRaise (err : py_error) (e : engine)
  | CoreRunning (e : engine).

(** Lines 1904-1911: the motion, periodic, time and redraw events are
    dropped and one time event is posted. *)
Definition reset_queue (q : list event) : list event :=
  remove_kind (λ ev, is_motion ev || is_periodic ev || is_time_event ev || is_redraw_event ev) q
  ++ [TimeEvent].

(** The [finally] block of [interact_core] (lines 2363-2381): the overlay
    layers are cleared, the runtime grows by the interaction's length,
    and the next interaction is asked to restart.  A [clear] that raises
    ends the block there, with the layers it cleared. *)
Definition core_finally (cfg : config) (e : engine) (start end_ : Z) : with_state engine :=
  match for_st (λ sl i, clear_st sl i false end_) (e_sl e) (cfg_overlay_layers cfg) with
  | (sl, Some err) => (with_engine_sl e sl, Some err)
  | (sl, None) =>
      let c := e_ctx e in
      let s := e_itf e in
      (mk_engine (set_flags s (suppress_transition s) true) sl
         (mk_context (ctx_interacting c) (ctx_runtime c + (end_ - start))) (e_queue e)
         (e_mouse_time e), None)
  end.

(** The end of the [try] block: [(repeat, rv)] or the exception, then the
    [finally] block, whose own exception wins. *)
Definition core_end (cfg : config) (e : engine) (start end_ : Z) (r : result (bool * option R))
    : core_outcome :=
  match core_finally cfg e start end_ with
  | (e', Some err) => CoreRaise err e'
  | (e', None) =>
      match r with
      | Ok (rep, rv) => CoreReturn rep rv e'
      | Err err => CoreRaise err e'
      end
  end.

Abbreviation run_loop := (run_loop mouse_handler root_event key_handler mouse_event_pos
                            joystick has_quit_action windows).

(** [interact_core] (lines 1820-2386), from the transition snapshot to
    the [finally] block. *)
Definition interact_core (cfg : config) (e : engine) (trans_pause skipping : bool)
    (mouse_name : string) (underlay : list W) (ci : core_input) : core_outcome :=
  let '(s1, early) := interact_core_start (R:=R) (e_itf e) trans_pause skipping mouse_name in
  let e1 := with_engine_itf e s1 in
  match early with
  | Some (rep, rv) => CoreReturn rep rv e1
  | None =>
      let q := reset_queue (e_queue e1) in
      let e2 := mk_engine s1 (e_sl e1) (e_ctx e1) q (e_mouse_time e1) in
      match remove_hidden (e_sl e2) (ci_start ci) with
      | Err err => CoreRaise err e2
      | Ok sl =>
          let e3 := with_engine_sl e2 sl in
          match compose cfg s1 sl skipping trans_pause underlay with
          | Err err => CoreRaise err e3
          | Ok (_, _, scene) =>
              let s2 := set_old_scene s1 scene in
              let loc := mk_locals true true false (ci_prediction ci) None None None
                           (ci_start ci) (e_mouse_time e3) in
              let st := mk_loop_state s2 sl q loc [] in
              let back st := mk_engine (ls_itf st) (ls_scene st) (e_ctx e3) (ls_queue st)
                               (mouse_event_time (ls_loc st)) in
              match run_loop (ci_envs ci) st with
              | LoopReturn r st' =>
                  let s' := ls_itf st' in
                  let s' := if trans_pause && rv_truthy r
                            then set_flags s' true (restart_interaction s') else s' in
                  core_end cfg (with_engine_itf (back st') s') (ci_start ci)
                    (end_time (ls_loc st')) (Ok (false, Some r))
              | LoopRestart st' =>
                  core_end cfg (back st') (ci_start ci) (end_time (ls_loc st')) (Ok (true, None))
              | LoopRaise err st' =>
                  core_end cfg (back st') (ci_start ci) (end_time (ls_loc st')) (Err err)
              | LoopBlocked st' | LoopPending st' => CoreRunning (back st')
              end
          end
      end
  end.
(** [while repeat: repeat, rv = self.interact_core(...)] (lines 1802-1803),
    one [core_input] per call. *)
Fixpoint core_loop (cfg : config) (e : engine) (trans_pause skipping : bool) (mouse_name : string)
    (underlay : list W) (calls : list core_input) : core_outcome :=
  match calls with
  | [] => CoreRunning e
  | ci :: calls' =>
      match interact_core cfg e trans_pause skipping mouse_name underlay ci with
      | CoreReturn true _ e' => core_loop cfg e' trans_pause skipping mouse_name underlay calls'
      | o => o
      end
  end.

Inductive interact_outcome :=
  | IReturn (rv : option R) (e : engine)
  | IRaise (err : py_error) (e : engine)
  | IRunning (e : engine).

(** The [finally] block of [interact] (lines 1803-1818), at time [now]: a
    [replace_transient] that raises ends the block there, with the
    scene lists as far as it got. *)
Definition interact_end (cfg : config) (clear : bool) (e : engine) (now : Z)
    (r : result (option R)) : interact_outcome :=
  let e1 := with_engine_ctx e (mk_context false (ctx_runtime (e_ctx e))) in
  match (if clear then replace_transient_st cfg (e_sl e1) now else (e_sl e1, None)) with
  | (sl, Some err) => IRaise err (with_engine_sl e1 sl)
  | (sl, None) =>
      let s := e_itf e1 in
      let s := set_transitions s (transition s) ∅ ∅ ∅ in
      let e2 := mk_engine (set_flags s (suppress_transition s) true) (set_shown_window sl false)
                  (e_ctx e1) (e_queue e1) (e_mouse_time e1) in
      match r with Ok rv => IReturn rv e2 | Err err => IRaise err e2 end
  end.

(** [Interface.interact] (lines 1765-1819). *)
Definition interact (cfg : config) (e : engine) (clear trans_pause skipping : bool)
    (mouse_name : string) (underlay : list W) (calls : list core_input) (now : Z)
    : interact_outcome :=
  if ctx_interacting (e_ctx e) then IRaise ReentrantInteraction e else
  let e1 := with_engine_ctx e (mk_context true (ctx_runtime (e_ctx e))) in
  match core_loop cfg e1 trans_pause skipping mouse_name underlay calls with
  | CoreReturn _ rv e' => interact_end cfg clear e' now (Ok rv)
  | CoreRaise err e' => interact_end cfg clear e' now (Err err)
  | CoreRunning e' => IRunning e'
  end.
(** [Interface.with_none] (lines 1500-1525): the scene computed now
    becomes [old_scene], the scene a later transition starts from; the
    overlay layers are cleared, the transient ones replaced, and the
    window is no longer shown.  A statement that raises ends it there. *)
Definition with_none (cfg : config) (e : engine) (now : Z) : with_state engine :=
  match compute_scene cfg (e_sl e) with
  | Err err => (e, Some err)
  | Ok scene =>
      let e1 := with_engine_itf e (set_old_scene (e_itf e) scene) in
      match for_st (λ sl i, clear_st sl i false now) (e_sl e1) (cfg_overlay_layers cfg) with
      | (sl, Some err) => (with_engine_sl e1 sl, Some err)
      | (sl, None) =>
          match replace_transient_st cfg sl now with
          | (sl', Some err) => (with_engine_sl e1 sl', Some err)
          | (sl', None) => (with_engine_sl e1 (set_shown_window sl' false), None)
          end
      end
  end.

(** What [do_with] did: [with_none] (and return [False]), or an interaction. *)
Inductive with_outcome :=
  | WithNone (r : with_state engine)
  | WithInteract (o : interact_outcome).

(** [Interface.do_with] (lines 1485-1498), with the transition as
    [config.with_callback] returned it. *)
Definition do_with (cfg : config) (e : engine) (trans : option T) (clear skipping : bool)
    (underlay : list W) (calls : list core_input) (now : Z) : with_outcome :=
  match trans with
  | Some t =>
      if suppress_transition (e_itf e) then WithNone (with_none cfg e now)
      else WithInteract (interact cfg (with_engine_itf e (set_transition (e_itf e) (Some t) None false))
                           clear true skipping "with" underlay calls now)
  | None => WithNone (with_none cfg e now)
  end.
End interact.

(** ** Properties of an interaction *)

Section interact_facts.
Context {D W T R : Type} `{EqDecision D} `{DisplayableOps D} `{!WidgetOps D W T}.
Variable mouse_handler : event → Z → Z → handler_result R.
Variable root_event : event → Z → Z → handler_result R.
Variable key_handler : event → handler_result R.
Variable mouse_event_pos : event → Z * Z.
Variable joystick : event → option event.
Variable has_quit_action : bool.
Variable windows : bool.
Variable rv_truthy : R → bool.
(** [self.layer_properties] *)
Variable layer_properties : gmap string (list (string * prop_val)).
Abbreviation compute_scene := (compute_scene layer_properties).
Abbreviation compose := (compose layer_properties).

Abbreviation engine := (engine (D:=D) (W:=W) (T:=T)).
Abbreviation interact := (interact mouse_handler root_event key_handler mouse_event_pos joystick
                            has_quit_action windows rv_truthy layer_properties).
Abbreviation interact_end := (interact_end (R:=R)).
Implicit Types (e : engine).

(** The state [interact]'s [finally] block leaves when it runs to its end. *)
Definition cleaned e : Prop :=
  ctx_interacting (e_ctx e) = false ∧ ongoing_transition (e_itf e) = ∅ ∧
  transition_from (e_itf e) = ∅ ∧ transition_time (e_itf e) = ∅ ∧
  restart_interaction (e_itf e) = true ∧ sl_shown_window (e_sl e) = false.

Lemma interact_end_cases cfg clear e now r :
  match interact_end cfg clear e now r with
  | IReturn rv e' => r = Ok rv ∧ cleaned e'
  | IRaise err e' => ctx_interacting (e_ctx e') = false ∧
      ((r = Err err ∧ cleaned e') ∨
       (clear = true ∧ replace_transient_st cfg (e_sl e) now = (e_sl e', Some err) ∧
        e_itf e' = e_itf e))
  | IRunning _ => False
  end.
Proof.
  unfold interact_end. destruct clear; simpl.
  - destruct (replace_transient_st _ _ _) as [sl [err|]] eqn:Hrt; simpl.
    + split; [done|]. by right.
    + destruct r; simpl; [split; [done|]|split; [done|left; split; [done|]]]; by split_and!.
  - destruct r; simpl; [split; [done|]|split; [done|left; split; [done|]]]; by split_and!.
Qed.

(** an interaction cannot start inside another: when the context is
    already interacting, [interact] raises [ReentrantInteraction] and
    changes nothing. *)
Theorem interact_reentrant cfg e clear tp sk mouse_name underlay calls now :
  ctx_interacting (e_ctx e) = true →
  interact cfg e clear tp sk mouse_name underlay calls now = IRaise ReentrantInteraction e.
Proof. intros Hi. unfold Interact.interact. by rewrite Hi. Qed.

(** C8: an interaction that returns has cleaned up: the context is no
    longer interacting, the ongoing transitions, their origins and start
    times are forgotten, the next interaction will restart and the window
    is no longer shown. *)
Theorem interact_return_cleaned cfg e clear tp sk mouse_name underlay calls now rv e' :
  interact cfg e clear tp sk mouse_name underlay calls now = IReturn rv e' → cleaned e'.
Proof.
  unfold Interact.interact. destruct (ctx_interacting _); [done|].
  destruct (core_loop _ _ _ _ _ _ _ _ _ _ _ _ _ _ _) as [? rv' e1|err e1|e1].
  - pose proof (interact_end_cases cfg clear e1 now (Ok rv')) as Hc.
    intros Hr. rewrite Hr in Hc. by destruct Hc.
  - pose proof (interact_end_cases cfg clear e1 now (Err err)) as Hc.
    intros Hr. rewrite Hr in Hc. by destruct Hc.
  - done.
Qed.

(** An interaction that raises leaves the context not interacting;
    it has cleaned up, unless the exception is one [replace_transient]
    raised in the [finally] block, which then skipped the rest of the
    cleanup: the scene lists are the ones [replace_transient] left when
    it raised, and the transitions of the interaction stay ongoing. *)
Theorem interact_raise_cleanup cfg e clear tp sk mouse_name underlay calls now err e' :
  ctx_interacting (e_ctx e) = false →
  interact cfg e clear tp sk mouse_name underlay calls now = IRaise err e' →
  ctx_interacting (e_ctx e') = false ∧
  (cleaned e' ∨ (clear = true ∧ ∃ sl, replace_transient_st cfg sl now = (e_sl e', Some err))).
Proof.
  intros Hi. unfold Interact.interact. rewrite Hi.
  destruct (core_loop _ _ _ _ _ _ _ _ _ _ _ _ _ _ _) as [? rv' e1|err1 e1|e1].
  - pose proof (interact_end_cases cfg clear e1 now (Ok rv')) as Hc.
    intros Hr. rewrite Hr in Hc. naive_solver.
  - pose proof (interact_end_cases cfg clear e1 now (Err err1)) as Hc.
    intros Hr. rewrite Hr in Hc. naive_solver.
  - done.
Qed.

Abbreviation core_loop := (core_loop mouse_handler root_event key_handler mouse_event_pos joystick
                             has_quit_action windows rv_truthy layer_properties).

(** C22: an exception of [replace_transient] in the [finally] block of
    [interact] replaces the interaction's result: when the restart loop
    returned a value [rv] but clearing the transient layers raises
    [err] (e.g. [TypeError] from a tagged entry still animating out,
    see [clear_hide_type_error]), [interact] raises [err], the value is lost, the scene lists
    are those [replace_transient] left, and the rest of the block is
    skipped: the transitions of the interaction stay ongoing and
    [restart_interaction] is not set; only the context is marked as no
    longer interacting. *)
Theorem interact_finally_raise cfg e clear tp sk mouse_name underlay calls now rep rv e1 sl err :
  ctx_interacting (e_ctx e) = false →
  core_loop cfg (with_engine_ctx e (mk_context true (ctx_runtime (e_ctx e)))) tp sk mouse_name
    underlay calls = CoreReturn rep rv e1 →
  clear = true → replace_transient_st cfg (e_sl e1) now = (sl, Some err) →
  ∃ e', interact cfg e clear tp sk mouse_name underlay calls now = IRaise err e' ∧
    e_itf e' = e_itf e1 ∧ e_sl e' = sl ∧ ctx_interacting (e_ctx e') = false.
Proof.
  intros Hi Hc -> Hrt. unfold Interact.interact. rewrite Hi. simpl. rewrite Hc.
  unfold interact_end. simpl. rewrite Hrt. by eexists.
Qed.

Abbreviation interact_core := (interact_core mouse_handler root_event key_handler mouse_event_pos
                                 joystick has_quit_action windows rv_truthy layer_properties).

Lemma interact_core_start_early (s : interface W T) tp sk mouse_name p :
  (interact_core_start (R:=R) s tp sk mouse_name).2 = Some p → p = (false, None).
Proof. unfold interact_core_start. case_match; simpl; congruence. Qed.

Lemma core_end_return cfg e start end_ r rep rv e' :
  core_end (R:=R) cfg e start end_ r = CoreReturn rep rv e' →
  r = Ok (rep, rv) ∧ e_itf e' = set_flags (e_itf e) (suppress_transition (e_itf e)) true.
Proof.
  unfold core_end, core_finally. destruct (for_st _ _ _) as [sl [err|]]; simpl; [done|].
  destruct r as [[??]|]; [|done]. by intros [= -> -> <-].
Qed.

(** An interaction remembers the scene it showed: when a call of
    [interact_core] returns a value, [old_scene] is the scene it composed
    from the scene lists, so the transition of the next interaction
    starts from what was on the screen. *)
Theorem interact_core_old_scene cfg e tp sk mouse_name underlay ci r e' :
  interact_core cfg e tp sk mouse_name underlay ci = CoreReturn false (Some r) e' →
  ∃ sl root lr, remove_hidden (e_sl e) (ci_start ci) = Ok sl ∧
    compose cfg (interact_core_start (R:=R) (e_itf e) tp sk mouse_name).1 sl sk tp underlay
      = Ok (root, lr, old_scene (e_itf e')).
Proof.
  unfold Interact.interact_core.
  pose proof (interact_core_start_early (e_itf e) tp sk mouse_name) as Hearly.
  destruct (interact_core_start _ _ _ _) as [s1 [[rep rv]|]]; simpl in *.
  { intros [= _ Hrv _]. subst rv. by specialize (Hearly _ eq_refl) as [= _ ?]. }
  destruct (remove_hidden _ _) as [sl|err]; [|done].
  destruct (compose _ _ _ _ _ _) as [[[root lr] scene]|err] eqn:Hc; [|done].
  match goal with |- context [run_loop ?m ?r ?k ?p ?j ?h ?w ?envs ?st] =>
    pose proof (run_loop_frame m r k p j h w envs st) as (Hold & _);
    destruct (run_loop m r k p j h w envs st) as [r0 st'|st'|err st'|st'|st'] eqn:Hl
  end; simpl in Hold; try done; intros Hend; apply core_end_return in Hend as [Hr Hitf]; simplify_eq.
  exists sl, root, lr. split; [done|]. rewrite Hc, Hitf. simpl.
  by destruct (tp && rv_truthy r).
Qed.

Lemma interact_core_start_restart (s : interface W T) tp sk mouse_name :
  (interact_core_start (R:=R) s tp sk mouse_name).2 = None →
  restart_interaction (interact_core_start (R:=R) s tp sk mouse_name).1 = false.
Proof. unfold interact_core_start. by case_match. Qed.

(** C23: the [try] of [interact_core] starts after the composition: when
    [remove_hidden] or the composition raises, the exception leaves
    [interact_core] without its [finally] block, so the runtime is not
    accumulated and [restart_interaction] stays [False]. *)
Theorem interact_core_setup_raise cfg e tp sk mouse_name underlay ci err :
  (interact_core_start (R:=R) (e_itf e) tp sk mouse_name).2 = None →
  (remove_hidden (e_sl e) (ci_start ci) = Err err ∨
   ∃ sl, remove_hidden (e_sl e) (ci_start ci) = Ok sl ∧
     compose cfg (interact_core_start (R:=R) (e_itf e) tp sk mouse_name).1 sl sk tp underlay = Err err) →
  ∃ e', interact_core cfg e tp sk mouse_name underlay ci = CoreRaise err e' ∧
    restart_interaction (e_itf e') = false ∧ e_ctx e' = e_ctx e.
Proof.
  unfold Interact.interact_core. intros Hs Hraise.
  pose proof (interact_core_start_restart (e_itf e) tp sk mouse_name Hs) as Hr.
  destruct (interact_core_start _ _ _ _) as [s1 early]; simpl in *; subst early.
  destruct Hraise as [Hrh|(sl & Hrh & Hc)]; rewrite Hrh; [by eexists|].
  rewrite Hc. by eexists.
Qed.

Abbreviation do_with := (do_with mouse_handler root_event key_handler mouse_event_pos joystick
                           has_quit_action windows rv_truthy layer_properties).
Abbreviation with_none := (with_none layer_properties).

Lemma compute_scene_root cfg (sl : scene_lists (D:=D)) scene :
  compute_scene cfg sl = Ok scene → ∃ w, scene !! None = Some w.
Proof.
  unfold compute_scene. intros Hc. inv_ok. simplify_eq. rewrite lookup_insert_eq. by eexists.
Qed.

Lemma with_none_Ok cfg e now e1 :
  with_none cfg e now = (e1, None) →
  ∃ scene, compute_scene cfg (e_sl e) = Ok scene ∧ e_itf e1 = set_old_scene (e_itf e) scene.
Proof.
  unfold Interact.with_none. destruct (compute_scene _ _) as [scene|err]; [|done].
  destruct (for_st _ _ _) as [sl [err|]]; [done|].
  destruct (replace_transient_st _ _ _) as [sl' [err|]]; [done|]. intros [= <-]. by eexists.
Qed.

(** [with None] followed by [with t] runs [t] from what [with None]
    computed: after [with_none] completes, [do_with] with a transition
    (transitions not suppressed, not skipping) starts an interaction
    whose first [interact_core] passes the deadlock guard, with [t] as
    the ongoing root transition from the root of the scene [with_none]
    computed. *)
Theorem with_none_then_with cfg e now e1 t clear underlay calls now' :
  with_none cfg e now = (e1, None) → suppress_transition (e_itf e) = false →
  ∃ scene s'', compute_scene cfg (e_sl e) = Ok scene ∧
    do_with cfg e1 (Some t) clear false underlay calls now' =
      WithInteract (interact cfg (with_engine_itf e1 (set_transition (e_itf e1) (Some t) None false))
                      clear true false "with" underlay calls now') ∧
    interact_core_start (R:=R) (set_transition (e_itf e1) (Some t) None false) true false "with"
      = (s'', None) ∧
    ongoing_transition s'' !! None = Some t ∧ transition_from s'' !! None = scene !! None.
Proof.
  intros Hw Hsup. destruct (with_none_Ok _ _ _ _ Hw) as (scene & Hc & Hitf).
  destruct (compute_scene_root _ _ _ Hc) as [w Hw0].
  destruct (root_transition_start (R:=R) (e_itf e1) t w "with") as (s'' & Hs & Hon & Hfrom & _).
  { rewrite Hitf. exact Hsup. }
  { rewrite Hitf. exact Hw0. }
  exists scene, s''. split_and!; [done| |done|done|by rewrite Hw0].
  unfold Interact.do_with. rewrite Hitf. simpl. by rewrite Hsup.
Qed.
End interact_facts.
