(* ===== verification/Examples.v ===== *)
(** * Concrete inputs and the witnesses of the theorems

    A concrete displayable ([fixture]), a configuration with the layers
    ["master"] and ["transient"], scene lists built by running [add] on
    them, engine records, loop states and pass environments, concrete
    handlers (a click answers [42]), and one witness per theorem with
    hypotheses: each applies the theorem at these inputs, its hypotheses
    discharged by evaluation. *)

From stdpp Require Import base list strings gmap.
From S2P Require Import Prelude Displayable SceneList SceneListWF Interface EventLoop.

(** ** A concrete displayable

    [fixture] stands for an image: [fx_hide_for] is the length of its hide
    animation ([_hide] keeps it while the show time is below it; [0] is the
    base class's [_hide], which returns [None] at once). *)
Record fixture := Fixture {
  fx_id : nat;
  fx_hide_for : Z;
  fx_event : option string;
  fx_transform : bool
}.

#[export] Instance fixture_eq_dec : EqDecision fixture.
Proof. solve_decision. Defined.

#[export] Instance fixture_ops : DisplayableOps fixture := {
  d_hide d st _ _ := if decide (st < fx_hide_for d) then Some d else None;
  d_show d := d;
  d_transform_event := fx_event;
  d_with_transform_event d e := Fixture (fx_id d) (fx_hide_for d) e (fx_transform d);
  d_is_transform := fx_transform;
  d_is_screen _ := false;
  d_get_parameterized d := d;
  d_change_transform_child old child :=
    Fixture (fx_id child) (fx_hide_for old) (fx_event old) true;
  d_take_state _ new := new;
  d_wrap_transform d := Fixture (fx_id d) (fx_hide_for d) (fx_event d) true;
  d_atl_transform _ d := Fixture (fx_id d) (fx_hide_for d) (fx_event d) true;
  d_placement _ := mk_placement CNone CNone CNone CNone CNone CNone false
}.

(** ** Inputs *)

Definition img (n : nat) (hide_for : Z) : fixture := Fixture n hide_for None false.

Definition cfg0 : config := mk_config ["master"; "transient"] [] ["overlay"] ["transient"] true.

Definition sl0 : scene_lists (D:=fixture) :=
  mk_scene_lists (<["master":=[]]> (<["transient":=[]]> ∅))
    (<["master":=∅]> (<["transient":=∅]> ∅))
    (<["master":=(None, [])]> (<["transient":=(None, [])]> ∅)) ∅ [] false.

Definition ok_or {A} (d : A) (r : result A) : A := match r with Ok a => a | Err _ => d end.

(** "show eileen happy" at time 10, with a 5-unit hide animation. *)
Definition sl1 : scene_lists := ok_or sl0
  (add cfg0 sl0 "master" (img 1 5) (Some "eileen") 0 [] [] (Some ["eileen"; "happy"])
     None None false 10).

(** "show eileen sad" at time 12: the first image is replaced. *)
Definition sl2 : scene_lists := ok_or sl1
  (add cfg0 sl1 "master" (img 2 0) (Some "eileen") 0 [] [] (Some ["eileen"; "sad"])
     None None false 12).

(** A background whose [_hide] returns [None] at once. *)
Definition sl_bg : scene_lists := ok_or sl0
  (add cfg0 sl0 "master" (img 3 0) (Some "bg") 0 [] [] (Some ["bg"; "room"])
     None None false 20).

(** ** Witnesses *)

Lemma add_preserves_wf_witness : sl_wf sl2.
Proof.
  eapply (add_preserves_wf cfg0 sl1 "master" (img 2 0) (Some "eileen") 0 [] []
            (Some ["eileen"; "sad"]) None None false 12).
  - apply (bool_decide_unpack _). vm_compute. reflexivity.
  - intros k Hk. vm_compute in Hk. injection Hk as <-. reflexivity.
  - vm_compute. reflexivity.
Defined.

(** Showing "eileen" twice: one "eileen", one "replaced$eileen" animating out. *)
Lemma add_one_visible_witness :
  ∃ l' i e, sl_layers sl2 !! "master" = Some l' ∧ l' !! i = Some e ∧ sle_tag e = Some "eileen" ∧
    (∀ j e', l' !! j = Some e' → sle_tag e' = Some "eileen" → j = i) ∧
    (∀ j1 j2 e1 e2, l' !! j1 = Some e1 → l' !! j2 = Some e2 →
       sle_tag e1 = Some (lifecycle_tag "replaced" "eileen") →
       sle_tag e2 = Some (lifecycle_tag "replaced" "eileen") → j1 = j2).
Proof.
  apply (add_one_visible cfg0 sl1 "master" (img 2 0) "eileen" 0 [] []
           (Some ["eileen"; "sad"]) None None false 12).
  - apply (bool_decide_unpack _). vm_compute. reflexivity.
  - discriminate.
  - reflexivity.
  - vm_compute. reflexivity.
Defined.

(** Looking "eileen" up after showing it sad gives the sad image, built
    from the happy entry it replaced. *)
Lemma add_get_roundtrip_witness :
  get_displayable_by_tag sl2 "master" (Some "eileen") =
  Ok (Some (d_show (set_transform_event "replace"
    (replacing_thing cfg0 (SLE (Some "eileen") 0 None None (Fixture 1 5 (Some "show") false)
                             (Some ["eileen"; "happy"])) (img 2 0) None [])))).
Proof.
  destruct (add_get_roundtrip cfg0 sl1 "master" (img 2 0) "eileen" 0 [] [] (Some ["eileen"; "sad"])
              None None false 12 sl2 (ok_or [] (lookup_or (KeyError "master") "master" (sl_layers sl1))))
    as [_ Hreplace].
  - apply (bool_decide_unpack _). vm_compute. reflexivity.
  - discriminate.
  - reflexivity.
  - vm_compute. reflexivity.
  - vm_compute. reflexivity.
  - apply Hreplace; [vm_compute; left|reflexivity].
Defined.

(** A transform shown as "eileen" and replaced by an image while
    [keep_running_transform] is on: its 5-unit hide still leaves a
    "replaced$eileen" entry. *)
Definition tr_img : fixture := Fixture 7 5 None true.

Definition sl_tr : scene_lists := ok_or sl0
  (add cfg0 sl0 "master" tr_img (Some "eileen") 0 [] [] None None None false 10).

Lemma add_replaced_remnant_witness :
  ∃ l' e, sl_layers (ok_or sl_tr (add cfg0 sl_tr "master" (img 8 0) (Some "eileen") 0 [] [] None
                                    None None false 12)) !! "master" = Some l' ∧
    e ∈ l' ∧ sle_tag e = Some (lifecycle_tag "replaced" "eileen") ∧
    sle_displayable e = Fixture 7 5 (Some "show") true.
Proof.
  eapply (add_replaced_remnant cfg0 sl_tr "master" (img 8 0) "eileen" 0 [] [] None None None false 12
            _ (ok_or [] (lookup_or (KeyError "master") "master" (sl_layers sl_tr))) 0
            (SLE (Some "eileen") 0 None None (Fixture 7 5 (Some "show") true) None)).
  - apply (bool_decide_unpack _). vm_compute. reflexivity.
  - discriminate.
  - reflexivity.
  - vm_compute. reflexivity.
  - vm_compute. reflexivity.
  - reflexivity.
  - vm_compute. reflexivity.
  - vm_compute. reflexivity.
Defined.

Lemma remove_preserves_wf_witness :
  ∃ sl', remove sl2 "master" (TTag (Some "eileen")) 13 = Ok sl' ∧ sl_wf sl'.
Proof.
  eexists. split; [vm_compute; reflexivity|].
  eapply (remove_preserves_wf sl2 "master" (TTag (Some "eileen")) 13).
  - apply (bool_decide_unpack _). vm_compute. reflexivity.
  - intros l _. apply remove_target_ok_tag. reflexivity.
  - vm_compute. reflexivity.
Defined.

Lemma remove_absent_noop_witness : remove sl1 "master" (TTag (Some "lucy")) 11 = Ok sl1.
Proof.
  apply (remove_absent_noop sl1 "master" "lucy" 11
           (ok_or [] (lookup_or (KeyError "master") "master" (sl_layers sl1)))).
  - vm_compute. reflexivity.
  - apply (bool_decide_unpack _). vm_compute. reflexivity.
Defined.

(** At time 20 the "replaced$eileen" entry of [sl2] has finished its
    5-unit hide: the sweep drops it and keeps the shown "eileen". *)
Lemma remove_hidden_sweeps_witness :
  (∀ k, sl_layers (ok_or sl2 (remove_hidden sl2 20)) !! k =
        filter (λ e, keep_ok 20 e = true) <$> sl_layers sl2 !! k) ∧
  (∀ k l e, sl_layers sl2 !! k = Some l → e ∈ l → shown_entry e →
            ∃ l', sl_layers (ok_or sl2 (remove_hidden sl2 20)) !! k = Some l' ∧ e ∈ l') ∧
  (sl_wf sl2 → sl_wf (ok_or sl2 (remove_hidden sl2 20))).
Proof. apply remove_hidden_sweeps. vm_compute. reflexivity. Defined.

(** A displayable that keeps the base class's methods, on a layer of its own. *)
Record plain := Plain { plain_id : nat }.

#[export] Instance plain_eq_dec : EqDecision plain.
Proof. solve_decision. Defined.

#[export] Instance plain_ops : DisplayableOps plain := {
  d_hide := base_hide;
  d_show := base_show;
  d_transform_event _ := None;
  d_with_transform_event d _ := d;
  d_is_transform _ := false;
  d_is_screen _ := false;
  d_get_parameterized := base_get_parameterized;
  d_change_transform_child := base_change_transform_child;
  d_take_state _ new := new;
  d_wrap_transform d := d;
  d_atl_transform _ d := d;
  d_placement _ := mk_placement CNone CNone CNone CNone CNone CNone false
}.

Definition sl_plain : scene_lists (D:=plain) :=
  mk_scene_lists {["master" := [SLE (Some "bg") 0 (Some 0) (Some 0) (Plain 1) None;
                                SLE (Some "eileen") 1 (Some 0) (Some 0) (Plain 2) None]]}
    {["master" := ∅]} {["master" := (None, [])]} ∅ [] false.

(** Hiding a layer of base-class displayables returns, and empties it. *)
Lemma clear_hide_empties_witness :
  ∃ sl', clear sl_plain "master" true 5 = Ok sl' ∧ sl_layers sl' !! "master" = Some [].
Proof.
  destruct (clear_hide_empties sl_plain "master" 5) as [Hempty Hret].
  destruct Hret as [sl' Hsl']; [reflexivity|by eexists|by eexists|].
  exists sl'. split; [done|]. by apply Hempty.
Defined.

(** The exiting "replaced$eileen" entry of [sl2] still animates at time
    13, so hiding the layer raises. *)
Lemma clear_hide_type_error_witness : clear sl2 "master" true 13 = Err TypeError.
Proof.
  eapply (clear_hide_type_error sl2 "master" 13
            (ok_or [] (lookup_or (KeyError "master") "master" (sl_layers sl2)))
            (SLE (Some "replaced$eileen") 0 (Some 12) (Some 12) (Fixture 1 5 (Some "show") false) None)
            "replaced$eileen" (Fixture 1 5 (Some "show") false)).
  - vm_compute. reflexivity.
  - vm_compute. reflexivity.
  - vm_compute. reflexivity.
  - vm_compute. reflexivity.
Defined.

(** A menu shown on the transient layer, and an untagged image added to
    ["master"] with [transient=True]. *)
Definition sl_menu : scene_lists := ok_or sl0
  (add cfg0 sl0 "transient" (img 5 0) (Some "menu") 0 [] [] None None None false 10).

Definition sl_untagged : scene_lists := ok_or sl0
  (add cfg0 sl0 "master" (img 4 0) None 0 [] [] None None None true 10).

Lemma replace_transient_empties_witness :
  ∃ sl', replace_transient cfg0 sl_menu 20 = Ok sl' ∧
    (∀ i, i ∈ cfg_transient_layers cfg0 → sl_layers sl' !! i = Some []) ∧
    sl_additional_transient sl' = [].
Proof.
  eexists. split; [vm_compute; reflexivity|].
  apply (replace_transient_empties cfg0 sl_menu 20). vm_compute. reflexivity.
Defined.

(** The untagged transient image survives [replace_transient]. *)
Lemma replace_transient_untouched_witness :
  ∃ sl', replace_transient cfg0 sl_untagged 20 = Ok sl' ∧
    sl_layers sl' !! "master" = sl_layers sl_untagged !! "master".
Proof.
  eexists. split; [vm_compute; reflexivity|].
  apply (replace_transient_untouched cfg0 sl_untagged 20).
  - vm_compute. reflexivity.
  - vm_compute. set_solver.
  - intros t Ht. assert (sl_additional_transient sl_untagged = [("master", None)]) as E
      by (vm_compute; reflexivity).
    rewrite E in Ht. set_solver.
Defined.

(** The same image added twice without a tag: both entries stay. *)
Lemma add_untagged_inserts_witness :
  ∃ i e, sl_layers (ok_or sl0 (add cfg0 sl_untagged "master" (img 4 0) None 0 [] [] None None None
                                 false 11)) !! "master" =
         Some (list_insert_at i e (ok_or [] (lookup_or (KeyError "master") "master"
                                                (sl_layers sl_untagged)))) ∧
         sle_tag e = None.
Proof.
  apply (add_untagged_inserts cfg0 sl_untagged "master" (img 4 0) 0 [] [] None None None false 11).
  - vm_compute. reflexivity.
  - vm_compute. reflexivity.
Defined.

(** ** The interface and the loop *)

(** An engine with the deadline [to], the time [et] of the last event and
    the flags [force] and [restart]; old scenes are strings, transitions
    numbers. *)
Definition itf (to : option Z) (et : Z) (force restart : bool) : interface string nat :=
  mk_interface ∅ ∅ ∅ ∅ ∅ false force restart None 0 "default" to None et 0 true false false None.

Lemma timeout_tightens_witness :
  ∃ d', timeout_time (timeout (itf (Some 500) 100 false false) 200) = Some d' ∧
        d' ≤ 500 ∧ d' ≤ event_time (itf (Some 500) 100 false false) + 200.
Proof. apply (timeout_tightens (itf (Some 500) 100 false false) 200 500); [reflexivity|lia|lia]. Defined.

Lemma timeout_zero_forgotten_witness :
  timeout_time (timeout (itf None 0 false false) 0) = Some 0 ∧
  timeout_time (timeout (timeout (itf None 0 false false) 0) 3) = Some 3.
Proof. split; [reflexivity|]. apply (timeout_zero_forgotten (itf None 0 false false) 0 3); [reflexivity|lia]. Defined.

(** The locals at the start of an interaction, and a loop state on [sl1]. *)
Definition loc (needs : bool) (pred : option nat) : locals :=
  mk_locals needs true false pred None None None 0 0.

Definition lst (s : interface string nat) (q : list event) (l : locals)
  : loop_state (D:=fixture) (W:=string) (T:=nat) := mk_loop_state s sl1 q l [].

(** A pass at time [now], with the events [arr] arriving, the renderer
    always pacing a redraw, an optional redraw request at [rt], and
    [wait] ending a blocking wait. *)
Definition env (now : Z) (arr : list event) (rt : option Z) (wait : option event) : pass_env :=
  mk_pass_env now now arr false (λ _ _, true) false false rt false wait.

(** A click answers [42]; everything else is left to the next handler. *)
Definition click (ev : event) (x y : Z) : handler_result nat :=
  match ev with MouseButtonDown _ _ => HResult 42%nat | _ => HNone end.
Definition no_answer (ev : event) (x y : Z) : handler_result nat := HNone.
Definition no_key (ev : event) : handler_result nat := HNone.
Definition origin (ev : event) : Z * Z := (0, 0).

Abbreviation pass_ex := (pass (R:=nat) click no_answer no_key origin Some true false).

(** An idle state at the start of an interaction, a state with a motion
    queued, one with a forced redraw, one with a timeout armed for 50,
    one with a click queued, and one asked to restart. *)
Definition st_idle := lst (itf None 0 false false) [] (loc false (Some 2%nat)).
Definition st_busy := lst (itf None 0 false false) [MouseMotion 1 1] (loc false (Some 3%nat)).
Definition st_forced := lst (itf None 0 true false) [MouseMotion 1 1] (loc false None).
Definition st_timeout := lst (itf (Some 50) 0 false false) [] (loc false None).
Definition st_click := lst (itf None 0 false false) [MouseButtonDown 3 4] (loc false None).
Definition st_restart := lst (itf None 0 true true) [] (loc false None).
Definition st_long_timeout := lst (itf (Some 1000) 0 false false) [] (loc false None).
Definition e100 := env 100 [] None None.

Lemma pass_forced_redraw_first_witness :
  ∃ pre acts, ls_trace (outcome_state (pass_ex e100 st_forced)) =
              ls_trace st_forced ++ pre ++ ADraw true :: acts ∧ (pre = [] ∨ pre = [ASetMode]).
Proof.
  apply (pass_forced_redraw_first click no_answer no_key origin Some true false e100 st_forced).
  by left.
Defined.

Lemma predict_pending_noop_witness : ls_trace (predict e100 st_busy) = ls_trace st_busy.
Proof. apply predict_pending_noop. right. discriminate. Defined.

Lemma predict_idle_exhausts_witness :
  ls_trace (predict e100 st_idle) = ls_trace st_idle ++ replicate 3 APredict ∧
  prediction (ls_loc (predict e100 st_idle)) = None.
Proof. apply (predict_idle_exhausts e100 st_idle 2); reflexivity. Defined.

(** The timeout armed for 50 is seen by a pass at time 100. *)
Lemma pass_timeout_fires_witness :
  ∃ st' x y acts, pass_ex e100 st_timeout = dispatch click no_answer no_key e100 st' TimeEvent x y ∧
    ls_trace st' = ls_trace st_timeout ++ acts ∧ last acts = Some (ADispatch TimeEvent) ∧
    timeout_time (ls_itf st') = None.
Proof.
  apply (pass_timeout_fires click no_answer no_key origin Some true false e100 st_timeout 50);
    try reflexivity; lia.
Defined.

(** A redraw due at 110 and a timeout at 1000, seen at time 100: the autosave happens. *)
Lemma autosave_ignores_redraw_deadline_witness :
  let '(st', redraw_in, timeout_in, _) := arm_timers (env 100 [] (Some 110) None) st_long_timeout in
  ls_trace (autosave_check st' redraw_in timeout_in) = ls_trace st_long_timeout ++ [AAutosave].
Proof.
  apply (autosave_ignores_redraw_deadline (env 100 [] (Some 110) None) st_long_timeout 110);
    try reflexivity; try discriminate; simpl; lia.
Defined.

(** A click waiting in the queue ends the interaction with [42]. *)
Lemma pass_break_from_handler_witness :
  ∃ ev acts,
    ls_trace (outcome_state (pass_ex e100 st_click)) = ls_trace st_click ++ acts ++ [ADispatch ev] ∧
    handlers_answer click no_answer no_key ev
      (event_pos origin (ls_itf (outcome_state (pass_ex e100 st_click))) ev).1
      (event_pos origin (ls_itf (outcome_state (pass_ex e100 st_click))) ev).2 = HResult 42%nat.
Proof.
  apply (pass_break_from_handler click no_answer no_key origin Some true false e100 st_click).
  vm_compute. reflexivity.
Defined.

Lemma pass_restart_first_witness :
  ∃ st' acts, pass_ex e100 st_restart = Restart st' ∧ ls_trace st' = ls_trace st_restart ++ acts ∧
              Forall prelude_action acts.
Proof. apply pass_restart_first. reflexivity. Defined.

Abbreviation handle_ex := (handle_event (R:=nat) click no_answer no_key origin Some true false).

(** Two window closes 0.5 s apart: the first runs the quit action, the second raises. *)
Lemma quit_twice_raises_witness :
  let st1 := outcome_state (handle_ex (env 1000 [] None None) st_click QuitEv) in
  (∃ acts, ls_trace st1 = ls_trace st_click ++ acts ∧ AQuitAction ∈ acts) ∧
  handle_ex (env 1500 [] None None) st1 QuitEv = Raise QuitException st1.
Proof.
  intros st1. apply (quit_twice_raises click no_answer no_key origin Some true false
                       (env 1000 [] None None) (env 1500 [] None None) st_click st1);
    [reflexivity|reflexivity|simpl; lia].
Defined.
