(* ===== verification/TreeExamples.v ===== *)
(** * Witnesses of the theorems on walking the widget tree

    A concrete widget: a number, an optional [focus_name], whether it is
    focusable and true, and its [visit()] list.  The screen [root]
    (focus name ["main"]) holds a box [a] with a button [c] (focus name
    ["btn"]), a [None], and a button [b]; [root2] holds a focusable
    child whose truth value is false. *)

From stdpp Require Import base list strings.
From S2P Require Import Prelude Visit.

Inductive node :=
  | Node (id : nat) (focus_name : option string) (focusable truthy : bool) (kids : list (option node)).

#[export] Instance node_visit : VisitOps node := {
  d_visit n := match n with Node _ _ _ _ ks => ks end;
  d_truthy n := match n with Node _ _ _ t _ => t end;
  d_focusable n := match n with Node _ _ f _ _ => f end;
  d_focus_name n := match n with Node _ fn _ _ _ => fn end
}.

Definition c_btn : node := Node 3 (Some "btn") true true [].
Definition a_box : node := Node 1 None true true [Some c_btn].
Definition b_btn : node := Node 2 None true true [].
Definition root : node := Node 0 (Some "main") false true [Some a_box; None; Some b_btn].

Definition hidden : node := Node 5 None true false [].
Definition root2 : node := Node 4 None false true [Some hidden].

(** Every widget reachable from [root] is one of the four. *)
Lemma root_reach kids x :
  (∀ p c, p ∈ [root; a_box; b_btn; c_btn] → c ∈ kids p → c ∈ [root; a_box; b_btn; c_btn]) →
  reach kids root x → x ∈ [root; a_box; b_btn; c_btn].
Proof. intros Hstep. apply (reach_closed (λ x, x ∈ [root; a_box; b_btn; c_btn]) kids root x); [set_solver|exact Hstep]. Qed.

Lemma root_kids_closed p c :
  p ∈ [root; a_box; b_btn; c_btn] → c ∈ focus_kids p → c ∈ [root; a_box; b_btn; c_btn].
Proof.
  intros Hp Hc. repeat (apply elem_of_cons in Hp as [->|Hp]; [vm_compute in Hc; set_solver|]).
  set_solver.
Qed.

Lemma visit_kids_closed p c :
  p ∈ [root; a_box; b_btn; c_btn] → c ∈ visit_kids p → c ∈ [root; a_box; b_btn; c_btn].
Proof.
  intros Hp Hc. repeat (apply elem_of_cons in Hp as [->|Hp]; [vm_compute in Hc; set_solver|]).
  set_solver.
Qed.

Lemma acc_leaf (kids : node → list node) d : kids d = [] → Acc (λ c p, c ∈ kids p) d.
Proof. intros Hk. constructor. intros y Hy. rewrite Hk in Hy. set_solver. Qed.

Lemma root_acc : Acc (λ c p, c ∈ visit_kids p) root.
Proof.
  assert (Acc (λ c p, c ∈ visit_kids p) c_btn) as Hc by (apply acc_leaf; reflexivity).
  assert (Acc (λ c p, c ∈ visit_kids p) b_btn) as Hb by (apply acc_leaf; reflexivity).
  assert (Acc (λ c p, c ∈ visit_kids p) a_box) as Ha.
  { constructor. intros y Hy. vm_compute in Hy. apply list_elem_of_singleton in Hy as ->. done. }
  constructor. intros y Hy. vm_compute in Hy.
  apply elem_of_cons in Hy as [->|Hy]; [done|]. apply list_elem_of_singleton in Hy as ->. done.
Qed.

(** The screen's walk finishes at depth 3 and every larger depth. *)
Lemma traversals_terminate_witness :
  ∃ n l, visit_all n root = Some l ∧ ∀ m, (n ≤ m)%nat → visit_all m root = Some l.
Proof. apply (proj1 (traversals_terminate root) root_acc). Defined.

(** [per_interact] runs on [c], then [a], then [b], then the screen. *)
Lemma visit_all_postorder_witness :
  visit_all 3 root = Some [c_btn; a_box; b_btn; root] ∧ before [c_btn; a_box; b_btn; root] c_btn a_box.
Proof.
  assert (visit_all 3 root = Some [c_btn; a_box; b_btn; root]) as Hrun by reflexivity.
  split; [exact Hrun|].
  apply (proj2 (proj2 (visit_all_postorder 3 root [c_btn; a_box; b_btn; root] Hrun)) a_box c_btn);
    [set_solver|vm_compute; set_solver].
Defined.

(** The button [c] is reported with its own name, [a] and [b] with the
    screen's. *)
Lemma find_focusable_spec_witness :
  find_focusable 3 root None = Some [(a_box, Some "main"); (c_btn, Some "btn"); (b_btn, Some "main")] ∧
  ∀ fn, (c_btn, fn) ∈ [(a_box, Some "main"); (c_btn, Some "btn"); (b_btn, Some "main")] → fn = Some "btn".
Proof.
  assert (find_focusable 3 root None =
            Some [(a_box, Some "main"); (c_btn, Some "btn"); (b_btn, Some "main")]) as Hrun
    by reflexivity.
  split; [exact Hrun|]. intros fn Hin.
  apply (proj1 (proj2 (find_focusable_spec 3 root None _ Hrun)) c_btn fn Hin). reflexivity.
Defined.

(** On the screen, whose children are all true, both walks report [a],
    [b] and [c]. *)
Lemma find_focusable_visit_all_witness :
  option_Forall2 (λ l' l, fst <$> l' ≡ₚ filter (λ x, d_focusable x = true) l)
    (find_focusable 3 root None) (visit_all 3 root).
Proof.
  apply find_focusable_visit_all. intros x Hr c Hc.
  apply (root_reach focus_kids x root_kids_closed) in Hr.
  repeat (apply elem_of_cons in Hr as [->|Hr];
          [vm_compute in Hc; repeat (apply elem_of_cons in Hc as [Hc|Hc]; [by injection Hc as <-|]);
           set_solver|]).
  set_solver.
Defined.

(** Without that hypothesis the walks differ: the false child of
    [root2] is focusable, [find_focusable] reports it and [visit_all]
    never calls the callback on it. *)
Lemma falsy_child_differs :
  visit_all 2 root2 = Some [root2] ∧ find_focusable 2 root2 None = Some [(hidden, None)].
Proof. split; reflexivity. Qed.
