(* ===== verification/InitExamples.v ===== *)
(** * Witnesses of the theorems on building and loading scene lists

    Previous-context lists of base-class displayables ([plain]) on a
    configuration with a transient and an overlay layer, a version-0 save
    with tuple entries, and a current save. *)

From stdpp Require Import base list strings gmap.
From S2P Require Import Prelude Displayable SceneList SceneListInit Examples.

Ltac decide_it := apply (bool_decide_unpack _); vm_compute; reflexivity.

Lemma plain_base_hide d st at_ k : d_hide (D:=plain) d st at_ k = base_hide d st at_ k.
Proof. reflexivity. Qed.

Definition cfg_ctx : config :=
  mk_config ["master"; "transient"; "overlay"] ["screens"] ["overlay"] ["transient"] true.

(** The previous context: a background and a character on ["master"]
    (the character with an at-list), a menu on ["transient"], a caption
    on ["overlay"]; it has no ["screens"] layer. *)
Definition sl_prev : scene_lists (D:=plain) :=
  mk_scene_lists
    {["master" := [SLE (Some "bg") 0 (Some 0) (Some 0) (Plain 1) None;
                   SLE (Some "eileen") 1 (Some 0) (Some 0) (Plain 2) None];
      "transient" := [SLE (Some "menu") 0 (Some 3) (Some 3) (Plain 3) None];
      "overlay" := [SLE None 0 (Some 3) (Some 3) (Plain 4) None]]}
    {["master" := {["eileen" := [Plain 9]]}; "transient" := ∅; "overlay" := ∅]}
    {["master" := (None, []); "transient" := (None, []); "overlay" := (None, [])]}
    ∅ [("master", Some "eileen")] true.

(** The new context keeps ["master"] with its at-lists, empties the menu
    and the caption, and gains an empty ["screens"]. *)
Lemma sl_init_spec_witness :
  ∃ sl', sl_init cfg_ctx (Some sl_prev) ∅ 5 = Ok sl' ∧
    sl_layers sl' !! "master" = sl_layers sl_prev !! "master" ∧
    sl_at_list sl' !! "master" = Some {["eileen" := [Plain 9]]} ∧
    sl_layers sl' !! "transient" = Some [] ∧ sl_layers sl' !! "screens" = Some [] ∧
    sl_additional_transient sl' = [].
Proof.
  destruct (sl_init cfg_ctx (Some sl_prev) ∅ 5) as [sl'|e] eqn:Hrun;
    [|vm_compute in Hrun; discriminate].
  destruct (sl_init_spec cfg_ctx (Some sl_prev) ∅ 5 sl' Hrun) as (_ & Hkeep & Hempty & Htr & _).
  pose proof (Hkeep "master" ltac:(decide_it) ltac:(decide_it) ltac:(decide_it)) as [Hl Ha].
  pose proof (Hkeep "screens" ltac:(decide_it) ltac:(decide_it) ltac:(decide_it)) as [Hs _].
  pose proof (Hempty "transient" ltac:(decide_it) ltac:(decide_it)) as [Ht _].
  exists sl'. split; [done|]. rewrite Hl, Ha, Ht, Hs. split_and!; done.
Defined.

(** The same configuration without its ["overlay"] layer. *)
Definition cfg_no_overlay : config :=
  mk_config ["master"; "transient"] ["screens"] ["overlay"] ["transient"] true.

(** Copying [sl_prev] returns under [cfg_ctx], and raises when the
    overlay layer is not configured. *)
Lemma sl_init_copy_raises_witness :
  (∃ sl', sl_init cfg_ctx (Some sl_prev) ∅ 5 = Ok sl') ∧
  ¬ ∃ sl', sl_init cfg_no_overlay (Some sl_prev) ∅ 5 = Ok sl'.
Proof.
  split.
  - apply (sl_init_copy_raises cfg_ctx sl_prev ∅ 5 plain_base_hide).
    split; intros i Hi;
      repeat (apply elem_of_cons in Hi as [->|Hi]; [decide_it|]); by apply elem_of_nil in Hi.
  - intros Hex.
    apply (sl_init_copy_raises cfg_no_overlay sl_prev ∅ 5 plain_base_hide) in Hex as [_ Hls].
    specialize (Hls "overlay" ltac:(decide_it)). revert Hls. decide_it.
Defined.

Definition cfg_three : config :=
  mk_config ["master"; "transient"; "overlay"] [] ["overlay"] ["transient"] true.

(** [sl_prev] survives a save and a load. *)
Lemma save_load_roundtrip_witness : load cfg_three (sl_save sl_prev) = Ok sl_prev.
Proof.
  apply save_load_roundtrip. intros i Hi.
  repeat (apply elem_of_cons in Hi as [->|Hi]; [decide_it|]); by apply elem_of_nil in Hi.
Defined.

(** A version-0 save: a background as a 5-tuple, no at-lists, no
    [shown_window], the shown images under [image_predict_info]. *)
Definition save_v0 : saved_sl (D:=plain) :=
  mk_saved {["master" := [SavedTuple (Some "bg") 0 (Some 0) (Some 0) (Plain 1)]]}
    None None None (Some ∅) None None.

(** It loads with the background named [None] and every configured layer. *)
Lemma load_old_version_witness :
  ∃ sl, load cfg_ctx (0%nat, save_v0) = Ok sl ∧
    sl_layers sl !! "master" = Some [SLE (Some "bg") 0 (Some 0) (Some 0) (Plain 1) None] ∧
    has_layer sl "screens" ∧ sl_shown_window sl = false.
Proof.
  destruct (load_old_version cfg_ctx 0 save_v0) as (sl & Hload & Hkeys & Hent & _ & _ & _ & Hw).
  - unfold sl_version. lia.
  - decide_it.
  - lia.
  - exists sl. split_and!; [done| |apply Hkeys; decide_it|apply Hw; lia].
    by rewrite (Hent "master" [SavedTuple (Some "bg") 0 (Some 0) (Some 0) (Plain 1)] eq_refl).
Defined.
