(* ===== verification/InteractExamples.v ===== *)
(** * Concrete interactions and the witnesses of the [Interact] theorems

    A concrete widget type [wt] (layers, wraps, boxes with their [layers]
    dict as an association list, transitions, the say and pause
    behaviours), the engine of an interaction with the layers of
    [Examples.cfg0] and no overlay layer, and interactions that return a
    click's value, raise on a window close, or raise in their [finally]
    block. *)

From stdpp Require Import base list strings gmap.
From S2P Require Import Prelude Displayable SceneList Cleanup Interface EventLoop InterfaceInit Interact Examples.

(** ** A concrete widget type *)

#[local] Set Warnings "-register-all".

Inductive wt :=
  | WLayer (layer : string) (ds : list fixture)
  | WApply (d : fixture) (w : wt)
  | WBox (cs : list (wt * option Z)) (ls : list (string * wt))
  | WTrans (t : nat) (old new : wt)
  | WSay
  | WPause (w : wt).

Definition wt_box (cs : list (wt * option Z)) (ls : gmap string wt) : wt := WBox cs (map_to_list ls).

Definition wt_box_layers (w : wt) : option (gmap string wt) :=
  match w with WBox _ ls => Some (list_to_map ls) | _ => None end.

Lemma wt_box_layers_box cs ls : wt_box_layers (wt_box cs ls) = Some ls.
Proof. simpl. by rewrite list_to_map_to_list. Qed.

#[export] Instance wt_ops : WidgetOps fixture wt nat := {
  w_layer layer _ l := WLayer layer (sle_displayable <$> l);
  w_apply := WApply;
  w_box := wt_box;
  w_box_layers := wt_box_layers;
  w_box_layers_box := wt_box_layers_box;
  t_call t old new := Some (WTrans t old new);
  w_say := WSay;
  w_pause := WPause
}.

(** ** Inputs *)

(** [cfg0] without its ["overlay"] layer, which [sl0] does not have. *)
Definition cfg_i : config := mk_config ["master"; "transient"] [] [] ["transient"] true.

(** The layer properties [__init__] computes for these layers, with no
    clipping. *)
Definition props_i : gmap string (list (string * prop_val)) :=
  layer_properties ["master"; "transient"] ∅.

Definition itf_i (trans : gmap (option string) nat) (old : gmap (option string) wt)
  : interface wt nat :=
  mk_interface old trans ∅ ∅ ∅ false false false None 0 "default" None None 0 0 true false false None.

Definition eng (s : interface wt nat) (sl : scene_lists (D:=fixture)) (q : list event)
  : engine (D:=fixture) (W:=wt) (T:=nat) :=
  mk_engine s sl (mk_context false 0) q 0.

Abbreviation interact_ex := (interact (R:=nat) click no_answer no_key origin Some false false
                               (λ _, true) props_i).

Definition call (now : Z) : core_input := mk_core_input now None [env now [] None None].

Definition outcome_engine (o : interact_outcome (D:=fixture) (W:=wt) (T:=nat) (R:=nat)) : engine :=
  match o with IReturn _ e | IRaise _ e | IRunning e => e end.

Definition ex_click := interact_ex cfg_i (eng (itf_i ∅ ∅) sl0 [MouseButtonDown 3 4]) true false false
                         "default" [] [call 100] 150.
Definition ex_quit := interact_ex cfg_i (eng (itf_i ∅ ∅) sl0 [QuitEv]) true false false
                        "default" [] [call 1000] 1050.
Definition old_root : wt := WBox [] [("master", WLayer "master" []); ("transient", WLayer "transient" [])].
Definition sl_menu_long : scene_lists := ok_or sl0
  (add cfg_i sl0 "transient" (img 5 1000) (Some "menu") 0 [] [] None None None false 10).

(** ** Witnesses *)

Lemma interact_reentrant_witness :
  interact_ex cfg_i (with_engine_ctx (eng (itf_i ∅ ∅) sl0 []) (mk_context true 0)) true false false
    "default" [] [call 100] 150 = IRaise ReentrantInteraction
      (with_engine_ctx (eng (itf_i ∅ ∅) sl0 []) (mk_context true 0)).
Proof. apply interact_reentrant. reflexivity. Defined.

(** A click in the queue: the interaction returns [42], cleaned up. *)
Lemma interact_return_cleaned_witness : cleaned (outcome_engine ex_click).
Proof.
  apply (interact_return_cleaned click no_answer no_key origin Some false false (λ _, true) props_i
           cfg_i (eng (itf_i ∅ ∅) sl0 [MouseButtonDown 3 4]) true false false "default" [] [call 100]
           150 (Some 42%nat)).
  vm_compute. reflexivity.
Defined.

(** A window close with no quit action: the interaction raises
    [QuitException], cleaned up. *)
Lemma interact_raise_cleanup_witness :
  ctx_interacting (e_ctx (outcome_engine ex_quit)) = false ∧
  (cleaned (outcome_engine ex_quit) ∨
   (true = true ∧ ∃ sl, replace_transient_st cfg_i sl 1050 = (e_sl (outcome_engine ex_quit), Some QuitException))).
Proof.
  apply (interact_raise_cleanup click no_answer no_key origin Some false false (λ _, true) props_i
           cfg_i (eng (itf_i ∅ ∅) sl0 [QuitEv]) true false false "default" [] [call 1000] 1050).
  - reflexivity.
  - vm_compute. reflexivity.
Defined.

Definition core_engine (o : core_outcome (D:=fixture) (W:=wt) (T:=nat) (R:=nat)) : engine :=
  match o with CoreReturn _ _ e | CoreRaise _ e | CoreRunning e => e end.

Definition ex_core := interact_core (R:=nat) click no_answer no_key origin Some false false (λ _, true) props_i
  cfg_i (eng (itf_i ∅ ∅) sl0 [MouseButtonDown 3 4]) false false "default" [] (call 100).

(** The click's call of [interact_core] remembers the scene it composed. *)
Lemma interact_core_old_scene_witness :
  ∃ sl root lr, remove_hidden (e_sl (eng (itf_i ∅ ∅) sl0 [MouseButtonDown 3 4])) 100 = Ok sl ∧
    compose props_i cfg_i (interact_core_start (R:=nat) (itf_i ∅ ∅) false false "default").1 sl false false []
      = Ok (root, lr, old_scene (e_itf (core_engine ex_core))).
Proof.
  apply (interact_core_old_scene click no_answer no_key origin Some false false (λ _, true) props_i
           cfg_i (eng (itf_i ∅ ∅) sl0 [MouseButtonDown 3 4]) false false "default" [] (call 100) 42%nat).
  vm_compute. reflexivity.
Defined.

(** The composition under the ongoing root dissolve of [ex_menu]. *)
Lemma compose_layers_witness :
  let s := (interact_core_start (R:=nat) (itf_i {[None := 7%nat]} {[None := old_root]}) false false
              "default").1 in
  ∃ root lr scene, compose props_i cfg_i s sl_menu_long false false [] = Ok (root, lr, scene) ∧
    compute_scene props_i cfg_i sl_menu_long = Ok scene ∧
    (∀ layer, layer ∉ cfg_layers cfg_i → lr.2 !! layer = None) ∧
    ∀ layer, layer ∈ cfg_layers cfg_i → ∃ new w t, scene !! Some layer = Some new ∧
      lr.2 !! layer = Some w ∧ layer_shown s false layer new w t.
Proof.
  intros s. destruct (compose props_i cfg_i s sl_menu_long false false []) as [[[root lr] scene]|err] eqn:Hc;
    [|vm_compute in Hc; discriminate].
  exists root, lr, scene. split; [done|]. exact (compose_layers props_i cfg_i s sl_menu_long false false [] root lr scene Hc).
Defined.

(** ** The [finally] block of [interact] can raise *)

(** A menu still animating out on a transient layer stops the cleanup
    of [interact]: the interaction under a root dissolve returns the
    click's value from its loop, but [replace_transient] in the
    [finally] block hides the menu with [prefix=True], which raises
    [TypeError] ([True + "$"]); the exception replaces the value and the
    dissolve stays ongoing into the next interaction. *)
Lemma interact_finally_raise_witness :
  ∃ e', interact_ex cfg_i (eng (itf_i {[None := 7%nat]} {[None := old_root]}) sl_menu_long
                             [MouseButtonDown 3 4]) true false false "default" [] [call 100] 150
          = IRaise TypeError e' ∧
        ctx_interacting (e_ctx e') = false ∧ ongoing_transition (e_itf e') !! None = Some 7%nat.
Proof.
  set (e := eng (itf_i {[None := 7%nat]} {[None := old_root]}) sl_menu_long [MouseButtonDown 3 4]).
  destruct (core_loop (R:=nat) click no_answer no_key origin Some false false (λ _, true) props_i cfg_i
              (with_engine_ctx e (mk_context true (ctx_runtime (e_ctx e)))) false false "default" []
              [call 100]) as [rep rv e1| |] eqn:Hc; try (vm_compute in Hc; discriminate).
  destruct (replace_transient_st cfg_i (e_sl e1) 150) as [sl [err|]] eqn:Hr;
    [|vm_compute in Hc; injection Hc as <- <- <-; vm_compute in Hr; discriminate].
  destruct (interact_finally_raise click no_answer no_key origin Some false false (λ _, true) props_i
              cfg_i e true false false "default" [] [call 100] 150 rep rv e1 sl err eq_refl Hc eq_refl Hr)
    as (e' & Hrun & Hitf & _ & Hctx).
  vm_compute in Hc. injection Hc as <- <- <-. vm_compute in Hr. injection Hr as <- <-.
  exists e'. split_and!; [exact Hrun|exact Hctx|]. rewrite Hitf. reflexivity.
Defined.



(** A configuration naming a layer ["screens"] the scene lists lack:
    [make_layer] raises [KeyError] before the [try]. *)
Definition cfg_screens : config := mk_config ["master"; "transient"; "screens"] [] [] ["transient"] true.

Lemma interact_core_setup_raise_witness :
  ∃ e', interact_core (R:=nat) click no_answer no_key origin Some false false (λ _, true) props_i
          cfg_screens (eng (itf_i ∅ ∅) sl0 []) false false "default" [] (call 100)
        = CoreRaise (KeyError "screens") e' ∧
        restart_interaction (e_itf e') = false ∧ e_ctx e' = e_ctx (eng (itf_i ∅ ∅) sl0 []).
Proof.
  apply (interact_core_setup_raise click no_answer no_key origin Some false false (λ _, true) props_i
           cfg_screens (eng (itf_i ∅ ∅) sl0 []) false false "default" [] (call 100)).
  - reflexivity.
  - right. eexists. split; vm_compute; reflexivity.
Defined.

(** [with None] over the menu of [Examples.sl_menu], then [with] a dissolve ([7]). *)
Definition e_with_none := (with_none props_i cfg_i (eng (itf_i ∅ ∅) sl_menu []) 20).1.

Lemma with_none_then_with_witness :
  ∃ scene s'', compute_scene props_i cfg_i sl_menu = Ok scene ∧
    do_with (R:=nat) click no_answer no_key origin Some false false (λ _, true) props_i cfg_i e_with_none
      (Some 7%nat) true false [] [call 100] 150 =
      WithInteract (interact (R:=nat) click no_answer no_key origin Some false false (λ _, true) props_i cfg_i
                      (with_engine_itf e_with_none (set_transition (e_itf e_with_none) (Some 7%nat) None false))
                      true true false "with" [] [call 100] 150) ∧
    interact_core_start (R:=nat) (set_transition (e_itf e_with_none) (Some 7%nat) None false) true false
      "with" = (s'', None) ∧
    ongoing_transition s'' !! None = Some 7%nat ∧ transition_from s'' !! None = scene !! None.
Proof.
  apply (with_none_then_with click no_answer no_key origin Some false false (λ _, true) props_i
           cfg_i (eng (itf_i ∅ ∅) sl_menu []) 20); [vm_compute; reflexivity|reflexivity].
Defined.
