(* ===== verification/FrameExamples.v ===== *)
(** * Witnesses of the theorems on the drawn frame and the screenshots

    A renderer whose surface tree is the root's number, whose pixels are
    the tree itself, whose encoder names the size, and whose file write
    fails on the file name ["full.png"] of a full disk. *)

From stdpp Require Import base list strings.
From S2P Require Import Prelude TimeBase Frame.

Definition ex_render (r : nat) : nat := r.
Definition ex_shot (s : nat) (_ : bool) : result nat := Ok s.
Definition ex_encode (w : nat) (scale : Z * Z) : result string :=
  if decide (scale = (256, 144)) then Ok "thumb" else Ok "full".
Definition ex_subsurface (w : nat) (_ : Z * Z * Z * Z) : result nat := Ok w.
Definition ex_save (w : nat) (fname : string) : result unit :=
  if decide (fname = "full.png") then Err IndexError else Ok ().

Abbreviation ex_get := (get_screenshot ex_shot ex_encode (Win:=nat)).

(** After a frame is drawn, the thumbnail is taken from it and not kept;
    a stored screenshot is returned as it is. *)
Lemma get_screenshot_spec_witness :
  ex_get (draw_screen ex_render (frame_init (Surf:=nat)) 7%nat false) (256, 144) =
    Ok (Some "thumb", lose_screenshot (draw_screen ex_render frame_init 7%nat false)) ∧
  ex_get (set_screenshot (draw_screen ex_render frame_init 7%nat false) (Some "old")) (256, 144) =
    Ok (Some "old", set_screenshot (draw_screen ex_render frame_init 7%nat false) (Some "old")).
Proof.
  destruct (get_screenshot_spec ex_render ex_shot ex_encode (frame_init (Surf:=nat)) 7%nat false (256, 144))
    as (_ & Hdraw & _).
  destruct (get_screenshot_spec ex_render ex_shot ex_encode
              (set_screenshot (draw_screen ex_render frame_init 7%nat false) (Some "old")) 7%nat false (256, 144))
    as (Hstored & _ & _).
  split.
  - rewrite Hdraw; reflexivity.
  - apply Hstored; [reflexivity|discriminate].
Defined.

(** Saving to a full disk is silent unless [config.debug] is set. *)
Lemma save_screenshot_errors_witness :
  save_screenshot ex_shot ex_subsurface ex_save (draw_screen ex_render (frame_init (Surf:=nat)) 7%nat false)
    None true "full.png" = Err IndexError ∧
  save_screenshot ex_shot ex_subsurface ex_save (draw_screen ex_render (frame_init (Surf:=nat)) 7%nat false)
    None false "full.png" = Ok ().
Proof.
  destruct (save_screenshot_errors ex_shot ex_subsurface ex_save
              (draw_screen ex_render (frame_init (Surf:=nat)) 7%nat false) None true "full.png" 7%nat false
              eq_refl eq_refl) as (Hw & _ & _).
  split.
  - apply (Hw 7%nat 7%nat eq_refl eq_refl). split; reflexivity.
  - reflexivity.
Defined.
