(* ===== verification/BootExamples.v ===== *)
(** * Witnesses of the theorems on starting the interface

    A first start where the shift key is seen only after the window
    maps: [safe_mode] ends up set, yet the OpenGL renderer of the
    preferences was picked, not the software one safe mode asks for.
    The scenes of interfaces started with and without the ["transient"]
    layer, and the failed start reported twice. *)

From stdpp Require Import base list strings gmap.
From S2P Require Import Prelude TimeBase Frame Displayable SceneList Interface Renderer InterfaceInit ErrorReport DisplayInit Interact Examples InteractExamples.

Definition ie_late_shift : init_env :=
  mk_init_env [1; 9; 1]%nat true false true 1000 40 ["master"; "overlay"]
    {["overlay" := (0, 0, 800, 600)]} "gl" None false (λ _, true) (λ _, true).

Lemma interface_init_spec_witness :
  ∃ b : booted (W:=unit) (T:=unit) (Surf:=unit),
    interface_init ie_late_shift = Ok b ∧ b_safe_mode b = true ∧ b_draw b = "gl" ∧
    b_profile_time b = 1000 ∧ b_layer_properties b !! "overlay" = Some (clipping_props 0 0 800 600).
Proof.
  destruct (interface_init (W:=unit) (T:=unit) (Surf:=unit) ie_late_shift) as [b|e] eqn:Hrun;
    [|vm_compute in Hrun; discriminate].
  destruct (interface_init_spec (W:=unit) (T:=unit) (Surf:=unit) ie_late_shift)
    as [_ Hok].
  destruct (Hok b Hrun) as (_ & Hprof & _ & Hsafe & Hdraw & _ & _ & _ & _ & _ & _ & _ & _ & _ & Hclip & _).
  exists b. split_and!; [done|by rewrite Hsafe| |done|].
  - vm_compute in Hdraw. injection Hdraw as Hd. by destruct b.
  - apply Hclip; [apply (bool_decide_unpack _); vm_compute; reflexivity|reflexivity].
Defined.

(** A machine where no renderer sets a video mode, and a report
    environment where the parse-error screen exists. *)
Definition ie_no_mode : init_env :=
  mk_init_env [1; 9; 1]%nat false false false 1000 40 ["master"] ∅ "auto" None false
    (λ _, true) (λ _, false).

Definition de_ok : display_env := mk_display_env (Ok ()) (Ok ()) (Ok ()) (Ok ()).

Definition rp_parse : report_env :=
  mk_report_env false (λ _, true) (Ok ()) true (Ok false) (Ok ()) (Ok true).

(** The first report fails to open the display; the second finds the
    half-built interface and shows the parse errors without a renderer. *)
Lemma init_display_half_built_witness :
  let '(gi1, r1) := init_display (W:=unit) (T:=unit) (Surf:=unit) de_ok ie_no_mode GINone in
  let '(gi2, r2) := init_display de_ok ie_no_mode gi1 in
  report_parse_errors (report_after rp_parse r1 gi1) = ReportRaise VideoModeError ∧
  report_parse_errors (report_after rp_parse r2 gi2) =
    ReportScreen "_parse_errors" (mk_actions false true false) ∧
  draw_set gi2 = false.
Proof.
  pose proof (init_display_half_built (W:=unit) (T:=unit) (Surf:=unit) de_ok ie_no_mode rp_parse
                eq_refl (λ _ _, eq_refl)) as H.
  destruct (init_display de_ok ie_no_mode GINone) as [gi1 r1].
  destruct (init_display de_ok ie_no_mode gi1) as [gi2 r2].
  destruct H as (-> & _ & -> & _ & _ & _ & Hp).
  destruct (Hp eq_refl eq_refl) as [H1 H2]. split_and!; [done|by apply H2|done].
Defined.

(** An interface started with the two layers of [cfg_i], the
    ["master"] one clipped. *)
Definition ie_two : init_env :=
  mk_init_env [1; 9; 1]%nat false false false 1000 40 ["master"; "transient"]
    {["master" := (0, 0, 640, 480)]} "gl" None false (λ _, true) (λ _, true).

(** The interface started with [ie_two] builds the ["master"] layer of
    [sl0] clipped; the one started with [ie_late_shift], which has no
    ["transient"] layer, cannot compute the scene of [cfg_i]. *)
Lemma compute_scene_booted_witness :
  ∃ b1 b2 : booted (W:=wt) (T:=nat) (Surf:=unit),
    interface_init ie_two = Ok b1 ∧ interface_init ie_late_shift = Ok b2 ∧
    (∀ scene w, compute_scene (b_layer_properties b1) cfg_i sl0 = Ok scene →
       scene !! Some "master" = Some w →
       make_layer sl0 "master" (clipping_props 0 0 640 480) = Ok w) ∧
    ∀ scene, compute_scene (b_layer_properties b2) cfg_i sl0 ≠ Ok scene.
Proof.
  destruct (interface_init (W:=wt) (T:=nat) (Surf:=unit) ie_two) as [b1|e] eqn:H1;
    [|vm_compute in H1; discriminate].
  destruct (interface_init (W:=wt) (T:=nat) (Surf:=unit) ie_late_shift) as [b2|e] eqn:H2;
    [|vm_compute in H2; discriminate].
  exists b1, b2. split_and!; [done|done| |].
  - intros scene w Hc Hw. apply (proj1 (compute_scene_booted ie_two b1 cfg_i sl0 H1) scene Hc "master" w Hw).
  - apply (proj2 (compute_scene_booted ie_late_shift b2 cfg_i sl0 H2) "transient");
      apply (bool_decide_unpack _); vm_compute; reflexivity.
Defined.
