(* ===== verification/DeviceExamples.v ===== *)
(** * Witnesses of the theorems on the window icon and the timers

    A 48x31 icon on Windows, where [windows_icon] is unset, and a pass of
    an interaction suspended while its redraw (at 300 ms) and its
    timeout (at 1000 ms) were armed. *)

From stdpp Require Import base list strings gmap.
From S2P Require Import Prelude Frame Icon Displayable SceneList Interface EventLoop Suspend Examples.

Definition ex_image_size (name : string) : result (Z * Z) :=
  if decide (name = "icon.png") then Ok (48, 31) else Err IndexError.

Definition ie_win : icon_env := mk_icon_env (Some "icon.png") None true.

(** The 48x31 icon lands 8 pixels down a 48x48 square, 9 above the
    bottom, and is scaled to 32x32. *)
Lemma set_icon_geometry_witness :
  set_icon ex_image_size ie_win =
    Ok [ISquare 48; IBlit 0 8; ISmoothscale 32 32; ISetIcon 32 32] ∧
  ∃ x y calls s, set_icon ex_image_size ie_win = Ok ([ISquare 48; IBlit x y] ++ calls) ∧
    x + 48 ≤ 48 ∧ y + 31 ≤ 48 ∧ y ≤ 48 - 31 - y ≤ y + 1 ∧ s = 32 ∧ last calls = Some (ISetIcon s s).
Proof.
  split; [reflexivity|].
  destruct (proj2 (proj2 (set_icon_geometry ex_image_size ie_win)) "icon.png" 48 31 eq_refl
              ltac:(done) eq_refl ltac:(lia) ltac:(lia))
    as (x & y & calls & s & Hrun & Hx0 & Hx & Hxm & Hy0 & Hy & Hym & _ & Hlast & Hwin & _).
  exists x, y, calls, s. rewrite (Hwin eq_refl) in Hlast |- *. split_and!; try done; lia.
Defined.

(** The pass after the suspend: redraw requested at 300 as before,
    timeout at 1000 as before, now 100. *)
Definition st_suspended := lst (itf (Some 1000) 0 false false) []
  (mk_locals false false false None (Some 1000) (Some 300) None 0 0).

Lemma suspend_leaves_timers_stopped_witness :
  arm_timer_calls (env 100 [] (Some 300) None) st_suspended = [] ∧
  run_calls (mk_timers PERIODIC_INTERVAL 300 1000)
    (android_check_suspend true ++ arm_timer_calls (env 100 [] (Some 300) None) st_suspended) =
    mk_timers PERIODIC_INTERVAL 0 0 ∧
  old_redraw_time (ls_loc (arm_timers (env 100 [] (Some 300) None) st_suspended).1.1.1) = Some 300.
Proof.
  pose proof (suspend_leaves_timers_stopped (env 100 [] (Some 300) None) st_suspended
                (mk_timers PERIODIC_INTERVAL 300 1000) 300 1000 eq_refl eq_refl ltac:(lia) eq_refl
                eq_refl ltac:(lia) eq_refl ltac:(simpl; lia)) as (H1 & H2 & H3 & _).
  split_and!; assumption.
Defined.
